(** * TiddlerKB ontology engine: a shallow embedding of the TypeScript services

    The development embeds four services of [server/src/services]:
    [DomainAnalyzer] (concept and relationship extraction), [ConceptHierarchy]
    (the is-a forest), [OntologyManager] (the in-memory store) and
    [OntologyValidator] (the rule battery), together with the record types of
    [types/ontology.ts].

    Conventions of the embedding:
    - a JS [number] that is a count is a [nat]; any other [number] is an exact
      rational [Q] (IEEE rounding is not modelled);
    - a JS [string] is a [string] of 8-bit characters; character classes,
      [toLowerCase] and [toUpperCase] are the ASCII ones;
    - a JS [Map] is an association list in insertion order ([JsMap]), a JS
      [Set] of strings a duplicate-free list in insertion order;
    - objects held in a [Map] are identified by their key: a mutation of an
      object reached through the map is an update of the map at that key;
    - a method that recurses without a structural argument takes a [fuel]
      bounding its call depth and returns [None] when the bound is hit. *)

From Stdlib Require Import String Ascii List Bool Arith ZArith QArith Qminmax.
From Stdlib Require Import Lia Lqa Permutation Relations DecimalString Qround.
From Stdlib Require Import Sorted.
Import ListNotations.

Close Scope Q_scope.
Local Open Scope nat_scope.
Local Open Scope list_scope.
Local Open Scope string_scope.

(** ** JavaScript strings *)

Module Js.

Definition code (c : ascii) : nat := nat_of_ascii c.

Definition between (lo hi : nat) (c : ascii) : bool :=
  (lo <=? code c)%nat && (code c <=? hi)%nat.

Definition isUpper : ascii -> bool := between 65 90.
Definition isLower : ascii -> bool := between 97 122.
Definition isDigit : ascii -> bool := between 48 57.
Definition isAlpha (c : ascii) : bool := isUpper c || isLower c.

(** [\w] and [\s] of a JS regular expression, on ASCII. *)
Definition isWord (c : ascii) : bool :=
  isAlpha c || isDigit c || (code c =? 95)%nat.
Definition isSpace (c : ascii) : bool :=
  between 9 13 c || (code c =? 32)%nat.

Definition lowerChar (c : ascii) : ascii :=
  if isUpper c then ascii_of_nat (code c + 32) else c.
Definition upperChar (c : ascii) : ascii :=
  if isLower c then ascii_of_nat (code c - 32) else c.

Fixpoint mapChars (f : ascii -> ascii) (s : string) : string :=
  match s with
  | EmptyString => EmptyString
  | String c s' => String (f c) (mapChars f s')
  end.

Fixpoint filterChars (p : ascii -> bool) (s : string) : string :=
  match s with
  | EmptyString => EmptyString
  | String c s' => if p c then String c (filterChars p s') else filterChars p s'
  end.

Definition toLowerCase : string -> string := mapChars lowerChar.
Definition toUpperCase : string -> string := mapChars upperChar.

(** [s.replace(/[cls]/g, by)] for a one-character class. *)
Definition replaceClass (cls : ascii -> bool) (by_ : ascii) : string -> string :=
  mapChars (fun c => if cls c then by_ else c).

(** [s.replace(/[cls]/g, '')]. *)
Definition removeClass (cls : ascii -> bool) : string -> string :=
  filterChars (fun c => negb (cls c)).

Fixpoint dropWhile (p : ascii -> bool) (s : string) : string :=
  match s with
  | EmptyString => EmptyString
  | String c s' => if p c then dropWhile p s' else s
  end.

Fixpoint revString (s : string) : string :=
  match s with
  | EmptyString => EmptyString
  | String c s' => revString s' ++ String c EmptyString
  end.

Definition trim (s : string) : string :=
  revString (dropWhile isSpace (revString (dropWhile isSpace s))).

(** [s.split(/[sep]+/)]: a maximal run of separators ends the current piece;
    a leading or trailing run leaves an empty first or last piece, and the
    empty string splits into one empty piece. *)
Fixpoint splitRuns (sep : ascii -> bool) (s : string) (cur : string)
  (inRun : bool) : list string :=
  match s with
  | EmptyString => [cur]
  | String c s' =>
      if sep c
      then if inRun then splitRuns sep s' cur true
           else cur :: splitRuns sep s' EmptyString true
      else splitRuns sep s' (cur ++ String c EmptyString) false
  end.

Definition splitOn (sep : ascii -> bool) (s : string) : list string :=
  splitRuns sep s EmptyString false.

Fixpoint includes (s sub : string) : bool :=
  if String.prefix sub s then true
  else match s with
       | EmptyString => false
       | String _ s' => includes s' sub
       end.

(** [s.indexOf(sub)], [-1] when [sub] does not occur. *)
Fixpoint indexFrom (i : Z) (s sub : string) : Z :=
  if String.prefix sub s then i
  else match s with
       | EmptyString => (-1)%Z
       | String _ s' => indexFrom (i + 1) s' sub
       end.

Definition indexOf (s sub : string) : Z := indexFrom 0 s sub.

Definition endsWith (s suffix : string) : bool :=
  String.prefix (revString suffix) (revString s).

Definition join (sep : string) (l : list string) : string :=
  String.concat sep l.

Definition firstChar (s : string) : option ascii :=
  match s with
  | EmptyString => None
  | String c _ => Some c
  end.

Definition dquote : string := String (ascii_of_nat 34) EmptyString.

End Js.

(** ** Regular expressions

    The source's regular expressions use literals, one-character classes,
    alternation, an optional group, [*] and [+] over a class, [\b], [^] and
    [$].  [matchRe] is a backtracking matcher in continuation-passing style:
    [prev] is the character before the current position (needed by [\b]) and
    [k] is what remains to be matched.  [test] is [RegExp.prototype.test]. *)

Module Regex.

Inductive regex : Type :=
| Lit (s : string)
| Cls (p : ascii -> bool)
| Seq (r1 r2 : regex)
| Alt (r1 r2 : regex)
| Opt (r : regex)
| Star (p : ascii -> bool)
| Plus (p : ascii -> bool)
| WordBoundary
| Bol
| Eol.

Definition isWordAt (c : option ascii) : bool :=
  match c with
  | Some a => Js.isWord a
  | None => false
  end.

Fixpoint stripLit (lit s : string) (prev : option ascii)
  : option (option ascii * string) :=
  match lit with
  | EmptyString => Some (prev, s)
  | String a lit' =>
      match s with
      | EmptyString => None
      | String c s' => if Ascii.eqb a c then stripLit lit' s' (Some c) else None
      end
  end.

Fixpoint starClass (p : ascii -> bool) (prev : option ascii) (s : string)
  (k : option ascii -> string -> bool) : bool :=
  match s with
  | EmptyString => k prev s
  | String c s' =>
      if p c then starClass p (Some c) s' k || k prev s else k prev s
  end.

Fixpoint matchRe (r : regex) (prev : option ascii) (s : string)
  (k : option ascii -> string -> bool) : bool :=
  match r with
  | Lit l =>
      match stripLit l s prev with
      | Some (prev', s') => k prev' s'
      | None => false
      end
  | Cls p =>
      match s with
      | EmptyString => false
      | String c s' => p c && k (Some c) s'
      end
  | Seq r1 r2 => matchRe r1 prev s (fun prev' s' => matchRe r2 prev' s' k)
  | Alt r1 r2 => matchRe r1 prev s k || matchRe r2 prev s k
  | Opt r1 => matchRe r1 prev s k || k prev s
  | Star p => starClass p prev s k
  | Plus p =>
      match s with
      | EmptyString => false
      | String c s' => p c && starClass p (Some c) s' k
      end
  | WordBoundary =>
      xorb (isWordAt prev) (isWordAt (Js.firstChar s)) && k prev s
  | Bol => match prev with None => k prev s | Some _ => false end
  | Eol => match s with EmptyString => k prev s | String _ _ => false end
  end.

Fixpoint searchRe (r : regex) (prev : option ascii) (s : string) : bool :=
  matchRe r prev s (fun _ _ => true)
  || match s with
     | EmptyString => false
     | String c s' => searchRe r (Some c) s'
     end.

Definition test (r : regex) (s : string) : bool := searchRe r None s.

(** [(a|b|...)] over literal alternatives. *)
Fixpoint oneOf (alts : list string) : regex :=
  match alts with
  | [] => Cls (fun _ => false)
  | [a] => Lit a
  | a :: rest => Alt (Lit a) (oneOf rest)
  end.

Fixpoint seqs (rs : list regex) : regex :=
  match rs with
  | [] => Lit EmptyString
  | [r] => r
  | r :: rest => Seq r (seqs rest)
  end.

End Regex.

(** ** JS [Map], [Set] and [Array.prototype.sort] *)

Module JsMap.

Definition t (V : Type) : Type := list (string * V).

Section Ops.
Context {V : Type}.

Definition empty : t V := [].

Fixpoint get (k : string) (m : t V) : option V :=
  match m with
  | [] => None
  | (k', v) :: m' => if String.eqb k k' then Some v else get k m'
  end.

Definition has (k : string) (m : t V) : bool :=
  match get k m with
  | Some _ => true
  | None => false
  end.

(** [m.set(k, v)]: an existing key keeps its place, a new key goes last. *)
Fixpoint set (k : string) (v : V) (m : t V) : t V :=
  match m with
  | [] => [(k, v)]
  | (k', v') :: m' =>
      if String.eqb k k' then (k, v) :: m' else (k', v') :: set k v m'
  end.

(** [m.delete(k)]: no binding of [k] is left. *)
Fixpoint delete (k : string) (m : t V) : t V :=
  match m with
  | [] => []
  | (k', v') :: m' =>
      if String.eqb k k' then delete k m' else (k', v') :: delete k m'
  end.

Definition keys (m : t V) : list string := map fst m.
Definition values (m : t V) : list V := map snd m.
Definition size (m : t V) : nat := length m.

(** [new Map(entries)]. *)
Definition ofEntries (entries : list (string * V)) : t V :=
  fold_left (fun m kv => set (fst kv) (snd kv) m) entries empty.

End Ops.

End JsMap.

Module JsSet.

Definition t : Type := list string.

Definition empty : t := [].
Definition has (x : string) (s : t) : bool := existsb (String.eqb x) s.
Definition add (x : string) (s : t) : t := if has x s then s else (s ++ [x])%list.
Definition delete (x : string) (s : t) : t :=
  filter (fun y => negb (String.eqb x y)) s.
Definition ofList (l : list string) : t := fold_left (fun s x => add x s) l empty.

End JsSet.

(** [Array.prototype.sort] is stable.  [before x y] says that the comparator
    puts [x] strictly before [y]; elements that compare equal keep their
    order. *)
Section StableSort.
Context {A : Type} (before : A -> A -> bool).

Fixpoint insertSorted (x : A) (l : list A) : list A :=
  match l with
  | [] => [x]
  | y :: l' => if before y x then y :: insertSorted x l' else x :: l
  end.

Definition stableSort (l : list A) : list A := fold_right insertSorted [] l.

End StableSort.

(** ** Numbers and array helpers *)

Module Num.

(** A count seen as a JS number. *)
Definition ofNat (n : nat) : Q := inject_Z (Z.of_nat n).

Definition ltb (a b : Q) : bool :=
  match Qcompare a b with
  | Lt => true
  | _ => false
  end.
Definition gtb (a b : Q) : bool := ltb b a.

(** [Math.max] and [Math.min] on two finite numbers. *)
Definition max (a b : Q) : Q := Qmax a b.
Definition min (a b : Q) : Q := Qmin a b.

(** The result of a division whose divisor is computed: a JS division by
    zero does not throw, it yields [Infinity], [-Infinity] or [NaN]. *)
Inductive number : Type :=
| Finite (q : Q)
| PosInfinity
| NegInfinity
| NaN.

Definition div (a b : Q) : number :=
  if Qeq_bool b 0
  then if ltb 0 a then PosInfinity else if ltb a 0 then NegInfinity else NaN
  else Finite (a / b)%Q.

(** [Math.min(x, b)], [Math.max(a, x)] and [a - x] for a finite [a], [b]. *)
Definition minWith (x : number) (b : Q) : number :=
  match x with
  | Finite q => Finite (min q b)
  | PosInfinity => Finite b
  | NegInfinity => NegInfinity
  | NaN => NaN
  end.

Definition maxWith (a : Q) (x : number) : number :=
  match x with
  | Finite q => Finite (max a q)
  | PosInfinity => PosInfinity
  | NegInfinity => Finite a
  | NaN => NaN
  end.

Definition subFrom (a : Q) (x : number) : number :=
  match x with
  | Finite q => Finite (a - q)%Q
  | PosInfinity => NegInfinity
  | NegInfinity => PosInfinity
  | NaN => NaN
  end.

(** [String(n)] for a count. *)
Definition natToString (n : nat) : string :=
  NilEmpty.string_of_uint (Nat.to_uint n).

(** [q.toFixed(1)] for a non-negative [q], rounding half up. *)
Definition toFixed1 (q : Q) : string :=
  let tenths := Z.to_nat (Qfloor (q * 10 + (1 # 2))%Q) in
  natToString (tenths / 10) ++ "." ++ natToString (tenths mod 10).

End Num.

Module Arr.

Definition includes (l : list string) (x : string) : bool :=
  existsb (String.eqb x) l.

(** [l.indexOf(x)], [-1] when absent. *)
Fixpoint indexFrom (i : Z) (l : list string) (x : string) : Z :=
  match l with
  | [] => (-1)%Z
  | y :: l' => if String.eqb x y then i else indexFrom (i + 1) l' x
  end.
Definition indexOf (l : list string) (x : string) : Z := indexFrom 0 l x.

(** [l.slice(start)]: a negative [start] counts from the end. *)
Definition sliceFrom {A : Type} (start : Z) (l : list A) : list A :=
  if (start <? 0)%Z
  then skipn (Z.to_nat (Z.max (Z.of_nat (length l) + start) 0)) l
  else skipn (Z.to_nat start) l.

(** [l.slice(0, n)] *)
Definition take {A : Type} (n : nat) (l : list A) : list A := firstn n l.

(** [[...new Set(l)]] *)
Definition unique (l : list string) : list string := JsSet.ofList l.

(** The pairs [(l[i], l[j])] with [i < j], in the order in which two nested
    loops [for i] and [for j = i + 1] visit them. *)
Fixpoint pairsOf {A : Type} (l : list A) : list (A * A) :=
  match l with
  | [] => []
  | x :: rest => (map (fun y => (x, y)) rest ++ pairsOf rest)%list
  end.

End Arr.

(** ** [types/tiddler.ts] and [types/ontology.ts] *)

Module Tiddler.
Record t : Type := { title : string; text : string; tags : option (list string) }.
End Tiddler.

(** ['manual' | 'inferred' | 'extracted'] *)
Inductive Provenance : Type := manual | inferred | extracted.

(** ['critical' | 'major' | 'minor'] *)
Inductive Severity : Type := critical | major | minor.

Definition Severity_eqb (a b : Severity) : bool :=
  match a, b with
  | critical, critical | major, major | minor, minor => true
  | _, _ => false
  end.

Module OntologyConstraint.
Inductive kind : Type := restriction | cardinality | value | logical.
Inductive level : Type := error | warning | info.
Record t : Type :=
  { id : string; type : kind; expression : string; description : string;
    severity : level }.
End OntologyConstraint.

Module PropertyConstraint.
Inductive kind : Type := range | pattern | length | unique.
Record t : Type := { type : kind; value : string; message : string }.
End PropertyConstraint.

Module Cardinality.
(** [max = None] is ['unbounded']. *)
Record t : Type := { min : Z; max : option Z }.
End Cardinality.

Module OntologyProperty.
Inductive kind : Type := datatype | object | annotation.
Record t : Type :=
  { id : string; name : string; description : option string;
    domain : list string; range : list string; type : kind;
    cardinality : Cardinality.t; constraints : list PropertyConstraint.t }.
End OntologyProperty.

Module ClassMetadata.
Record t : Type :=
  { created : string; modified : string; confidence : Q; source : Provenance }.
End ClassMetadata.

Module OntologyClass.
Record t : Type :=
  { id : string; name : string; description : option string;
    superClasses : list string; subClasses : list string;
    properties : list OntologyProperty.t;
    constraints : list OntologyConstraint.t;
    instances : list string; metadata : ClassMetadata.t }.

Definition withSubClasses (subs : list string) (c : t) : t :=
  {| id := id c; name := name c; description := description c;
     superClasses := superClasses c; subClasses := subs;
     properties := properties c; constraints := constraints c;
     instances := instances c; metadata := metadata c |}.

Definition withSuperClasses (sups : list string) (c : t) : t :=
  {| id := id c; name := name c; description := description c;
     superClasses := sups; subClasses := subClasses c;
     properties := properties c; constraints := constraints c;
     instances := instances c; metadata := metadata c |}.
End OntologyClass.

Module RelationshipMetadata.
Record t : Type := { created : string; source : Provenance }.
End RelationshipMetadata.

Module OntologyRelationship.
(** [properties] is a [Record<string, any>]: its keys, with the values as text. *)
Record t : Type :=
  { id : string; type : string; source : string; target : string;
    properties : list (string * string); confidence : Q;
    bidirectional : bool; metadata : RelationshipMetadata.t }.
End OntologyRelationship.

Module Domain.
Record t : Type :=
  { id : string; name : string; description : string; scope : list string;
    classes : list string; properties : list string;
    relationships : list string; coverage : Q; coherence : Q }.
End Domain.

Module ValidationError.
Inductive kind : Type :=
  circular_dependency | missing_superclass | constraint_violation
| logical_inconsistency.
Record t : Type :=
  { type : kind; severity : Severity; message : string;
    affectedElements : list string; suggestedFix : option string }.
End ValidationError.

Module ValidationWarning.
Inductive kind : Type :=
  ambiguous_naming | low_coverage | redundant_relationship | orphaned_class.
Record t : Type :=
  { type : kind; message : string; affectedElements : list string;
    recommendation : string }.
End ValidationWarning.

Module ValidationSuggestion.
Inductive kind : Type :=
  merge_classes | add_relationship | refine_hierarchy | add_constraint.
Inductive impactLevel : Type := high | medium | low.
Record t : Type :=
  { type : kind; confidence : Q; description : string; impact : impactLevel;
    implementation : string }.
End ValidationSuggestion.


Module Metrics.
Record t : Type :=
  { consistency : Num.number; completeness : Num.number;
    clarity : Num.number; coverage : Num.number }.
End Metrics.

Module OntologyValidationResult.
Record t : Type :=
  { valid : bool; errors : list ValidationError.t;
    warnings : list ValidationWarning.t;
    suggestions : list ValidationSuggestion.t; metrics : Metrics.t }.
End OntologyValidationResult.

(** ['entity' | 'process' | 'quality' | 'abstract'] *)
Inductive ConceptType : Type := entity | process | quality | abstract.

Definition ConceptType_eqb (a b : ConceptType) : bool :=
  match a, b with
  | entity, entity | process, process | quality, quality
  | abstract, abstract => true
  | _, _ => false
  end.

Definition conceptTypeName (ty : ConceptType) : string :=
  match ty with
  | entity => "entity"
  | process => "process"
  | quality => "quality"
  | abstract => "abstract"
  end.

Module ExtractedConcept.
Record t : Type :=
  { name : string; type : ConceptType; frequency : nat;
    contexts : list string; suggestedClass : option string; confidence : Q }.
End ExtractedConcept.

Module ExtractedRelationship.
Record t : Type :=
  { source : string; target : string; type : string; strength : Q;
    evidence : list string; confidence : Q }.
End ExtractedRelationship.

(** [ExtractedDomain] and [ConceptExtractionResult], with the fields that
    [identifyDomains] and [analyzeDomain] fill in. *)
Module ExtractedDomain.
Record t : Type :=
  { name : string; concepts : list string; scope : string; coherence : Q }.
End ExtractedDomain.

Module ConceptExtractionResult.
Record t : Type :=
  { concepts : list ExtractedConcept.t;
    relationships : list ExtractedRelationship.t;
    domains : list ExtractedDomain.t;
    confidence : Q }.
End ConceptExtractionResult.

(** ** [services/OntologyManager.ts] *)

Module OntologyManager.

Record Store : Type :=
  { classes : JsMap.t OntologyClass.t;
    properties : JsMap.t OntologyProperty.t;
    relationships : JsMap.t OntologyRelationship.t;
    domains : JsMap.t Domain.t }.

Definition empty : Store :=
  {| classes := JsMap.empty; properties := JsMap.empty;
     relationships := JsMap.empty; domains := JsMap.empty |}.

Definition withClasses (m : JsMap.t OntologyClass.t) (s : Store) : Store :=
  {| classes := m; properties := properties s;
     relationships := relationships s; domains := domains s |}.

Definition withProperties (m : JsMap.t OntologyProperty.t) (s : Store) : Store :=
  {| classes := classes s; properties := m;
     relationships := relationships s; domains := domains s |}.

Definition withRelationships (m : JsMap.t OntologyRelationship.t) (s : Store)
  : Store :=
  {| classes := classes s; properties := properties s;
     relationships := m; domains := domains s |}.

Definition withDomains (m : JsMap.t Domain.t) (s : Store) : Store :=
  {| classes := classes s; properties := properties s;
     relationships := relationships s; domains := m |}.

Definition getClass (id : string) (s : Store) : option OntologyClass.t :=
  JsMap.get id (classes s).

Definition getAllClasses (s : Store) : list OntologyClass.t :=
  JsMap.values (classes s).

Definition getProperty (id : string) (s : Store) : option OntologyProperty.t :=
  JsMap.get id (properties s).

Definition getAllProperties (s : Store) : list OntologyProperty.t :=
  JsMap.values (properties s).

Definition getRelationship (id : string) (s : Store)
  : option OntologyRelationship.t :=
  JsMap.get id (relationships s).

Definition getDomain (id : string) (s : Store) : option Domain.t :=
  JsMap.get id (domains s).

(** One turn of the loop of [updateClassHierarchy]: the super-class, when it
    is in the store and does not list the class yet, gets it pushed onto its
    [subClasses]. *)
Definition linkSubClass (classId : string) (s : Store) (superClassId : string)
  : Store :=
  match getClass superClassId s with
  | Some superClass =>
      if negb (Arr.includes (OntologyClass.subClasses superClass) classId)
      then withClasses
             (JsMap.set superClassId
                (OntologyClass.withSubClasses
                   (OntologyClass.subClasses superClass ++ [classId])%list superClass)
                (classes s)) s
      else s
  | None => s
  end.

Definition updateClassHierarchy (ontologyClass : OntologyClass.t) (s : Store)
  : Store :=
  fold_left (linkSubClass (OntologyClass.id ontologyClass))
    (OntologyClass.superClasses ontologyClass) s.

Definition addClass (ontologyClass : OntologyClass.t) (s : Store) : Store :=
  updateClassHierarchy ontologyClass
    (withClasses
       (JsMap.set (OntologyClass.id ontologyClass) ontologyClass (classes s)) s).

Definition isNot (id : string) (other : string) : bool :=
  negb (String.eqb other id).

Definition unlinkSubClass (classId : string) (s : Store) (superClassId : string)
  : Store :=
  match getClass superClassId s with
  | Some superClass =>
      withClasses
        (JsMap.set superClassId
           (OntologyClass.withSubClasses
              (filter (isNot classId) (OntologyClass.subClasses superClass))
              superClass)
           (classes s)) s
  | None => s
  end.

Definition unlinkSuperClass (classId : string) (s : Store) (subClassId : string)
  : Store :=
  match getClass subClassId s with
  | Some subClass =>
      withClasses
        (JsMap.set subClassId
           (OntologyClass.withSuperClasses
              (filter (isNot classId) (OntologyClass.superClasses subClass))
              subClass)
           (classes s)) s
  | None => s
  end.

(** [removeFromHierarchy(cls)], where [cls] is the object stored under [key].
    The second loop reads [cls.subClasses] after the first loop has run: the
    first loop reassigns it when [cls] lists itself as a super-class. *)
Definition removeFromHierarchy (key : string) (cls : OntologyClass.t)
  (s : Store) : Store :=
  let s1 :=
    fold_left (unlinkSubClass (OntologyClass.id cls))
      (OntologyClass.superClasses cls) s in
  let subs :=
    match getClass key s1 with
    | Some cls' => OntologyClass.subClasses cls'
    | None => OntologyClass.subClasses cls
    end in
  fold_left (unlinkSuperClass (OntologyClass.id cls)) subs s1.

Definition touches (classId : string) (rel : OntologyRelationship.t) : bool :=
  String.eqb (OntologyRelationship.source rel) classId
  || String.eqb (OntologyRelationship.target rel) classId.

Definition removeClassRelationships (classId : string) (s : Store) : Store :=
  let toRemove :=
    map fst (filter (fun kv => touches classId (snd kv)) (relationships s)) in
  withRelationships
    (fold_left (fun m id => JsMap.delete id m) toRemove (relationships s)) s.

Definition deleteClass (id : string) (s : Store) : bool * Store :=
  match getClass id s with
  | None => (false, s)
  | Some cls =>
      let s1 := removeFromHierarchy id cls s in
      let s2 := removeClassRelationships id s1 in
      (true, withClasses (JsMap.delete id (classes s2)) s2)
  end.

Definition addProperty (property : OntologyProperty.t) (s : Store) : Store :=
  withProperties
    (JsMap.set (OntologyProperty.id property) property (properties s)) s.

Definition reverseIdOf (relationship : OntologyRelationship.t) : string :=
  OntologyRelationship.target relationship ++ "-"
  ++ OntologyRelationship.type relationship ++ "-"
  ++ OntologyRelationship.source relationship.

(** [{...relationship, id: reverseId, source: target, target: source}] *)
Definition reverseOf (relationship : OntologyRelationship.t)
  : OntologyRelationship.t :=
  {| OntologyRelationship.id := reverseIdOf relationship;
     OntologyRelationship.type := OntologyRelationship.type relationship;
     OntologyRelationship.source := OntologyRelationship.target relationship;
     OntologyRelationship.target := OntologyRelationship.source relationship;
     OntologyRelationship.properties :=
       OntologyRelationship.properties relationship;
     OntologyRelationship.confidence :=
       OntologyRelationship.confidence relationship;
     OntologyRelationship.bidirectional :=
       OntologyRelationship.bidirectional relationship;
     OntologyRelationship.metadata :=
       OntologyRelationship.metadata relationship |}.

Definition createBidirectionalRelationship
  (relationship : OntologyRelationship.t) (s : Store) : Store :=
  let reverseId := reverseIdOf relationship in
  if negb (JsMap.has reverseId (relationships s))
  then withRelationships
         (JsMap.set reverseId (reverseOf relationship) (relationships s)) s
  else s.

Definition addRelationship (relationship : OntologyRelationship.t) (s : Store)
  : Store :=
  let s1 :=
    withRelationships
      (JsMap.set (OntologyRelationship.id relationship) relationship
         (relationships s)) s in
  if OntologyRelationship.bidirectional relationship
  then createBidirectionalRelationship relationship s1
  else s1.

Definition getRelationshipsForClass (classId : string) (s : Store)
  : list OntologyRelationship.t :=
  filter (touches classId) (JsMap.values (relationships s)).

Definition addDomain (domain : Domain.t) (s : Store) : Store :=
  withDomains (JsMap.set (Domain.id domain) domain (domains s)) s.

(** *** Validation of the store *)

(** [detectCycleInHierarchy]: [visited] and [stack] are the two sets shared
    by all calls (threaded through and returned), [path] is copied at every
    call.  A return from inside the loop leaves [classId] on [stack], as the
    source does. *)
Fixpoint detectCycleInHierarchy (fuel : nat) (s : Store) (classId : string)
  (visited stack : JsSet.t) (path : list string)
  : list string * (JsSet.t * JsSet.t) :=
  match fuel with
  | O => ([], (visited, stack))
  | S fuel' =>
      let visited := JsSet.add classId visited in
      let stack := JsSet.add classId stack in
      let path := (path ++ [classId])%list in
      match getClass classId s with
      | None => ([], (visited, stack))
      | Some cls =>
          (fix loop (supers : list string) (visited stack : JsSet.t)
             : list string * (JsSet.t * JsSet.t) :=
             match supers with
             | [] => ([], (visited, JsSet.delete classId stack))
             | superClassId :: rest =>
                 if negb (JsSet.has superClassId visited)
                 then
                   let r :=
                     detectCycleInHierarchy fuel' s superClassId visited stack
                       path in
                   if (0 <? length (fst r))%nat then r
                   else loop rest (fst (snd r)) (snd (snd r))
                 else if JsSet.has superClassId stack
                 then
                   ((Arr.sliceFrom (Arr.indexOf path superClassId) path
                      ++ [superClassId])%list, (visited, stack))
                 else loop rest visited stack
             end) (OntologyClass.superClasses cls) visited stack
      end
  end.

(** Every call of [detectCycleInHierarchy] marks an identifier that was not
    marked before, and the identifiers are class identifiers or super-class
    references: the call depth never exceeds their number. *)
Definition cycleFuel (s : Store) : nat :=
  S (fold_right
       (fun c n => S (length (OntologyClass.superClasses c) + n)) 0
       (JsMap.values (classes s))).

Definition circularDependencyError (cycle : list string) : ValidationError.t :=
  {| ValidationError.type := ValidationError.circular_dependency;
     ValidationError.severity := critical;
     ValidationError.message :=
       "Circular dependency detected in class hierarchy: "
       ++ Js.join " -> " cycle;
     ValidationError.affectedElements := cycle;
     ValidationError.suggestedFix :=
       Some ("Remove inheritance relationship between "
             ++ last cycle "" ++ " and " ++ hd "" cycle) |}.

Definition detectCircularDependencies (s : Store) : list ValidationError.t :=
  fst
    (fold_left
       (fun acc cls =>
          let '(errors, (visited, recursionStack)) := acc in
          if negb (JsSet.has (OntologyClass.id cls) visited)
          then
            let r :=
              detectCycleInHierarchy (cycleFuel s) s (OntologyClass.id cls)
                visited recursionStack [] in
            if (0 <? length (fst r))%nat
            then ((errors ++ [circularDependencyError (fst r)])%list, snd r)
            else (errors, snd r)
          else acc)
       (JsMap.values (classes s)) ([], (JsSet.empty, JsSet.empty))).

Definition orphanedClassWarning (cls : OntologyClass.t) : ValidationWarning.t :=
  {| ValidationWarning.type := ValidationWarning.orphaned_class;
     ValidationWarning.message :=
       "Class " ++ Js.dquote ++ OntologyClass.name cls ++ Js.dquote
       ++ " has no instances, subclasses, or relationships";
     ValidationWarning.affectedElements := [OntologyClass.id cls];
     ValidationWarning.recommendation :=
       "Consider adding instances or connecting to other classes" |}.

Definition detectOrphanedClasses (s : Store) : list ValidationWarning.t :=
  flat_map
    (fun cls =>
       if (length (OntologyClass.instances cls) =? 0)%nat
          && (length (OntologyClass.subClasses cls) =? 0)%nat
       then
         let hasRelationships :=
           (0 <? length (getRelationshipsForClass (OntologyClass.id cls) s))%nat
         in
         if negb hasRelationships then [orphanedClassWarning cls] else []
       else [])
    (JsMap.values (classes s)).

Definition extractKeywords (text : string) : list string :=
  Arr.take 10
    (filter (fun word => (3 <? String.length word)%nat)
       (Js.splitOn Js.isSpace
          (Js.removeClass (fun c => negb (Js.isWord c || Js.isSpace c))
             (Js.toLowerCase text)))).

Definition descriptionOrEmpty (c : OntologyClass.t) : string :=
  match OntologyClass.description c with
  | Some d => d
  | None => ""
  end.

(** [intersection.length / union.length]; when both keyword lists are empty
    the source computes [0/0 = NaN], which fails the [> 0.5] test of the only
    caller just as the [0] of [Qdiv] does. *)
Definition calculateSemanticSimilarity (cls1 cls2 : OntologyClass.t) : Q :=
  let words1 :=
    extractKeywords (OntologyClass.name cls1 ++ " " ++ descriptionOrEmpty cls1)
  in
  let words2 :=
    extractKeywords (OntologyClass.name cls2 ++ " " ++ descriptionOrEmpty cls2)
  in
  let intersection := filter (Arr.includes words2) words1 in
  let union := Arr.unique (words1 ++ words2)%list in
  (Num.ofNat (length intersection) / Num.ofNat (length union))%Q.

Record Related : Type :=
  { relatedId : string; relatedName : string; relatedConfidence : Q }.

Definition findPotentiallyRelatedClasses (s : Store) (cls : OntologyClass.t)
  : list Related :=
  Arr.take 3
    (stableSort
       (fun a b => Num.gtb (relatedConfidence a) (relatedConfidence b))
       (filter (fun result => Num.gtb (relatedConfidence result) (5 # 10))
          (map
             (fun other =>
                {| relatedId := OntologyClass.id other;
                   relatedName := OntologyClass.name other;
                   relatedConfidence := calculateSemanticSimilarity cls other |})
             (filter
                (fun other =>
                   negb (String.eqb (OntologyClass.id other)
                           (OntologyClass.id cls)))
                (JsMap.values (classes s)))))).

Definition connects (a b : string) (rel : OntologyRelationship.t) : bool :=
  (String.eqb (OntologyRelationship.source rel) a
   && String.eqb (OntologyRelationship.target rel) b)
  || (String.eqb (OntologyRelationship.source rel) b
      && String.eqb (OntologyRelationship.target rel) a).

Definition relationshipSuggestion (cls : OntologyClass.t) (related : Related)
  : ValidationSuggestion.t :=
  {| ValidationSuggestion.type := ValidationSuggestion.add_relationship;
     ValidationSuggestion.confidence := relatedConfidence related;
     ValidationSuggestion.description :=
       "Consider adding relationship between " ++ Js.dquote
       ++ OntologyClass.name cls ++ Js.dquote ++ " and " ++ Js.dquote
       ++ relatedName related ++ Js.dquote;
     ValidationSuggestion.impact :=
       if Num.gtb (relatedConfidence related) (7 # 10)
       then ValidationSuggestion.high else ValidationSuggestion.medium;
     ValidationSuggestion.implementation :=
       "Add semantic relationship based on content analysis" |}.

Definition suggestMissingRelationships (s : Store)
  : list ValidationSuggestion.t :=
  flat_map
    (fun cls =>
       flat_map
         (fun related =>
            match
              find (connects (OntologyClass.id cls) (relatedId related))
                (JsMap.values (relationships s))
            with
            | Some _ => []
            | None => [relationshipSuggestion cls related]
            end)
         (findPotentiallyRelatedClasses s cls))
    (JsMap.values (classes s)).

Definition hasDescription (cls : OntologyClass.t) : bool :=
  match OntologyClass.description cls with
  | Some d => (0 <? String.length d)%nat
  | None => false
  end.

Definition calculateClarityScore (s : Store) : Num.number :=
  let classesWithDescriptions :=
    length (filter hasDescription (JsMap.values (classes s))) in
  Num.div (Num.ofNat classesWithDescriptions)
    (Num.max (Num.ofNat (JsMap.size (classes s))) 1).

Definition calculateCoverageScore (s : Store) : Num.number :=
  Num.Finite (8 # 10).

(** [calculateConsistencyScore] calls [this.validateOntology()]; the callee
    is the parameter [validate], which [validateOntology] instantiates with
    itself.  [None] is a call that did not return. *)
Definition calculateConsistencyScore
  (validate : Store -> option OntologyValidationResult.t) (s : Store)
  : option Num.number :=
  match validate s with
  | None => None
  | Some validation =>
      let errorWeight := (7 # 10)%Q in
      let warningWeight := (3 # 10)%Q in
      let errorPenalty :=
        (Num.ofNat (length (OntologyValidationResult.errors validation))
         * errorWeight)%Q in
      let warningPenalty :=
        (Num.ofNat (length (OntologyValidationResult.warnings validation))
         * warningWeight)%Q in
      let totalPenalty := (errorPenalty + warningPenalty)%Q in
      Some (Num.maxWith 0
              (Num.subFrom 1
                 (Num.div totalPenalty
                    (Num.max (Num.ofNat (JsMap.size (classes s))) 1))))
  end.

Definition calculateOntologyMetrics
  (validate : Store -> option OntologyValidationResult.t) (s : Store)
  : option Metrics.t :=
  let totalClasses := JsMap.size (classes s) in
  let classesWithInstances :=
    length
      (filter (fun cls => (0 <? length (OntologyClass.instances cls))%nat)
         (JsMap.values (classes s))) in
  match calculateConsistencyScore validate s with
  | None => None
  | Some consistency =>
      let completeness :=
        Num.div (Num.ofNat classesWithInstances)
          (Num.max (Num.ofNat totalClasses) 1) in
      let clarity := calculateClarityScore s in
      let coverage := calculateCoverageScore s in
      Some {| Metrics.consistency := consistency;
              Metrics.completeness := completeness;
              Metrics.clarity := clarity;
              Metrics.coverage := coverage |}
  end.

(** [validateOntology()]: [fuel] bounds the depth of the calls of
    [validateOntology] that are open at the same time. *)
Fixpoint validateOntology (fuel : nat) (s : Store)
  : option OntologyValidationResult.t :=
  match fuel with
  | O => None
  | S fuel' =>
      let errors := detectCircularDependencies s in
      let warnings := detectOrphanedClasses s in
      let suggestions := suggestMissingRelationships s in
      match calculateOntologyMetrics (validateOntology fuel') s with
      | None => None
      | Some metrics =>
          Some {| OntologyValidationResult.valid := (length errors =? 0)%nat;
                  OntologyValidationResult.errors := errors;
                  OntologyValidationResult.warnings := warnings;
                  OntologyValidationResult.suggestions := suggestions;
                  OntologyValidationResult.metrics := metrics |}
      end
  end.

(** *** The class hierarchy as a tree *)

Definition getAllDomains (s : Store) : list Domain.t :=
  JsMap.values (domains s).

Definition findRootClasses (s : Store) : list OntologyClass.t :=
  filter (fun cls => (length (OntologyClass.superClasses cls) =? 0)%nat)
    (JsMap.values (classes s)).

(** The object that [buildHierarchyTree] returns for one class. *)
#[local] Set Warnings "-register-all".
Inductive HierarchyTree : Type :=
| TreeNode (id name : string) (description : option string) (instances : nat)
    (children : list HierarchyTree).
#[local] Set Warnings "register-all".

(** [buildHierarchyTree(cls)]: the sub-classes that are not in the store
    give [null] and are filtered out; [None] is a recursion that does not
    end. *)
Fixpoint buildHierarchyTree (fuel : nat) (s : Store) (cls : OntologyClass.t)
  : option HierarchyTree :=
  match fuel with
  | O => None
  | S fuel' =>
      match
        fold_left
          (fun acc subId =>
             match acc with
             | Some children =>
                 match getClass subId s with
                 | Some subClass =>
                     match buildHierarchyTree fuel' s subClass with
                     | Some tree => Some (children ++ [tree])%list
                     | None => None
                     end
                 | None => Some children
                 end
             | None => None
             end)
          (OntologyClass.subClasses cls) (Some [])
      with
      | Some children =>
          Some (TreeNode (OntologyClass.id cls) (OntologyClass.name cls)
                  (OntologyClass.description cls)
                  (length (OntologyClass.instances cls)) children)
      | None => None
      end
  end.

(** The recursion follows [subClasses] through the keys of the store: when
    it ends, no key is met twice on the way down. *)
Definition treeFuel (s : Store) : nat := S (JsMap.size (classes s)).

(** What [getClassHierarchy] returns: [null], one tree, or an array of
    trees. *)
Inductive HierarchyView : Type :=
| NoSuchClass
| OneTree (tree : HierarchyTree)
| Trees (trees : list HierarchyTree).

(** [getClassHierarchy(rootClassId?)]: an absent or empty [rootClassId] is
    falsy and selects the root classes. *)
Definition givenRoot (rootClassId : option string) : option string :=
  match rootClassId with
  | Some id => if String.eqb id "" then None else Some id
  | None => None
  end.

Definition getClassHierarchy (rootClassId : option string) (s : Store)
  : option HierarchyView :=
  match givenRoot rootClassId with
  | Some id =>
      match getClass id s with
      | Some root =>
          match buildHierarchyTree (treeFuel s) s root with
          | Some tree => Some (OneTree tree)
          | None => None
          end
      | None => Some NoSuchClass
      end
  | None =>
      match
        fold_left
          (fun acc cls =>
             match acc with
             | Some trees =>
                 match buildHierarchyTree (treeFuel s) s cls with
                 | Some tree => Some (trees ++ [tree])%list
                 | None => None
                 end
             | None => None
             end)
          (findRootClasses s) (Some [])
      with
      | Some trees => Some (Trees trees)
      | None => None
      end
  end.

(** *** Statistics *)

Record ClassStatistics : Type :=
  { classTotal : nat; withInstances : nat; rootClasses : nat }.

Record PropertyStatistics : Type :=
  { propertyTotal : nat; datatypeProperties : nat; objectProperties : nat }.

Record RelationshipStatistics : Type :=
  { relationshipTotal : nat; bidirectionalRelationships : nat }.

Record OntologyStatistics : Type :=
  { classStatistics : ClassStatistics;
    propertyStatistics : PropertyStatistics;
    relationshipStatistics : RelationshipStatistics;
    domainTotal : nat }.

Definition isDatatype (k : OntologyProperty.kind) : bool :=
  match k with
  | OntologyProperty.datatype => true
  | _ => false
  end.

Definition isObject (k : OntologyProperty.kind) : bool :=
  match k with
  | OntologyProperty.object => true
  | _ => false
  end.

Definition getOntologyStatistics (s : Store) : OntologyStatistics :=
  {| classStatistics :=
       {| classTotal := JsMap.size (classes s);
          withInstances :=
            length
              (filter (fun c => (0 <? length (OntologyClass.instances c))%nat)
                 (JsMap.values (classes s)));
          rootClasses := length (findRootClasses s) |};
     propertyStatistics :=
       {| propertyTotal := JsMap.size (properties s);
          datatypeProperties :=
            length
              (filter (fun p => isDatatype (OntologyProperty.type p))
                 (JsMap.values (properties s)));
          objectProperties :=
            length
              (filter (fun p => isObject (OntologyProperty.type p))
                 (JsMap.values (properties s))) |};
     relationshipStatistics :=
       {| relationshipTotal := JsMap.size (relationships s);
          bidirectionalRelationships :=
            length
              (filter OntologyRelationship.bidirectional
                 (JsMap.values (relationships s))) |};
     domainTotal := JsMap.size (domains s) |}.

(** *** The public mutating operations, as a command language *)

Inductive Op : Type :=
| AddClass (c : OntologyClass.t)
| DeleteClass (id : string)
| AddProperty (p : OntologyProperty.t)
| AddRelationship (r : OntologyRelationship.t)
| AddDomain (d : Domain.t).

Definition step (s : Store) (op : Op) : Store :=
  match op with
  | AddClass c => addClass c s
  | DeleteClass id => snd (deleteClass id s)
  | AddProperty p => addProperty p s
  | AddRelationship r => addRelationship r s
  | AddDomain d => addDomain d s
  end.

Definition run (ops : list Op) : Store := fold_left step ops empty.

End OntologyManager.

(** ** [services/OntologyValidator.ts] *)

Module OntologyValidator.

Record ValidationContext : Type :=
  { classes : JsMap.t OntologyClass.t;
    properties : JsMap.t OntologyProperty.t;
    relationships : JsMap.t OntologyRelationship.t }.

(** What one rule reports. *)
Record ValidationResult : Type :=
  { errors : list ValidationError.t;
    warnings : list ValidationWarning.t;
    suggestions : list ValidationSuggestion.t }.

(** A rule's validator returns its report or throws; [Throws e] carries the
    text of the thrown value. *)
Inductive Outcome : Type :=
| Returns (result : ValidationResult)
| Throws (error : string).

Record ValidationRule : Type :=
  { name : string; description : string; severity : Severity;
    validator : ValidationContext -> Outcome }.

Definition quoted (s : string) : string := Js.dquote ++ s ++ Js.dquote.

(** *** Rule 1: circular dependencies *)

Fixpoint detectCycle (fuel : nat) (classId : string)
  (classMap : JsMap.t OntologyClass.t) (visited stack : JsSet.t)
  (path : list string) : list string * (JsSet.t * JsSet.t) :=
  match fuel with
  | O => ([], (visited, stack))
  | S fuel' =>
      let visited := JsSet.add classId visited in
      let stack := JsSet.add classId stack in
      let path := (path ++ [classId])%list in
      match JsMap.get classId classMap with
      | None => ([], (visited, stack))
      | Some cls =>
          (fix loop (supers : list string) (visited stack : JsSet.t)
             : list string * (JsSet.t * JsSet.t) :=
             match supers with
             | [] => ([], (visited, JsSet.delete classId stack))
             | superClassId :: rest =>
                 if negb (JsSet.has superClassId visited)
                 then
                   let r :=
                     detectCycle fuel' superClassId classMap visited stack path
                   in
                   if (0 <? length (fst r))%nat then r
                   else loop rest (fst (snd r)) (snd (snd r))
                 else if JsSet.has superClassId stack
                 then
                   ((Arr.sliceFrom (Arr.indexOf path superClassId) path
                      ++ [superClassId])%list, (visited, stack))
                 else loop rest visited stack
             end) (OntologyClass.superClasses cls) visited stack
      end
  end.

(** The call depth of [detectCycle] is bounded by the number of class keys
    and super-class references. *)
Definition cycleFuel (classMap : JsMap.t OntologyClass.t) : nat :=
  S (fold_right
       (fun c n => S (length (OntologyClass.superClasses c) + n)) 0
       (JsMap.values classMap)).

Definition circularDependencyError (cycle : list string) : ValidationError.t :=
  {| ValidationError.type := ValidationError.circular_dependency;
     ValidationError.severity := critical;
     ValidationError.message :=
       "Circular dependency detected in class hierarchy: "
       ++ Js.join " -> " cycle;
     ValidationError.affectedElements := cycle;
     ValidationError.suggestedFix :=
       Some ("Remove inheritance relationship between "
             ++ last cycle "" ++ " and " ++ hd "" cycle) |}.

Definition validateCircularDependencies (context : ValidationContext)
  : ValidationResult :=
  let found :=
    fst
      (fold_left
         (fun acc classId =>
            let '(errs, (visited, recursionStack)) := acc in
            if negb (JsSet.has classId visited)
            then
              let r :=
                detectCycle (cycleFuel (classes context)) classId
                  (classes context) visited recursionStack [] in
              if (0 <? length (fst r))%nat
              then ((errs ++ [circularDependencyError (fst r)])%list, snd r)
              else (errs, snd r)
            else acc)
         (JsMap.keys (classes context)) ([], (JsSet.empty, JsSet.empty))) in
  {| errors := found; warnings := []; suggestions := [] |}.

(** *** Rule 2: missing super-class references *)

Definition missingSuperclassError (cls : OntologyClass.t)
  (superClassId : string) : ValidationError.t :=
  {| ValidationError.type := ValidationError.missing_superclass;
     ValidationError.severity := major;
     ValidationError.message :=
       "Class " ++ quoted (OntologyClass.name cls)
       ++ " references non-existent superclass " ++ quoted superClassId;
     ValidationError.affectedElements := [OntologyClass.id cls; superClassId];
     ValidationError.suggestedFix :=
       Some ("Define the missing superclass " ++ quoted superClassId
             ++ " or remove the reference") |}.

Definition validateSuperclassReferences (context : ValidationContext)
  : ValidationResult :=
  {| errors :=
       flat_map
         (fun cls =>
            flat_map
              (fun superClassId =>
                 if negb (JsMap.has superClassId (classes context))
                 then [missingSuperclassError cls superClassId]
                 else [])
              (OntologyClass.superClasses cls))
         (JsMap.values (classes context));
     warnings := []; suggestions := [] |}.

(** *** Rule 3: property domain, range and cardinality *)

Definition constraintViolation (message : string) (affected : list string)
  (fix_ : string) : ValidationError.t :=
  {| ValidationError.type := ValidationError.constraint_violation;
     ValidationError.severity := major;
     ValidationError.message := message;
     ValidationError.affectedElements := affected;
     ValidationError.suggestedFix := Some fix_ |}.

Definition isObject (k : OntologyProperty.kind) : bool :=
  match k with
  | OntologyProperty.object => true
  | _ => false
  end.

Definition zToString (z : Z) : string := NilEmpty.string_of_int (Z.to_int z).

Definition propertyErrors (context : ValidationContext)
  (property : OntologyProperty.t) : list ValidationError.t :=
  let pname := OntologyProperty.name property in
  let pid := OntologyProperty.id property in
  let card := OntologyProperty.cardinality property in
  (flat_map
     (fun domainId =>
        if negb (JsMap.has domainId (classes context))
        then [constraintViolation
                ("Property " ++ quoted pname ++ " has non-existent class "
                 ++ quoted domainId ++ " in domain")
                [pid; domainId]
                ("Define the missing class " ++ quoted domainId
                 ++ " or remove from property domain")]
        else [])
     (OntologyProperty.domain property)
   ++ (if isObject (OntologyProperty.type property)
       then
         flat_map
           (fun rangeId =>
              if negb (JsMap.has rangeId (classes context))
              then [constraintViolation
                      ("Object property " ++ quoted pname
                       ++ " has non-existent class " ++ quoted rangeId
                       ++ " in range")
                      [pid; rangeId]
                      ("Define the missing class " ++ quoted rangeId
                       ++ " or remove from property range")]
              else [])
           (OntologyProperty.range property)
       else [])
   ++ (if (Cardinality.min card <? 0)%Z
       then [constraintViolation
               ("Property " ++ quoted pname
                ++ " has invalid minimum cardinality ("
                ++ zToString (Cardinality.min card) ++ ")")
               [pid] "Set minimum cardinality to 0 or higher"]
       else [])
   ++ (match Cardinality.max card with
       | Some max =>
           if (max <? Cardinality.min card)%Z
           then [constraintViolation
                   ("Property " ++ quoted pname
                    ++ " has maximum cardinality less than minimum")
                   [pid]
                   "Ensure maximum cardinality is greater than or equal to minimum"]
           else []
       | None => []
       end))%list.

Definition propertyWarnings (context : ValidationContext)
  (property : OntologyProperty.t) : list ValidationWarning.t :=
  let isUsed :=
    existsb
      (fun rel =>
         Arr.includes (map fst (OntologyRelationship.properties rel))
           (OntologyProperty.name property))
      (JsMap.values (relationships context)) in
  if negb isUsed && (length (OntologyProperty.domain property) =? 0)%nat
  then [{| ValidationWarning.type := ValidationWarning.orphaned_class;
           ValidationWarning.message :=
             "Property " ++ quoted (OntologyProperty.name property)
             ++ " appears to be unused";
           ValidationWarning.affectedElements := [OntologyProperty.id property];
           ValidationWarning.recommendation :=
             "Consider removing unused property or adding proper domain/range" |}]
  else [].

Definition validatePropertyConstraints (context : ValidationContext)
  : ValidationResult :=
  {| errors :=
       flat_map (propertyErrors context) (JsMap.values (properties context));
     warnings :=
       flat_map (propertyWarnings context) (JsMap.values (properties context));
     suggestions := [] |}.

(** *** Rule 4: relationship consistency *)

Definition contradictoryPairs : list (string * string) :=
  [("is-a", "part-of"); ("similar-to", "different-from");
   ("causes", "prevents"); ("enables", "disables")].

Definition areContradictory (rel1 rel2 : OntologyRelationship.t) : bool :=
  if negb (String.eqb (OntologyRelationship.source rel1)
             (OntologyRelationship.source rel2))
     || negb (String.eqb (OntologyRelationship.target rel1)
                (OntologyRelationship.target rel2))
  then false
  else
    existsb
      (fun p =>
         (String.eqb (OntologyRelationship.type rel1) (fst p)
          && String.eqb (OntologyRelationship.type rel2) (snd p))
         || (String.eqb (OntologyRelationship.type rel1) (snd p)
             && String.eqb (OntologyRelationship.type rel2) (fst p)))
      contradictoryPairs.

Definition triple (rel : OntologyRelationship.t) : string :=
  OntologyRelationship.source rel ++ " " ++ OntologyRelationship.type rel
  ++ " " ++ OntologyRelationship.target rel.

Definition contradictionError (rel1 rel2 : OntologyRelationship.t)
  : ValidationError.t :=
  {| ValidationError.type := ValidationError.logical_inconsistency;
     ValidationError.severity := major;
     ValidationError.message :=
       "Contradictory relationships: " ++ quoted (triple rel1) ++ " vs "
       ++ quoted (triple rel2);
     ValidationError.affectedElements :=
       [OntologyRelationship.id rel1; OntologyRelationship.id rel2];
     ValidationError.suggestedFix :=
       Some "Resolve the contradiction by removing or modifying one of the relationships" |}.

Definition isReverseOf (rel r : OntologyRelationship.t) : bool :=
  String.eqb (OntologyRelationship.source r) (OntologyRelationship.target rel)
  && String.eqb (OntologyRelationship.target r) (OntologyRelationship.source rel)
  && String.eqb (OntologyRelationship.type r) (OntologyRelationship.type rel).

Definition missingReverseWarning (rel : OntologyRelationship.t)
  : ValidationWarning.t :=
  {| ValidationWarning.type := ValidationWarning.redundant_relationship;
     ValidationWarning.message :=
       "Bidirectional relationship " ++ quoted (triple rel)
       ++ " is missing its reverse";
     ValidationWarning.affectedElements := [OntologyRelationship.id rel];
     ValidationWarning.recommendation :=
       "Add the reverse relationship or mark as unidirectional" |}.

Definition validateRelationshipConsistency (context : ValidationContext)
  : ValidationResult :=
  let rels := JsMap.values (relationships context) in
  {| errors :=
       flat_map
         (fun p =>
            if areContradictory (fst p) (snd p)
            then [contradictionError (fst p) (snd p)] else [])
         (Arr.pairsOf rels);
     warnings :=
       flat_map
         (fun rel =>
            if OntologyRelationship.bidirectional rel
            then if negb (existsb (isReverseOf rel) rels)
                 then [missingReverseWarning rel] else []
            else [])
         rels;
     suggestions := [] |}.

(** *** Rule 5: orphaned classes *)

Definition classHasConnections (cls : OntologyClass.t)
  (context : ValidationContext) : bool :=
  if (0 <? length (OntologyClass.superClasses cls))%nat
     || (0 <? length (OntologyClass.subClasses cls))%nat
  then true
  else
    existsb
      (fun rel =>
         String.eqb (OntologyRelationship.source rel) (OntologyClass.id cls)
         || String.eqb (OntologyRelationship.target rel) (OntologyClass.id cls))
      (JsMap.values (relationships context)).

(** [split] never returns an empty array, so [union] is not empty. *)
Definition stringSimilarity (str1 str2 : string) : Q :=
  let words1 := Js.splitOn Js.isSpace (Js.toLowerCase str1) in
  let words2 := Js.splitOn Js.isSpace (Js.toLowerCase str2) in
  let intersection := filter (Arr.includes words2) words1 in
  let union := Arr.unique (words1 ++ words2)%list in
  (Num.ofNat (length intersection) / Num.ofNat (length union))%Q.

Definition truthy (s : option string) : option string :=
  match s with
  | Some d => if (0 <? String.length d)%nat then Some d else None
  | None => None
  end.

Definition calculateClassSimilarity (cls1 cls2 : OntologyClass.t) : Q :=
  let byName :=
    (stringSimilarity (OntologyClass.name cls1) (OntologyClass.name cls2)
     * (4 # 10))%Q in
  let byDescription :=
    match truthy (OntologyClass.description cls1),
          truthy (OntologyClass.description cls2) with
    | Some d1, Some d2 => (stringSimilarity d1 d2 * (3 # 10))%Q
    | _, _ => 0%Q
    end in
  let commonInstances :=
    filter (Arr.includes (OntologyClass.instances cls2))
      (OntologyClass.instances cls1) in
  let most :=
    Nat.max (Nat.max (length (OntologyClass.instances cls1))
               (length (OntologyClass.instances cls2))) 1 in
  (byName + byDescription
   + Num.ofNat (length commonInstances) / Num.ofNat most * (3 # 10))%Q.

Definition findSimilarClasses (cls : OntologyClass.t)
  (context : ValidationContext) : list OntologyClass.t :=
  Arr.take 3
    (filter
       (fun otherCls =>
          negb (String.eqb (OntologyClass.id otherCls) (OntologyClass.id cls))
          && Num.gtb (calculateClassSimilarity cls otherCls) (5 # 10))
       (JsMap.values (classes context))).

Definition orphanWarning (cls : OntologyClass.t) : ValidationWarning.t :=
  {| ValidationWarning.type := ValidationWarning.orphaned_class;
     ValidationWarning.message :=
       "Class " ++ quoted (OntologyClass.name cls)
       ++ " has no relationships or hierarchy connections";
     ValidationWarning.affectedElements := [OntologyClass.id cls];
     ValidationWarning.recommendation :=
       "Connect class to hierarchy or add relationships with other classes" |}.

Definition connectSuggestion (cls : OntologyClass.t)
  (similarClasses : list OntologyClass.t) : ValidationSuggestion.t :=
  {| ValidationSuggestion.type := ValidationSuggestion.add_relationship;
     ValidationSuggestion.confidence := (6 # 10)%Q;
     ValidationSuggestion.description :=
       "Consider connecting " ++ quoted (OntologyClass.name cls)
       ++ " to similar classes: "
       ++ Js.join ", " (map OntologyClass.name similarClasses);
     ValidationSuggestion.impact := ValidationSuggestion.medium;
     ValidationSuggestion.implementation :=
       "Add semantic relationships or hierarchy connections" |}.

Definition validateOrphanedClasses (context : ValidationContext)
  : ValidationResult :=
  let orphans :=
    filter (fun cls => negb (classHasConnections cls context))
      (JsMap.values (classes context)) in
  {| errors := [];
     warnings := map orphanWarning orphans;
     suggestions :=
       flat_map
         (fun cls =>
            let similarClasses := findSimilarClasses cls context in
            if (0 <? length similarClasses)%nat
            then [connectSuggestion cls similarClasses] else [])
         orphans |}.

(** *** Rule 6: naming conventions *)

Definition isAlnum (c : ascii) : bool := Js.isAlpha c || Js.isDigit c.

(** [/^[A-Z][a-zA-Z0-9]*$/] *)
Definition isValidClassName (name : string) : bool :=
  Regex.test
    (Regex.seqs [Regex.Bol; Regex.Cls Js.isUpper; Regex.Star isAlnum; Regex.Eol])
    name.

(** [/^[a-z][a-zA-Z0-9]*$/] *)
Definition isValidPropertyName (name : string) : bool :=
  Regex.test
    (Regex.seqs [Regex.Bol; Regex.Cls Js.isLower; Regex.Star isAlnum; Regex.Eol])
    name.

Definition namingWarning (message : string) (id : string)
  (recommendation : string) : ValidationWarning.t :=
  {| ValidationWarning.type := ValidationWarning.ambiguous_naming;
     ValidationWarning.message := message;
     ValidationWarning.affectedElements := [id];
     ValidationWarning.recommendation := recommendation |}.

Definition validateNamingConventions (context : ValidationContext)
  : ValidationResult :=
  {| errors := [];
     warnings :=
       (flat_map
          (fun cls =>
             if negb (isValidClassName (OntologyClass.name cls))
             then [namingWarning
                     ("Class name " ++ quoted (OntologyClass.name cls)
                      ++ " doesn't follow naming conventions")
                     (OntologyClass.id cls)
                     ("Use PascalCase for class names (e.g., " ++ quoted "ConceptName"
                      ++ ")")]
             else [])
          (JsMap.values (classes context))
        ++ flat_map
             (fun prop =>
                if negb (isValidPropertyName (OntologyProperty.name prop))
                then [namingWarning
                        ("Property name " ++ quoted (OntologyProperty.name prop)
                         ++ " doesn't follow naming conventions")
                        (OntologyProperty.id prop)
                        ("Use camelCase for property names (e.g., "
                         ++ quoted "propertyName" ++ ")")]
                else [])
             (JsMap.values (properties context)))%list;
     suggestions := [] |}.

(** *** Rule 7: hierarchy shape *)

(** [calculateClassDepthRecursive]: every call works on its own copy of
    [visited], so [visited] holds the identifiers on the way down. *)
Fixpoint calculateClassDepthRecursive (fuel : nat) (classId : string)
  (classMap : JsMap.t OntologyClass.t) (visited : JsSet.t) : nat :=
  match fuel with
  | O => 0
  | S fuel' =>
      if JsSet.has classId visited then 0
      else
        let visited := JsSet.add classId visited in
        match JsMap.get classId classMap with
        | None => 0
        | Some cls =>
            match OntologyClass.superClasses cls with
            | [] => 0
            | supers =>
                S (fold_left
                     (fun maxParentDepth superClassId =>
                        Nat.max maxParentDepth
                          (calculateClassDepthRecursive fuel' superClassId
                             classMap visited))
                     supers 0)
            end
        end
  end.

Definition calculateClassDepth (classId : string)
  (classMap : JsMap.t OntologyClass.t) : nat :=
  calculateClassDepthRecursive (S (cycleFuel classMap)) classId classMap
    JsSet.empty.

Record HierarchyMetrics : Type :=
  { maxDepth : nat; avgBranchingFactor : Q; rootClasses : nat;
    totalClasses : nat }.

Definition calculateHierarchyMetrics (context : ValidationContext)
  : HierarchyMetrics :=
  let all := JsMap.values (classes context) in
  let deepest :=
    fold_left
      (fun m cls =>
         Nat.max m (calculateClassDepth (OntologyClass.id cls) (classes context)))
      all 0 in
  let nonLeaf :=
    filter (fun cls => (0 <? length (OntologyClass.subClasses cls))%nat) all in
  let totalBranching :=
    fold_left (fun n cls => n + length (OntologyClass.subClasses cls)) nonLeaf 0
  in
  let nonLeafClasses := length nonLeaf in
  let roots :=
    length
      (filter (fun cls => (length (OntologyClass.superClasses cls) =? 0)%nat)
         all) in
  {| maxDepth := deepest;
     avgBranchingFactor :=
       if (0 <? nonLeafClasses)%nat
       then (Num.ofNat totalBranching / Num.ofNat nonLeafClasses)%Q
       else 0%Q;
     rootClasses := roots;
     totalClasses := length all |}.

Definition shapeWarning (message recommendation : string)
  : ValidationWarning.t :=
  {| ValidationWarning.type := ValidationWarning.low_coverage;
     ValidationWarning.message := message;
     ValidationWarning.affectedElements := [];
     ValidationWarning.recommendation := recommendation |}.

Definition validateHierarchyStructure (context : ValidationContext)
  : ValidationResult :=
  let hierarchyMetrics := calculateHierarchyMetrics context in
  {| errors := [];
     warnings :=
       ((if (8 <? maxDepth hierarchyMetrics)%nat
         then [shapeWarning
                 ("Hierarchy is very deep ("
                  ++ Num.natToString (maxDepth hierarchyMetrics) ++ " levels)")
                 "Consider consolidating some intermediate levels to reduce complexity"]
         else [])
        ++ (if Num.gtb (avgBranchingFactor hierarchyMetrics) 12
            then [shapeWarning
                    ("High branching factor ("
                     ++ Num.toFixed1 (avgBranchingFactor hierarchyMetrics)
                     ++ ")")
                    "Consider adding intermediate categories to organize concepts better"]
            else []))%list;
     suggestions :=
       if (5 <? rootClasses hierarchyMetrics)%nat
       then [{| ValidationSuggestion.type :=
                  ValidationSuggestion.refine_hierarchy;
                ValidationSuggestion.confidence := (7 # 10)%Q;
                ValidationSuggestion.description :=
                  "Many root classes ("
                  ++ Num.natToString (rootClasses hierarchyMetrics)
                  ++ ") - consider adding top-level categories";
                ValidationSuggestion.impact := ValidationSuggestion.medium;
                ValidationSuggestion.implementation :=
                  "Create abstract superclasses to organize root concepts" |}]
       else [] |}.

(** *** Rule 8: class constraints *)

Record ConstraintCheck : Type :=
  { checkValid : bool; checkMessage : string; checkSuggestion : string }.

Definition validateCardinalityConstraint (constraint : OntologyConstraint.t)
  (cls : OntologyClass.t) : ConstraintCheck :=
  let instanceCount := length (OntologyClass.instances cls) in
  {| checkValid := (0 <=? instanceCount)%nat;
     checkMessage :=
       "Cardinality constraint validation for " ++ OntologyClass.name cls;
     checkSuggestion := "Ensure proper instance management" |}.

Definition validateValueConstraint (constraint : OntologyConstraint.t)
  (cls : OntologyClass.t) : ConstraintCheck :=
  {| checkValid := true;
     checkMessage := "Value constraint validation for " ++ OntologyClass.name cls;
     checkSuggestion := "Review value constraints" |}.

Definition validateLogicalConstraint (constraint : OntologyConstraint.t)
  (cls : OntologyClass.t) (context : ValidationContext) : ConstraintCheck :=
  {| checkValid := true;
     checkMessage :=
       "Logical constraint validation for " ++ OntologyClass.name cls;
     checkSuggestion := "Review logical constraints" |}.

Definition validateConstraint (constraint : OntologyConstraint.t)
  (cls : OntologyClass.t) (context : ValidationContext) : ConstraintCheck :=
  match OntologyConstraint.type constraint with
  | OntologyConstraint.cardinality => validateCardinalityConstraint constraint cls
  | OntologyConstraint.value => validateValueConstraint constraint cls
  | OntologyConstraint.logical =>
      validateLogicalConstraint constraint cls context
  | OntologyConstraint.restriction =>
      {| checkValid := true; checkMessage := "Unknown constraint type";
         checkSuggestion := "Review constraint definition" |}
  end.

Definition isError (l : OntologyConstraint.level) : bool :=
  match l with
  | OntologyConstraint.error => true
  | _ => false
  end.

Definition validateConstraints (context : ValidationContext)
  : ValidationResult :=
  let failed :=
    flat_map
      (fun cls =>
         flat_map
           (fun constraint =>
              let validationResult := validateConstraint constraint cls context
              in
              if negb (checkValid validationResult)
              then [(cls, (constraint, validationResult))] else [])
           (OntologyClass.constraints cls))
      (JsMap.values (classes context)) in
  {| errors :=
       flat_map
         (fun f =>
            let '(cls, (constraint, validationResult)) := f in
            if isError (OntologyConstraint.severity constraint)
            then [constraintViolation (checkMessage validationResult)
                    [OntologyClass.id cls; OntologyConstraint.id constraint]
                    (checkSuggestion validationResult)]
            else [])
         failed;
     warnings :=
       flat_map
         (fun f =>
            let '(cls, (constraint, validationResult)) := f in
            if isError (OntologyConstraint.severity constraint) then []
            else [{| ValidationWarning.type := ValidationWarning.low_coverage;
                     ValidationWarning.message := checkMessage validationResult;
                     ValidationWarning.affectedElements :=
                       [OntologyClass.id cls; OntologyConstraint.id constraint];
                     ValidationWarning.recommendation :=
                       checkSuggestion validationResult |}])
         failed;
     suggestions := [] |}.

(** *** The rule list *)

Definition rule (name description : string) (severity : Severity)
  (check : ValidationContext -> ValidationResult) : ValidationRule :=
  {| name := name; description := description; severity := severity;
     validator := fun context => Returns (check context) |}.

(** The initial value of [validationRules]. *)
Definition validationRules : list ValidationRule :=
  [rule "circular_hierarchy"
     "Detect circular dependencies in class hierarchies" critical
     validateCircularDependencies;
   rule "missing_superclass"
     "Check for references to non-existent superclasses" major
     validateSuperclassReferences;
   rule "property_domain_range"
     "Validate property domain and range constraints" major
     validatePropertyConstraints;
   rule "relationship_consistency" "Check for contradictory relationships"
     major validateRelationshipConsistency;
   rule "orphaned_classes" "Identify isolated classes with no connections"
     minor validateOrphanedClasses;
   rule "naming_conventions" "Check adherence to naming conventions" minor
     validateNamingConventions;
   rule "hierarchy_depth" "Check for overly deep or shallow hierarchies" minor
     validateHierarchyStructure;
   rule "constraint_violations" "Validate ontological constraints" major
     validateConstraints].

Definition addCustomValidationRule (r : ValidationRule)
  (rules : list ValidationRule) : list ValidationRule :=
  (rules ++ [r])%list.

Fixpoint removeValidationRule (ruleName : string) (rules : list ValidationRule)
  : bool * list ValidationRule :=
  match rules with
  | [] => (false, [])
  | r :: rest =>
      if String.eqb (name r) ruleName then (true, rest)
      else let '(found, rest') := removeValidationRule ruleName rest in
           (found, r :: rest')
  end.

(** *** Metrics *)

Definition calculateCompleteness (context : ValidationContext) : Num.number :=
  let classesWithInstances :=
    length
      (filter (fun c => (0 <? length (OntologyClass.instances c))%nat)
         (JsMap.values (classes context))) in
  Num.div (Num.ofNat classesWithInstances)
    (Num.max (Num.ofNat (JsMap.size (classes context))) 1).

Definition isSome {A : Type} (o : option A) : bool :=
  match o with
  | Some _ => true
  | None => false
  end.

Definition calculateClarity (context : ValidationContext) : Num.number :=
  let elementsWithDescriptions :=
    length
      (filter (fun c => isSome (truthy (OntologyClass.description c)))
         (JsMap.values (classes context)))
    + length
        (filter (fun p => isSome (truthy (OntologyProperty.description p)))
           (JsMap.values (properties context))) in
  let totalElements :=
    JsMap.size (classes context) + JsMap.size (properties context) in
  Num.div (Num.ofNat elementsWithDescriptions)
    (Num.max (Num.ofNat totalElements) 1).

Definition calculateCoverage (context : ValidationContext) : Num.number :=
  let size := Num.ofNat (JsMap.size (classes context)) in
  let expectedRelationships := (size * (size - 1) / 10)%Q in
  let actualRelationships := Num.ofNat (JsMap.size (relationships context)) in
  Num.minWith
    (Num.div actualRelationships (Num.max expectedRelationships 1)) 1.

Definition calculateValidationMetrics (context : ValidationContext)
  (errs : list ValidationError.t) (warns : list ValidationWarning.t)
  : Metrics.t :=
  let consistency :=
    Num.max 0
      (1 - (Num.ofNat (length errs) * (1 # 10)
            + Num.ofNat (length warns) * (5 # 100)))%Q in
  {| Metrics.consistency := Num.Finite consistency;
     Metrics.completeness := calculateCompleteness context;
     Metrics.clarity := calculateClarity context;
     Metrics.coverage := calculateCoverage context |}.

(** *** [validateOntology] *)

Definition ruleFailedError (r : ValidationRule) (error : string)
  : ValidationError.t :=
  {| ValidationError.type := ValidationError.logical_inconsistency;
     ValidationError.severity := critical;
     ValidationError.message :=
       "Validation rule '" ++ name r ++ "' failed: " ++ error;
     ValidationError.affectedElements := [];
     ValidationError.suggestedFix :=
       Some "Review ontology structure and fix any malformed elements" |}.

(** One turn of the rule loop: the [try] block appends the rule's report,
    the [catch] block appends one error. *)
Definition runRule (context : ValidationContext) (acc : ValidationResult)
  (r : ValidationRule) : ValidationResult :=
  match validator r context with
  | Returns result =>
      {| errors := (errors acc ++ errors result)%list;
         warnings := (warnings acc ++ warnings result)%list;
         suggestions := (suggestions acc ++ suggestions result)%list |}
  | Throws error =>
      {| errors := (errors acc ++ [ruleFailedError r error])%list;
         warnings := warnings acc;
         suggestions := suggestions acc |}
  end.

Definition noFindings : ValidationResult :=
  {| errors := []; warnings := []; suggestions := [] |}.

Definition runRules (rules : list ValidationRule) (context : ValidationContext)
  : ValidationResult :=
  fold_left (runRule context) rules noFindings.

Definition makeContext (classList : list OntologyClass.t)
  (propertyList : list OntologyProperty.t)
  (relationshipList : list OntologyRelationship.t) : ValidationContext :=
  {| classes :=
       JsMap.ofEntries (map (fun c => (OntologyClass.id c, c)) classList);
     properties :=
       JsMap.ofEntries (map (fun p => (OntologyProperty.id p, p)) propertyList);
     relationships :=
       JsMap.ofEntries
         (map (fun r => (OntologyRelationship.id r, r)) relationshipList) |}.

Definition isCritical (e : ValidationError.t) : bool :=
  Severity_eqb (ValidationError.severity e) critical.

(** [validateOntology(classes, properties, relationships)] of a validator
    whose rule list is [rules]. *)
Definition validateOntology (rules : list ValidationRule)
  (classList : list OntologyClass.t) (propertyList : list OntologyProperty.t)
  (relationshipList : list OntologyRelationship.t)
  : OntologyValidationResult.t :=
  let context := makeContext classList propertyList relationshipList in
  let all := runRules rules context in
  let metrics := calculateValidationMetrics context (errors all) (warnings all)
  in
  {| OntologyValidationResult.valid :=
       (length (filter isCritical (errors all)) =? 0)%nat;
     OntologyValidationResult.errors := errors all;
     OntologyValidationResult.warnings := warnings all;
     OntologyValidationResult.suggestions := suggestions all;
     OntologyValidationResult.metrics := metrics |}.

End OntologyValidator.

(** ** [services/DomainAnalyzer.ts] *)

Module DomainAnalyzer.

Definition stopWords : JsSet.t :=
  ["the"; "a"; "an"; "and"; "or"; "but"; "in"; "on"; "at"; "to"; "for"; "of";
   "with"; "by"; "is"; "are"; "was"; "were"; "be"; "been"; "being"; "have";
   "has"; "had"; "do"; "does"; "did"; "will"; "would"; "could"; "should";
   "may"; "might"; "can"; "this"; "that"; "these"; "those"].

Definition conceptTypes : list (ConceptType * list string) :=
  [(entity, ["person"; "organization"; "place"; "thing"; "object"; "system";
             "tool"; "device"]);
   (process, ["process"; "method"; "procedure"; "workflow"; "algorithm";
              "technique"; "approach"]);
   (quality, ["property"; "attribute"; "characteristic"; "feature"; "quality";
              "trait"]);
   (abstract, ["concept"; "idea"; "theory"; "principle"; "rule"; "law";
               "pattern"])].

(** [/[^\w\s]/] *)
Definition notWordNorSpace (c : ascii) : bool :=
  negb (Js.isWord c || Js.isSpace c).

Definition space : ascii := ascii_of_nat 32.

Definition tokenize (text : string) : list string :=
  filter
    (fun word => (2 <? String.length word)%nat && negb (JsSet.has word stopWords))
    (Js.splitOn Js.isSpace (Js.replaceClass notWordNorSpace space text)).

(** [/[.!?]/] *)
Definition isSentenceEnd (c : ascii) : bool :=
  (Js.code c =? 46)%nat || (Js.code c =? 33)%nat || (Js.code c =? 63)%nat.

Definition splitIntoSentences (text : string) : list string :=
  filter (fun s => (10 <? String.length (Js.trim s))%nat)
    (Js.splitOn isSentenceEnd text).

(** [/^[a-zA-Z]/] and [/^\d+$/] *)
Definition startsWithLetter (s : string) : bool :=
  Regex.test (Regex.Seq Regex.Bol (Regex.Cls Js.isAlpha)) s.
Definition isNumeric (s : string) : bool :=
  Regex.test (Regex.seqs [Regex.Bol; Regex.Plus Js.isDigit; Regex.Eol]) s.

Definition isValidConcept (concept : string) : bool :=
  (2 <? String.length concept)%nat
  && negb (JsSet.has concept stopWords)
  && startsWithLetter concept
  && negb (isNumeric concept).

Definition isValidPhrase (phrase : string) : bool :=
  let words := Js.splitOn Js.isSpace phrase in
  (2 <=? length words)%nat
  && forallb isValidConcept words
  && negb (existsb (fun word => JsSet.has word stopWords) words).

Definition cleanPhrase (s : string) : string :=
  Js.trim (Js.removeClass notWordNorSpace s).

(** The loop of [extractPhrases] over the words of one sentence, from index
    [i] on: [words] is [words.slice(i)]. *)
Fixpoint phrasesFrom (words : list string) : list string :=
  match words with
  | w0 :: ((w1 :: after) as rest) =>
      let twoWordPhrase := cleanPhrase (w0 ++ " " ++ w1) in
      let two :=
        if (5 <? String.length twoWordPhrase)%nat && isValidPhrase twoWordPhrase
        then [twoWordPhrase] else [] in
      let three :=
        match after with
        | w2 :: _ =>
            let threeWordPhrase := cleanPhrase (w0 ++ " " ++ w1 ++ " " ++ w2) in
            if (8 <? String.length threeWordPhrase)%nat
               && isValidPhrase threeWordPhrase
            then [threeWordPhrase] else []
        | [] => []
        end in
      (two ++ three ++ phrasesFrom rest)%list
  | _ => []
  end.

Definition extractPhrases (text : string) : list string :=
  flat_map (fun sentence => phrasesFrom (Js.splitOn Js.isSpace sentence))
    (splitIntoSentences text).

(** [concept[0] === concept[0].toUpperCase()].  On the empty string the source
    throws; every caller passes a non-empty name. *)
Definition startsUpper (concept : string) : bool :=
  match Js.firstChar concept with
  | Some c => Ascii.eqb c (Js.upperChar c)
  | None => false
  end.

Definition inferConceptType (concept : string) : ConceptType :=
  let lowerConcept := Js.toLowerCase concept in
  match
    find
      (fun entry => existsb (fun indicator => Js.includes lowerConcept indicator)
                      (snd entry))
      conceptTypes
  with
  | Some entry => fst entry
  | None =>
      if Js.endsWith lowerConcept "ing" || Js.endsWith lowerConcept "tion"
         || Js.endsWith lowerConcept "ment"
      then process
      else if Js.endsWith lowerConcept "ness" || Js.endsWith lowerConcept "ity"
              || Js.endsWith lowerConcept "able"
      then quality
      else if startsUpper concept then entity
      else abstract
  end.

Definition isChar (n : nat) (c : ascii) : bool := (Js.code c =? n)%nat.

Definition hasChar (n : nat) (s : string) : bool :=
  Regex.test (Regex.Cls (isChar n)) s.

Definition tailOf (s : string) : string :=
  match s with
  | EmptyString => EmptyString
  | String _ s' => s'
  end.

Definition calculateConceptConfidence (concept : string) : Q :=
  let c0 := (5 # 10)%Q in
  let c1 := if startsUpper concept then (c0 + (2 # 10))%Q else c0 in
  let c2 :=
    if hasChar 32 concept || hasChar 45 concept then (c1 + (1 # 10))%Q else c1
  in
  let c3 :=
    if hasChar 95 concept || Regex.test (Regex.Cls Js.isUpper) (tailOf concept)
    then (c2 + (15 # 100))%Q else c2 in
  Num.min c3 1.

Definition addOrUpdateConcept (conceptMap : JsMap.t ExtractedConcept.t)
  (name : string) (context : string) : JsMap.t ExtractedConcept.t :=
  match JsMap.get name conceptMap with
  | Some existing =>
      JsMap.set name
        {| ExtractedConcept.name := ExtractedConcept.name existing;
           ExtractedConcept.type := ExtractedConcept.type existing;
           ExtractedConcept.frequency := S (ExtractedConcept.frequency existing);
           ExtractedConcept.contexts :=
             if negb (Arr.includes (ExtractedConcept.contexts existing) context)
             then (ExtractedConcept.contexts existing ++ [context])%list
             else ExtractedConcept.contexts existing;
           ExtractedConcept.suggestedClass :=
             ExtractedConcept.suggestedClass existing;
           ExtractedConcept.confidence := ExtractedConcept.confidence existing |}
        conceptMap
  | None =>
      JsMap.set name
        {| ExtractedConcept.name := name;
           ExtractedConcept.type := inferConceptType name;
           ExtractedConcept.frequency := 1;
           ExtractedConcept.contexts := [context];
           ExtractedConcept.suggestedClass := None;
           ExtractedConcept.confidence := calculateConceptConfidence name |}
        conceptMap
  end.

(** The body of the loop of [extractConcepts] for one tiddler. *)
Definition conceptsOfTiddler (conceptMap : JsMap.t ExtractedConcept.t)
  (tiddler : Tiddler.t) : JsMap.t ExtractedConcept.t :=
  let title := Tiddler.title tiddler in
  let text := Tiddler.text tiddler in
  let combinedText := Js.toLowerCase (title ++ " " ++ text) in
  let words := tokenize combinedText in
  let phrases := extractPhrases combinedText in
  let add := fun m name => addOrUpdateConcept m name title in
  let m1 := fold_left add (filter isValidConcept words) conceptMap in
  let m2 := fold_left add (filter isValidConcept phrases) m1 in
  match Tiddler.tags tiddler with
  | Some tags =>
      fold_left add
        (map Js.toLowerCase
           (filter (fun tag => (0 <? String.length tag)%nat) tags)) m2
  | None => m2
  end.

Definition extractConcepts (tiddlers : list Tiddler.t)
  : list ExtractedConcept.t :=
  let conceptMap := fold_left conceptsOfTiddler tiddlers JsMap.empty in
  stableSort
    (fun a b =>
       (ExtractedConcept.frequency b <? ExtractedConcept.frequency a)%nat)
    (filter (fun concept => (1 <? ExtractedConcept.frequency concept)%nat)
       (JsMap.values conceptMap)).

(** [/\b(w1|w2|...)\b/] *)
Definition wordOf (alts : list string) : Regex.regex :=
  Regex.seqs [Regex.WordBoundary; Regex.oneOf alts; Regex.WordBoundary].

(** The table [relationshipPatterns], in the order of its keys. *)
Definition relationshipPatterns : list (string * Regex.regex) :=
  [("is-a",
    Regex.seqs
      [Regex.WordBoundary; Regex.oneOf ["is"; "are"; "was"; "were"];
       Regex.Plus Js.isSpace; Regex.Opt (Regex.oneOf ["a"; "an"; "the"]);
       Regex.Star Js.isSpace; Regex.WordBoundary]);
   ("has-a", wordOf ["has"; "have"; "had"; "contains"; "includes"]);
   ("part-of",
    wordOf ["part of"; "belongs to"; "component of"; "element of"]);
   ("causes", wordOf ["causes"; "leads to"; "results in"; "triggers"]);
   ("enables", wordOf ["enables"; "allows"; "permits"; "facilitates"]);
   ("similar-to", wordOf ["similar to"; "like"; "resembles"; "comparable to"]);
   ("related-to",
    wordOf ["related to"; "associated with"; "connected to"; "linked to"])].

Definition identifyRelationshipType (sentence : string)
  (concepts : list string) : string :=
  match find (fun entry => Regex.test (snd entry) sentence) relationshipPatterns
  with
  | Some entry => fst entry
  | None => "related-to"
  end.

(** [sentence.length] is at least 11 for every sentence that
    [splitIntoSentences] keeps. *)
Definition calculateRelationshipConfidence (sentence concept1 concept2 : string)
  : Q :=
  let distance :=
    Z.abs (Js.indexOf sentence concept1 - Js.indexOf sentence concept2) in
  let proximity :=
    Num.max 0
      (1 - inject_Z distance / Num.ofNat (String.length sentence))%Q in
  let c1 := ((3 # 10) + proximity * (3 # 10))%Q in
  let c2 :=
    if Regex.test (wordOf ["is"; "are"; "has"; "have"; "causes"; "enables"])
         sentence
    then (c1 + (2 # 10))%Q else c1 in
  Num.min c2 1.

(** [r.source === a && r.target === b || r.source === b && r.target === a] *)
Definition links (a b : string) (r : ExtractedRelationship.t) : bool :=
  (String.eqb (ExtractedRelationship.source r) a
   && String.eqb (ExtractedRelationship.target r) b)
  || (String.eqb (ExtractedRelationship.source r) b
      && String.eqb (ExtractedRelationship.target r) a).

(** [existing.strength += 0.1; existing.evidence.push(snippet)].  The sum is
    exact here; the doubles of the code round every addition. *)
Definition reinforce (snippet : string) (r : ExtractedRelationship.t)
  : ExtractedRelationship.t :=
  {| ExtractedRelationship.source := ExtractedRelationship.source r;
     ExtractedRelationship.target := ExtractedRelationship.target r;
     ExtractedRelationship.type := ExtractedRelationship.type r;
     ExtractedRelationship.strength :=
       (ExtractedRelationship.strength r + (1 # 10))%Q;
     ExtractedRelationship.evidence :=
       (ExtractedRelationship.evidence r ++ [snippet])%list;
     ExtractedRelationship.confidence := ExtractedRelationship.confidence r |}.

(** Apply [f] to the first element that satisfies [p] ([Array.prototype.find]
    followed by a mutation of what it returned). *)
Fixpoint updateFirst {A : Type} (p : A -> bool) (f : A -> A) (l : list A)
  : list A :=
  match l with
  | [] => []
  | x :: rest => if p x then f x :: rest else x :: updateFirst p f rest
  end.

(** The body of the two inner loops for the pair [(a, b)]. *)
Definition observe (sentence relationshipType : string)
  (relationships : list ExtractedRelationship.t) (pair : string * string)
  : list ExtractedRelationship.t :=
  let '(a, b) := pair in
  let snippet := String.substring 0 100 sentence in
  if existsb (links a b) relationships
  then updateFirst (links a b) (reinforce snippet) relationships
  else
    (relationships
     ++ [{| ExtractedRelationship.source := a;
            ExtractedRelationship.target := b;
            ExtractedRelationship.type := relationshipType;
            ExtractedRelationship.strength := (3 # 10)%Q;
            ExtractedRelationship.evidence := [snippet];
            ExtractedRelationship.confidence :=
              calculateRelationshipConfidence sentence a b |}])%list.

Definition foundIn (conceptNames : JsSet.t) (sentence : string) : list string :=
  filter (fun concept => Js.includes sentence concept) conceptNames.

Definition observeSentence (conceptNames : JsSet.t)
  (relationships : list ExtractedRelationship.t) (sentence : string)
  : list ExtractedRelationship.t :=
  let foundConcepts := foundIn conceptNames sentence in
  if (2 <=? length foundConcepts)%nat
  then
    let relationshipType := identifyRelationshipType sentence foundConcepts in
    fold_left (observe sentence relationshipType)
      (Arr.pairsOf foundConcepts) relationships
  else relationships.

Definition sentencesOf (tiddler : Tiddler.t) : list string :=
  splitIntoSentences (Js.toLowerCase (Tiddler.text tiddler)).

Definition observeTiddler (conceptNames : JsSet.t)
  (relationships : list ExtractedRelationship.t) (tiddler : Tiddler.t)
  : list ExtractedRelationship.t :=
  fold_left (observeSentence conceptNames) (sentencesOf tiddler) relationships.

Definition conceptNamesOf (concepts : list ExtractedConcept.t) : JsSet.t :=
  JsSet.ofList (map ExtractedConcept.name concepts).

(** The array [relationships] when the loops are over. *)
Definition collectRelationships (tiddlers : list Tiddler.t)
  (concepts : list ExtractedConcept.t) : list ExtractedRelationship.t :=
  fold_left (observeTiddler (conceptNamesOf concepts)) tiddlers [].

Definition aboveFloor (r : ExtractedRelationship.t) : bool :=
  Num.gtb (ExtractedRelationship.strength r) (2 # 10).

Definition stronger (a b : ExtractedRelationship.t) : bool :=
  Num.gtb (ExtractedRelationship.strength a) (ExtractedRelationship.strength b).

Definition extractRelationships (tiddlers : list Tiddler.t)
  (concepts : list ExtractedConcept.t) : list ExtractedRelationship.t :=
  stableSort stronger (filter aboveFloor (collectRelationships tiddlers concepts)).

(** The table [domainKeywords], in the order of its keys. *)
Definition domainKeywords : list (string * list string) :=
  [("Technology",
    ["software"; "system"; "data"; "computer"; "digital"; "algorithm"; "code"]);
   ("Business",
    ["organization"; "management"; "strategy"; "process"; "customer"; "market"]);
   ("Science",
    ["research"; "method"; "theory"; "analysis"; "experiment"; "hypothesis"]);
   ("Education",
    ["learning"; "knowledge"; "skill"; "training"; "teaching"; "course"]);
   ("Personal",
    ["life"; "experience"; "goal"; "habit"; "reflection"; "journal"])].

(** [keywords.reduce(...)]: one for a keyword in the name, a half for a
    keyword in some context. *)
Definition domainScore (concept : ExtractedConcept.t) (keywords : list string)
  : Q :=
  fold_left
    (fun sum keyword =>
       (sum
        + (if Js.includes (Js.toLowerCase (ExtractedConcept.name concept)) keyword
           then 1 else 0)
        + (if existsb (fun ctx => Js.includes (Js.toLowerCase ctx) keyword)
                (ExtractedConcept.contexts concept)
           then 5 # 10 else 0))%Q)
    keywords 0%Q.

(** The inner loop of [clusterConceptsByDomain]: the first domain with the
    highest positive score, ['General'] when no keyword occurs. *)
Definition assignDomain (concept : ExtractedConcept.t) : string :=
  fst
    (fold_left
       (fun best entry =>
          let '(assignedDomain, maxScore) := best in
          let '(domain, keywords) := entry in
          let score := domainScore concept keywords in
          if Num.gtb score maxScore then (domain, score)
          else (assignedDomain, maxScore))
       domainKeywords ("General", 0%Q)).

(** [clusters.get(assignedDomain)!.push(concept)] comes after the key has
    been set, so that the lookup finds an array. *)
Definition clusterConceptsByDomain (concepts : list ExtractedConcept.t)
  : JsMap.t (list ExtractedConcept.t) :=
  fold_left
    (fun clusters concept =>
       let assignedDomain := assignDomain concept in
       let clusters' :=
         if negb (JsMap.has assignedDomain clusters)
         then JsMap.set assignedDomain [] clusters else clusters in
       match JsMap.get assignedDomain clusters' with
       | Some members =>
           JsMap.set assignedDomain (members ++ [concept])%list clusters'
       | None => clusters'
       end)
    concepts JsMap.empty.

Definition determineDomainScope (tiddlers : list Tiddler.t)
  (concepts : list ExtractedConcept.t) : string :=
  let conceptNames := map ExtractedConcept.name concepts in
  let relevantTiddlers :=
    filter
      (fun t =>
         existsb
           (fun name =>
              Js.includes (Js.toLowerCase (Tiddler.title t)) name
              || Js.includes (Js.toLowerCase (Tiddler.text t)) name)
           conceptNames)
      tiddlers in
  let totalWords :=
    fold_left
      (fun sum t => (sum + length (Js.splitOn Js.isSpace (Tiddler.text t)))%nat)
      relevantTiddlers 0%nat in
  if (10000 <? Z.of_nat totalWords)%Z then "comprehensive"
  else if (5000 <? Z.of_nat totalWords)%Z then "moderate"
  else if (1000 <? Z.of_nat totalWords)%Z then "focused"
  else "limited".

Definition findSharedContexts (concepts : list ExtractedConcept.t)
  : list string :=
  if (length concepts =? 0)%nat then []
  else
    let contextCounts :=
      fold_left
        (fun counts concept =>
           fold_left
             (fun counts context =>
                JsMap.set context
                  (match JsMap.get context counts with
                   | Some count => count
                   | None => 0
                   end + 1)%nat
                  counts)
             (ExtractedConcept.contexts concept) counts)
        concepts JsMap.empty in
    map fst (filter (fun entry => (1 <? snd entry)%nat) contextCounts).

(** The divisors are [Math.max(n, 1)] and [10], never zero. *)
Definition calculateDomainCoherence
  (domainConcepts allConcepts : list ExtractedConcept.t) : Q :=
  if (length domainConcepts =? 0)%nat then 0%Q
  else
    let sharedContexts := findSharedContexts domainConcepts in
    let coherenceScore :=
      (Num.ofNat (length sharedContexts)
       / Num.max (Num.ofNat (length domainConcepts)) 1)%Q in
    let sizeNormalization :=
      Num.min 1 (Num.ofNat (length domainConcepts) / 10)%Q in
    Num.min (coherenceScore * sizeNormalization)%Q 1.

Definition moreCoherent (a b : ExtractedDomain.t) : bool :=
  Num.gtb (ExtractedDomain.coherence a) (ExtractedDomain.coherence b).

Definition identifyDomains (tiddlers : list Tiddler.t)
  (concepts : list ExtractedConcept.t) : list ExtractedDomain.t :=
  let conceptClusters := clusterConceptsByDomain concepts in
  let domains :=
    map
      (fun entry =>
         let '(domainName, domainConcepts) := entry in
         {| ExtractedDomain.name := domainName;
            ExtractedDomain.concepts :=
              map ExtractedConcept.name domainConcepts;
            ExtractedDomain.scope :=
              determineDomainScope tiddlers domainConcepts;
            ExtractedDomain.coherence :=
              calculateDomainCoherence domainConcepts concepts |})
      conceptClusters in
  stableSort moreCoherent domains.

(** Three means, each over [Math.max(length, 1)], and their mean. *)
Definition calculateOverallConfidence (concepts : list ExtractedConcept.t)
  (relationships : list ExtractedRelationship.t)
  (domains : list ExtractedDomain.t) : Q :=
  let conceptConfidence :=
    (fold_left (fun sum c => sum + ExtractedConcept.confidence c) concepts 0
     / Num.max (Num.ofNat (length concepts)) 1)%Q in
  let relationshipConfidence :=
    (fold_left (fun sum r => sum + ExtractedRelationship.confidence r)
       relationships 0
     / Num.max (Num.ofNat (length relationships)) 1)%Q in
  let domainConfidence :=
    (fold_left (fun sum d => sum + ExtractedDomain.coherence d) domains 0
     / Num.max (Num.ofNat (length domains)) 1)%Q in
  ((conceptConfidence + relationshipConfidence + domainConfidence) / 3)%Q.

(** [analyzeDomain(tiddlers, domainScope?)]; [domainScope] is not used. *)
Definition analyzeDomain (tiddlers : list Tiddler.t)
  (domainScope : option string) : ConceptExtractionResult.t :=
  let concepts := extractConcepts tiddlers in
  let relationships := extractRelationships tiddlers concepts in
  let domains := identifyDomains tiddlers concepts in
  let confidence := calculateOverallConfidence concepts relationships domains in
  {| ConceptExtractionResult.concepts := concepts;
     ConceptExtractionResult.relationships := relationships;
     ConceptExtractionResult.domains := domains;
     ConceptExtractionResult.confidence := confidence |}.

(** [getConceptsByType], [getHighConfidenceConcepts] (threshold 0.7 when
    absent), [getStrongestRelationships] (count 10 when absent) and
    [getDomainsByCoherence] (threshold 0.5 when absent). *)
Definition getConceptsByType (concepts : list ExtractedConcept.t)
  (type : string) : list ExtractedConcept.t :=
  filter
    (fun c => String.eqb (conceptTypeName (ExtractedConcept.type c)) type)
    concepts.

Definition getHighConfidenceConcepts (concepts : list ExtractedConcept.t)
  (threshold : option Q) : list ExtractedConcept.t :=
  let threshold :=
    match threshold with Some q => q | None => (7 # 10)%Q end in
  filter (fun c => Num.gtb (ExtractedConcept.confidence c) threshold) concepts.

Definition getStrongestRelationships
  (relationships : list ExtractedRelationship.t) (count : option nat)
  : list ExtractedRelationship.t :=
  let count := match count with Some n => n | None => 10%nat end in
  Arr.take count (stableSort stronger relationships).

Definition getDomainsByCoherence (domains : list ExtractedDomain.t)
  (threshold : option Q) : list ExtractedDomain.t :=
  let threshold :=
    match threshold with Some q => q | None => (5 # 10)%Q end in
  filter (fun d => Num.gtb (ExtractedDomain.coherence d) threshold) domains.

End DomainAnalyzer.

(** ** [services/ConceptHierarchy.ts] *)

Module HierarchyNode.
(** [children] holds the identifiers of the child nodes: while edges are
    placed every node object is the one stored under its [id]. *)
Record t : Type :=
  { id : string; name : string; level : nat; children : list string;
    parent : option string; confidence : Q; evidence : list string;
    properties : list string }.
End HierarchyNode.

Module ConceptHierarchy.

Record State : Type :=
  { hierarchy : JsMap.t HierarchyNode.t; rootNodes : JsSet.t }.

(** [/[^a-z0-9]/] *)
Definition notLowerAlnum (c : ascii) : bool :=
  negb (Js.isLower c || Js.isDigit c).

Definition generateId (name : string) : string :=
  Js.replaceClass notLowerAlnum (ascii_of_nat 95) (Js.toLowerCase name).

Definition inferProperties (concept : ExtractedConcept.t) : list string :=
  match ExtractedConcept.type concept with
  | entity => ["hasName"; "hasIdentifier"; "hasDescription"]
  | process => ["hasInput"; "hasOutput"; "hasDuration"; "hasSteps"]
  | quality => ["hasValue"; "hasUnit"; "hasMeasurement"]
  | abstract => ["hasDefinition"; "hasContext"; "hasApplication"]
  end.

Definition nodeOf (concept : ExtractedConcept.t) : HierarchyNode.t :=
  {| HierarchyNode.id := generateId (ExtractedConcept.name concept);
     HierarchyNode.name := ExtractedConcept.name concept;
     HierarchyNode.level := 0;
     HierarchyNode.children := [];
     HierarchyNode.parent := None;
     HierarchyNode.confidence := ExtractedConcept.confidence concept;
     HierarchyNode.evidence := ExtractedConcept.contexts concept;
     HierarchyNode.properties := inferProperties concept |}.

Definition initializeNodes (concepts : list ExtractedConcept.t) : State :=
  fold_left
    (fun st concept =>
       let node := nodeOf concept in
       {| hierarchy := JsMap.set (HierarchyNode.id node) node (hierarchy st);
          rootNodes := JsSet.add (HierarchyNode.id node) (rootNodes st) |})
    concepts {| hierarchy := JsMap.empty; rootNodes := JsSet.empty |}.

(** The truth value of [node.parent]: [undefined] and the empty string are
    both falsy. *)
Definition parentOf (node : HierarchyNode.t) : option string :=
  match HierarchyNode.parent node with
  | Some p => if String.eqb p "" then None else Some p
  | None => None
  end.

Definition hasParent (node : HierarchyNode.t) : bool :=
  match parentOf node with
  | Some _ => true
  | None => false
  end.

(** [hasCycleDFS]: every call but the last marks a node of the map that was
    not marked, so [S (size hierarchy)] calls are enough. *)
Fixpoint hasCycleDFS (fuel : nat) (nodes : JsMap.t HierarchyNode.t)
  (currentId targetId : string) (visited : JsSet.t) : bool :=
  match fuel with
  | O => false
  | S fuel' =>
      if String.eqb currentId targetId then true
      else if JsSet.has currentId visited then false
      else
        match JsMap.get currentId nodes with
        | Some current =>
            match parentOf current with
            | Some p =>
                hasCycleDFS fuel' nodes p targetId (JsSet.add currentId visited)
            | None => false
            end
        | None => false
        end
  end.

Definition wouldCreateCycle (st : State) (parentId childId : string) : bool :=
  hasCycleDFS (S (JsMap.size (hierarchy st))) (hierarchy st) parentId childId
    JsSet.empty.

Definition adopted (parentId : string) (confidence : Q) (child : HierarchyNode.t)
  : HierarchyNode.t :=
  {| HierarchyNode.id := HierarchyNode.id child;
     HierarchyNode.name := HierarchyNode.name child;
     HierarchyNode.level := HierarchyNode.level child;
     HierarchyNode.children := HierarchyNode.children child;
     HierarchyNode.parent := Some parentId;
     HierarchyNode.confidence :=
       Num.min (HierarchyNode.confidence child + confidence * (1 # 10))%Q 1;
     HierarchyNode.evidence := HierarchyNode.evidence child;
     HierarchyNode.properties := HierarchyNode.properties child |}.

Definition withChild (childId : string) (node : HierarchyNode.t)
  : HierarchyNode.t :=
  {| HierarchyNode.id := HierarchyNode.id node;
     HierarchyNode.name := HierarchyNode.name node;
     HierarchyNode.level := HierarchyNode.level node;
     HierarchyNode.children := (HierarchyNode.children node ++ [childId])%list;
     HierarchyNode.parent := HierarchyNode.parent node;
     HierarchyNode.confidence := HierarchyNode.confidence node;
     HierarchyNode.evidence := HierarchyNode.evidence node;
     HierarchyNode.properties := HierarchyNode.properties node |}.

(** [addParentChildRelationship(parent, child, confidence)] for the nodes
    stored under [parentKey] and [childKey].  When both keys name the same
    node the cycle check returns before anything is written. *)
Definition addParentChildRelationship (st : State) (parentKey childKey : string)
  (confidence : Q) : State :=
  match JsMap.get parentKey (hierarchy st), JsMap.get childKey (hierarchy st)
  with
  | Some parent, Some child =>
      if hasParent child then st
      else if wouldCreateCycle st (HierarchyNode.id parent)
                (HierarchyNode.id child)
      then st
      else
        let h1 :=
          JsMap.set childKey (adopted (HierarchyNode.id parent) confidence child)
            (hierarchy st) in
        let h2 :=
          JsMap.set parentKey (withChild (HierarchyNode.id child) parent) h1 in
        {| hierarchy := h2;
           rootNodes := JsSet.delete (HierarchyNode.id child) (rootNodes st) |}
  | _, _ => st
  end.

Definition buildIsARelationships (st : State)
  (relationships : list ExtractedRelationship.t) : State :=
  fold_left
    (fun st rel =>
       let childId := generateId (ExtractedRelationship.source rel) in
       let parentId := generateId (ExtractedRelationship.target rel) in
       if JsMap.has childId (hierarchy st) && JsMap.has parentId (hierarchy st)
       then addParentChildRelationship st parentId childId
              (ExtractedRelationship.confidence rel)
       else st)
    (filter
       (fun r => String.eqb (ExtractedRelationship.type r) "is-a")
       relationships)
    st.

(** A [Map] from keys of type [K] to arrays, filled by
    [if (!m.has(k)) m.set(k, []); m.get(k).push(x)]: the groups come in the
    order in which their keys first occur. *)
Fixpoint pushGroup {K A : Type} (eqb : K -> K -> bool) (k : K) (x : A)
  (groups : list (K * list A)) : list (K * list A) :=
  match groups with
  | [] => [(k, [x])]
  | (k', xs) :: rest =>
      if eqb k k' then (k', (xs ++ [x])%list) :: rest
      else (k', xs) :: pushGroup eqb k x rest
  end.

Definition groupBy {K A : Type} (eqb : K -> K -> bool) (key : A -> K)
  (l : list A) : list (K * list A) :=
  fold_left (fun groups x => pushGroup eqb (key x) x groups) l [].

Fixpoint groupOf {K A : Type} (eqb : K -> K -> bool) (k : K)
  (groups : list (K * list A)) : option (list A) :=
  match groups with
  | [] => None
  | (k', xs) :: rest => if eqb k k' then Some xs else groupOf eqb k rest
  end.

Definition calculateSpecificity (concept : ExtractedConcept.t) : Q :=
  let wordCount :=
    length (Js.splitOn Js.isSpace (ExtractedConcept.name concept)) in
  let s0 := ((5 # 10) + (Num.ofNat wordCount - 1) * (2 # 10))%Q in
  let s1 :=
    if (ExtractedConcept.frequency concept <? 3)%nat
    then (s0 + (2 # 10))%Q else s0 in
  let s2 :=
    if (length (ExtractedConcept.contexts concept) <? 3)%nat
    then (s1 + (1 # 10))%Q else s1 in
  Num.min s2 1.

Definition specificityLevel (concept : ExtractedConcept.t) : nat :=
  let specificity := calculateSpecificity concept in
  if Num.ltb specificity (3 # 10) then 0
  else if Num.ltb specificity (7 # 10) then 1 else 2.

Definition groupBySpecificity (concepts : list ExtractedConcept.t)
  : list (nat * list ExtractedConcept.t) :=
  groupBy Nat.eqb specificityLevel concepts.

Definition calculateParentScore (child parent : ExtractedConcept.t) : Q :=
  let sharedContexts :=
    filter (Arr.includes (ExtractedConcept.contexts parent))
      (ExtractedConcept.contexts child) in
  let s0 := (Num.ofNat (length sharedContexts) * (2 # 10))%Q in
  let s1 :=
    if Js.includes (ExtractedConcept.name child) (ExtractedConcept.name parent)
       || Js.includes (ExtractedConcept.name parent)
            (ExtractedConcept.name child)
    then (s0 + (3 # 10))%Q else s0 in
  let s2 :=
    if (ExtractedConcept.frequency child <? ExtractedConcept.frequency parent)%nat
    then (s1 + (2 # 10))%Q else s1 in
  Num.min s2 1.

Definition findBestParent (concept : ExtractedConcept.t)
  (candidates : list ExtractedConcept.t) : option ExtractedConcept.t :=
  let best :=
    fold_left
      (fun acc candidate =>
         let score := calculateParentScore concept candidate in
         if Num.gtb score (snd acc) then (Some candidate, score) else acc)
      candidates (None, 0%Q) in
  if Num.gtb (snd best) (3 # 10) then fst best else None.

Definition capitalize (s : string) : string :=
  match s with
  | EmptyString => EmptyString
  | String c rest => String (Js.upperChar c) rest
  end.

Definition typeParentNode (typeParentId type : string) : HierarchyNode.t :=
  {| HierarchyNode.id := typeParentId;
     HierarchyNode.name := capitalize type;
     HierarchyNode.level := 0;
     HierarchyNode.children := [];
     HierarchyNode.parent := None;
     HierarchyNode.confidence := (8 # 10)%Q;
     HierarchyNode.evidence := ["Inferred from concept types"];
     HierarchyNode.properties := [] |}.

Definition hasFreeNode (st : State) (id : string) : bool :=
  match JsMap.get id (hierarchy st) with
  | Some node => negb (hasParent node)
  | None => false
  end.

Definition createTypeHierarchy (st : State) (type : string)
  (concepts : list ExtractedConcept.t) : State :=
  let typeParentId := generateId type in
  let st :=
    if negb (JsMap.has typeParentId (hierarchy st))
    then {| hierarchy :=
              JsMap.set typeParentId (typeParentNode typeParentId type)
                (hierarchy st);
            rootNodes := JsSet.add typeParentId (rootNodes st) |}
    else st in
  let specificConcepts := groupBySpecificity concepts in
  fold_left
    (fun st group =>
       let '(level, levelConcepts) := group in
       fold_left
         (fun st concept =>
            let conceptId := generateId (ExtractedConcept.name concept) in
            if hasFreeNode st conceptId
            then
              if (level =? 0)%nat
              then addParentChildRelationship st typeParentId conceptId (6 # 10)
              else
                let parentConcepts :=
                  match groupOf Nat.eqb (level - 1) specificConcepts with
                  | Some l => l
                  | None => []
                  end in
                match findBestParent concept parentConcepts with
                | Some bestParent =>
                    let parentId :=
                      generateId (ExtractedConcept.name bestParent) in
                    if JsMap.has parentId (hierarchy st)
                    then addParentChildRelationship st parentId conceptId
                           (5 # 10)
                    else st
                | None => st
                end
            else st)
         levelConcepts st)
    specificConcepts st.

Definition inferLinguisticHierarchies (st : State)
  (concepts : list ExtractedConcept.t) : State :=
  fold_left
    (fun st concept =>
       let words := Js.splitOn Js.isSpace (ExtractedConcept.name concept) in
       if (1 <? length words)%nat
       then
         let potentialParents :=
           flat_map
             (fun word =>
                match
                  find
                    (fun c =>
                       String.eqb (Js.toLowerCase (ExtractedConcept.name c))
                         (Js.toLowerCase word))
                    concepts
                with
                | Some c => [c]
                | None => []
                end)
             words in
         fold_left
           (fun st potentialParent =>
              let childId := generateId (ExtractedConcept.name concept) in
              let parentId :=
                generateId (ExtractedConcept.name potentialParent) in
              if hasFreeNode st childId && JsMap.has parentId (hierarchy st)
              then addParentChildRelationship st parentId childId (4 # 10)
              else st)
           potentialParents st
       else st)
    concepts st.

Definition inferMissingHierarchy (st : State)
  (concepts : list ExtractedConcept.t) : State :=
  let conceptsByType :=
    groupBy ConceptType_eqb ExtractedConcept.type concepts in
  let st :=
    fold_left
      (fun st group =>
         createTypeHierarchy st (conceptTypeName (fst group)) (snd group))
      conceptsByType st in
  inferLinguisticHierarchies st concepts.

Definition withLevel (level : nat) (node : HierarchyNode.t) : HierarchyNode.t :=
  {| HierarchyNode.id := HierarchyNode.id node;
     HierarchyNode.name := HierarchyNode.name node;
     HierarchyNode.level := level;
     HierarchyNode.children := HierarchyNode.children node;
     HierarchyNode.parent := HierarchyNode.parent node;
     HierarchyNode.confidence := HierarchyNode.confidence node;
     HierarchyNode.evidence := HierarchyNode.evidence node;
     HierarchyNode.properties := HierarchyNode.properties node |}.

(** [calculateNodeLevel] recurses along [children]; [None] is a recursion
    that does not end.  With [fuel = S (size nodes)] the fuel runs out only
    on a chain of children that repeats a node, on which the source recurses
    forever. *)
Fixpoint calculateNodeLevel (fuel : nat) (nodes : JsMap.t HierarchyNode.t)
  (nodeId : string) (level : nat) : option (JsMap.t HierarchyNode.t) :=
  match fuel with
  | O => None
  | S fuel' =>
      match JsMap.get nodeId nodes with
      | None => Some nodes
      | Some node =>
          fold_left
            (fun acc childId =>
               match acc with
               | Some nodes' => calculateNodeLevel fuel' nodes' childId (S level)
               | None => None
               end)
            (HierarchyNode.children node)
            (Some (JsMap.set nodeId (withLevel level node) nodes))
      end
  end.

Definition calculateLevels (st : State) : option State :=
  match
    fold_left
      (fun acc rootId =>
         match acc with
         | Some nodes =>
             calculateNodeLevel (S (JsMap.size (hierarchy st))) nodes rootId 0
         | None => None
         end)
      (rootNodes st) (Some (hierarchy st))
  with
  | Some nodes => Some {| hierarchy := nodes; rootNodes := rootNodes st |}
  | None => None
  end.

Definition getRootNodes (st : State) : list HierarchyNode.t :=
  flat_map
    (fun id =>
       match JsMap.get id (hierarchy st) with
       | Some node => [node]
       | None => []
       end)
    (rootNodes st).

Definition getNode (st : State) (id : string) : option HierarchyNode.t :=
  JsMap.get id (hierarchy st).

Definition getNodeByName (st : State) (name : string) : option HierarchyNode.t :=
  JsMap.get (generateId name) (hierarchy st).

Definition getChildren (st : State) (nodeId : string) : list string :=
  match JsMap.get nodeId (hierarchy st) with
  | Some node => HierarchyNode.children node
  | None => []
  end.

(** [buildHierarchy]: the state of the object when the call returns (the
    returned array is [getRootNodes] of it), [None] when it does not return. *)
Definition buildHierarchy (concepts : list ExtractedConcept.t)
  (relationships : list ExtractedRelationship.t) : option State :=
  let st := initializeNodes concepts in
  let st := buildIsARelationships st relationships in
  let st := inferMissingHierarchy st concepts in
  calculateLevels st.

(** [toOntologyClasses], with the clock's reading [now] as a parameter. *)
Definition toOntologyClasses (now : string) (st : State)
  : list OntologyClass.t :=
  map
    (fun node =>
       {| OntologyClass.id := HierarchyNode.id node;
          OntologyClass.name := HierarchyNode.name node;
          OntologyClass.description :=
            Some (HierarchyNode.name node
                  ++ " concept derived from hierarchy analysis");
          OntologyClass.superClasses :=
            match parentOf node with
            | Some p => [p]
            | None => []
            end;
          OntologyClass.subClasses := HierarchyNode.children node;
          OntologyClass.properties := [];
          OntologyClass.constraints := [];
          OntologyClass.instances := [];
          OntologyClass.metadata :=
            {| ClassMetadata.created := now; ClassMetadata.modified := now;
               ClassMetadata.confidence := HierarchyNode.confidence node;
               ClassMetadata.source := inferred |} |})
    (JsMap.values (hierarchy st)).

(** *** Access to the hierarchy *)

Definition getParent (st : State) (nodeId : string) : option HierarchyNode.t :=
  match JsMap.get nodeId (hierarchy st) with
  | Some node =>
      match parentOf node with
      | Some p => JsMap.get p (hierarchy st)
      | None => None
      end
  | None => None
  end.

(** The [while (current)] loop of [getAncestors]; [None] is a loop that does
    not end. *)
Fixpoint ancestorsFrom (fuel : nat) (st : State)
  (current : option HierarchyNode.t) : option (list HierarchyNode.t) :=
  match fuel with
  | O => None
  | S fuel' =>
      match current with
      | None => Some []
      | Some node =>
          match ancestorsFrom fuel' st (getParent st (HierarchyNode.id node))
          with
          | Some rest => Some (node :: rest)
          | None => None
          end
      end
  end.

(** A chain of parents that ends visits every key at most once, and then one
    more node at most. *)
Definition getAncestors (st : State) (nodeId : string)
  : option (list HierarchyNode.t) :=
  ancestorsFrom (S (S (JsMap.size (hierarchy st)))) st (getParent st nodeId).

(** [collectDescendants]: the children are the nodes stored under the
    identifiers of [children]; [None] is a recursion that does not end. *)
Fixpoint collectDescendants (fuel : nat) (st : State) (node : HierarchyNode.t)
  (descendants : list HierarchyNode.t) : option (list HierarchyNode.t) :=
  match fuel with
  | O => None
  | S fuel' =>
      fold_left
        (fun acc childId =>
           match acc with
           | Some descendants =>
               match JsMap.get childId (hierarchy st) with
               | Some child =>
                   collectDescendants fuel' st child
                     (descendants ++ [child])%list
               | None => Some descendants
               end
           | None => None
           end)
        (HierarchyNode.children node) (Some descendants)
  end.

Definition getDescendants (st : State) (nodeId : string)
  : option (list HierarchyNode.t) :=
  match JsMap.get nodeId (hierarchy st) with
  | Some node => collectDescendants (S (JsMap.size (hierarchy st))) st node []
  | None => Some []
  end.

Definition getSiblings (st : State) (nodeId : string) : list string :=
  match JsMap.get nodeId (hierarchy st) with
  | Some node =>
      match parentOf node with
      | Some p =>
          match JsMap.get p (hierarchy st) with
          | Some parent =>
              filter (fun childId => negb (String.eqb childId nodeId))
                (HierarchyNode.children parent)
          | None => []
          end
      | None => []
      end
  | None => []
  end.

(** *** Validation of the hierarchy *)

Record HierarchyMetrics : Type :=
  { depth : nat; breadth : nat; balance : Q; coverage : Num.number }.

Record HierarchyValidationResult : Type :=
  { valid : bool; errors : list ValidationError.t;
    warnings : list ValidationWarning.t; metrics : HierarchyMetrics }.

(** [detectCycleDFS] follows [children]; [visited] and [stack] are shared by
    all calls, [path] is copied at every call. *)
Fixpoint detectCycleDFS (fuel : nat) (st : State) (nodeId : string)
  (visited stack : JsSet.t) (path : list string)
  : list string * (JsSet.t * JsSet.t) :=
  match fuel with
  | O => ([], (visited, stack))
  | S fuel' =>
      let visited := JsSet.add nodeId visited in
      let stack := JsSet.add nodeId stack in
      let path := (path ++ [nodeId])%list in
      match JsMap.get nodeId (hierarchy st) with
      | None => ([], (visited, stack))
      | Some node =>
          (fix loop (children : list string) (visited stack : JsSet.t)
             : list string * (JsSet.t * JsSet.t) :=
             match children with
             | [] => ([], (visited, JsSet.delete nodeId stack))
             | childId :: rest =>
                 if negb (JsSet.has childId visited)
                 then
                   let r := detectCycleDFS fuel' st childId visited stack path in
                   if (0 <? length (fst r))%nat then r
                   else loop rest (fst (snd r)) (snd (snd r))
                 else if JsSet.has childId stack
                 then
                   ((Arr.sliceFrom (Arr.indexOf path childId) path
                      ++ [childId])%list, (visited, stack))
                 else loop rest visited stack
             end) (HierarchyNode.children node) visited stack
      end
  end.

(** Every call of [detectCycleDFS] marks an identifier that was not marked,
    a key of the map or an entry of a [children] array. *)
Definition searchFuel (st : State) : nat :=
  S (fold_right
       (fun n acc => S (length (HierarchyNode.children n) + acc)) 0
       (JsMap.values (hierarchy st))).

Definition hierarchyCycleError (cycle : list string) : ValidationError.t :=
  {| ValidationError.type := ValidationError.circular_dependency;
     ValidationError.severity := critical;
     ValidationError.message :=
       "Circular dependency in hierarchy: " ++ Js.join " -> " cycle;
     ValidationError.affectedElements := cycle;
     ValidationError.suggestedFix :=
       Some ("Remove relationship between " ++ last cycle "" ++ " and "
             ++ hd "" cycle) |}.

Definition detectCycles (st : State) : list ValidationError.t :=
  fst
    (fold_left
       (fun acc nodeId =>
          let '(errs, (visited, recursionStack)) := acc in
          if negb (JsSet.has nodeId visited)
          then
            let r :=
              detectCycleDFS (searchFuel st) st nodeId visited recursionStack []
            in
            if (0 <? length (fst r))%nat
            then ((errs ++ [hierarchyCycleError (fst r)])%list, snd r)
            else (errs, snd r)
          else acc)
       (JsMap.keys (hierarchy st)) ([], (JsSet.empty, JsSet.empty))).

Definition detectOrphans (st : State) : list ValidationWarning.t :=
  flat_map
    (fun node =>
       if (length (HierarchyNode.children node) =? 0)%nat
          && negb (JsSet.has (HierarchyNode.id node) (rootNodes st))
       then
         if Num.ltb (HierarchyNode.confidence node) (5 # 10)
         then [{| ValidationWarning.type := ValidationWarning.orphaned_class;
                  ValidationWarning.message :=
                    "Node " ++ Js.dquote ++ HierarchyNode.name node
                    ++ Js.dquote ++ " appears isolated with low confidence";
                  ValidationWarning.affectedElements := [HierarchyNode.id node];
                  ValidationWarning.recommendation :=
                    "Consider merging with related concepts or improving evidence" |}]
         else []
       else [])
    (JsMap.values (hierarchy st)).

Definition calculateMaxDepth (st : State) : nat :=
  S (fold_left (fun maxDepth node => Nat.max maxDepth (HierarchyNode.level node))
       (JsMap.values (hierarchy st)) 0).

Definition calculateMaxBreadth (st : State) : nat :=
  fold_left
    (fun maxBreadth node =>
       Nat.max maxBreadth (length (HierarchyNode.children node)))
    (JsMap.values (hierarchy st)) 0.

Definition calculateAverageBranchingFactor (st : State) : Q :=
  let nonLeafNodes :=
    filter (fun n => (0 <? length (HierarchyNode.children n))%nat)
      (JsMap.values (hierarchy st)) in
  if (length nonLeafNodes =? 0)%nat then 0%Q
  else
    let totalChildren :=
      fold_left (fun sum n => sum + length (HierarchyNode.children n))
        nonLeafNodes 0 in
    (Num.ofNat totalChildren / Num.ofNat (length nonLeafNodes))%Q.

Definition calculateBalance (st : State) : Q :=
  let leafDepths :=
    map (fun n => Num.ofNat (HierarchyNode.level n))
      (filter (fun n => (length (HierarchyNode.children n) =? 0)%nat)
         (JsMap.values (hierarchy st))) in
  if (length leafDepths =? 0)%nat then 1%Q
  else
    let count := Num.ofNat (length leafDepths) in
    let avgDepth := (fold_left Qplus leafDepths 0 / count)%Q in
    let variance :=
      (fold_left
         (fun sum d => sum + (d - avgDepth) * (d - avgDepth)) leafDepths 0
       / count)%Q in
    Num.max 0 (1 - variance / 10)%Q.

Definition calculateCoverage (st : State) : Num.number :=
  let wellSupportedNodes :=
    filter
      (fun n =>
         Num.gtb (HierarchyNode.confidence n) (5 # 10)
         && (0 <? length (HierarchyNode.evidence n))%nat)
      (JsMap.values (hierarchy st)) in
  Num.div (Num.ofNat (length wellSupportedNodes))
    (Num.max (Num.ofNat (JsMap.size (hierarchy st))) 1).

Definition calculateHierarchyMetrics (st : State) : HierarchyMetrics :=
  {| depth := calculateMaxDepth st; breadth := calculateMaxBreadth st;
     balance := calculateBalance st; coverage := calculateCoverage st |}.

Definition balanceWarning (message recommendation : string)
  : ValidationWarning.t :=
  {| ValidationWarning.type := ValidationWarning.low_coverage;
     ValidationWarning.message := message;
     ValidationWarning.affectedElements := [];
     ValidationWarning.recommendation := recommendation |}.

Definition checkBalance (st : State) : list ValidationWarning.t :=
  let maxDepth := calculateMaxDepth st in
  let avgBranchingFactor := calculateAverageBranchingFactor st in
  ((if (8 <? maxDepth)%nat
    then [balanceWarning
            ("Hierarchy is very deep (" ++ Num.natToString maxDepth
             ++ " levels) which may indicate over-specialization")
            "Consider consolidating some intermediate levels"]
    else [])
   ++ (if Num.gtb avgBranchingFactor 15
       then [balanceWarning
               ("High branching factor (" ++ Num.toFixed1 avgBranchingFactor
                ++ ") may indicate under-categorization")
               "Consider adding intermediate categories"]
       else []))%list.

Definition validateHierarchy (st : State) : HierarchyValidationResult :=
  let errs := detectCycles st in
  let warns := (detectOrphans st ++ checkBalance st)%list in
  {| valid := (length errs =? 0)%nat; errors := errs; warnings := warns;
     metrics := calculateHierarchyMetrics st |}.

End ConceptHierarchy.

(** * Vocabulary of the properties *)

(** ** The class graph of a store *)

Module ClassGraph.

Import OntologyManager.

(** [link s a b]: in the store [s], the class [a] is recorded as a subclass of
    [b], by [a]'s [superClasses] or by [b]'s [subClasses]. *)
Definition link (s : Store) (a b : string) : Prop :=
  (exists A, getClass a s = Some A /\ In b (OntologyClass.superClasses A))
  \/ (exists B, getClass b s = Some B /\ In a (OntologyClass.subClasses B)).

Definition acyclic (s : Store) : Prop :=
  forall a, ~ clos_trans string (link s) a a.

(** For all classes [A], [B] of the store: [B] is in [A.subClasses] iff [A] is
    in [B.superClasses]. *)
Definition symmetric (s : Store) : Prop :=
  forall a b A B,
    getClass a s = Some A -> getClass b s = Some B ->
    (In b (OntologyClass.subClasses A) <-> In a (OntologyClass.superClasses B)).

(** Every class of [s'] is a class of [s] under the same key, with no link
    that it did not have in [s]. *)
Definition shrinks (s' s : Store) : Prop :=
  forall k c',
    getClass k s' = Some c' ->
    exists c,
      getClass k s = Some c
      /\ incl (OntologyClass.superClasses c') (OntologyClass.superClasses c)
      /\ incl (OntologyClass.subClasses c') (OntologyClass.subClasses c).

(** [newTo s c]: the class [c] comes to the store [s] as a new leaf.  No
    class is stored under its identifier, no class of the store names that
    identifier among its super-classes or sub-classes, and [c] itself has no
    sub-class and is not its own super-class. *)
Definition newTo (s : Store) (c : OntologyClass.t) : bool :=
  let id := OntologyClass.id c in
  negb (JsMap.has id (classes s))
  && forallb
       (fun v =>
          negb (Arr.includes (OntologyClass.superClasses v) id)
          && negb (Arr.includes (OntologyClass.subClasses v) id))
       (getAllClasses s)
  && (length (OntologyClass.subClasses c) =? 0)%nat
  && negb (Arr.includes (OntologyClass.superClasses c) id).

(** [parentsFirst s ops]: every [addClass] among the operations [ops], run
    from the store [s], adds a class that is new to the store it is added
    to; so a class is added after the super-classes it names, or without
    them. *)
Fixpoint parentsFirst (s : Store) (ops : list Op) : bool :=
  match ops with
  | [] => true
  | op :: rest =>
      match op with
      | AddClass c => newTo s c
      | _ => true
      end
      && parentsFirst (step s op) rest
  end.

End ClassGraph.

(** ** What a rule contributes to a report *)

Module Isolation.

Import OntologyValidator.

(** The findings of one rule on its own: what its validator returns, or the
    one error that stands for a validator that throws, and then no warning
    and no suggestion. *)
Definition errorsOf (context : ValidationContext) (r : ValidationRule)
  : list ValidationError.t :=
  match validator r context with
  | Returns result => errors result
  | Throws error => [ruleFailedError r error]
  end.

Definition warningsOf (context : ValidationContext) (r : ValidationRule)
  : list ValidationWarning.t :=
  match validator r context with
  | Returns result => warnings result
  | Throws _ => []
  end.

Definition suggestionsOf (context : ValidationContext) (r : ValidationRule)
  : list ValidationSuggestion.t :=
  match validator r context with
  | Returns result => suggestions result
  | Throws _ => []
  end.

End Isolation.

(** ** Bounds of a metric *)

(** A metric is a finite number between 0 and 1.  [Num.div] gives a finite
    number only when its divisor is not zero. *)
Definition inUnitInterval (x : Num.number) : Prop :=
  exists q, x = Num.Finite q /\ (0 <= q)%Q /\ (q <= 1)%Q.

(** ** Mirror relationships *)

Module Mirror.

Import OntologyManager.

(** The claim as stated: after [addRelationship r], the relationship stored
    under [target-type-source] runs from [r]'s target to [r]'s source. *)
Definition mirrored (s : Store) (r : OntologyRelationship.t) : Prop :=
  exists m,
    getRelationship (reverseIdOf r) (addRelationship r s) = Some m
    /\ OntologyRelationship.source m = OntologyRelationship.target r
    /\ OntologyRelationship.target m = OntologyRelationship.source r.

(** The relationships once [r] itself is stored. *)
Definition withR (s : Store) (r : OntologyRelationship.t)
  : JsMap.t OntologyRelationship.t :=
  JsMap.set (OntologyRelationship.id r) r (relationships s).

End Mirror.

(** ** Observations of a pair of concepts *)

Module Consolidation.

Import DomainAnalyzer.

(** The pair [p] is the pair [(a, b)] or the pair [(b, a)]. *)
Definition unordered (a b : string) (p : string * string) : bool :=
  (String.eqb (fst p) a && String.eqb (snd p) b)
  || (String.eqb (fst p) b && String.eqb (snd p) a).

(** What the two inner loops visit in one sentence: the sentence, its
    relationship type and a pair of concepts found in it. *)
Definition sightingsIn (conceptNames : JsSet.t) (sentence : string)
  : list (string * string * (string * string)) :=
  map
    (fun p =>
       (sentence,
        identifyRelationshipType sentence (foundIn conceptNames sentence), p))
    (Arr.pairsOf (foundIn conceptNames sentence)).

(** All the visits of the loops of [extractRelationships], in order. *)
Definition sightings (tiddlers : list Tiddler.t)
  (concepts : list ExtractedConcept.t)
  : list (string * string * (string * string)) :=
  flat_map
    (fun tiddler =>
       flat_map (sightingsIn (conceptNamesOf concepts)) (sentencesOf tiddler))
    tiddlers.

(** How many times the concepts [a] and [b] are found together in a
    sentence of the corpus. *)
Definition timesObserved (a b : string) (tiddlers : list Tiddler.t)
  (concepts : list ExtractedConcept.t) : nat :=
  length (filter (fun o => unordered a b (snd o)) (sightings tiddlers concepts)).

(** One visit, as the loop body performs it. *)
Definition sight (relationships : list ExtractedRelationship.t)
  (o : string * string * (string * string)) : list ExtractedRelationship.t :=
  observe (fst (fst o)) (snd (fst o)) relationships (snd o).

(** The relationships of the result with the triple [(a, ty, b)]. *)
Definition withTriple (a ty b : string) (l : list ExtractedRelationship.t)
  : list ExtractedRelationship.t :=
  filter
    (fun r =>
       String.eqb (ExtractedRelationship.source r) a
       && String.eqb (ExtractedRelationship.type r) ty
       && String.eqb (ExtractedRelationship.target r) b)
    l.

(** The claim as stated, for a triple observed [n] times: one relationship
    for the triple, of strength [min(1.0, 0.3 + 0.1 * (n - 1))], with [n]
    pieces of evidence. *)
Definition consolidatedAsClaimed (tiddlers : list Tiddler.t)
  (concepts : list ExtractedConcept.t) (a ty b : string) (n : nat) : Prop :=
  exists r,
    withTriple a ty b (extractRelationships tiddlers concepts) = [r]
    /\ (ExtractedRelationship.strength r
        == Qmin 1 ((3 # 10) + (1 # 10) * (Num.ofNat n - 1)))%Q
    /\ length (ExtractedRelationship.evidence r) = n.

(** The relationships of [l] between [a] and [b], after [n] observations of
    the pair: none when [n = 0], otherwise one, of strength
    [0.3 + 0.1 * (n - 1)] and with [n] pieces of evidence. *)
Definition consolidated (a b : string) (l : list ExtractedRelationship.t)
  (n : nat) : Prop :=
  match n with
  | O => filter (links a b) l = []
  | S m =>
      exists r,
        filter (links a b) l = [r]
        /\ (ExtractedRelationship.strength r
            == (3 # 10) + (1 # 10) * Num.ofNat m)%Q
        /\ length (ExtractedRelationship.evidence r) = S m
  end.

(** The strength of [r] is at least the base strength 0.3. *)
Definition atLeastBase (r : ExtractedRelationship.t) : Prop :=
  ((3 # 10) <= ExtractedRelationship.strength r)%Q.

End Consolidation.

(** ** The shape of a hierarchy *)

Module Forest.

Import ConceptHierarchy.

(** [up nodes c p]: the node [c] has [p] in its [parent] field. *)
Definition up (nodes : JsMap.t HierarchyNode.t) (c p : string) : Prop :=
  exists node,
    JsMap.get c nodes = Some node /\ HierarchyNode.parent node = Some p.

(** [down nodes p c]: the node [p] has [c] in its [children] array. *)
Definition down (nodes : JsMap.t HierarchyNode.t) (p c : string) : Prop :=
  exists node,
    JsMap.get p nodes = Some node /\ In c (HierarchyNode.children node).

Definition parentEdge (st : State) : string -> string -> Prop :=
  up (hierarchy st).
Definition childEdge (st : State) : string -> string -> Prop :=
  down (hierarchy st).

(** No node is in the [children] of two nodes. *)
Definition singleParent (st : State) : Prop :=
  forall c p1 p2, childEdge st p1 c -> childEdge st p2 c -> p1 = p2.

(** The parent relation has no directed cycle. *)
Definition acyclic (st : State) : Prop :=
  forall c, ~ clos_trans string (parentEdge st) c c.

Definition isForest (st : State) : Prop := singleParent st /\ acyclic st.

(** The invariant of the node map while edges are placed: a node is stored
    under its identifier, no identifier is empty, [parent] and [children]
    mirror each other, and the parent relation has no cycle. *)
Record wellFormed (nodes : JsMap.t HierarchyNode.t) : Prop :=
  { wf_ids : forall k n, JsMap.get k nodes = Some n -> HierarchyNode.id n = k;
    wf_keys : forall k n, JsMap.get k nodes = Some n -> k <> "";
    wf_parent : forall c p, up nodes c p -> down nodes p c;
    wf_children : forall p c, down nodes p c -> up nodes c p;
    wf_acyclic : forall c, ~ clos_trans string (up nodes) c c }.

(** What [calculateLevels] leaves unchanged in a node. *)
Definition shape (n : HierarchyNode.t)
  : string * (option string * list string) :=
  (HierarchyNode.id n, (HierarchyNode.parent n, HierarchyNode.children n)).

Definition sameShape (nodes nodes' : JsMap.t HierarchyNode.t) : Prop :=
  forall k,
    option_map shape (JsMap.get k nodes') = option_map shape (JsMap.get k nodes).

Definition namesAreNonEmpty (concepts : list ExtractedConcept.t) : Prop :=
  forall c, In c concepts -> ExtractedConcept.name c <> "".

(** [rootNodes] holds exactly the identifiers of the nodes without parent. *)
Definition rootsAreParentless (st : State) : Prop :=
  forall k,
    In k (rootNodes st)
    <-> exists n,
          JsMap.get k (hierarchy st) = Some n /\ HierarchyNode.parent n = None.

(** [depthIs nodes k d]: the chain of parents that starts at the node [k]
    has [d] links. *)
Inductive depthIs (nodes : JsMap.t HierarchyNode.t) : string -> nat -> Prop :=
| depth_root k n :
    JsMap.get k nodes = Some n -> HierarchyNode.parent n = None ->
    depthIs nodes k 0
| depth_child k p d :
    up nodes k p -> depthIs nodes p d -> depthIs nodes k (S d).

(** The [level] of every node is its depth. *)
Definition levelled (nodes : JsMap.t HierarchyNode.t) : Prop :=
  forall k n, JsMap.get k nodes = Some n -> depthIs nodes k (HierarchyNode.level n).

End Forest.

(** ** Depth-first search for a cycle

    [OntologyValidator.detectCycle], [OntologyManager.detectCycleInHierarchy]
    and [ConceptHierarchy.detectCycleDFS] are the same search, over the
    super-classes of a class map or over the children of a node map.  [dfs] is
    that search over any successor function [next] ([None] for an identifier
    that is not a key of the map), and [sweep] is the loop that starts it from
    every root that is not visited yet. *)

Module Search.

Definition result : Type := (list string * (JsSet.t * JsSet.t))%type.

Section Dfs.

Variable next : string -> option (list string).

(** The loop over the successors of [nodeId]; [call] is the recursive call. *)
Definition dfsLoop (call : string -> JsSet.t -> JsSet.t -> result)
  (nodeId : string) (path : list string)
  : list string -> JsSet.t -> JsSet.t -> result :=
  fix loop (successors : list string) (visited stack : JsSet.t) : result :=
    match successors with
    | [] => ([], (visited, JsSet.delete nodeId stack))
    | w :: rest =>
        if negb (JsSet.has w visited)
        then
          let r := call w visited stack in
          if (0 <? length (fst r))%nat then r
          else loop rest (fst (snd r)) (snd (snd r))
        else if JsSet.has w stack
        then
          ((Arr.sliceFrom (Arr.indexOf path w) path ++ [w])%list,
           (visited, stack))
        else loop rest visited stack
    end.

Fixpoint dfs (fuel : nat) (nodeId : string) (visited stack : JsSet.t)
  (path : list string) : result :=
  match fuel with
  | O => ([], (visited, stack))
  | S fuel' =>
      let visited := JsSet.add nodeId visited in
      let stack := JsSet.add nodeId stack in
      let path := (path ++ [nodeId])%list in
      match next nodeId with
      | None => ([], (visited, stack))
      | Some successors =>
          dfsLoop (fun w visited stack => dfs fuel' w visited stack path)
            nodeId path successors visited stack
      end
  end.

(** The cycles reported when the search is started from every root that is
    not visited yet, with the two sets shared by all the searches. *)
Definition sweep (fuel : nat) (roots : list string)
  : list (list string) * (JsSet.t * JsSet.t) :=
  fold_left
    (fun acc root =>
       let '(cycles, (visited, stack)) := acc in
       if negb (JsSet.has root visited)
       then
         let r := dfs fuel root visited stack [] in
         if (0 <? length (fst r))%nat
         then ((cycles ++ [fst r])%list, snd r)
         else (cycles, snd r)
       else acc)
    roots ([], (JsSet.empty, JsSet.empty)).

(** [edge u w]: [w] is a successor of [u]. *)
Definition edge (u w : string) : Prop :=
  exists successors, next u = Some successors /\ In w successors.

Definition cyclic : Prop := exists u, clos_trans string edge u u.

End Dfs.

(** The successor functions of the three searches. *)
Definition superClassesIn (classMap : JsMap.t OntologyClass.t) (k : string)
  : option (list string) :=
  option_map OntologyClass.superClasses (JsMap.get k classMap).

Definition childrenIn (nodes : JsMap.t HierarchyNode.t) (k : string)
  : option (list string) :=
  option_map HierarchyNode.children (JsMap.get k nodes).

(** Every super-class reference of the map names a class of the map. *)
Definition resolved (classMap : JsMap.t OntologyClass.t) : Prop :=
  forall k c sup,
    JsMap.get k classMap = Some c -> In sup (OntologyClass.superClasses c) ->
    JsMap.has sup classMap = true.

End Search.

(** ** The end-to-end scenario *)

Module Scenario.

(** The store filled with the classes of a hierarchy. *)
Definition storeOf (now : string) (st : ConceptHierarchy.State)
  : OntologyManager.Store :=
  OntologyManager.run
    (map OntologyManager.AddClass (ConceptHierarchy.toOntologyClasses now st)).

(** The report of the validator, with its initial rule list, on the contents
    of a store. *)
Definition reportOn (s : OntologyManager.Store) : OntologyValidationResult.t :=
  OntologyValidator.validateOntology OntologyValidator.validationRules
    (OntologyManager.getAllClasses s) (OntologyManager.getAllProperties s)
    (JsMap.values (OntologyManager.relationships s)).

Definition conceptNames (concepts : list ExtractedConcept.t) : list string :=
  map ExtractedConcept.name concepts.

Definition isA (child parent : string) (r : ExtractedRelationship.t) : Prop :=
  ExtractedRelationship.source r = child
  /\ ExtractedRelationship.type r = "is-a"
  /\ ExtractedRelationship.target r = parent.

(** [child] is a child of [parent] in the hierarchy. *)
Definition childOf (st : ConceptHierarchy.State) (child parent : string)
  : Prop :=
  exists c p,
    ConceptHierarchy.getNodeByName st child = Some c
    /\ ConceptHierarchy.getNodeByName st parent = Some p
    /\ HierarchyNode.parent c = Some (HierarchyNode.id p)
    /\ In (HierarchyNode.id c) (HierarchyNode.children p).

(** The scenario as the claim states it. *)
Definition asClaimed (now : string) (corpus : list Tiddler.t) : Prop :=
  let concepts := DomainAnalyzer.extractConcepts corpus in
  let rels := DomainAnalyzer.extractRelationships corpus concepts in
  (forall name,
      In name (conceptNames concepts)
      <-> In name ["dog"; "cat"; "mammal"; "fur"; "animal"])
  /\ (exists c, In c concepts /\ ExtractedConcept.name c = "mammal"
                /\ 2 <= ExtractedConcept.frequency c)
  /\ (exists r, In r rels /\ isA "dog" "mammal" r)
  /\ (exists r, In r rels /\ isA "cat" "mammal" r)
  /\ exists st,
       ConceptHierarchy.buildHierarchy concepts rels = Some st
       /\ childOf st "dog" "mammal" /\ childOf st "cat" "mammal"
       /\ OntologyValidationResult.valid (reportOn (storeOf now st)) = true
       /\ filter OntologyValidator.isCritical
            (OntologyValidationResult.errors (reportOn (storeOf now st))) = [].

End Scenario.

(** ** Sample data *)

Module Sample.

Definition meta : ClassMetadata.t :=
  {| ClassMetadata.created := "2024-01-01T00:00:00.000Z";
     ClassMetadata.modified := "2024-01-01T00:00:00.000Z";
     ClassMetadata.confidence := 1%Q; ClassMetadata.source := manual |}.

(** A class with the given identifier and super-classes, nothing else. *)
Definition cls (id : string) (supers : list string) : OntologyClass.t :=
  {| OntologyClass.id := id; OntologyClass.name := id;
     OntologyClass.description := None;
     OntologyClass.superClasses := supers; OntologyClass.subClasses := [];
     OntologyClass.properties := []; OntologyClass.constraints := [];
     OntologyClass.instances := []; OntologyClass.metadata := meta |}.

Definition rel (id type source target : string) (bidirectional : bool)
  : OntologyRelationship.t :=
  {| OntologyRelationship.id := id; OntologyRelationship.type := type;
     OntologyRelationship.source := source;
     OntologyRelationship.target := target;
     OntologyRelationship.properties := [];
     OntologyRelationship.confidence := 1%Q;
     OntologyRelationship.bidirectional := bidirectional;
     OntologyRelationship.metadata :=
       {| RelationshipMetadata.created := "2024-01-01T00:00:00.000Z";
          RelationshipMetadata.source := manual |} |}.

(** The child [B] is defined before its parent [A]. *)
Definition childFirst : list OntologyManager.Op :=
  [OntologyManager.AddClass (cls "B" ["A"]);
   OntologyManager.AddClass (cls "A" [])].

(** [A] has super-class [B] and [B] has super-class [A]. *)
Definition mutualSupers : list OntologyManager.Op :=
  [OntologyManager.AddClass (cls "A" ["B"]);
   OntologyManager.AddClass (cls "B" ["A"])].

(** The parent [A], then the child [B]. *)
Definition parentFirst : list OntologyManager.Op :=
  [OntologyManager.AddClass (cls "A" []);
   OntologyManager.AddClass (cls "B" ["A"])].

(** A store that already holds a relationship under the identifier
    ["b-t-a"], and a bidirectional relationship from ["a"] to ["b"]. *)
Definition occupied : OntologyManager.Store :=
  OntologyManager.addRelationship (rel "b-t-a" "t" "x" "y" false)
    OntologyManager.empty.
Definition aToB : OntologyRelationship.t := rel "r1" "t" "a" "b" true.

(** A custom rule whose validator throws, as registered through
    [addCustomValidationRule]. *)
Definition thrower : OntologyValidator.ValidationRule :=
  {| OntologyValidator.name := "custom_check";
     OntologyValidator.description := "A rule that fails";
     OntologyValidator.severity := minor;
     OntologyValidator.validator :=
       fun _ =>
         OntologyValidator.Throws
           "TypeError: Cannot read properties of undefined" |}.

(** The rule list [circular_hierarchy; custom_check; naming_conventions]. *)
Definition rulesBefore : list OntologyValidator.ValidationRule :=
  firstn 1 OntologyValidator.validationRules.
Definition rulesAfter : list OntologyValidator.ValidationRule :=
  firstn 1 (skipn 5 OntologyValidator.validationRules).

Definition tagged (title text : string) (tags : list string) : Tiddler.t :=
  {| Tiddler.title := title; Tiddler.text := text; Tiddler.tags := Some tags |}.

(** The two documents of the scenario, tagged [animal], under the titles
    ["A"] and ["B"] (titles of one letter add no term of their own). *)
Definition animals : list Tiddler.t :=
  [tagged "A" "Dogs are mammals. Dogs have fur." ["animal"];
   tagged "B" "Cats are mammals." ["animal"]].

(** The same documents under the titles ["Dogs"] and ["Cats"]. *)
Definition animalsTitled : list Tiddler.t :=
  [tagged "Dogs" "Dogs are mammals. Dogs have fur." ["animal"];
   tagged "Cats" "Cats are mammals." ["animal"]].

Definition now : string := "2024-01-01T00:00:00.000Z".

Definition concept (name : string) : ExtractedConcept.t :=
  {| ExtractedConcept.name := name; ExtractedConcept.type := abstract;
     ExtractedConcept.frequency := 2; ExtractedConcept.contexts := [];
     ExtractedConcept.suggestedClass := None;
     ExtractedConcept.confidence := (5 # 10)%Q |}.

Definition isARelationship (source target : string) : ExtractedRelationship.t :=
  {| ExtractedRelationship.source := source;
     ExtractedRelationship.target := target;
     ExtractedRelationship.type := "is-a";
     ExtractedRelationship.strength := (3 # 10)%Q;
     ExtractedRelationship.evidence := [];
     ExtractedRelationship.confidence := (5 # 10)%Q |}.

(** A concept whose name is the empty string, beside ordinary ones. *)
Definition withEmptyName : list ExtractedConcept.t :=
  [concept ""; concept "x"; concept "y"].

(** ["x"] is-a [""], then [""] is-a ["x"]. *)
Definition thereAndBack : list ExtractedRelationship.t :=
  [isARelationship "x" ""; isARelationship "" "x"].

(** ["x"] is-a [""], then ["x"] is-a ["y"]. *)
Definition twoParents : list ExtractedRelationship.t :=
  [isARelationship "x" ""; isARelationship "x" "y"].

(** ["x"] is-a [""], ["x"] is-a ["y"], then [""] is-a ["x"]. *)
Definition twoParentsAndBack : list ExtractedRelationship.t :=
  [isARelationship "x" ""; isARelationship "x" "y"; isARelationship "" "x"].

Definition untagged (title text : string) : Tiddler.t :=
  {| Tiddler.title := title; Tiddler.text := text; Tiddler.tags := None |}.

Definition dogsAndMammals : list ExtractedConcept.t :=
  [concept "dogs"; concept "mammals"].

(** One document that says nine times that dogs are mammals. *)
Definition nineTimes : list Tiddler.t :=
  [untagged "Dogs"
     ("Dogs are mammals. Dogs are mammals. Dogs are mammals. "
      ++ "Dogs are mammals. Dogs are mammals. Dogs are mammals. "
      ++ "Dogs are mammals. Dogs are mammals. Dogs are mammals.")].

(** One document with an is-a sentence and a similar-to sentence about the
    same two concepts. *)
Definition twoTypes : list Tiddler.t :=
  [untagged "Dogs" "Dogs are mammals. Dogs look like mammals."].

End Sample.

(** * Properties *)

(** ** Lookups in a [JsMap] *)

Section JsMapFacts.
Context {V : Type}.
Implicit Types (m : JsMap.t V) (k : string) (v : V).

Lemma get_set_same k v m : JsMap.get k (JsMap.set k v m) = Some v.
Proof.
  induction m as [|[k' v'] m IH]; simpl.
  - now rewrite String.eqb_refl.
  - destruct (String.eqb k k') eqn:E; simpl; rewrite ?E, ?String.eqb_refl; auto.
Qed.

Lemma get_set_other k k' v m :
  k <> k' -> JsMap.get k (JsMap.set k' v m) = JsMap.get k m.
Proof.
  intros Hne. induction m as [|[k2 v2] m IH]; simpl.
  - destruct (String.eqb_spec k k'); congruence.
  - destruct (String.eqb_spec k' k2); simpl.
    + subst k2. destruct (String.eqb_spec k k'); congruence.
    + destruct (String.eqb_spec k k2); auto.
Qed.

Lemma get_set k k' v m :
  JsMap.get k (JsMap.set k' v m)
  = if String.eqb k k' then Some v else JsMap.get k m.
Proof.
  destruct (String.eqb_spec k k').
  - subst. apply get_set_same.
  - now apply get_set_other.
Qed.

Lemma get_delete k k' m :
  JsMap.get k (JsMap.delete k' m)
  = if String.eqb k k' then None else JsMap.get k m.
Proof.
  induction m as [|[k2 v2] m IH]; simpl.
  - now destruct (String.eqb k k').
  - destruct (String.eqb_spec k' k2); simpl.
    + subst k2. rewrite IH. destruct (String.eqb_spec k k'); auto.
    + rewrite IH. destruct (String.eqb_spec k k2); auto.
      subst k2. destruct (String.eqb_spec k k'); congruence.
Qed.

Lemma has_get k m :
  JsMap.has k m = match JsMap.get k m with Some _ => true | None => false end.
Proof. reflexivity. Qed.

End JsMapFacts.

(** ** The store's own validation never returns *)

(** C1 (the code departs from the claim).  [OntologyManager.validateOntology]
    computes its metrics through [calculateConsistencyScore], which calls
    [validateOntology] again on the same store before anything is returned.
    Whatever the store holds, and however many nested calls are allowed, the
    call does not return: every call waits for one more call. *)
Theorem validateOntology_never_returns :
  forall (fuel : nat) (s : OntologyManager.Store),
    OntologyManager.validateOntology fuel s = None.
Proof.
  induction fuel as [|fuel IH]; intros s; simpl.
  - reflexivity.
  - unfold OntologyManager.calculateOntologyMetrics,
      OntologyManager.calculateConsistencyScore.
    now rewrite IH.
Qed.

(** A call returns only if the call it makes on the same store has returned. *)
Lemma validateOntology_waits_for_itself :
  forall (fuel : nat) (s : OntologyManager.Store) r,
    OntologyManager.validateOntology (S fuel) s = Some r ->
    exists r', OntologyManager.validateOntology fuel s = Some r'.
Proof.
  intros fuel s r. simpl.
  unfold OntologyManager.calculateOntologyMetrics,
    OntologyManager.calculateConsistencyScore.
  destruct (OntologyManager.validateOntology fuel s) as [r'|]; [eauto|discriminate].
Qed.

(** ** Referential symmetry of the store *)

(** C3 (the code departs from the claim).  [addClass] links a class to the
    super-classes that are in the store when it is added, and to no other:
    after the child ["B"] (super-class ["A"]) and then the parent ["A"] are
    added to the empty store, ["A"] is in [B.superClasses] and ["B"] is not in
    [A.subClasses]. *)
Theorem child_before_parent_breaks_symmetry :
  OntologyManager.getClass "A" (OntologyManager.run Sample.childFirst)
  = Some (Sample.cls "A" [])
  /\ OntologyManager.getClass "B" (OntologyManager.run Sample.childFirst)
     = Some (Sample.cls "B" ["A"])
  /\ ~ ClassGraph.symmetric (OntologyManager.run Sample.childFirst).
Proof.
  assert (HA : OntologyManager.getClass "A" (OntologyManager.run Sample.childFirst)
               = Some (Sample.cls "A" [])) by reflexivity.
  assert (HB : OntologyManager.getClass "B" (OntologyManager.run Sample.childFirst)
               = Some (Sample.cls "B" ["A"])) by reflexivity.
  repeat split; trivial.
  intros Hsym.
  destruct (Hsym "A" "B" _ _ HA HB) as [_ Hback].
  apply Hback. simpl. now left.
Qed.

(** ** Mirror relationships *)

(** C10, counterexample.  The store holds a relationship from ["x"] to ["y"]
    under the identifier ["b-t-a"]; the bidirectional relationship from ["a"]
    to ["b"] of type ["t"] is added.  The relationship under ["b-t-a"] is
    still the old one: it does not run from ["b"] to ["a"]. *)
Lemma occupied_mirror_id_is_kept :
  OntologyRelationship.bidirectional Sample.aToB = true
  /\ ~ Mirror.mirrored Sample.occupied Sample.aToB.
Proof.
  split; [reflexivity|].
  intros [m [Hget [Hsrc _]]].
  vm_compute in Hget. injection Hget as <-.
  vm_compute in Hsrc. discriminate.
Qed.

(** C10, as amended.  [addRelationship r] stores [r] under [r.id].  When [r]
    is bidirectional and, with [r] stored, no relationship has the identifier
    [target-type-source], the mirror is stored under it: the copy of [r] that
    runs from [r]'s target to [r]'s source.  When a relationship has that
    identifier already, it is kept as it is and nothing else is stored.  When
    [r] is not bidirectional, nothing but [r] is stored. *)
Theorem addRelationship_mirror :
  forall (s : OntologyManager.Store) (r : OntologyRelationship.t),
    let s' := OntologyManager.addRelationship r s in
    let rid := OntologyManager.reverseIdOf r in
    if OntologyRelationship.bidirectional r
    then
      match JsMap.get rid (Mirror.withR s r) with
      | None =>
          OntologyManager.getRelationship rid s'
          = Some (OntologyManager.reverseOf r)
          /\ OntologyRelationship.source (OntologyManager.reverseOf r)
             = OntologyRelationship.target r
          /\ OntologyRelationship.target (OntologyManager.reverseOf r)
             = OntologyRelationship.source r
          /\ OntologyManager.getRelationship (OntologyRelationship.id r) s'
             = Some r
          /\ forall k, k <> rid ->
               OntologyManager.getRelationship k s'
               = JsMap.get k (Mirror.withR s r)
      | Some existing =>
          OntologyManager.getRelationship rid s' = Some existing
          /\ OntologyManager.relationships s' = Mirror.withR s r
      end
    else OntologyManager.relationships s' = Mirror.withR s r.
Proof.
  intros s r s' rid. subst s' rid.
  unfold OntologyManager.addRelationship,
    OntologyManager.createBidirectionalRelationship,
    OntologyManager.getRelationship, Mirror.withR.
  destruct (OntologyRelationship.bidirectional r); [|reflexivity].
  simpl. rewrite (has_get (OntologyManager.reverseIdOf r)).
  destruct (JsMap.get (OntologyManager.reverseIdOf r)
              (JsMap.set (OntologyRelationship.id r) r
                 (OntologyManager.relationships s))) as [existing|] eqn:Hget;
    simpl.
  - now rewrite Hget.
  - repeat split.
    + apply get_set_same.
    + rewrite get_set in Hget. rewrite get_set.
      destruct (String.eqb_spec (OntologyManager.reverseIdOf r)
                  (OntologyRelationship.id r)) as [E|E]; [discriminate|].
      destruct (String.eqb_spec (OntologyRelationship.id r)
                  (OntologyManager.reverseIdOf r)) as [E'|_];
        [now symmetry in E'|].
      apply get_set_same.
    + intros k Hk. now apply get_set_other.
Qed.

(** ** The rule loop of the validator *)

Section RuleLoop.

Import OntologyValidator.

Variable context : ValidationContext.

Lemma runRule_errors acc r :
  errors (runRule context acc r)
  = (errors acc ++ errors (runRule context noFindings r))%list.
Proof. unfold runRule. now destruct (validator r context). Qed.

Lemma runRule_warnings acc r :
  warnings (runRule context acc r)
  = (warnings acc ++ warnings (runRule context noFindings r))%list.
Proof.
  unfold runRule. destruct (validator r context); simpl; auto.
  now rewrite app_nil_r.
Qed.

Lemma runRule_suggestions acc r :
  suggestions (runRule context acc r)
  = (suggestions acc ++ suggestions (runRule context noFindings r))%list.
Proof.
  unfold runRule. destruct (validator r context); simpl; auto.
  now rewrite app_nil_r.
Qed.

(** The loop only ever appends to what it has collected. *)
Lemma loop_appends rules :
  forall acc,
    let out := fold_left (runRule context) rules acc in
    let fresh := fold_left (runRule context) rules noFindings in
    errors out = (errors acc ++ errors fresh)%list
    /\ warnings out = (warnings acc ++ warnings fresh)%list
    /\ suggestions out = (suggestions acc ++ suggestions fresh)%list.
Proof.
  induction rules as [|r rules IH]; intros acc; simpl.
  - now rewrite !app_nil_r.
  - destruct (IH (runRule context acc r)) as (He & Hw & Hs).
    destruct (IH (runRule context noFindings r)) as (He' & Hw' & Hs').
    rewrite He, Hw, Hs, He', Hw', Hs'.
    rewrite runRule_errors, runRule_warnings, runRule_suggestions.
    now rewrite !app_assoc.
Qed.

Lemma runRules_app rules1 rules2 :
  errors (runRules (rules1 ++ rules2) context)
  = (errors (runRules rules1 context) ++ errors (runRules rules2 context))%list
  /\ warnings (runRules (rules1 ++ rules2) context)
     = (warnings (runRules rules1 context)
        ++ warnings (runRules rules2 context))%list
  /\ suggestions (runRules (rules1 ++ rules2) context)
     = (suggestions (runRules rules1 context)
        ++ suggestions (runRules rules2 context))%list.
Proof.
  unfold runRules. rewrite fold_left_app.
  apply (loop_appends rules2 (fold_left (runRule context) rules1 noFindings)).
Qed.

Lemma runRules_cons r rules :
  errors (runRules (r :: rules) context)
  = (errors (runRule context noFindings r)
     ++ errors (runRules rules context))%list
  /\ warnings (runRules (r :: rules) context)
     = (warnings (runRule context noFindings r)
        ++ warnings (runRules rules context))%list
  /\ suggestions (runRules (r :: rules) context)
     = (suggestions (runRule context noFindings r)
        ++ suggestions (runRules rules context))%list.
Proof. apply (runRules_app [r] rules). Qed.

(** The loop collects, rule after rule, what each rule finds on its own. *)
Lemma runRules_findings rules :
  errors (runRules rules context) = flat_map (Isolation.errorsOf context) rules
  /\ warnings (runRules rules context)
     = flat_map (Isolation.warningsOf context) rules
  /\ suggestions (runRules rules context)
     = flat_map (Isolation.suggestionsOf context) rules.
Proof.
  induction rules as [|r rules (IHe & IHw & IHs)]; [now split|].
  destruct (runRules_cons r rules) as (He & Hw & Hs).
  rewrite He, Hw, Hs, IHe, IHw, IHs. cbn [flat_map].
  unfold runRule, Isolation.errorsOf, Isolation.warningsOf,
    Isolation.suggestionsOf.
  now destruct (validator r context).
Qed.

End RuleLoop.

(** ** Substrings *)

Lemma prefix_app (b c : string) : String.prefix b (b ++ c) = true.
Proof.
  induction b as [|x b IH]; simpl.
  - now destruct c.
  - destruct (ascii_dec x x); [assumption|congruence].
Qed.

Lemma includes_here (s sub : string) :
  String.prefix sub s = true -> Js.includes s sub = true.
Proof. intros H. destruct s; cbn [Js.includes]; now rewrite H. Qed.

Lemma includes_app (a s sub : string) :
  Js.includes s sub = true -> Js.includes (a ++ s) sub = true.
Proof.
  intros H. induction a as [|x a IH]; [assumption|].
  cbn [append Js.includes].
  now destruct (String.prefix sub (String x (a ++ s))).
Qed.

Lemma includes_middle (a b c : string) : Js.includes (a ++ b ++ c) b = true.
Proof. apply includes_app, includes_here, prefix_app. Qed.

(** ** Isolation of a failing rule *)

(** C7.  Whatever the classes, properties and relationships, and wherever the
    rule stands in the list: when the validator of a rule throws, the report
    holds exactly one error for it, of critical severity, whose message names
    the rule.  Every other rule of the list is evaluated on the same context
    and the report holds what each of them finds on its own, in the order of
    the list: the errors of the rules before the failing one, the one error,
    the errors of the rules after it, and likewise their warnings and their
    suggestions.  The metrics are computed from these errors and warnings. *)
Theorem rule_failure_is_isolated :
  forall (before after : list OntologyValidator.ValidationRule)
         (r : OntologyValidator.ValidationRule) (error : string)
         (classList : list OntologyClass.t)
         (propertyList : list OntologyProperty.t)
         (relationshipList : list OntologyRelationship.t),
    let context :=
      OntologyValidator.makeContext classList propertyList relationshipList in
    let report :=
      OntologyValidator.validateOntology (before ++ r :: after) classList
        propertyList relationshipList in
    OntologyValidator.validator r context = OntologyValidator.Throws error ->
    OntologyValidationResult.errors report
    = (flat_map (Isolation.errorsOf context) before
       ++ [OntologyValidator.ruleFailedError r error]
       ++ flat_map (Isolation.errorsOf context) after)%list
    /\ OntologyValidationResult.warnings report
       = (flat_map (Isolation.warningsOf context) before
          ++ flat_map (Isolation.warningsOf context) after)%list
    /\ OntologyValidationResult.suggestions report
       = (flat_map (Isolation.suggestionsOf context) before
          ++ flat_map (Isolation.suggestionsOf context) after)%list
    /\ ValidationError.severity (OntologyValidator.ruleFailedError r error)
       = critical
    /\ Js.includes
         (ValidationError.message (OntologyValidator.ruleFailedError r error))
         (OntologyValidator.name r) = true
    /\ OntologyValidationResult.metrics report
       = OntologyValidator.calculateValidationMetrics context
           (OntologyValidationResult.errors report)
           (OntologyValidationResult.warnings report)
    /\ OntologyValidationResult.valid report = false.
Proof.
  intros before after r error cs ps rs context report Hthrow.
  destruct (runRules_findings context (before ++ r :: after)) as (He & Hw & Hs).
  rewrite !flat_map_app in He, Hw, Hs. cbn [flat_map] in He, Hw, Hs.
  unfold Isolation.errorsOf at 2 in He.
  unfold Isolation.warningsOf at 2 in Hw.
  unfold Isolation.suggestionsOf at 2 in Hs.
  rewrite Hthrow in He, Hw, Hs. cbn [app] in Hw, Hs.
  assert (Herr : OntologyValidationResult.errors report
                 = (flat_map (Isolation.errorsOf context) before
                    ++ [OntologyValidator.ruleFailedError r error]
                    ++ flat_map (Isolation.errorsOf context) after)%list).
  { subst report. unfold OntologyValidator.validateOntology.
    cbn [OntologyValidationResult.errors]. fold context. exact He. }
  repeat split.
  - exact Herr.
  - subst report. unfold OntologyValidator.validateOntology.
    cbn [OntologyValidationResult.warnings]. fold context. exact Hw.
  - subst report. unfold OntologyValidator.validateOntology.
    cbn [OntologyValidationResult.suggestions]. fold context. exact Hs.
  - apply (includes_middle "Validation rule '" (OntologyValidator.name r)).
  - unfold report, OntologyValidator.validateOntology at 1.
    cbn [OntologyValidationResult.valid].
    fold context. rewrite He, !filter_app. simpl.
    rewrite !length_app. simpl. apply Nat.eqb_neq. lia.
Qed.

(** C7, witnessed on the rule list [circular_hierarchy; custom_check;
    naming_conventions] and one class: the custom rule throws, its error is
    the only error of the report, and the naming rule after it still reports
    its warning. *)
Lemma rule_failure_is_isolated_witness :
  OntologyValidator.validator Sample.thrower
    (OntologyValidator.makeContext [Sample.cls "animal" []] [] [])
  = OntologyValidator.Throws "TypeError: Cannot read properties of undefined"
  /\ OntologyValidationResult.errors
       (OntologyValidator.validateOntology
          (Sample.rulesBefore ++ Sample.thrower :: Sample.rulesAfter)
          [Sample.cls "animal" []] [] [])
     = [OntologyValidator.ruleFailedError Sample.thrower
          "TypeError: Cannot read properties of undefined"]
  /\ length
       (OntologyValidationResult.warnings
          (OntologyValidator.validateOntology
             (Sample.rulesBefore ++ Sample.thrower :: Sample.rulesAfter)
             [Sample.cls "animal" []] [] [])) = 1.
Proof.
  pose proof
    (rule_failure_is_isolated Sample.rulesBefore Sample.rulesAfter
       Sample.thrower "TypeError: Cannot read properties of undefined"
       [Sample.cls "animal" []] [] [] eq_refl) as (He & Hw & _).
  split; [reflexivity|]. split.
  - rewrite He. reflexivity.
  - rewrite Hw. reflexivity.
Defined.

(** ** The verdict and the metrics of a report *)

Lemma Severity_eqb_eq (a b : Severity) : Severity_eqb a b = true <-> a = b.
Proof. destruct a, b; simpl; split; congruence. Qed.

Lemma no_match_iff {A : Type} (p : A -> bool) (l : list A) :
  (length (filter p l) =? 0)%nat = true <-> forall x, In x l -> p x = false.
Proof.
  induction l as [|y l IH]; simpl.
  - split; [intros _ x []|reflexivity].
  - destruct (p y) eqn:E; simpl.
    + split; [discriminate|]. intros H. specialize (H y (or_introl eq_refl)).
      congruence.
    + rewrite IH. split.
      * intros H x [<-|Hx]; auto.
      * intros H x Hx. apply H. now right.
Qed.

(** The errors that the store's own [detectCircularDependencies] collects are
    all critical. *)
Lemma store_errors_are_critical (s : OntologyManager.Store) :
  forall e, In e (OntologyManager.detectCircularDependencies s) ->
            ValidationError.severity e = critical.
Proof.
  unfold OntologyManager.detectCircularDependencies.
  set (step := fun (acc : list ValidationError.t * (JsSet.t * JsSet.t)) cls => _).
  assert (Hinv : forall l acc,
             (forall e, In e (fst acc) -> ValidationError.severity e = critical) ->
             forall e, In e (fst (fold_left step l acc)) ->
                       ValidationError.severity e = critical).
  { induction l as [|c l IH]; intros acc Hacc; simpl; auto.
    apply IH. destruct acc as [errs [visited stack]]. subst step. simpl.
    destruct (negb (JsSet.has (OntologyClass.id c) visited)); auto.
    match goal with |- context [if ?b then _ else _] => destruct b end; auto.
    simpl. intros e He. apply in_app_or in He as [He|[<-|[]]]; auto. }
  apply Hinv. simpl. intros e [].
Qed.

(** C8.  For every rule list and every input, the report is valid exactly
    when none of its errors is of critical severity, and its metrics are the
    ones computed from the context and the collected errors and warnings,
    whether the report is valid or not.  (The store's own [validateOntology]
    assembles [valid] as [errors.length === 0] over errors that are all
    critical, which is the same criterion.) *)
Theorem valid_iff_no_critical_error :
  forall (rules : list OntologyValidator.ValidationRule)
         (classList : list OntologyClass.t)
         (propertyList : list OntologyProperty.t)
         (relationshipList : list OntologyRelationship.t),
    let report :=
      OntologyValidator.validateOntology rules classList propertyList
        relationshipList in
    (OntologyValidationResult.valid report = true
     <-> forall e, In e (OntologyValidationResult.errors report) ->
                   ValidationError.severity e <> critical)
    /\ (forall verdict, OntologyValidationResult.valid report = verdict ->
         OntologyValidationResult.metrics report
         = OntologyValidator.calculateValidationMetrics
             (OntologyValidator.makeContext classList propertyList
                relationshipList)
             (OntologyValidationResult.errors report)
             (OntologyValidationResult.warnings report))
    /\ forall (s : OntologyManager.Store) e,
         In e (OntologyManager.detectCircularDependencies s) ->
         ValidationError.severity e = critical.
Proof.
  intros rules cs ps rs report.
  split; [|split; [intros verdict _; reflexivity|apply store_errors_are_critical]].
  subst report. unfold OntologyValidator.validateOntology. simpl.
  rewrite no_match_iff. unfold OntologyValidator.isCritical.
  split; intros H e He; specialize (H e He).
  - intros Hc. apply Severity_eqb_eq in Hc. congruence.
  - destruct (Severity_eqb (ValidationError.severity e) critical) eqn:E; auto.
    apply Severity_eqb_eq in E. contradiction.
Qed.

(** ** Bounds of the metrics *)

Lemma ofNat_nonneg (n : nat) : (0 <= Num.ofNat n)%Q.
Proof.
  unfold Num.ofNat. change 0%Q with (inject_Z 0). rewrite <- Zle_Qle. lia.
Qed.

Lemma ofNat_le (n m : nat) : n <= m -> (Num.ofNat n <= Num.ofNat m)%Q.
Proof. intros H. unfold Num.ofNat. rewrite <- Zle_Qle. lia. Qed.

Lemma filter_length_le {A : Type} (p : A -> bool) (l : list A) :
  length (filter p l) <= length l.
Proof. induction l as [|x l IH]; simpl; [|destruct (p x); simpl]; lia. Qed.

(** A quotient whose divisor is [Math.max(d, 1)] is finite, and it lies
    between 0 and 1 when the dividend does not exceed [d]. *)
Lemma div_by_max_one (a d : Q) :
  (0 <= a)%Q -> (a <= d)%Q -> inUnitInterval (Num.div a (Num.max d 1)).
Proof.
  intros Ha Had. unfold Num.div, Num.max.
  assert (H1 : (1 <= Qmax d 1)%Q) by apply Q.le_max_r.
  assert (Hd : (d <= Qmax d 1)%Q) by apply Q.le_max_l.
  destruct (Qeq_bool (Qmax d 1) 0) eqn:E.
  - apply Qeq_bool_iff in E. rewrite E in H1. lra.
  - exists (a / Qmax d 1)%Q. repeat split.
    + apply Qle_shift_div_l; lra.
    + apply Qle_shift_div_r; lra.
Qed.

Lemma div_by_max_one_nonneg (a d : Q) :
  (0 <= a)%Q ->
  exists q, Num.div a (Num.max d 1) = Num.Finite q /\ (0 <= q)%Q.
Proof.
  intros Ha. unfold Num.div, Num.max.
  assert (H1 : (1 <= Qmax d 1)%Q) by apply Q.le_max_r.
  destruct (Qeq_bool (Qmax d 1) 0) eqn:E.
  - apply Qeq_bool_iff in E. rewrite E in H1. lra.
  - exists (a / Qmax d 1)%Q. split; [reflexivity|].
    apply Qle_shift_div_l; lra.
Qed.

Lemma values_length {V : Type} (m : JsMap.t V) :
  length (JsMap.values m) = JsMap.size m.
Proof. apply length_map. Qed.

(** C9.  For every rule list and every input, the empty one included, each of
    the four metrics of the report is a finite number between 0 and 1: no
    division of the metric computation has a zero divisor (it would give
    [NaN] or an infinity). *)
Theorem metrics_within_unit_interval :
  forall (rules : list OntologyValidator.ValidationRule)
         (classList : list OntologyClass.t)
         (propertyList : list OntologyProperty.t)
         (relationshipList : list OntologyRelationship.t),
    let m :=
      OntologyValidationResult.metrics
        (OntologyValidator.validateOntology rules classList propertyList
           relationshipList) in
    inUnitInterval (Metrics.consistency m)
    /\ inUnitInterval (Metrics.completeness m)
    /\ inUnitInterval (Metrics.clarity m)
    /\ inUnitInterval (Metrics.coverage m).
Proof.
  intros rules cs ps rs m. subst m.
  unfold OntologyValidator.validateOntology. simpl.
  set (context := OntologyValidator.makeContext cs ps rs).
  set (all := OntologyValidator.runRules rules context).
  repeat split.
  - eexists. split; [reflexivity|]. unfold Num.max. split.
    + apply Q.le_max_l.
    + apply Q.max_lub; [lra|].
      pose proof (ofNat_nonneg (length (OntologyValidator.errors all))).
      pose proof (ofNat_nonneg (length (OntologyValidator.warnings all))).
      nra.
  - unfold OntologyValidator.calculateCompleteness.
    apply div_by_max_one; [apply ofNat_nonneg|].
    apply ofNat_le. rewrite <- values_length. apply filter_length_le.
  - unfold OntologyValidator.calculateClarity.
    apply div_by_max_one; [apply ofNat_nonneg|].
    apply ofNat_le. rewrite <- !values_length.
    apply Nat.add_le_mono; apply filter_length_le.
  - unfold OntologyValidator.calculateCoverage.
    match goal with
    | |- inUnitInterval (Num.minWith (Num.div ?a (Num.max ?d 1)) 1) =>
        destruct (div_by_max_one_nonneg a d) as (q & Hq & Hq0);
          [apply ofNat_nonneg|rewrite Hq]
    end.
    simpl. eexists. split; [reflexivity|]. unfold Num.min. split.
    + apply Q.min_glb; lra.
    + apply Q.le_min_r.
Qed.

(** ** Cycles in the class graph of the store *)

Section ClassGraphFacts.

Import OntologyManager ClassGraph.

Lemma getClass_withClasses k m s : getClass k (withClasses m s) = JsMap.get k m.
Proof. reflexivity. Qed.

Lemma shrinks_refl s : shrinks s s.
Proof. intros k c Hk. exists c. auto using incl_refl. Qed.

Lemma shrinks_trans s1 s2 s3 : shrinks s1 s2 -> shrinks s2 s3 -> shrinks s1 s3.
Proof.
  intros H12 H23 k c1 Hk.
  destruct (H12 k c1 Hk) as (c2 & Hk2 & Hsup & Hsub).
  destruct (H23 k c2 Hk2) as (c3 & Hk3 & Hsup' & Hsub').
  exists c3. eauto using incl_tran.
Qed.

Lemma shrinks_link s' s a b : shrinks s' s -> link s' a b -> link s a b.
Proof.
  intros Hsh [(A & HA & Hin)|(B & HB & Hin)].
  - destruct (Hsh a A HA) as (A0 & HA0 & Hsup & _). left. eauto.
  - destruct (Hsh b B HB) as (B0 & HB0 & _ & Hsub). right. eauto.
Qed.

Lemma shrinks_acyclic s' s : shrinks s' s -> acyclic s -> acyclic s'.
Proof.
  intros Hsh Hac a Hcycle. apply (Hac a).
  assert (H : forall x y, clos_trans string (link s') x y ->
                          clos_trans string (link s) x y).
  { intros x y Hxy. induction Hxy as [x y Hxy|x y z _ IH1 _ IH2].
    - apply t_step. eauto using shrinks_link.
    - eapply t_trans; eauto. }
  auto.
Qed.

Lemma same_classes_acyclic s' s : classes s' = classes s -> acyclic s -> acyclic s'.
Proof.
  intros Heq. apply shrinks_acyclic. intros k c Hk. exists c.
  unfold getClass in *. rewrite <- Heq. auto using incl_refl.
Qed.

Lemma unlinkSubClass_shrinks classId s superClassId :
  shrinks (unlinkSubClass classId s superClassId) s.
Proof.
  unfold unlinkSubClass.
  destruct (getClass superClassId s) as [superClass|] eqn:Hsup;
    [|apply shrinks_refl].
  intros k c'. rewrite getClass_withClasses, get_set.
  destruct (String.eqb_spec k superClassId) as [->|_].
  - intros [= <-]. exists superClass. simpl.
    auto using incl_refl, incl_filter.
  - intros Hk. exists c'. auto using incl_refl.
Qed.

Lemma unlinkSuperClass_shrinks classId s subClassId :
  shrinks (unlinkSuperClass classId s subClassId) s.
Proof.
  unfold unlinkSuperClass.
  destruct (getClass subClassId s) as [subClass|] eqn:Hsub;
    [|apply shrinks_refl].
  intros k c'. rewrite getClass_withClasses, get_set.
  destruct (String.eqb_spec k subClassId) as [->|_].
  - intros [= <-]. exists subClass. simpl.
    auto using incl_refl, incl_filter.
  - intros Hk. exists c'. auto using incl_refl.
Qed.

Lemma fold_shrinks (f : Store -> string -> Store) :
  (forall s x, shrinks (f s x) s) ->
  forall l s, shrinks (fold_left f l s) s.
Proof.
  intros Hf. induction l as [|x l IH]; intros s; simpl.
  - apply shrinks_refl.
  - eapply shrinks_trans; [apply IH|apply Hf].
Qed.

Lemma removeFromHierarchy_shrinks key cls s :
  shrinks (removeFromHierarchy key cls s) s.
Proof.
  unfold removeFromHierarchy.
  eapply shrinks_trans; apply fold_shrinks;
    auto using unlinkSubClass_shrinks, unlinkSuperClass_shrinks.
Qed.

Lemma deleteClass_shrinks id s : shrinks (snd (deleteClass id s)) s.
Proof.
  unfold deleteClass.
  destruct (getClass id s) as [cls|]; simpl; [|apply shrinks_refl].
  intros k c'. rewrite getClass_withClasses, get_delete.
  destruct (String.eqb k id); [discriminate|].
  intros Hk. apply (removeFromHierarchy_shrinks id cls s k c'). exact Hk.
Qed.

(** [updateClassHierarchy] touches [subClasses] only. *)
Lemma linkSubClass_supers classId s superClassId k :
  option_map OntologyClass.superClasses (getClass k (linkSubClass classId s superClassId))
  = option_map OntologyClass.superClasses (getClass k s).
Proof.
  unfold linkSubClass.
  destruct (getClass superClassId s) as [superClass|] eqn:Hsup; auto.
  destruct (negb _); auto.
  rewrite getClass_withClasses, get_set.
  destruct (String.eqb_spec k superClassId) as [->|_]; auto.
  now rewrite Hsup.
Qed.

Lemma updateClassHierarchy_supers classId l :
  forall s k,
    option_map OntologyClass.superClasses
      (getClass k (fold_left (linkSubClass classId) l s))
    = option_map OntologyClass.superClasses (getClass k s).
Proof.
  induction l as [|x l IH]; intros s k; simpl; auto.
  now rewrite IH, linkSubClass_supers.
Qed.

Lemma addClass_supers c s :
  option_map OntologyClass.superClasses (getClass (OntologyClass.id c) (addClass c s))
  = Some (OntologyClass.superClasses c).
Proof.
  unfold addClass, updateClassHierarchy.
  rewrite updateClassHierarchy_supers, getClass_withClasses, get_set_same.
  reflexivity.
Qed.

(** A store whose links all go up along a rank has no cycle. *)
Lemma ranked_acyclic s (rank : string -> nat) :
  (forall a b, link s a b -> rank a < rank b) -> acyclic s.
Proof.
  intros Hrank a Hcycle.
  assert (H : forall x y, clos_trans string (link s) x y -> rank x < rank y).
  { intros x y Hxy. induction Hxy; eauto using Nat.lt_trans. }
  specialize (H a a Hcycle). lia.
Qed.

End ClassGraphFacts.

(** C2, counterexample.  From the empty store, [addClass] of ["A"] with
    super-class ["B"] and then of ["B"] with super-class ["A"]: both calls are
    carried out (["B"] is stored as given) and the class graph of the store
    has the cycle A, B, A. *)
Lemma mutual_superclasses_are_accepted :
  OntologyManager.getClass "B" (OntologyManager.run Sample.mutualSupers)
  = Some (Sample.cls "B" ["A"])
  /\ ~ ClassGraph.acyclic (OntologyManager.run Sample.mutualSupers).
Proof.
  split; [reflexivity|].
  intros Hacyclic. apply (Hacyclic "A").
  apply t_trans with "B"; apply t_step; left; eexists; split;
    try reflexivity; simpl; auto.
Qed.

Lemma parentFirst_links a b :
  ClassGraph.link (OntologyManager.run Sample.parentFirst) a b ->
  a = "B" /\ b = "A".
Proof.
  change (OntologyManager.run Sample.parentFirst)
    with (OntologyManager.withClasses
            [("A", OntologyClass.withSubClasses ["B"] (Sample.cls "A" []));
             ("B", Sample.cls "B" ["A"])] OntologyManager.empty).
  unfold ClassGraph.link, OntologyManager.getClass. simpl.
  intros [(X & HX & Hin)|(X & HX & Hin)].
  - destruct (String.eqb_spec a "A"); [injection HX as <-; destruct Hin|].
    destruct (String.eqb_spec a "B"); [|discriminate].
    injection HX as <-. destruct Hin as [<-|[]]. auto.
  - destruct (String.eqb_spec b "A").
    + injection HX as <-. destruct Hin as [<-|[]]. auto.
    + destruct (String.eqb_spec b "B"); [|discriminate].
      injection HX as <-. destruct Hin.
Qed.


(** ** Consolidation of the observed relationships *)

Section ListFacts.
Context {A : Type}.

Lemma fold_left_flat_map {B C : Type} (f : B -> C -> B) (g : A -> list C)
  (l : list A) :
  forall acc,
    fold_left f (flat_map g l) acc
    = fold_left (fun acc x => fold_left f (g x) acc) l acc.
Proof.
  induction l as [|x l IH]; intros acc; simpl; auto.
  now rewrite fold_left_app, IH.
Qed.

Lemma fold_left_map {B C : Type} (f : B -> C -> B) (h : A -> C) (l : list A) :
  forall acc,
    fold_left f (map h l) acc = fold_left (fun acc x => f acc (h x)) l acc.
Proof. induction l as [|x l IH]; intros acc; simpl; auto. Qed.

Lemma fold_left_ext {B : Type} (f g : B -> A -> B) (l : list A) :
  (forall acc x, f acc x = g acc x) ->
  forall acc, fold_left f l acc = fold_left g l acc.
Proof.
  intros Hfg. induction l as [|x l IH]; intros acc; simpl; auto.
  now rewrite Hfg, IH.
Qed.

Lemma existsb_filter (p : A -> bool) (l : list A) :
  existsb p l = match filter p l with [] => false | _ :: _ => true end.
Proof. induction l as [|x l IH]; simpl; auto. now destruct (p x). Qed.

Lemma filter_updateFirst_same (p : A -> bool) (f : A -> A) (l : list A) :
  (forall x, p x = true -> p (f x) = true) ->
  filter p (DomainAnalyzer.updateFirst p f l)
  = match filter p l with [] => [] | x :: rest => f x :: rest end.
Proof.
  intros Hf. induction l as [|x l IH]; simpl; auto.
  destruct (p x) eqn:E; simpl.
  - now rewrite (Hf x E).
  - now rewrite E.
Qed.

Lemma filter_updateFirst_other (p q : A -> bool) (f : A -> A) (l : list A) :
  (forall x, p x = true -> q x = false) ->
  (forall x, q (f x) = q x) ->
  filter q (DomainAnalyzer.updateFirst p f l) = filter q l.
Proof.
  intros Hpq Hf. induction l as [|x l IH]; simpl; auto.
  destruct (p x) eqn:E; simpl.
  - now rewrite Hf, (Hpq x E).
  - now rewrite IH.
Qed.

Lemma filter_all (p : A -> bool) (l : list A) :
  Forall (fun x => p x = true) l -> filter p l = l.
Proof.
  induction 1 as [|x l Hx _ IH]; simpl; auto. now rewrite Hx, IH.
Qed.

Lemma Permutation_filter_bool (p : A -> bool) (l l' : list A) :
  Permutation l l' -> Permutation (filter p l) (filter p l').
Proof.
  induction 1 as [|x l l' _ IH|x y l|l l' l'' _ IH1 _ IH2]; simpl.
  - constructor.
  - destruct (p x); auto.
  - destruct (p x), (p y); auto using perm_swap.
  - eauto using perm_trans.
Qed.

Lemma insertSorted_perm (before : A -> A -> bool) (x : A) (l : list A) :
  Permutation (x :: l) (insertSorted before x l).
Proof.
  induction l as [|y l IH]; simpl; auto.
  destruct (before y x); auto.
  eapply perm_trans; [apply perm_swap|auto].
Qed.

Lemma stableSort_perm (before : A -> A -> bool) (l : list A) :
  Permutation l (stableSort before l).
Proof.
  induction l as [|x l IH]; simpl; auto.
  eapply perm_trans; [|apply insertSorted_perm]. auto.
Qed.

(** Sorting does not change which elements satisfy [p] when at most one
    does. *)
Lemma filter_stableSort_small (before : A -> A -> bool) (p : A -> bool)
  (l : list A) :
  length (filter p l) <= 1 ->
  filter p (stableSort before l) = filter p l.
Proof.
  intros Hlen.
  pose proof (Permutation_filter_bool p _ _ (stableSort_perm before l)) as H.
  destruct (filter p l) as [|x [|y rest]]; simpl in Hlen.
  - now apply Permutation_nil.
  - now apply Permutation_length_1_inv.
  - lia.
Qed.

End ListFacts.

Section ConsolidationFacts.

Import DomainAnalyzer Consolidation.

Lemma pairsOf_short {A : Type} (l : list A) : length l < 2 -> Arr.pairsOf l = [].
Proof. destruct l as [|x [|y l]]; simpl; auto; lia. Qed.

Lemma observeSentence_sightings names rels sentence :
  observeSentence names rels sentence
  = fold_left sight (sightingsIn names sentence) rels.
Proof.
  unfold observeSentence, sightingsIn. rewrite fold_left_map.
  destruct (2 <=? length (foundIn names sentence))%nat eqn:E; [reflexivity|].
  apply Nat.leb_gt in E. now rewrite pairsOf_short.
Qed.

(** The three nested loops visit the sightings one after the other. *)
Lemma collect_sightings tiddlers concepts :
  collectRelationships tiddlers concepts
  = fold_left sight (sightings tiddlers concepts) [].
Proof.
  unfold collectRelationships, sightings. rewrite fold_left_flat_map.
  apply fold_left_ext. intros acc tiddler. unfold observeTiddler.
  rewrite fold_left_flat_map. apply fold_left_ext. intros acc' sentence.
  apply observeSentence_sightings.
Qed.

Lemma unordered_links a b c d :
  unordered a b (c, d) = true -> forall r, links c d r = links a b r.
Proof.
  unfold unordered, links. simpl. intros H r.
  destruct (String.eqb_spec c a), (String.eqb_spec d b),
    (String.eqb_spec c b), (String.eqb_spec d a);
    subst; simpl in H; try discriminate; auto using orb_comm;
    now rewrite orb_diag.
Qed.

Lemma links_disjoint a b c d r :
  unordered a b (c, d) = false -> links c d r = true -> links a b r = false.
Proof.
  unfold unordered, links. simpl. intros H Hcd.
  destruct (_ || _) eqn:E in |- *; [exfalso|reflexivity].
  rewrite orb_false_iff, !andb_false_iff, !String.eqb_neq in H.
  rewrite orb_true_iff, !andb_true_iff, !String.eqb_eq in Hcd, E.
  intuition congruence.
Qed.

Lemma updateFirst_ext {A : Type} (p q : A -> bool) (f : A -> A) (l : list A) :
  (forall x, p x = q x) -> updateFirst p f l = updateFirst q f l.
Proof.
  intros Hpq. induction l as [|x l IH]; simpl; auto. now rewrite Hpq, IH.
Qed.

Lemma consolidated_same_filter a b l l' n :
  filter (links a b) l' = filter (links a b) l ->
  consolidated a b l n -> consolidated a b l' n.
Proof. intros H. destruct n; simpl; now rewrite H. Qed.

Lemma ofNat_S (m : nat) : (Num.ofNat (S m) == Num.ofNat m + 1)%Q.
Proof.
  unfold Num.ofNat. rewrite Nat2Z.inj_succ. unfold Z.succ.
  now rewrite inject_Z_plus.
Qed.

(** One visit of the pair [(c, d)] counts for the pair [(a, b)] exactly when
    it is the same unordered pair. *)
Lemma sight_consolidated a b rels o n :
  consolidated a b rels n ->
  consolidated a b (sight rels o) (if unordered a b (snd o) then S n else n).
Proof.
  destruct o as [[sentence ty] [c d]]. unfold sight, observe.
  cbn [fst snd]. intros Hn. rewrite existsb_filter.
  destruct (unordered a b (c, d)) eqn:U.
  - pose proof (unordered_links a b c d U) as Hsame.
    rewrite (filter_ext _ _ Hsame).
    destruct n as [|m]; simpl in Hn.
    + rewrite Hn. simpl. eexists. rewrite filter_app, Hn. simpl.
      unfold links at 1. simpl. unfold unordered in U. simpl in U. rewrite U.
      split; [reflexivity|]. split; [|reflexivity].
      now vm_compute.
    + destruct Hn as (r & Hr & Hs & He). rewrite Hr.
      exists (reinforce (String.substring 0 100 sentence) r).
      rewrite (updateFirst_ext _ _ _ _ Hsame).
      rewrite filter_updateFirst_same, Hr by auto.
      repeat split.
      * simpl. rewrite Hs, ofNat_S. lra.
      * simpl. rewrite length_app, He. simpl. lia.
  - destruct (filter (links c d) rels) as [|r0 rest] eqn:F.
    + eapply consolidated_same_filter; [|exact Hn].
      rewrite filter_app. simpl. unfold links at 2. simpl.
      unfold unordered in U. simpl in U. rewrite U. apply app_nil_r.
    + eapply consolidated_same_filter; [|exact Hn].
      apply filter_updateFirst_other; auto.
      intros x. now apply links_disjoint.
Qed.

Lemma sights_consolidated a b obs :
  forall rels n,
    consolidated a b rels n ->
    consolidated a b (fold_left sight obs rels)
      (n + length (filter (fun o => unordered a b (snd o)) obs)).
Proof.
  induction obs as [|o obs IH]; intros rels n Hn; simpl.
  - now rewrite Nat.add_0_r.
  - pose proof (sight_consolidated a b rels o n Hn) as Ho.
    destruct (unordered a b (snd o)); simpl.
    + rewrite Nat.add_succ_r. apply (IH _ (S n) Ho).
    + apply (IH _ n Ho).
Qed.

Lemma Forall_updateFirst {A : Type} (P : A -> Prop) (p : A -> bool)
  (f : A -> A) (l : list A) :
  (forall x, P x -> P (f x)) -> Forall P l -> Forall P (updateFirst p f l).
Proof.
  intros Hf. induction 1 as [|x l Hx Hl IH]; simpl; auto.
  destruct (p x); auto.
Qed.

Lemma sights_atLeastBase obs :
  forall rels, Forall Consolidation.atLeastBase rels ->
               Forall Consolidation.atLeastBase (fold_left sight obs rels).
Proof.
  induction obs as [|[[sentence ty] [c d]] obs IH]; intros rels Hrels; simpl;
    auto.
  apply IH. unfold sight, observe. cbn [fst snd].
  destruct (existsb (links c d) rels).
  - apply Forall_updateFirst; auto.
    intros x Hx. unfold Consolidation.atLeastBase in *. simpl. lra.
  - apply Forall_app. split; auto. constructor; auto.
    unfold Consolidation.atLeastBase. simpl. lra.
Qed.

Lemma atLeastBase_aboveFloor r : atLeastBase r -> aboveFloor r = true.
Proof.
  unfold Consolidation.atLeastBase, aboveFloor, Num.gtb, Num.ltb. intros H.
  destruct (Qcompare_spec (2 # 10) (ExtractedRelationship.strength r)) as [E|E|E];
    auto; lra.
Qed.

(** The floor removes nothing, and sorting only reorders. *)
Lemma extract_is_permutation tiddlers concepts :
  Permutation (collectRelationships tiddlers concepts)
    (extractRelationships tiddlers concepts).
Proof.
  unfold extractRelationships. rewrite filter_all; [apply stableSort_perm|].
  rewrite collect_sightings.
  eapply Forall_impl; [apply atLeastBase_aboveFloor|].
  apply sights_atLeastBase. constructor.
Qed.

End ConsolidationFacts.

(** On a concept table written by hand, with strengths as exact numbers.
    (1) A document says nine times that dogs are mammals: the pair is
    observed nine times with the type is-a, and the one relationship returned
    has strength 1.1, which is not [min(1.0, 0.3 + 0.1 * 8)].
    (2) A document has an is-a sentence and a
    similar-to sentence about dogs and mammals: the two triples differ, and
    the result holds one relationship for both, of type is-a, and none of
    type similar-to. *)
Lemma strength_is_not_capped_and_types_are_merged :
  (Consolidation.timesObserved "dogs" "mammals" Sample.nineTimes
     Sample.dogsAndMammals = 9
   /\ ~ Consolidation.consolidatedAsClaimed Sample.nineTimes
          Sample.dogsAndMammals "dogs" "is-a" "mammals" 9)
  /\ (map (fun o => snd (fst o))
        (Consolidation.sightings Sample.twoTypes Sample.dogsAndMammals)
      = ["is-a"; "similar-to"]
      /\ ~ Consolidation.consolidatedAsClaimed Sample.twoTypes
             Sample.dogsAndMammals "dogs" "similar-to" "mammals" 1
      /\ length
           (DomainAnalyzer.extractRelationships Sample.twoTypes
              Sample.dogsAndMammals) = 1).
Proof.
  split; split.
  - now vm_compute.
  - intros (r & Hr & Hs & _). vm_compute in Hr. injection Hr as <-.
    vm_compute in Hs. discriminate.
  - now vm_compute.
  - split; [|now vm_compute].
    intros (r & Hr & _). vm_compute in Hr. discriminate.
Qed.

(** C4, on the code.  [analyzeDomain] on one document that says nine times
    that dogs are mammals: the triple (dogs, is-a, mammals) is observed in
    nine sentences, and the one relationship returned has nine pieces of
    evidence and a strength above 1, where the claim has
    [min(1.0, 0.3 + 0.1 * 8) = 1.0].  [analyzeDomain] on one document with an
    is-a sentence and a similar-to sentence about dogs and mammals: the two
    triples differ, and the result holds one relationship between dogs and
    mammals, of type is-a, with both sentences as its evidence. *)
Theorem repeated_triple_exceeds_the_cap_and_types_are_merged :
  let nine :=
    ConceptExtractionResult.relationships
      (DomainAnalyzer.analyzeDomain Sample.nineTimes None) in
  let two :=
    ConceptExtractionResult.relationships
      (DomainAnalyzer.analyzeDomain Sample.twoTypes None) in
  (exists r,
      nine = [r]
      /\ ExtractedRelationship.source r = "dogs"
      /\ ExtractedRelationship.type r = "is-a"
      /\ ExtractedRelationship.target r = "mammals"
      /\ length (ExtractedRelationship.evidence r) = 9
      /\ (1 < ExtractedRelationship.strength r)%Q)
  /\ map
       (fun sentence =>
          (sentence,
           DomainAnalyzer.identifyRelationshipType sentence ["dogs"; "mammals"]))
       (flat_map DomainAnalyzer.sentencesOf Sample.twoTypes)
     = [("dogs are mammals", "is-a"); (" dogs look like mammals", "similar-to")]
  /\ exists r,
       In r two
       /\ ExtractedRelationship.source r = "dogs"
       /\ ExtractedRelationship.type r = "is-a"
       /\ ExtractedRelationship.target r = "mammals"
       /\ ExtractedRelationship.evidence r
          = ["dogs are mammals"; " dogs look like mammals"]
       /\ forall r',
            In r' two ->
            DomainAnalyzer.links "dogs" "mammals" r' = true -> r' = r.
Proof.
  cbv zeta. split; [|split].
  - eexists. split; [vm_compute; reflexivity|].
    repeat split; vm_compute; reflexivity.
  - vm_compute. reflexivity.
  - eexists. split; [vm_compute; left; reflexivity|].
    repeat split.
    intros r' Hin Hlinks. vm_compute in Hin.
    destruct Hin as [<-|[<-|[<-|[]]]];
      [reflexivity|vm_compute in Hlinks; discriminate
      |vm_compute in Hlinks; discriminate].
Qed.

(** What the loops of [extractRelationships] do, with strengths as exact
    numbers (the doubles of the code carry the rounding of every addition).
    Relationship extraction consolidates by the unordered
    pair of concepts, whatever the relationship type of the sentences.  For
    every corpus, concept table and concept names [a] and [b]: if the two are
    found together [n >= 1] times, the result holds exactly one relationship
    between them (from [a] to [b] or from [b] to [a]), its strength is
    [0.3 + 0.1 * (n - 1)] with no cap, and its evidence list has length [n];
    if they are never found together the result holds none.  Every strength of
    the result is at least 0.3: the floor 0.2 removes nothing, the result is
    a reordering of what the loops collected. *)
Theorem pairs_are_consolidated_without_cap :
  forall (tiddlers : list Tiddler.t) (concepts : list ExtractedConcept.t)
         (a b : string),
    Consolidation.consolidated a b
      (DomainAnalyzer.extractRelationships tiddlers concepts)
      (Consolidation.timesObserved a b tiddlers concepts)
    /\ Forall Consolidation.atLeastBase (DomainAnalyzer.extractRelationships tiddlers concepts)
    /\ Permutation (DomainAnalyzer.collectRelationships tiddlers concepts)
         (DomainAnalyzer.extractRelationships tiddlers concepts).
Proof.
  intros tiddlers concepts a b.
  pose proof (extract_is_permutation tiddlers concepts) as Hperm.
  assert (Hbase : Forall Consolidation.atLeastBase
                    (DomainAnalyzer.collectRelationships tiddlers concepts)).
  { rewrite collect_sightings. apply sights_atLeastBase. constructor. }
  assert (Hcollected :
            Consolidation.consolidated a b
              (DomainAnalyzer.collectRelationships tiddlers concepts)
              (Consolidation.timesObserved a b tiddlers concepts)).
  { rewrite collect_sightings.
    apply (sights_consolidated a b (Consolidation.sightings tiddlers concepts)
             [] 0).
    reflexivity. }
  split; [|split; [|exact Hperm]].
  - eapply consolidated_same_filter; [|exact Hcollected].
    unfold DomainAnalyzer.extractRelationships.
    rewrite (filter_all DomainAnalyzer.aboveFloor)
      by (eapply Forall_impl; [apply atLeastBase_aboveFloor|exact Hbase]).
    apply filter_stableSort_small.
    destruct (Consolidation.timesObserved a b tiddlers concepts);
      simpl in Hcollected.
    + rewrite Hcollected. simpl. lia.
    + destruct Hcollected as (r & -> & _). simpl. lia.
  - rewrite Forall_forall in *. intros r Hr. apply Hbase.
    eapply Permutation_in; [apply Permutation_sym; exact Hperm|exact Hr].
Qed.

(** ** The end-to-end scenario *)

(** C5, counterexample.  On the two documents of the scenario, under the
    titles ["A"] and ["B"] as well as under the titles ["Dogs"] and ["Cats"],
    no concept is named ["dog"]: terms are lower-cased and never reduced to
    a singular, so the concept table is not the claimed one. *)
Lemma scenario_terms_are_not_singular :
  ~ Scenario.asClaimed Sample.now Sample.animals
  /\ ~ Scenario.asClaimed Sample.now Sample.animalsTitled.
Proof.
  split; intros (Hnames & _); destruct (Hnames "dog") as [_ Hdog];
    specialize (Hdog (or_introl eq_refl)); vm_compute in Hdog;
    intuition discriminate.
Qed.

(** C5, as amended.  On the corpus of the two documents "Dogs are mammals.
    Dogs have fur." and "Cats are mammals.", titled ["A"] and ["B"] and tagged
    [animal]: concept extraction yields the concepts dogs, mammals and animal,
    each of frequency 2 (fur and cats occur once and are not kept); relationship
    extraction yields one relationship, is-a from dogs to mammals; hierarchy
    building returns, places dogs as the only child of mammals and leaves
    mammals, animal and the type node abstract as roots; and the validator,
    on the store filled with the classes of that hierarchy, reports
    [valid = true] with no error at all. *)
Theorem scenario_on_the_code :
  let concepts := DomainAnalyzer.extractConcepts Sample.animals in
  let rels := DomainAnalyzer.extractRelationships Sample.animals concepts in
  map (fun c => (ExtractedConcept.name c, ExtractedConcept.frequency c)) concepts
  = [("dogs", 2); ("mammals", 2); ("animal", 2)]
  /\ (exists r, rels = [r] /\ Scenario.isA "dogs" "mammals" r)
  /\ exists st,
       ConceptHierarchy.buildHierarchy concepts rels = Some st
       /\ Scenario.childOf st "dogs" "mammals"
       /\ ConceptHierarchy.getChildren st "mammals" = ["dogs"]
       /\ ConceptHierarchy.rootNodes st = ["mammals"; "animal"; "abstract"]
       /\ OntologyValidationResult.valid
            (Scenario.reportOn (Scenario.storeOf Sample.now st)) = true
       /\ OntologyValidationResult.errors
            (Scenario.reportOn (Scenario.storeOf Sample.now st)) = [].
Proof.
  cbv zeta.
  split; [now vm_compute|]. split.
  - eexists. split; [vm_compute; reflexivity|]. now vm_compute.
  - destruct (ConceptHierarchy.buildHierarchy
                (DomainAnalyzer.extractConcepts Sample.animals)
                (DomainAnalyzer.extractRelationships Sample.animals
                   (DomainAnalyzer.extractConcepts Sample.animals)))
      as [st|] eqn:Hbuild; [|vm_compute in Hbuild; discriminate].
    exists st. split; [reflexivity|].
    vm_compute in Hbuild. injection Hbuild as <-.
    split.
    + eexists. eexists. split; [vm_compute; reflexivity|].
      split; [vm_compute; reflexivity|]. split; [reflexivity|].
      simpl. now left.
    + repeat split; now vm_compute.
Qed.

(** Under the titles ["Dogs"] and ["Cats"] the two title words become terms
    of their own: cats is a concept as well, and the sentence "cats are
    mammals" yields an is-a relationship from mammals to cats, because a
    relationship runs from the concept that comes first in the concept table
    to the one that comes later. *)
Lemma scenario_direction_follows_the_concept_table :
  let concepts := DomainAnalyzer.extractConcepts Sample.animalsTitled in
  map (fun c => (ExtractedConcept.name c, ExtractedConcept.frequency c)) concepts
  = [("dogs", 3); ("mammals", 2); ("animal", 2); ("cats", 2)]
  /\ map
       (fun r =>
          (ExtractedRelationship.source r, ExtractedRelationship.type r,
           ExtractedRelationship.target r))
       (DomainAnalyzer.extractRelationships Sample.animalsTitled concepts)
     = [("dogs", "is-a", "mammals"); ("mammals", "is-a", "cats")].
Proof. split; now vm_compute. Qed.

(** ** Concepts with an empty name *)

(** A concept whose name is the empty string is not among what
    [extractConcepts] returns.  Were one passed all the same:
    [addParentChildRelationship] and
    [hasCycleDFS] test [child.parent] and [current.parent] for truth, and the
    identifier of a concept whose name is the empty string is the empty
    string, which is falsy.  With such a concept among the input:
    - after ["x"] is-a [""] and [""] is-a ["x"], each of the two nodes is the
      parent of the other: the walk up from ["x"] stops at once although [""]
      is on its ancestor chain, and the hierarchy has a cycle;
    - after ["x"] is-a [""] and ["x"] is-a ["y"], ["x"] is in the [children]
      of both [""] and ["y"], which are both returned as roots;
    - after ["x"] is-a [""], ["x"] is-a ["y"] and [""] is-a ["x"], the
      children of [""] and ["x"] contain each other and [calculateLevels]
      never ends: [buildHierarchy] does not return. *)
Theorem empty_name_defeats_the_guards :
  (exists st,
      ConceptHierarchy.buildHierarchy Sample.withEmptyName Sample.thereAndBack
      = Some st
      /\ Forest.parentEdge st "x" "" /\ Forest.parentEdge st "" "x"
      /\ ~ Forest.acyclic st)
  /\ (exists st,
         ConceptHierarchy.buildHierarchy Sample.withEmptyName Sample.twoParents
         = Some st
         /\ Forest.childEdge st "" "x" /\ Forest.childEdge st "y" "x"
         /\ In "" (ConceptHierarchy.rootNodes st)
         /\ In "y" (ConceptHierarchy.rootNodes st)
         /\ ~ Forest.singleParent st)
  /\ ConceptHierarchy.buildHierarchy Sample.withEmptyName
       Sample.twoParentsAndBack = None.
Proof.
  split; [|split; [|now vm_compute]].
  - eexists. split; [vm_compute; reflexivity|].
    match goal with
    | |- Forest.parentEdge ?s _ _ /\ _ => set (st := s)
    end.
    assert (H1 : Forest.parentEdge st "x" "")
      by (eexists; split; reflexivity).
    assert (H2 : Forest.parentEdge st "" "x")
      by (eexists; split; reflexivity).
    repeat split; [exact H1|exact H2|].
    intros Hacyclic. apply (Hacyclic "x").
    apply t_trans with ""; now apply t_step.
  - eexists. split; [vm_compute; reflexivity|].
    match goal with
    | |- Forest.childEdge ?s _ _ /\ _ => set (st := s)
    end.
    assert (H1 : Forest.childEdge st "" "x")
      by (eexists; split; [reflexivity|simpl; auto]).
    assert (H2 : Forest.childEdge st "y" "x")
      by (eexists; split; [reflexivity|simpl; auto]).
    repeat split; [exact H1|exact H2|simpl; auto|simpl; auto|].
    intros Hsingle. specialize (Hsingle "x" "" "y" H1 H2). discriminate.
Qed.

(** ** The hierarchy of concepts with non-empty names is a forest *)

Section ExtendedRelation.

Variable R : string -> string -> Prop.
Variables a b : string.

(** [R] with the one edge from [a] to [b] added. *)
Let R' (x y : string) : Prop := R x y \/ (x = a /\ y = b).

Lemma extended_path x y :
  clos_trans string R' x y ->
  ~ clos_refl_trans string R b a ->
  clos_trans string R x y
  \/ (clos_refl_trans string R x a /\ clos_refl_trans string R b y).
Proof.
  intros Hxy Hba.
  induction Hxy as [x y [Hxy|[-> ->]]|x y z _ IH1 _ IH2].
  - left. now apply t_step.
  - right. split; apply rt_refl.
  - destruct IH1 as [H1|[H1a H1b]], IH2 as [H2|[H2a H2b]].
    + left. eapply t_trans; eauto.
    + right. split; [|assumption].
      eapply rt_trans; [apply clos_t_clos_rt; exact H1|exact H2a].
    + right. split; [assumption|].
      eapply rt_trans; [exact H1b|apply clos_t_clos_rt; exact H2].
    + exfalso. apply Hba. apply rt_trans with y; assumption.
Qed.

(** Adding an edge from [a] to [b] closes no cycle when [a] cannot be
    reached from [b]. *)
Lemma extended_acyclic :
  (forall x, ~ clos_trans string R x x) ->
  ~ clos_refl_trans string R b a ->
  forall x, ~ clos_trans string R' x x.
Proof.
  intros Hacyclic Hba x Hcycle.
  destruct (extended_path x x Hcycle Hba) as [H|[H1 H2]].
  - exact (Hacyclic x H).
  - apply Hba. apply rt_trans with x; assumption.
Qed.

End ExtendedRelation.

Lemma clos_trans_incl (R S : string -> string -> Prop) :
  (forall x y, R x y -> S x y) ->
  forall x y, clos_trans string R x y -> clos_trans string S x y.
Proof.
  intros HRS x y H. induction H as [x y H|x y z _ IH1 _ IH2].
  - apply t_step. auto.
  - eapply t_trans; eauto.
Qed.

Lemma has_In (x : string) (s : JsSet.t) : JsSet.has x s = true <-> In x s.
Proof.
  unfold JsSet.has. rewrite existsb_exists. split.
  - intros (y & Hy & E). apply String.eqb_eq in E. now subst.
  - intros H. exists x. split; [assumption|apply String.eqb_refl].
Qed.

Lemma get_in_keys {V : Type} (k : string) (v : V) (m : JsMap.t V) :
  JsMap.get k m = Some v -> In k (JsMap.keys m).
Proof.
  induction m as [|[k' v'] m IH]; simpl; [discriminate|].
  destruct (String.eqb_spec k k'); auto.
Qed.

(** A duplicate-free list of keys is no longer than the map. *)
Lemma keys_bound {V : Type} (l : list string) (m : JsMap.t V) :
  NoDup l -> incl l (JsMap.keys m) -> length l <= JsMap.size m.
Proof.
  intros Hnodup Hincl. unfold JsMap.size.
  rewrite <- (length_map fst m). now apply NoDup_incl_length.
Qed.

Lemma NoDup_snoc {A : Type} (l : list A) (x : A) :
  NoDup l -> ~ In x l -> NoDup (l ++ [x]).
Proof.
  intros Hl Hx. apply NoDup_rev in Hl. rewrite <- (rev_involutive (l ++ [x])).
  apply NoDup_rev. rewrite rev_app_distr. simpl. constructor; auto.
  now rewrite <- in_rev.
Qed.

Section Walk.

Import ConceptHierarchy Forest.

Variable nodes : JsMap.t HierarchyNode.t.
Hypothesis Hwf : wellFormed nodes.

(** In a well-formed map a parent identifier is never the empty string, so
    the truth value of [node.parent] says whether the node has a parent. *)
Lemma parentOf_parent k n :
  JsMap.get k nodes = Some n -> parentOf n = HierarchyNode.parent n.
Proof.
  intros Hk. unfold parentOf.
  destruct (HierarchyNode.parent n) as [p|] eqn:E; auto.
  assert (Hup : up nodes k p) by (exists n; auto).
  apply (wf_parent nodes Hwf) in Hup as (pn & Hp & _).
  pose proof (wf_keys nodes Hwf p pn Hp).
  destruct (String.eqb_spec p ""); congruence.
Qed.

(** [hasCycleDFS] walks the whole chain of parents: when [tgt] is [cur] or
    an ancestor of [cur], it answers [true].  [visited] holds the nodes the
    walk has left behind, all of them below [cur]. *)
Lemma walk_reaches :
  forall fuel cur tgt visited,
    NoDup visited -> incl visited (JsMap.keys nodes) ->
    (forall v, In v visited -> clos_trans string (up nodes) v cur) ->
    S (JsMap.size nodes) <= fuel + length visited ->
    clos_refl_trans string (up nodes) cur tgt ->
    hasCycleDFS fuel nodes cur tgt visited = true.
Proof.
  induction fuel as [|fuel IH];
    intros cur tgt visited Hnd Hincl Hbelow Hfuel Hpath.
  - pose proof (keys_bound visited nodes Hnd Hincl). simpl in Hfuel. lia.
  - simpl. destruct (String.eqb_spec cur tgt) as [|Hne]; auto.
    destruct (JsSet.has cur visited) eqn:Hv.
    + exfalso. apply has_In in Hv. apply (wf_acyclic nodes Hwf cur). auto.
    + assert (Hnot : ~ In cur visited).
      { intros Hin. apply has_In in Hin. congruence. }
      apply clos_rt_rt1n in Hpath.
      destruct Hpath as [|p z Hstep Hrest]; [congruence|].
      pose proof Hstep as (n & Hn & Hp).
      rewrite Hn, (parentOf_parent _ _ Hn), Hp.
      unfold JsSet.add. rewrite Hv. apply IH.
      * now apply NoDup_snoc.
      * intros v Hin. apply in_app_or in Hin as [Hin|[<-|[]]]; auto.
        eapply get_in_keys; eauto.
      * intros v Hin. apply in_app_or in Hin as [Hin|[<-|[]]].
        -- eapply t_trans; [apply Hbelow; exact Hin|now apply t_step].
        -- now apply t_step.
      * rewrite length_app. simpl. lia.
      * now apply clos_rt1n_rt.
Qed.

End Walk.

Section PlaceEdge.

Import ConceptHierarchy Forest.

Lemma wouldCreateCycle_false st p c :
  wellFormed (hierarchy st) ->
  wouldCreateCycle st p c = false ->
  ~ clos_refl_trans string (up (hierarchy st)) p c.
Proof.
  intros Hwf Hfalse Hpath. unfold wouldCreateCycle in Hfalse.
  rewrite (walk_reaches (hierarchy st) Hwf) in Hfalse; try discriminate; auto.
  - constructor.
  - intros x [].
  - intros v [].
  - simpl. lia.
Qed.

Variable h : JsMap.t HierarchyNode.t.
Variables pk ck : string.
Variables parent child : HierarchyNode.t.
Variable conf : Q.

Hypothesis Hwf : wellFormed h.
Hypothesis Hparent : JsMap.get pk h = Some parent.
Hypothesis Hchild : JsMap.get ck h = Some child.
Hypothesis Hfree : HierarchyNode.parent child = None.
Hypothesis Hnopath : ~ clos_refl_trans string (up h) pk ck.

Let h' : JsMap.t HierarchyNode.t :=
  JsMap.set pk (withChild (HierarchyNode.id child) parent)
    (JsMap.set ck (adopted (HierarchyNode.id parent) conf child) h).

Lemma placed_ids : HierarchyNode.id parent = pk /\ HierarchyNode.id child = ck.
Proof. split; eapply wf_ids; eauto. Qed.

Lemma placed_distinct : pk <> ck.
Proof. intros ->. apply Hnopath. apply rt_refl. Qed.

Lemma placed_get k :
  JsMap.get k h'
  = if String.eqb k pk then Some (withChild ck parent)
    else if String.eqb k ck then Some (adopted pk conf child)
         else JsMap.get k h.
Proof.
  destruct placed_ids as [Hp Hc]. subst h'. rewrite Hp, Hc.
  now rewrite !get_set.
Qed.

Lemma placed_up c p :
  up h' c p <-> (c = ck /\ p = pk) \/ (c <> ck /\ up h c p).
Proof.
  pose proof placed_distinct as Hne.
  unfold up. setoid_rewrite placed_get. split.
  - intros (n & Hn & Hp).
    destruct (String.eqb_spec c pk) as [->|Hcp].
    + injection Hn as <-. simpl in Hp. right. split; eauto.
    + destruct (String.eqb_spec c ck) as [->|Hcc].
      * injection Hn as <-. simpl in Hp. left. split; congruence.
      * right. eauto.
  - intros [[-> ->]|[Hcc (n & Hn & Hp)]].
    + destruct (String.eqb_spec ck pk); [congruence|].
      rewrite String.eqb_refl. eexists. split; reflexivity.
    + destruct (String.eqb_spec c pk) as [->|Hcp].
      * eexists. split; [reflexivity|]. simpl. congruence.
      * destruct (String.eqb_spec c ck); [contradiction|]. eauto.
Qed.

Lemma placed_down p c :
  down h' p c <-> (p = pk /\ c = ck) \/ down h p c.
Proof.
  pose proof placed_distinct as Hne.
  unfold down. setoid_rewrite placed_get. split.
  - intros (n & Hn & Hin).
    destruct (String.eqb_spec p pk) as [->|Hpp].
    + injection Hn as <-. simpl in Hin.
      apply in_app_or in Hin as [Hin|[<-|[]]]; eauto.
    + destruct (String.eqb_spec p ck) as [->|Hpc].
      * injection Hn as <-. simpl in Hin. right. eauto.
      * right. eauto.
  - intros [[-> ->]|(n & Hn & Hin)].
    + rewrite String.eqb_refl. eexists. split; [reflexivity|]. simpl.
      apply in_or_app. right. now left.
    + destruct (String.eqb_spec p pk) as [->|Hpp].
      * eexists. split; [reflexivity|]. simpl. apply in_or_app. left.
        congruence.
      * destruct (String.eqb_spec p ck) as [->|Hpc].
        -- eexists. split; [reflexivity|]. simpl. congruence.
        -- eauto.
Qed.

(** Placing the edge keeps the map well-formed. *)
Lemma placed_wellFormed : wellFormed h'.
Proof.
  pose proof placed_distinct as Hne. destruct placed_ids as [Hp Hc].
  constructor.
  - intros k n. rewrite placed_get.
    destruct (String.eqb_spec k pk) as [->|_]; [now intros [= <-]|].
    destruct (String.eqb_spec k ck) as [->|_]; [now intros [= <-]|].
    apply (wf_ids h Hwf).
  - intros k n. rewrite placed_get.
    destruct (String.eqb_spec k pk) as [->|_];
      [intros _; eapply wf_keys; eauto|].
    destruct (String.eqb_spec k ck) as [->|_];
      [intros _; eapply wf_keys; eauto|].
    apply (wf_keys h Hwf).
  - intros c p Hup. apply placed_up in Hup as [[-> ->]|[_ Hup]];
      apply placed_down; auto.
    right. now apply (wf_parent h Hwf).
  - intros p c Hdown. apply placed_down in Hdown as [[-> ->]|Hdown];
      apply placed_up; auto.
    right. apply (wf_children h Hwf) in Hdown. split; auto.
    intros ->. destruct Hdown as (n & Hn & Hpar). congruence.
  - intros c Hcycle.
    apply (extended_acyclic (up h) ck pk (wf_acyclic h Hwf) Hnopath c).
    revert Hcycle. apply clos_trans_incl.
    intros x y Hup. apply placed_up in Hup as [[-> ->]|[_ Hup]]; auto.
Qed.

End PlaceEdge.

Lemma fold_left_preserves {A B : Type} (P : A -> Prop) (f : A -> B -> A)
  (l : list B) :
  (forall a b, P a -> P (f a b)) -> forall a, P a -> P (fold_left f l a).
Proof.
  intros Hf. induction l as [|b l IH]; simpl; auto.
Qed.

Section Building.

Import ConceptHierarchy Forest.

Lemma generateId_nonempty name : name <> "" -> generateId name <> "".
Proof. destruct name; [congruence|discriminate]. Qed.

Lemma addParentChildRelationship_wellFormed st pk ck conf :
  wellFormed (hierarchy st) ->
  wellFormed (hierarchy (addParentChildRelationship st pk ck conf)).
Proof.
  intros Hwf. unfold addParentChildRelationship.
  destruct (JsMap.get pk (hierarchy st)) as [parent|] eqn:Hp; trivial.
  destruct (JsMap.get ck (hierarchy st)) as [child|] eqn:Hc; trivial.
  destruct (hasParent child) eqn:Hfree; trivial.
  destruct (wouldCreateCycle st _ _) eqn:Hcycle; trivial.
  cbn [hierarchy].
  rewrite (wf_ids _ Hwf _ _ Hp), (wf_ids _ Hwf _ _ Hc) in Hcycle.
  apply placed_wellFormed; auto.
  - rewrite <- (parentOf_parent _ Hwf _ _ Hc).
    unfold hasParent in Hfree. now destruct (parentOf child).
  - now apply wouldCreateCycle_false.
Qed.

(** A map of nodes without parent and without children is well-formed. *)
Lemma isolated_wellFormed h :
  (forall k n, JsMap.get k h = Some n ->
     HierarchyNode.id n = k /\ k <> ""
     /\ HierarchyNode.parent n = None /\ HierarchyNode.children n = []) ->
  wellFormed h.
Proof.
  intros Hiso.
  assert (Hup : forall c p, ~ up h c p).
  { intros c p (n & Hn & Hp). apply Hiso in Hn. intuition congruence. }
  assert (Hdown : forall p c, ~ down h p c).
  { intros p c (n & Hn & Hin). apply Hiso in Hn as (_ & _ & _ & E).
    now rewrite E in Hin. }
  constructor.
  - intros k n Hn. now apply Hiso in Hn.
  - intros k n Hn. now apply Hiso in Hn.
  - intros c p H. now apply Hup in H.
  - intros p c H. now apply Hdown in H.
  - intros c H. apply clos_trans_t1n in H. destruct H as [y H|y z H _];
      now apply Hup in H.
Qed.

Lemma initializeNodes_wellFormed concepts :
  namesAreNonEmpty concepts ->
  wellFormed (hierarchy (initializeNodes concepts)).
Proof.
  intros Hnames. apply isolated_wellFormed. unfold initializeNodes.
  set (iso := fun st : State =>
         forall k n, JsMap.get k (hierarchy st) = Some n ->
           HierarchyNode.id n = k /\ k <> ""
           /\ HierarchyNode.parent n = None /\ HierarchyNode.children n = []).
  assert (Hgen : forall st, iso st ->
            iso (fold_left
                   (fun st concept =>
                      let node := nodeOf concept in
                      {| hierarchy :=
                           JsMap.set (HierarchyNode.id node) node (hierarchy st);
                         rootNodes :=
                           JsSet.add (HierarchyNode.id node) (rootNodes st) |})
                   concepts st)).
  { induction concepts as [|c cs IH]; intros st Hst; [exact Hst|].
    simpl. apply IH.
    - intros c' Hin. apply Hnames. now right.
    - intros k n. cbn [hierarchy]. rewrite get_set.
      destruct (String.eqb_spec k (generateId (ExtractedConcept.name c)))
        as [->|_]; [|apply Hst].
      intros [= <-]. cbn. repeat split.
      apply generateId_nonempty, Hnames. now left. }
  apply Hgen. intros k n H. discriminate H.
Qed.

Lemma buildIsARelationships_wellFormed st relationships :
  wellFormed (hierarchy st) ->
  wellFormed (hierarchy (buildIsARelationships st relationships)).
Proof.
  unfold buildIsARelationships.
  apply (fold_left_preserves (fun st => wellFormed (hierarchy st))).
  intros a r Ha. cbv zeta.
  destruct (_ && _); [now apply addParentChildRelationship_wellFormed|exact Ha].
Qed.

(** A new node without parent and children, stored under a key that is not
    in the map. *)
Lemma fresh_wellFormed h k n :
  wellFormed h -> JsMap.get k h = None -> k <> "" ->
  HierarchyNode.id n = k -> HierarchyNode.parent n = None ->
  HierarchyNode.children n = [] ->
  wellFormed (JsMap.set k n h).
Proof.
  intros Hwf Hnew Hk Hid Hpar Hch.
  assert (Hup : forall c p, up (JsMap.set k n h) c p <-> up h c p).
  { intros c p. unfold up. setoid_rewrite get_set.
    destruct (String.eqb_spec c k) as [->|_]; [|tauto].
    split; intros (x & Hx & Hp); congruence. }
  assert (Hdown : forall p c, down (JsMap.set k n h) p c <-> down h p c).
  { intros p c. unfold down. setoid_rewrite get_set.
    destruct (String.eqb_spec p k) as [->|_]; [|tauto].
    split; intros (x & Hx & Hin); [|congruence].
    injection Hx as <-. now rewrite Hch in Hin. }
  constructor.
  - intros k' n'. rewrite get_set.
    destruct (String.eqb_spec k' k) as [->|_]; [congruence|].
    apply (wf_ids h Hwf).
  - intros k' n'. rewrite get_set.
    destruct (String.eqb_spec k' k) as [->|_]; [auto|].
    apply (wf_keys h Hwf).
  - intros c p H. apply Hdown, (wf_parent h Hwf), Hup, H.
  - intros p c H. apply Hup, (wf_children h Hwf), Hdown, H.
  - intros c H. apply (wf_acyclic h Hwf c). revert H.
    apply clos_trans_incl. intros x y. apply Hup.
Qed.

Lemma createTypeHierarchy_wellFormed st type concepts :
  type <> "" ->
  wellFormed (hierarchy st) ->
  wellFormed (hierarchy (createTypeHierarchy st type concepts)).
Proof.
  intros Htype Hwf. unfold createTypeHierarchy. cbv zeta.
  apply (fold_left_preserves (fun st => wellFormed (hierarchy st))).
  - intros a [level levelConcepts] Ha.
    apply (fold_left_preserves (fun st => wellFormed (hierarchy st)));
      [|exact Ha].
    intros b c Hb.
    destruct (hasFreeNode b _); [|exact Hb].
    destruct (level =? 0)%nat;
      [now apply addParentChildRelationship_wellFormed|].
    destruct (findBestParent c _); [|exact Hb].
    destruct (JsMap.has _ _);
      [now apply addParentChildRelationship_wellFormed|exact Hb].
  - rewrite has_get.
    destruct (JsMap.get (generateId type) (hierarchy st)) eqn:Hnew;
      [exact Hwf|].
    cbn. apply fresh_wellFormed; auto.
    now apply generateId_nonempty.
Qed.

Lemma inferLinguisticHierarchies_wellFormed st concepts :
  wellFormed (hierarchy st) ->
  wellFormed (hierarchy (inferLinguisticHierarchies st concepts)).
Proof.
  unfold inferLinguisticHierarchies.
  apply (fold_left_preserves (fun st => wellFormed (hierarchy st))).
  intros a c Ha. cbv zeta.
  destruct (1 <? _)%nat; [|exact Ha].
  apply (fold_left_preserves (fun st => wellFormed (hierarchy st)));
    [|exact Ha].
  intros b p Hb.
  destruct (_ && _); [now apply addParentChildRelationship_wellFormed|exact Hb].
Qed.

Lemma inferMissingHierarchy_wellFormed st concepts :
  wellFormed (hierarchy st) ->
  wellFormed (hierarchy (inferMissingHierarchy st concepts)).
Proof.
  intros Hwf. unfold inferMissingHierarchy. cbv zeta.
  apply inferLinguisticHierarchies_wellFormed.
  apply (fold_left_preserves (fun st => wellFormed (hierarchy st)));
    [|exact Hwf].
  intros a [ty group] Ha. apply createTypeHierarchy_wellFormed; auto.
  now destruct ty.
Qed.

End Building.

Section Levels.

Import ConceptHierarchy Forest.

Lemma sameShape_refl h : sameShape h h.
Proof. intros k. reflexivity. Qed.

Lemma sameShape_withLevel h nodes k n level :
  sameShape h nodes -> JsMap.get k nodes = Some n ->
  sameShape h (JsMap.set k (withLevel level n) nodes).
Proof.
  intros Hsame Hn k'. rewrite get_set.
  destruct (String.eqb_spec k' k) as [->|_]; [|apply Hsame].
  rewrite <- (Hsame k), Hn. reflexivity.
Qed.

Lemma sameShape_up h nodes c p : sameShape h nodes -> up nodes c p -> up h c p.
Proof.
  intros Hsame (n & Hn & Hp). specialize (Hsame c). rewrite Hn in Hsame.
  destruct (JsMap.get c h) as [n0|] eqn:Hn0; [|discriminate].
  injection Hsame as Hid Hpar Hch. exists n0. split; congruence.
Qed.

Lemma sameShape_down h nodes p c :
  sameShape h nodes -> down nodes p c -> down h p c.
Proof.
  intros Hsame (n & Hn & Hin). specialize (Hsame p). rewrite Hn in Hsame.
  destruct (JsMap.get p h) as [n0|] eqn:Hn0; [|discriminate].
  injection Hsame as Hid Hpar Hch. exists n0. split; congruence.
Qed.

Variable h : JsMap.t HierarchyNode.t.
Hypothesis Hwf : wellFormed h.

(** [calculateNodeLevel] returns: [path] holds the nodes whose calls are
    open, all of them above [nodeId], so no node is met twice on the way
    down and the fuel lasts. *)
Lemma calculateNodeLevel_returns :
  forall fuel nodeId level nodes path,
    sameShape h nodes ->
    NoDup path -> incl path (JsMap.keys h) ->
    (forall v, In v path -> clos_trans string (up h) nodeId v) ->
    S (JsMap.size h) <= fuel + length path ->
    exists nodes',
      calculateNodeLevel fuel nodes nodeId level = Some nodes'
      /\ sameShape h nodes'.
Proof.
  induction fuel as [|fuel IH];
    intros nodeId level nodes path Hsame Hnd Hincl Habove Hfuel.
  - pose proof (keys_bound path h Hnd Hincl). simpl in Hfuel. lia.
  - simpl. destruct (JsMap.get nodeId nodes) as [node|] eqn:Hnode;
      [|now exists nodes].
    assert (Hchildren : forall c, In c (HierarchyNode.children node) ->
              up h c nodeId).
    { intros c Hin. apply (wf_children h Hwf).
      apply (sameShape_down h nodes); auto. now exists node. }
    assert (Hkey : In nodeId (JsMap.keys h)).
    { specialize (Hsame nodeId). rewrite Hnode in Hsame.
      destruct (JsMap.get nodeId h) eqn:E; [|discriminate].
      eapply get_in_keys; eauto. }
    assert (Hnew : ~ In nodeId path).
    { intros Hin. apply (wf_acyclic h Hwf nodeId). auto. }
    pose proof (sameShape_withLevel h nodes nodeId node level Hsame Hnode)
      as Hsame1.
    revert Hchildren Hsame1.
    generalize (JsMap.set nodeId (withLevel level node) nodes) as nodes1.
    generalize (HierarchyNode.children node) as children.
    induction children as [|c cs IHcs]; intros nodes1 Hchildren Hsame1.
    + now exists nodes1.
    + simpl.
      destruct (IH c (S level) nodes1 (nodeId :: path)) as (nodes2 & E & Hsame2);
        auto.
      * now constructor.
      * intros v [<-|Hin]; auto.
      * intros v [<-|Hin].
        -- apply t_step, Hchildren. now left.
        -- eapply t_trans; [apply t_step, Hchildren; now left|auto].
      * simpl. lia.
      * rewrite E. apply IHcs; auto.
        intros c' Hin. apply Hchildren. now right.
Qed.

Lemma calculateLevels_returns st :
  hierarchy st = h ->
  exists st',
    calculateLevels st = Some st' /\ sameShape h (hierarchy st').
Proof.
  intros Hst. unfold calculateLevels. rewrite Hst.
  assert (Hfold : forall roots nodes, sameShape h nodes ->
            exists nodes',
              fold_left
                (fun acc rootId =>
                   match acc with
                   | Some nodes =>
                       calculateNodeLevel (S (JsMap.size h)) nodes rootId 0
                   | None => None
                   end)
                roots (Some nodes) = Some nodes'
              /\ sameShape h nodes').
  { induction roots as [|r roots IHroots]; intros nodes Hsame.
    - now exists nodes.
    - simpl.
      destruct (calculateNodeLevel_returns (S (JsMap.size h)) r 0 nodes [])
        as (nodes1 & E & Hsame1); auto.
      + constructor.
      + intros x [].
      + intros v [].
      + simpl. lia.
      + simpl in E. rewrite E. now apply IHroots. }
  destruct (Hfold (rootNodes st) h (sameShape_refl h)) as (nodes' & E & Hsame).
  rewrite E. eexists. split; [reflexivity|exact Hsame].
Qed.

End Levels.

(** For concepts whose names are not empty, [buildHierarchy] returns, and the
    hierarchy it leaves is a forest: no node is in the [children] of two
    nodes and the parent relation has no cycle. *)
Theorem hierarchy_of_named_concepts_is_a_forest
  (concepts : list ExtractedConcept.t)
  (relationships : list ExtractedRelationship.t) :
  Forest.namesAreNonEmpty concepts ->
  exists st,
    ConceptHierarchy.buildHierarchy concepts relationships = Some st
    /\ Forest.isForest st.
Proof.
  intros Hnames. unfold ConceptHierarchy.buildHierarchy. cbv zeta.
  set (st0 :=
         ConceptHierarchy.inferMissingHierarchy
           (ConceptHierarchy.buildIsARelationships
              (ConceptHierarchy.initializeNodes concepts) relationships)
           concepts).
  assert (Hwf : Forest.wellFormed (ConceptHierarchy.hierarchy st0)).
  { apply inferMissingHierarchy_wellFormed,
      buildIsARelationships_wellFormed, initializeNodes_wellFormed, Hnames. }
  destruct (calculateLevels_returns _ Hwf st0 eq_refl) as (st & E & Hsame).
  exists st. split; [exact E|]. split.
  - intros c p1 p2 H1 H2.
    apply (sameShape_down _ _ _ _ Hsame), (Forest.wf_children _ Hwf) in H1.
    apply (sameShape_down _ _ _ _ Hsame), (Forest.wf_children _ Hwf) in H2.
    destruct H1 as (n1 & Hn1 & Hp1), H2 as (n2 & Hn2 & Hp2). congruence.
  - intros c H. apply (Forest.wf_acyclic _ Hwf c). revert H.
    apply clos_trans_incl. intros x y. apply sameShape_up, Hsame.
Qed.

(** Witness: the concepts dogs and mammals with the one relationship
    dogs is-a mammals. *)
Lemma hierarchy_of_named_concepts_is_a_forest_witness :
  Forest.namesAreNonEmpty Sample.dogsAndMammals
  /\ exists st,
       ConceptHierarchy.buildHierarchy Sample.dogsAndMammals
         [Sample.isARelationship "dogs" "mammals"] = Some st
       /\ Forest.isForest st.
Proof.
  assert (H : Forest.namesAreNonEmpty Sample.dogsAndMammals).
  { intros c [<-|[<-|[]]]; discriminate. }
  split; [exact H|].
  exact (hierarchy_of_named_concepts_is_a_forest _ _ H).
Defined.

(** ** What [addClass] does maintain *)

Section AddClassFacts.

Import OntologyManager.

Lemma includes_In (l : list string) (x : string) :
  Arr.includes l x = true <-> In x l.
Proof.
  unfold Arr.includes. rewrite existsb_exists. split.
  - intros (y & Hy & E). apply String.eqb_eq in E. now subst.
  - intros H. exists x. split; [assumption|apply String.eqb_refl].
Qed.

(** One turn of the loop keeps every class and never shortens a
    [subClasses] list. *)
Lemma linkSubClass_grows classId s superClassId k :
  match getClass k s with
  | Some K =>
      exists K',
        getClass k (linkSubClass classId s superClassId) = Some K'
        /\ incl (OntologyClass.subClasses K) (OntologyClass.subClasses K')
  | None => getClass k (linkSubClass classId s superClassId) = None
  end.
Proof.
  unfold linkSubClass.
  destruct (getClass superClassId s) as [superClass|] eqn:Hsup.
  - destruct (negb _).
    + rewrite getClass_withClasses, get_set.
      destruct (String.eqb_spec k superClassId) as [->|_].
      * rewrite Hsup. eexists. split; [reflexivity|]. simpl.
        apply incl_appl, incl_refl.
      * destruct (getClass k s) as [K|] eqn:HK; unfold getClass in HK;
          rewrite HK; eauto using incl_refl.
    + destruct (getClass k s); eauto using incl_refl.
  - destruct (getClass k s); eauto using incl_refl.
Qed.

Lemma linkSubClass_links classId s superClassId P :
  getClass superClassId (linkSubClass classId s superClassId) = Some P ->
  In classId (OntologyClass.subClasses P).
Proof.
  unfold linkSubClass.
  destruct (getClass superClassId s) as [superClass|] eqn:Hsup;
    [|congruence].
  destruct (Arr.includes (OntologyClass.subClasses superClass) classId) eqn:E;
    simpl.
  - intros H. rewrite Hsup in H. injection H as <-. now apply includes_In.
  - rewrite getClass_withClasses, get_set_same. intros [= <-]. simpl.
    apply in_or_app. right. now left.
Qed.

Lemma updateClassHierarchy_keeps classId l :
  forall s k K,
    getClass k s = Some K ->
    exists K',
      getClass k (fold_left (linkSubClass classId) l s) = Some K'
      /\ incl (OntologyClass.subClasses K) (OntologyClass.subClasses K').
Proof.
  induction l as [|x l IH]; intros s k K HK; simpl.
  - eauto using incl_refl.
  - pose proof (linkSubClass_grows classId s x k) as H. rewrite HK in H.
    destruct H as (K1 & HK1 & Hincl).
    destruct (IH _ _ _ HK1) as (K2 & HK2 & Hincl2).
    eauto using incl_tran.
Qed.

Lemma updateClassHierarchy_links classId l :
  forall s p P,
    In p l ->
    getClass p (fold_left (linkSubClass classId) l s) = Some P ->
    In classId (OntologyClass.subClasses P).
Proof.
  induction l as [|x l IH]; intros s p P Hin HP; simpl in *; [contradiction|].
  destruct Hin as [->|Hin]; [|eauto].
  destruct (getClass p (linkSubClass classId s p)) as [P1|] eqn:HP1.
  - destruct (updateClassHierarchy_keeps classId l _ _ _ HP1)
      as (P2 & HP2 & Hincl).
    rewrite HP in HP2. injection HP2 as <-.
    apply Hincl. now apply (linkSubClass_links classId s p).
  - exfalso. clear IH. revert HP1 HP. generalize (linkSubClass classId s p).
    induction l as [|y l IH]; intros s1 H1 H2; simpl in H2; [congruence|].
    apply (IH (linkSubClass classId s1 y)); auto.
    pose proof (linkSubClass_grows classId s1 y p) as H. now rewrite H1 in H.
Qed.

(** After [addClass c], every super-class of [c] that is in the store lists
    [c] among its [subClasses]. *)
Theorem addClass_links_present_superclasses :
  forall (s : Store) (c : OntologyClass.t) (p : string) (P : OntologyClass.t),
    In p (OntologyClass.superClasses c) ->
    getClass p (addClass c s) = Some P ->
    In (OntologyClass.id c) (OntologyClass.subClasses P).
Proof.
  intros s c p P Hin HP. unfold addClass, updateClassHierarchy in HP.
  eapply updateClassHierarchy_links; eauto.
Qed.

(** The child-first sample again: the parent is added last, with no
    super-class, and nothing is linked. *)
Lemma addClass_links_present_superclasses_witness :
  In "A" (OntologyClass.superClasses (Sample.cls "B" ["A"]))
  /\ In "B"
       (OntologyClass.subClasses
          (OntologyClass.withSubClasses ["B"] (Sample.cls "A" []))).
Proof.
  split; [simpl; auto|].
  apply (addClass_links_present_superclasses
           (run [AddClass (Sample.cls "A" [])]) (Sample.cls "B" ["A"]) "A");
    [simpl; auto|reflexivity].
Defined.

End AddClassFacts.

(** ** The search for a cycle *)

Section JsSetFacts.

Lemma In_add (x y : string) (s : JsSet.t) :
  In x (JsSet.add y s) <-> x = y \/ In x s.
Proof.
  unfold JsSet.add. destruct (JsSet.has y s) eqn:E.
  - apply has_In in E. split; [auto|]. intros [->|H]; auto.
  - rewrite in_app_iff. simpl. intuition.
Qed.

Lemma In_delete (x y : string) (s : JsSet.t) :
  In x (JsSet.delete y s) <-> x <> y /\ In x s.
Proof.
  unfold JsSet.delete. rewrite filter_In.
  destruct (String.eqb_spec y x); simpl; intuition congruence.
Qed.

Lemma NoDup_add (x : string) (s : JsSet.t) : NoDup s -> NoDup (JsSet.add x s).
Proof.
  intros H. unfold JsSet.add. destruct (JsSet.has x s) eqn:E; auto.
  apply NoDup_snoc; auto. intros Hin. apply has_In in Hin. congruence.
Qed.

Lemma has_false (x : string) (s : JsSet.t) : JsSet.has x s = false <-> ~ In x s.
Proof.
  rewrite <- has_In. destruct (JsSet.has x s); intuition congruence.
Qed.

End JsSetFacts.

Lemma dfsLoop_nil call v path (V S : JsSet.t) :
  Search.dfsLoop call v path [] V S = ([], (V, JsSet.delete v S)).
Proof. reflexivity. Qed.

Lemma dfsLoop_cons call v path w rest (V S : JsSet.t) :
  Search.dfsLoop call v path (w :: rest) V S
  = if negb (JsSet.has w V)
    then
      if (0 <? length (fst (call w V S)))%nat then call w V S
      else Search.dfsLoop call v path rest (fst (snd (call w V S)))
             (snd (snd (call w V S)))
    else if JsSet.has w S
         then ((Arr.sliceFrom (Arr.indexOf path w) path ++ [w])%list, (V, S))
         else Search.dfsLoop call v path rest V S.
Proof. reflexivity. Qed.

Lemma dfs_S next fuel v (visited stack : JsSet.t) path :
  Search.dfs next (S fuel) v visited stack path
  = match next v with
    | None => ([], (JsSet.add v visited, JsSet.add v stack))
    | Some successors =>
        Search.dfsLoop
          (fun w V1 S1 => Search.dfs next fuel w V1 S1 (path ++ [v])%list)
          v (path ++ [v])%list successors (JsSet.add v visited)
          (JsSet.add v stack)
    end.
Proof. reflexivity. Qed.

Lemma nonempty_length {A : Type} (l : list A) :
  (0 <? length l)%nat = false <-> l = [].
Proof. destruct l; simpl; split; intros H; (reflexivity || discriminate H). Qed.

Section SearchFacts.

Import Search.

Variable next : string -> option (list string).

(** [universe] lists every identifier the search can meet: the roots and the
    successors of every node. *)
Variable universe : list string.
Hypothesis successors_in_universe :
  forall u l w, next u = Some l -> In w l -> In w universe.

Let edge := edge next.

(** A visited node is finished when it has left the stack; a node that is not
    a key never leaves the stack and is finished at once. *)
Let fin (V S : JsSet.t) (u : string) : Prop :=
  In u V /\ (In u S -> next u = None).

(** The finished nodes are closed under [edge] and lie on no cycle. *)
Let inv (V S : JsSet.t) : Prop :=
  (forall u w, fin V S u -> edge u w -> fin V S w)
  /\ (forall u, fin V S u -> ~ clos_trans string edge u u).

Let ok (V S : JsSet.t) : Prop :=
  inv V S /\ incl S V /\ NoDup V /\ incl V universe.

(** What a search that reports nothing leaves behind. *)
Let post (v : string) (V S V' S' : JsSet.t) : Prop :=
  ok V' S' /\ incl V V' /\ In v V'
  /\ (forall u, In u V -> (In u S' <-> In u S))
  /\ (forall u, In u V' -> ~ In u V -> fin V' S' u).

Let closedWorld : Prop := forall u, In u universe -> next u <> None.

Lemma fin_mono V S V' S' u :
  incl V V' -> (forall x, In x V -> (In x S' <-> In x S)) ->
  fin V S u -> fin V' S' u.
Proof.
  intros HV HS [Hu Habs]. split; [auto|]. intros H. apply Habs.
  now apply HS.
Qed.

Lemma closed_reach V S u w :
  inv V S -> fin V S u -> clos_refl_trans string edge u w -> fin V S w.
Proof.
  intros [Hclosed _] Hu Hpath. apply clos_rt_rt1n in Hpath.
  induction Hpath as [|x y z Hxy _ IH]; eauto.
Qed.

Lemma inv_same V S V' S' :
  (forall u, fin V' S' u <-> fin V S u) -> inv V S -> inv V' S'.
Proof.
  intros Hsame [Hclosed Hacyclic]. split.
  - intros u w Hu Huw. apply Hsame. apply Hsame in Hu. eauto.
  - intros u Hu. apply Hsame in Hu. auto.
Qed.

(** Adding a finished node whose successors are all finished. *)
Lemma inv_finish V S V' S' v :
  inv V S -> ~ fin V S v ->
  (forall u, fin V' S' u <-> fin V S u \/ u = v) ->
  (forall w, edge v w -> fin V S w) ->
  inv V' S'.
Proof.
  intros Hinv Hv Hsame Hsucc. pose proof Hinv as [Hclosed Hacyclic]. split.
  - intros u w Hu Huw. apply Hsame. left. apply Hsame in Hu as [Hu| ->]; eauto.
  - intros u Hu Hcycle. apply Hsame in Hu as [Hu| ->]; [now apply (Hacyclic u)|].
    apply clos_trans_t1n in Hcycle.
    assert (Hfirst : exists w, edge v w /\ clos_refl_trans string edge w v).
    { inversion Hcycle as [y Hy|y z Hy Hrest]; subst.
      - exists v. split; [assumption|apply rt_refl].
      - exists y. split; [assumption|].
        apply clos_trans_t1n_iff in Hrest. now apply clos_t_clos_rt. }
    destruct Hfirst as (w & Hvw & Hwv).
    apply Hv. eapply closed_reach; eauto.
Qed.

Lemma visited_bound V : NoDup V -> incl V universe -> length V <= length universe.
Proof. apply NoDup_incl_length. Qed.

(** Under [closedWorld] only [v] and the nodes that were on the stack can
    be on the stack while the successors of [v] are searched. *)
Lemma stack_frame V S V1 S1 v u :
  closedWorld -> incl S1 V1 -> incl V1 universe ->
  (forall x, In x V -> (In x S1 <-> In x S)) ->
  (forall x, In x V1 -> ~ In x V -> x <> v -> fin V1 S1 x) ->
  In u S1 -> u = v \/ In u S.
Proof.
  intros Hworld HS1 HV1 Hframe Hnew Hu.
  destruct (in_dec string_dec u V) as [HuV|HuV].
  - right. now apply Hframe.
  - destruct (string_dec u v) as [->|Hne]; [now left|].
    exfalso. destruct (Hnew u (HS1 u Hu) HuV Hne) as [_ Habs].
    apply (Hworld u); auto.
Qed.

Section Loop.

Variable fuel : nat.
Variable v : string.
Variable path : list string.
Variable successors : list string.
Variables V S : JsSet.t.

Hypothesis Hnext : next v = Some successors.
Hypothesis HvV : ~ In v V.

(** The specification of [dfs] at [fuel], assumed for the recursive calls. *)
Hypothesis call_spec :
  forall w V1 S1,
    ok V1 S1 -> ~ In w V1 -> In w universe ->
    length universe < fuel + length V1 ->
    let r := dfs next fuel w V1 S1 path in
    (fst r = [] -> post w V1 S1 (fst (snd r)) (snd (snd r)))
    /\ (fst r <> [] -> closedWorld ->
        (forall u, In u S1 -> clos_trans string edge u w) ->
        cyclic next).

Lemma loop_spec :
  forall rest V1 S1,
    incl rest successors ->
    ok V1 S1 -> In v V1 -> In v S1 -> incl V V1 ->
    (forall u, In u V -> (In u S1 <-> In u S)) ->
    (forall u, In u V1 -> ~ In u V -> u <> v -> fin V1 S1 u) ->
    (forall w, edge v w -> In w rest \/ fin V1 S1 w) ->
    length universe < fuel + length V1 ->
    let r :=
      dfsLoop (fun w V2 S2 => dfs next fuel w V2 S2 path) v path rest V1 S1 in
    (fst r = [] -> post v V S (fst (snd r)) (snd (snd r)))
    /\ (fst r <> [] -> closedWorld ->
        (forall u, In u S -> clos_trans string edge u v) ->
        cyclic next).
Proof.
  induction rest as [|w rest IH];
    intros V1 S1 Hrest Hok HvV1 HvS1 HVV1 Hframe Hnew Hsucc Hfuel.
  - (* every successor is finished: [v] leaves the stack *)
    rewrite dfsLoop_nil. cbv zeta. cbn [fst snd].
    split; [intros _|intros H; now elim H].
    destruct Hok as (Hinv & HS1 & Hnd & HU).
    assert (Hnotfin : ~ fin V1 S1 v).
    { intros [_ Habs]. rewrite Habs in Hnext; [discriminate|assumption]. }
    assert (Hsame : forall u,
               fin V1 (JsSet.delete v S1) u <-> fin V1 S1 u \/ u = v).
    { intros u. unfold fin. rewrite In_delete. split.
      - intros [Hu Habs]. destruct (string_dec u v) as [->|Hne]; [now right|].
        left. split; auto.
      - intros [[Hu Habs]| ->].
        + split; [assumption|]. intros [_ Hin]. auto.
        + split; [assumption|]. intros [Hne _]. now elim Hne. }
    assert (Hinv' : inv V1 (JsSet.delete v S1)).
    { apply (inv_finish V1 S1 V1 (JsSet.delete v S1) v); auto.
      intros w Hw. destruct (Hsucc w Hw) as [[]|Hfin]. exact Hfin. }
    refine (conj (conj Hinv' (conj _ (conj Hnd HU)))
              (conj HVV1 (conj HvV1 (conj _ _)))).
    + intros u Hu. apply In_delete in Hu. apply HS1, Hu.
    + intros u Hu. rewrite In_delete. rewrite <- (Hframe u Hu).
      split; [tauto|]. intros H. split; [congruence|assumption].
    + intros u Hu HuV. apply Hsame.
      destruct (string_dec u v) as [->|Hne]; [now right|].
      left. now apply Hnew.
  - rewrite dfsLoop_cons. destruct (JsSet.has w V1) eqn:HwV1; cbn [negb].
    + destruct (JsSet.has w S1) eqn:HwS1.
      * (* a successor on the stack: a cycle is reported *)
        cbn [fst snd]. split; [intros H; now destruct (Arr.sliceFrom _ _)|].
        intros _ Hworld Hstack. apply has_In in HwS1.
        destruct Hok as (Hinv & HS1 & Hnd & HU).
        assert (Hvw : edge v w).
        { exists successors. split; [assumption|]. apply Hrest. now left. }
        destruct (stack_frame V S V1 S1 v w Hworld HS1 HU Hframe Hnew HwS1)
          as [->|HwS].
        -- exists v. now apply t_step.
        -- exists w. eapply t_trans; [apply Hstack; exact HwS|now apply t_step].
      * (* a finished successor *)
        apply IH; auto.
        -- intros x Hx. apply Hrest. now right.
        -- intros x Hx. destruct (Hsucc x Hx) as [[<-|Hin]|Hfin]; auto.
           right. split; [now apply has_In|].
           intros Hin. apply has_In in Hin. congruence.
    + (* a successor that is not visited: the recursive call *)
      apply has_false in HwV1.
      assert (Hvw : edge v w).
      { exists successors. split; [assumption|]. apply Hrest. now left. }
      assert (HwU : In w universe).
      { eapply successors_in_universe; eauto. apply Hrest. now left. }
      destruct (call_spec w V1 S1 Hok HwV1 HwU Hfuel) as [Hnone Hsome].
      destruct (0 <? length (fst (dfs next fuel w V1 S1 path)))%nat eqn:Hlen.
      * split.
        -- intros E. rewrite E in Hlen. discriminate.
        -- intros Hne Hworld Hstack. apply Hsome; auto.
           intros u Hu. destruct Hok as (Hinv & HS1 & Hnd & HU).
           destruct (stack_frame V S V1 S1 v u Hworld HS1 HU Hframe Hnew Hu)
             as [->|HuS].
           ++ now apply t_step.
           ++ eapply t_trans; [apply Hstack; exact HuS|now apply t_step].
      * assert (E : fst (dfs next fuel w V1 S1 path) = []).
        { now apply nonempty_length. }
        destruct (Hnone E) as (Hok2 & HV12 & HwV2 & Hframe2 & Hnew2).
        pose proof Hok as (_ & _ & Hnd1 & _).
        pose proof Hok2 as (_ & _ & Hnd2 & HU2).
        apply IH; auto.
        -- intros x Hx. apply Hrest. now right.
        -- apply Hframe2; auto.
        -- intros x Hx. apply HV12. auto.
        -- intros u Hu. rewrite Hframe2; auto.
        -- intros u Hu HuV Hne.
           destruct (in_dec string_dec u V1) as [Hu1|Hu1].
           ++ eapply fin_mono; [exact HV12|exact Hframe2|]. now apply Hnew.
           ++ now apply Hnew2.
        -- intros x Hx. destruct (Hsucc x Hx) as [[<-|Hin]|Hfin]; auto.
           right. eapply fin_mono; eauto.
        -- pose proof (NoDup_incl_length Hnd1 HV12). lia.
Qed.

End Loop.

(** The specification of one search. *)
Lemma dfs_spec :
  forall fuel v V S path,
    ok V S -> ~ In v V -> In v universe ->
    length universe < fuel + length V ->
    let r := dfs next fuel v V S path in
    (fst r = [] -> post v V S (fst (snd r)) (snd (snd r)))
    /\ (fst r <> [] -> closedWorld ->
        (forall u, In u S -> clos_trans string edge u v) ->
        cyclic next).
Proof.
  induction fuel as [|fuel IH]; intros v V S path Hok HvV HvU Hfuel.
  - destruct Hok as (_ & _ & Hnd & HU).
    pose proof (visited_bound V Hnd HU). simpl in Hfuel. lia.
  - pose proof Hok as (Hinv & HSV & Hnd & HU).
    assert (HvS : ~ In v S) by (intros H; apply HvV, HSV, H).
    assert (Hlen : length (JsSet.add v V) = Datatypes.S (length V)).
    { unfold JsSet.add. apply has_false in HvV. rewrite HvV.
      rewrite length_app. simpl. lia. }
    assert (HokA : incl (JsSet.add v S) (JsSet.add v V)
                   /\ NoDup (JsSet.add v V)
                   /\ incl (JsSet.add v V) universe).
    { repeat split.
      - intros x Hx. apply In_add. apply In_add in Hx as [->|Hx]; auto.
      - now apply NoDup_add.
      - intros x Hx. apply In_add in Hx as [->|Hx]; auto. }
    destruct HokA as (HSA & HndA & HUA).
    assert (HframeA : forall u, In u V -> (In u (JsSet.add v S) <-> In u S)).
    { intros u Hu. rewrite In_add. split; [intros [->|H]; tauto|auto]. }
    rewrite dfs_S. destruct (next v) as [successors|] eqn:Hnext.
    + apply (loop_spec fuel v (path ++ [v])%list successors V S Hnext HvV).
      * intros w V1 S1. apply IH.
      * apply incl_refl.
      * assert (Hsame : forall u,
                   fin (JsSet.add v V) (JsSet.add v S) u <-> fin V S u).
        { intros u. unfold fin. rewrite !In_add. split.
          - intros [[->|Hu] Habs].
            + rewrite Habs in Hnext; [discriminate|now left].
            + split; auto.
          - intros [Hu Habs]. split; [now right|].
            intros [->|H]; [contradiction|auto]. }
        refine (conj (inv_same V S _ _ Hsame Hinv) (conj HSA (conj HndA HUA))).
      * apply In_add. now left.
      * apply In_add. now left.
      * intros x Hx. apply In_add. now right.
      * exact HframeA.
      * intros u Hu HuV Hne. apply In_add in Hu as [->|Hu]; tauto.
      * intros w Hw. left. destruct Hw as (l & Hl & Hin). congruence.
      * rewrite Hlen. lia.
    + (* [v] is not a key: it stays on the stack *)
      cbv zeta. cbn [fst snd]. split; [intros _|intros H; now elim H].
      assert (Hsame : forall u,
                 fin (JsSet.add v V) (JsSet.add v S) u <-> fin V S u \/ u = v).
      { intros u. unfold fin. rewrite !In_add. split.
        - intros [[->|Hu] Habs]; [now right|].
          left. split; [assumption|]. intros H. apply Habs. now right.
        - intros [[Hu Habs]| ->].
          + split; [now right|]. intros [->|H]; [contradiction|auto].
          + split; [now left|]. intros _. assumption. }
      assert (Hinv' : inv (JsSet.add v V) (JsSet.add v S)).
      { apply (inv_finish V S (JsSet.add v V) (JsSet.add v S) v); auto.
        - intros [Hv _]. auto.
        - intros w (l & Hl & _). congruence. }
      refine (conj (conj Hinv' (conj HSA (conj HndA HUA)))
                (conj _ (conj _ (conj HframeA _)))).
      * intros x Hx. apply In_add. now right.
      * apply In_add. now left.
      * intros u Hu HuV. apply Hsame. apply In_add in Hu as [->|Hu]; tauto.
Qed.

(** One turn of the loop of [sweep]. *)
Let turn (fuel : nat) (acc : list (list string) * (JsSet.t * JsSet.t))
  (root : string) : list (list string) * (JsSet.t * JsSet.t) :=
  let '(cycles, (visited, stack)) := acc in
  if negb (JsSet.has root visited)
  then
    let r := dfs next fuel root visited stack [] in
    if (0 <? length (fst r))%nat
    then ((cycles ++ [fst r])%list, snd r)
    else (cycles, snd r)
  else acc.

Lemma sweep_turns fuel roots :
  sweep next fuel roots
  = fold_left (turn fuel) roots ([], (JsSet.empty, JsSet.empty)).
Proof. reflexivity. Qed.

Lemma turn_eq fuel cycles (V S : JsSet.t) root :
  turn fuel (cycles, (V, S)) root
  = if negb (JsSet.has root V)
    then
      if (0 <? length (fst (dfs next fuel root V S [])))%nat
      then ((cycles ++ [fst (dfs next fuel root V S [])])%list,
            snd (dfs next fuel root V S []))
      else (cycles, snd (dfs next fuel root V S []))
    else (cycles, (V, S)).
Proof. reflexivity. Qed.

(** A reported cycle is never taken back. *)
Lemma turns_keep fuel roots :
  forall cycles V S,
    cycles <> [] -> fst (fold_left (turn fuel) roots (cycles, (V, S))) <> [].
Proof.
  induction roots as [|root roots IH]; intros cycles V S Hne; [exact Hne|].
  cbn [fold_left]. rewrite turn_eq.
  destruct (negb (JsSet.has root V)); [|now apply IH].
  destruct (dfs next fuel root V S []) as [c [V' S']]. cbn [fst snd].
  destruct (0 <? length c)%nat; apply IH; auto.
  now destruct cycles.
Qed.

(** Between two searches only identifiers that are not keys are on the
    stack. *)
Let idle (V S : JsSet.t) : Prop :=
  ok V S /\ (forall u, In u S -> next u = None).

Lemma turns_spec fuel :
  length universe < fuel ->
  forall roots V S,
    incl roots universe -> idle V S ->
    let r := fold_left (turn fuel) roots ([], (V, S)) in
    (fst r = [] ->
     idle (fst (snd r)) (snd (snd r))
     /\ incl V (fst (snd r))
     /\ forall root, In root roots -> In root (fst (snd r)))
    /\ (fst r <> [] -> closedWorld -> cyclic next).
Proof.
  intros Hfuel. induction roots as [|root roots IH]; intros V S Hroots Hidle.
  - cbn. split; [intros _|intros H; now elim H].
    split; [assumption|]. split; [apply incl_refl|intros ? []].
  - cbn [fold_left]. rewrite turn_eq.
    assert (Hroots' : incl roots universe).
    { intros x Hx. apply Hroots. now right. }
    destruct (JsSet.has root V) eqn:Hvisited; cbn [negb].
    + destruct (IH V S Hroots' Hidle) as [Hnone Hsome]. split; [|exact Hsome].
      intros E. destruct (Hnone E) as (Hidle' & Hincl & Hall).
      split; [assumption|]. split; [assumption|].
      intros x [<-|Hx]; [|now apply Hall].
      apply Hincl. now apply has_In.
    + apply has_false in Hvisited. destruct Hidle as [Hok Hstack].
      assert (HrootU : In root universe) by (apply Hroots; now left).
      assert (Hfuel' : length universe < fuel + length V) by lia.
      destruct (dfs_spec fuel root V S [] Hok Hvisited HrootU Hfuel')
        as [Hnone Hsome].
      destruct (dfs next fuel root V S []) as [c [V1 S1]] eqn:Hcall.
      cbn [fst snd] in *.
      destruct (0 <? length c)%nat eqn:Hlen.
      * assert (Hc : c <> []).
        { intros ->. discriminate Hlen. }
        cbn [app]. split.
        -- intros E. exfalso. revert E. apply turns_keep. discriminate.
        -- intros _ Hworld. apply Hsome; auto.
           intros u Hu. exfalso.
           destruct Hok as (_ & HSV & _ & HVU).
           apply (Hworld u); auto.
      * apply nonempty_length in Hlen.
        destruct (Hnone Hlen) as (Hok1 & HVV1 & Hroot1 & Hframe & Hnew).
        assert (Hidle1 : idle V1 S1).
        { split; [assumption|]. intros u Hu.
          destruct (in_dec string_dec u V) as [HuV|HuV].
          - apply Hstack. now apply Hframe.
          - destruct Hok1 as (_ & HSV1 & _ & _).
            destruct (Hnew u (HSV1 u Hu) HuV) as [_ Habs]. auto. }
        destruct (IH V1 S1 Hroots' Hidle1) as [Hnone' Hsome'].
        split; [|exact Hsome'].
        intros E. destruct (Hnone' E) as (Hidle' & Hincl & Hall).
        split; [assumption|]. split.
        -- intros x Hx. auto.
        -- intros x [<-|Hx]; auto.
Qed.

Lemma idle_empty : idle JsSet.empty JsSet.empty.
Proof.
  split; [|intros u []]. split; [|split; [intros u []|split]].
  - split; [intros u w [[] _]|intros u [[] _]].
  - constructor.
  - intros u [].
Qed.

(** Every reachable cycle is found: when every node that has successors is
    among the roots, a cycle of [edge] makes [sweep] report one. *)
Lemma sweep_complete fuel roots :
  length universe < fuel -> incl roots universe ->
  (forall u, next u <> None -> In u roots) ->
  cyclic next -> fst (sweep next fuel roots) <> [].
Proof.
  intros Hfuel Hroots Hkeys (x & Hcycle) E. rewrite sweep_turns in E.
  pose proof idle_empty as Hidle.
  destruct (turns_spec fuel Hfuel roots _ _ Hroots Hidle) as [Hnone _].
  destruct (Hnone E) as ([Hok Hstack] & _ & Hall).
  destruct Hok as ([_ Hacyclic] & _).
  apply (Hacyclic x); [|exact Hcycle].
  assert (Hpresent : next x <> None).
  { apply clos_trans_t1n in Hcycle.
    inversion Hcycle as [y (l & Hl & _)|y z (l & Hl & _) _]; congruence. }
  split; [apply Hall, Hkeys, Hpresent|].
  intros Hx. elim Hpresent. now apply Hstack.
Qed.

(** No false alarm when every identifier of the universe is a key: a
    reported cycle is a cycle of [edge]. *)
Lemma sweep_sound fuel roots :
  length universe < fuel -> incl roots universe ->
  closedWorld ->
  fst (sweep next fuel roots) <> [] -> cyclic next.
Proof.
  intros Hfuel Hroots Hworld Hne. rewrite sweep_turns in Hne.
  pose proof idle_empty as Hidle.
  destruct (turns_spec fuel Hfuel roots _ _ Hroots Hidle) as [_ Hsome].
  auto.
Qed.

End SearchFacts.

(** ** The circular-dependency rule of the validator *)

Section MapFacts.

Context {V : Type}.

Lemma get_In (k : string) (v : V) (m : JsMap.t V) :
  JsMap.get k m = Some v -> In (k, v) m.
Proof.
  induction m as [|[k' v'] m IH]; simpl; [discriminate|].
  destruct (String.eqb_spec k k') as [->|_]; [intros [= ->]; now left|auto].
Qed.

Lemma In_get (k : string) (v : V) (m : JsMap.t V) :
  NoDup (JsMap.keys m) -> In (k, v) m -> JsMap.get k m = Some v.
Proof.
  induction m as [|[k' v'] m IH]; simpl; [intros _ []|].
  intros Hnd [[= -> ->]|Hin].
  - now rewrite String.eqb_refl.
  - inversion Hnd as [|? ? Hk' Hnd']; subst.
    destruct (String.eqb_spec k k') as [->|_]; [|auto].
    elim Hk'. change k' with (fst (k', v)). now apply in_map.
Qed.

Lemma keys_set (k : string) (v : V) (m : JsMap.t V) :
  JsMap.keys (JsMap.set k v m)
  = if JsMap.has k m then JsMap.keys m else (JsMap.keys m ++ [k])%list.
Proof.
  rewrite has_get. induction m as [|[k' v'] m IH]; simpl; [reflexivity|].
  destruct (String.eqb_spec k k') as [->|_]; simpl; [reflexivity|].
  rewrite IH. now destruct (JsMap.get k m).
Qed.

Lemma keys_get (k : string) (m : JsMap.t V) :
  In k (JsMap.keys m) <-> JsMap.get k m <> None.
Proof.
  induction m as [|[k' v'] m IH]; simpl; [tauto|].
  destruct (String.eqb_spec k k') as [->|Hne].
  - split; [discriminate|auto].
  - rewrite <- IH. split; [intros [E|H]; congruence|auto].
Qed.

Lemma set_NoDup (k : string) (v : V) (m : JsMap.t V) :
  NoDup (JsMap.keys m) -> NoDup (JsMap.keys (JsMap.set k v m)).
Proof.
  intros Hnd. rewrite keys_set, has_get.
  destruct (JsMap.get k m) eqn:E; [assumption|].
  apply NoDup_snoc; [assumption|]. rewrite keys_get. congruence.
Qed.

Lemma ofEntries_NoDup (entries : list (string * V)) :
  NoDup (JsMap.keys (JsMap.ofEntries entries)).
Proof.
  unfold JsMap.ofEntries.
  apply (fold_left_preserves (fun m => NoDup (JsMap.keys m))).
  - intros m kv. apply set_NoDup.
  - constructor.
Qed.

End MapFacts.

Section ValidatorSearch.

Import OntologyValidator.

Variable classMap : JsMap.t OntologyClass.t.

Let next := Search.superClassesIn classMap.

(** The class keys and the super-class references of the map. *)
Let universe : list string :=
  flat_map (fun kv => fst kv :: OntologyClass.superClasses (snd kv)) classMap.

Lemma detectCycle_dfs :
  forall fuel v visited stack path,
    detectCycle fuel v classMap visited stack path
    = Search.dfs next fuel v visited stack path.
Proof.
  induction fuel as [|fuel IH]; intros v visited stack path; [reflexivity|].
  rewrite dfs_S. cbn [detectCycle]. unfold next, Search.superClassesIn.
  destruct (JsMap.get v classMap) as [cls|]; [|reflexivity].
  cbn [option_map].
  generalize (JsSet.add v visited) (JsSet.add v stack).
  induction (OntologyClass.superClasses cls) as [|w rest IHl]; intros V1 S1.
  - reflexivity.
  - rewrite dfsLoop_cons. cbn zeta. rewrite <- !IH.
    destruct (negb (JsSet.has w V1)).
    + destruct (0 <? length (fst (detectCycle fuel w classMap V1 S1 _)))%nat;
        [reflexivity|apply IHl].
    + destruct (JsSet.has w S1); [reflexivity|apply IHl].
Qed.

Lemma cycleFuel_universe : cycleFuel classMap = S (length universe).
Proof.
  unfold cycleFuel, universe. f_equal.
  induction classMap as [|[k c] m IH]; [reflexivity|].
  simpl. rewrite length_app, IH. reflexivity.
Qed.

Lemma successors_in_universe u l w :
  next u = Some l -> In w l -> In w universe.
Proof.
  unfold next, Search.superClassesIn. intros Hl Hw.
  destruct (JsMap.get u classMap) as [c|] eqn:Hc; [|discriminate].
  injection Hl as <-. apply get_In in Hc.
  apply in_flat_map. exists (u, c). split; [assumption|]. now right.
Qed.

Lemma keys_in_universe : incl (JsMap.keys classMap) universe.
Proof.
  intros k Hk. apply in_map_iff in Hk as ([k' c] & <- & Hin).
  apply in_flat_map. exists (k', c). split; [assumption|]. now left.
Qed.

Lemma present_is_key u : next u <> None -> In u (JsMap.keys classMap).
Proof.
  unfold next, Search.superClassesIn. intros H. apply keys_get.
  now destruct (JsMap.get u classMap).
Qed.

Lemma resolved_closed :
  NoDup (JsMap.keys classMap) -> Search.resolved classMap ->
  forall u, In u universe -> next u <> None.
Proof.
  intros Hnd Hres u Hu. unfold next, Search.superClassesIn.
  apply in_flat_map in Hu as ([k c] & Hin & [<-|Hsup]); cbn [fst snd] in *.
  - rewrite (In_get k c classMap Hnd Hin). discriminate.
  - pose proof (Hres k c u (In_get k c classMap Hnd Hin) Hsup) as Hhas.
    rewrite has_get in Hhas. now destruct (JsMap.get u classMap).
Qed.

End ValidatorSearch.

Section RuleOne.

Import OntologyValidator.

Lemma rule1_fold (classMap : JsMap.t OntologyClass.t) (fuel : nat)
  (roots : list string) :
  forall cycles visited stack,
    fst
      (fold_left
         (fun acc classId =>
            let '(errs, (visited, recursionStack)) := acc in
            if negb (JsSet.has classId visited)
            then
              let r :=
                detectCycle fuel classId classMap visited recursionStack [] in
              if (0 <? length (fst r))%nat
              then ((errs ++ [circularDependencyError (fst r)])%list, snd r)
              else (errs, snd r)
            else acc)
         roots (map circularDependencyError cycles, (visited, stack)))
    = map circularDependencyError
        (fst
           (fold_left
              (fun acc root =>
                 let '(cycles, (visited, stack)) := acc in
                 if negb (JsSet.has root visited)
                 then
                   let r :=
                     Search.dfs (Search.superClassesIn classMap) fuel root
                       visited stack [] in
                   if (0 <? length (fst r))%nat
                   then ((cycles ++ [fst r])%list, snd r)
                   else (cycles, snd r)
                 else acc)
              roots (cycles, (visited, stack)))).
Proof.
  induction roots as [|root roots IH]; intros cycles visited stack;
    [reflexivity|].
  cbn [fold_left]. rewrite detectCycle_dfs.
  destruct (negb (JsSet.has root visited)); [|apply IH].
  cbv zeta.
  destruct (Search.dfs _ fuel root visited stack []) as [c [V1 S1]].
  cbn [fst snd].
  destruct (0 <? length c)%nat; [|apply IH].
  rewrite <- IH. now rewrite map_app.
Qed.

Lemma rule1_sweep (context : ValidationContext) :
  errors (validateCircularDependencies context)
  = map circularDependencyError
      (fst (Search.sweep (Search.superClassesIn (classes context))
              (cycleFuel (classes context)) (JsMap.keys (classes context)))).
Proof.
  unfold validateCircularDependencies, Search.sweep. cbn [errors].
  apply (rule1_fold (classes context) (cycleFuel (classes context))
           (JsMap.keys (classes context)) [] JsSet.empty JsSet.empty).
Qed.

(** A cycle of the super-class graph makes the rule report an error. *)
Lemma rule1_complete (context : ValidationContext) :
  Search.cyclic (Search.superClassesIn (classes context)) ->
  errors (validateCircularDependencies context) <> [].
Proof.
  intros Hcyclic. rewrite rule1_sweep.
  pose proof (sweep_complete _ _
                (successors_in_universe (classes context))
                (cycleFuel (classes context)) (JsMap.keys (classes context)))
    as Hcomplete.
  intros E. apply map_eq_nil in E. revert E. apply Hcomplete; auto.
  - rewrite cycleFuel_universe. lia.
  - apply keys_in_universe.
  - apply present_is_key.
Qed.

(** When every super-class reference names a class, the rule reports an
    error only if the super-class graph has a cycle. *)
Lemma rule1_sound (context : ValidationContext) :
  NoDup (JsMap.keys (classes context)) ->
  Search.resolved (classes context) ->
  errors (validateCircularDependencies context) <> [] ->
  Search.cyclic (Search.superClassesIn (classes context)).
Proof.
  intros Hnd Hres Herr. rewrite rule1_sweep in Herr.
  apply (sweep_sound _ _ (successors_in_universe (classes context))
           (cycleFuel (classes context)) (JsMap.keys (classes context))).
  - rewrite cycleFuel_universe. lia.
  - apply keys_in_universe.
  - now apply resolved_closed.
  - intros E. apply Herr. now rewrite E.
Qed.

Lemma rule1_critical (context : ValidationContext) :
  forall e, In e (errors (validateCircularDependencies context)) ->
            ValidationError.severity e = critical.
Proof.
  intros e. rewrite rule1_sweep. intros He.
  apply in_map_iff in He as (c & <- & _). reflexivity.
Qed.

(** The errors of the other rules are of severity [major]. *)
Lemma rule2_major (context : ValidationContext) :
  forall e, In e (errors (validateSuperclassReferences context)) ->
            ValidationError.severity e = major.
Proof.
  intros e He. cbn [validateSuperclassReferences errors] in He.
  apply in_flat_map in He as (cls & _ & He).
  apply in_flat_map in He as (sup & _ & He).
  destruct (negb _); [destruct He as [<-|[]]; reflexivity|destruct He].
Qed.

Lemma rule3_major (context : ValidationContext) :
  forall e, In e (errors (validatePropertyConstraints context)) ->
            ValidationError.severity e = major.
Proof.
  intros e He. cbn [validatePropertyConstraints errors] in He.
  apply in_flat_map in He as (p & _ & He). unfold propertyErrors in He.
  rewrite !in_app_iff in He. destruct He as [He|[He|[He|He]]].
  - apply in_flat_map in He as (d & _ & He).
    destruct (negb _); [destruct He as [<-|[]]; reflexivity|destruct He].
  - destruct (isObject _); [|destruct He].
    apply in_flat_map in He as (d & _ & He).
    destruct (negb _); [destruct He as [<-|[]]; reflexivity|destruct He].
  - destruct (_ <? _)%Z; [destruct He as [<-|[]]; reflexivity|destruct He].
  - destruct (Cardinality.max _); [|destruct He].
    destruct (_ <? _)%Z; [destruct He as [<-|[]]; reflexivity|destruct He].
Qed.

Lemma rule4_major (context : ValidationContext) :
  forall e, In e (errors (validateRelationshipConsistency context)) ->
            ValidationError.severity e = major.
Proof.
  intros e He. cbn [validateRelationshipConsistency errors] in He.
  apply in_flat_map in He as (p & _ & He).
  destruct (areContradictory _ _); [destruct He as [<-|[]]; reflexivity|].
  destruct He.
Qed.

Lemma rule8_major (context : ValidationContext) :
  forall e, In e (errors (validateConstraints context)) ->
            ValidationError.severity e = major.
Proof.
  intros e He. cbn [validateConstraints errors] in He.
  apply in_flat_map in He as ([cls [constraint check]] & _ & He).
  destruct (isError _); [destruct He as [<-|[]]; reflexivity|destruct He].
Qed.

(** The other seven rules of the initial list report no critical error. *)
Lemma other_rules_not_critical (context : ValidationContext) :
  forall e, In e (errors (runRules (tl validationRules) context)) ->
            ValidationError.severity e = major.
Proof.
  assert (Hall : Forall
                   (fun r =>
                      forall e, In e (errors (runRule context noFindings r)) ->
                                ValidationError.severity e = major)
                   (tl validationRules)).
  { unfold validationRules. cbn [tl].
    repeat apply Forall_cons; try apply Forall_nil; intros e He;
      unfold runRule, rule in He; cbn [validator errors noFindings app] in He.
    - now apply (rule2_major context).
    - now apply (rule3_major context).
    - now apply (rule4_major context).
    - destruct He.
    - destruct He.
    - destruct He.
    - now apply (rule8_major context). }
  induction Hall as [|r rules Hr _ IH]; intros e He; [destruct He|].
  destruct (runRules_cons context r rules) as (Herr & _ & _).
  rewrite Herr in He. apply in_app_or in He as [He|He]; auto.
Qed.

End RuleOne.

Section Verdict.

Import OntologyValidator.

Lemma report_errors (classList : list OntologyClass.t)
  (propertyList : list OntologyProperty.t)
  (relationshipList : list OntologyRelationship.t) :
  let context := makeContext classList propertyList relationshipList in
  OntologyValidationResult.errors
    (validateOntology validationRules classList propertyList relationshipList)
  = (errors (validateCircularDependencies context)
     ++ errors (runRules (tl validationRules) context))%list.
Proof.
  intros context. unfold validateOntology. cbn [OntologyValidationResult.errors].
  fold context.
  destruct (runRules_cons context (hd (rule "" "" minor (fun _ => noFindings))
                                     validationRules) (tl validationRules))
    as (He & _ & _).
  exact He.
Qed.

Lemma report_valid (classList : list OntologyClass.t)
  (propertyList : list OntologyProperty.t)
  (relationshipList : list OntologyRelationship.t) :
  let context := makeContext classList propertyList relationshipList in
  OntologyValidationResult.valid
    (validateOntology validationRules classList propertyList relationshipList)
  = (length (errors (validateCircularDependencies context)) =? 0)%nat.
Proof.
  intros context.
  pose proof (report_errors classList propertyList relationshipList) as He.
  cbv zeta in He. fold context in He.
  unfold validateOntology in *.
  cbn [OntologyValidationResult.valid OntologyValidationResult.errors] in *.
  fold context in He |- *. rewrite He, filter_app, length_app.
  assert (Hone : filter isCritical (errors (validateCircularDependencies context))
                 = errors (validateCircularDependencies context)).
  { apply filter_all, Forall_forall. intros e Hin. unfold isCritical.
    now rewrite (rule1_critical context e Hin). }
  assert (Hrest : filter isCritical (errors (runRules (tl validationRules) context))
                  = []).
  { destruct (filter isCritical
                (errors (runRules (tl validationRules) context)))
      as [|e l] eqn:E; [reflexivity|].
    assert (Hin : In e (filter isCritical
                          (errors (runRules (tl validationRules) context))))
      by (rewrite E; now left).
    apply filter_In in Hin as [Hin Hcrit]. unfold isCritical in Hcrit.
    rewrite (other_rules_not_critical context e Hin) in Hcrit. discriminate. }
  rewrite Hone, Hrest. simpl. now rewrite Nat.add_0_r.
Qed.

End Verdict.

(** With the initial rule list, an ontology whose super-class graph has a
    cycle is never reported valid. *)
Theorem cyclic_ontology_is_invalid
  (classList : list OntologyClass.t) (propertyList : list OntologyProperty.t)
  (relationshipList : list OntologyRelationship.t) :
  Search.cyclic
    (Search.superClassesIn
       (OntologyValidator.classes
          (OntologyValidator.makeContext classList propertyList
             relationshipList))) ->
  OntologyValidationResult.valid
    (OntologyValidator.validateOntology OntologyValidator.validationRules
       classList propertyList relationshipList) = false.
Proof.
  intros Hcyclic. rewrite report_valid.
  apply rule1_complete in Hcyclic.
  now destruct (OntologyValidator.errors _).
Qed.

(** Witness: [A] has super-class [B] and [B] has super-class [A]. *)
Lemma cyclic_ontology_is_invalid_witness :
  OntologyValidationResult.valid
    (OntologyValidator.validateOntology OntologyValidator.validationRules
       [Sample.cls "A" ["B"]; Sample.cls "B" ["A"]] [] []) = false.
Proof.
  apply cyclic_ontology_is_invalid.
  exists "A". apply t_trans with "B"; apply t_step.
  - exists ["B"]. split; [reflexivity|now left].
  - exists ["A"]. split; [reflexivity|now left].
Defined.

(** With the initial rule list, when every super-class reference names a
    class of the ontology, the verdict is [valid] exactly when the
    super-class graph has no cycle. *)
Theorem resolved_ontology_is_valid_iff_acyclic
  (classList : list OntologyClass.t) (propertyList : list OntologyProperty.t)
  (relationshipList : list OntologyRelationship.t) :
  let classMap :=
    OntologyValidator.classes
      (OntologyValidator.makeContext classList propertyList relationshipList)
  in
  Search.resolved classMap ->
  (OntologyValidationResult.valid
     (OntologyValidator.validateOntology OntologyValidator.validationRules
        classList propertyList relationshipList) = true
   <-> ~ Search.cyclic (Search.superClassesIn classMap)).
Proof.
  intros classMap Hres. rewrite report_valid. split.
  - intros Hvalid Hcyclic. apply rule1_complete in Hcyclic.
    fold classMap in Hcyclic.
    now destruct (OntologyValidator.errors _).
  - intros Hacyclic.
    destruct (OntologyValidator.errors _) as [|e l] eqn:E; [reflexivity|].
    elim Hacyclic. apply rule1_sound.
    + apply ofEntries_NoDup.
    + exact Hres.
    + rewrite E. discriminate.
Qed.

(** Witness: the class [A] and its subclass [B]. *)
Lemma resolved_ontology_is_valid_iff_acyclic_witness :
  Search.resolved
    (OntologyValidator.classes
       (OntologyValidator.makeContext
          [Sample.cls "A" []; Sample.cls "B" ["A"]] [] []))
  /\ (OntologyValidationResult.valid
        (OntologyValidator.validateOntology OntologyValidator.validationRules
           [Sample.cls "A" []; Sample.cls "B" ["A"]] [] []) = true
      <-> ~ Search.cyclic
            (Search.superClassesIn
               (OntologyValidator.classes
                  (OntologyValidator.makeContext
                     [Sample.cls "A" []; Sample.cls "B" ["A"]] [] [])))).
Proof.
  assert (H : Search.resolved
                (OntologyValidator.classes
                   (OntologyValidator.makeContext
                      [Sample.cls "A" []; Sample.cls "B" ["A"]] [] []))).
  { intros k c sup. cbn.
    destruct (String.eqb k "A"); [intros [= <-] []|].
    destruct (String.eqb k "B"); [|discriminate].
    intros [= <-] [<-|[]]. reflexivity. }
  split; [exact H|].
  exact (resolved_ontology_is_valid_iff_acyclic
           [Sample.cls "A" []; Sample.cls "B" ["A"]] [] [] H).
Defined.

(** *** A false alarm of the rule *)

Section SharedUndefinedSuperclass.

Import OntologyValidator.

Variables A B : OntologyClass.t.
Variable x : string.

Let a := OntologyClass.id A.
Let b := OntologyClass.id B.

Hypothesis Hab : a <> b.
Hypothesis Hxa : x <> a.
Hypothesis Hxb : x <> b.
Hypothesis HA : OntologyClass.superClasses A = [x].
Hypothesis HB : OntologyClass.superClasses B = [x].

Let classMap : JsMap.t OntologyClass.t := [(a, A); (b, B)].
Let next := Search.superClassesIn classMap.

Lemma shared_eqb :
  String.eqb a b = false /\ String.eqb b a = false
  /\ String.eqb x a = false /\ String.eqb a x = false
  /\ String.eqb x b = false /\ String.eqb b x = false.
Proof. repeat split; apply String.eqb_neq; congruence. Qed.

Ltac settle Eab Eba Exa Eax Exb Ebx :=
  unfold JsSet.add, JsSet.has, JsSet.delete, JsSet.empty;
  repeat
    (progress
       (cbn [existsb app orb negb filter fst snd length Nat.ltb Nat.leb];
        rewrite ?Eab, ?Eba, ?Exa, ?Eax, ?Exb, ?Ebx, ?String.eqb_refl)).

Lemma shared_next :
  next a = Some [x] /\ next b = Some [x] /\ next x = None.
Proof.
  destruct shared_eqb as (Eab & Eba & Exa & Eax & Exb & Ebx).
  unfold next, Search.superClassesIn, classMap. cbn [JsMap.get].
  rewrite !String.eqb_refl, Eba, Exa, Exb. cbn [option_map].
  now rewrite HA, HB.
Qed.

(** The search from [a] finds nothing and leaves [x] on the stack. *)
Lemma shared_first fuel :
  Search.dfs next (S (S fuel)) a JsSet.empty JsSet.empty []
  = ([], ([a; x], [x])).
Proof.
  destruct shared_eqb as (Eab & Eba & Exa & Eax & Exb & Ebx).
  destruct shared_next as (Ha & Hb & Hx).
  rewrite dfs_S, Ha. rewrite dfsLoop_cons. settle Eab Eba Exa Eax Exb Ebx.
  rewrite dfs_S, Hx. settle Eab Eba Exa Eax Exb Ebx.
  rewrite dfsLoop_nil. settle Eab Eba Exa Eax Exb Ebx. reflexivity.
Qed.

(** The search from [b] meets [x] on the stack and reports [b -> x]. *)
Lemma shared_second fuel :
  fst (Search.dfs next (S fuel) b [a; x] [x] []) = [b; x].
Proof.
  destruct shared_eqb as (Eab & Eba & Exa & Eax & Exb & Ebx).
  destruct shared_next as (Ha & Hb & Hx).
  rewrite dfs_S, Hb. rewrite dfsLoop_cons. settle Eab Eba Exa Eax Exb Ebx.
  unfold Arr.indexOf. cbn [Arr.indexFrom]. rewrite Exb. reflexivity.
Qed.

Lemma shared_errors (context : ValidationContext) :
  classes context = classMap ->
  errors (validateCircularDependencies context)
  = [circularDependencyError [b; x]].
Proof.
  destruct shared_eqb as (Eab & Eba & Exa & Eax & Exb & Ebx).
  intros Hmap. rewrite rule1_sweep, Hmap.
  assert (Hfuel : cycleFuel classMap = 5).
  { unfold cycleFuel, classMap. cbn. now rewrite HA, HB. }
  rewrite Hfuel. unfold Search.sweep, classMap. cbn [JsMap.keys map fst fold_left].
  fold classMap. fold next.
  unfold JsSet.has at 1. cbn [JsSet.empty existsb negb]. rewrite shared_first.
  cbn [fst snd length Nat.ltb Nat.leb]. unfold JsSet.has at 1.
  cbn [existsb]. rewrite Eba, Ebx. cbn [orb negb].
  rewrite shared_second. reflexivity.
Qed.

Lemma shared_acyclic : ~ Search.cyclic next.
Proof.
  destruct shared_next as (Ha & Hb & Hx).
  assert (Hedge : forall u w, Search.edge next u w -> w = x).
  { intros u w (l & Hl & Hw). revert Hl. unfold next, Search.superClassesIn.
    unfold classMap. cbn [JsMap.get].
    destruct (String.eqb u a); [|destruct (String.eqb u b)];
      cbn [option_map]; intros Hl; try discriminate Hl;
      injection Hl as <-; rewrite ?HA, ?HB in Hw;
      destruct Hw as [<-|[]]; reflexivity. }
  assert (Hnone : forall w, ~ Search.edge next x w).
  { intros w (l & Hl & _). congruence. }
  assert (Hfrom : forall u v,
             clos_trans_1n string (Search.edge next) u v ->
             exists w,
               Search.edge next u w
               /\ (w = v \/ clos_trans_1n string (Search.edge next) w v)).
  { intros u v H. destruct H as [y H|y z H H']; eauto. }
  intros (u & Hcycle). apply clos_trans_t1n in Hcycle.
  destruct (Hfrom u u Hcycle) as (w & Huw & Hw).
  pose proof (Hedge _ _ Huw) as ->. destruct Hw as [<-|Hrest].
  - now apply (Hnone x).
  - destruct (Hfrom x u Hrest) as (w & Hxw & _). now apply (Hnone w).
Qed.

(** Two classes whose only super-class is the same undefined class are
    reported as a circular dependency: the search leaves the undefined
    identifier on its stack, and the second class that refers to it is taken
    for the end of a cycle.  The ontology is reported invalid although its
    super-class graph has no cycle. *)
Theorem shared_undefined_superclass_is_reported_as_a_cycle
  (propertyList : list OntologyProperty.t)
  (relationshipList : list OntologyRelationship.t) :
  let report :=
    validateOntology validationRules [A; B] propertyList relationshipList in
  ~ Search.cyclic
      (Search.superClassesIn
         (classes (makeContext [A; B] propertyList relationshipList)))
  /\ OntologyValidationResult.valid report = false
  /\ hd_error (OntologyValidationResult.errors report)
     = Some (circularDependencyError [OntologyClass.id B; x]).
Proof.
  intros report.
  destruct shared_eqb as (Eab & Eba & Exa & Eax & Exb & Ebx).
  assert (Hmap : classes (makeContext [A; B] propertyList relationshipList)
                 = classMap).
  { cbn. fold a b. now rewrite Eba. }
  pose proof (shared_errors _ Hmap) as Hrule.
  split; [|split].
  - rewrite Hmap. apply shared_acyclic.
  - subst report. rewrite report_valid. now rewrite Hrule.
  - subst report. rewrite report_errors. now rewrite Hrule.
Qed.

End SharedUndefinedSuperclass.

(** Witness: the classes [Dog] and [Cat], both with the undefined
    super-class [Animal]. *)
Lemma shared_undefined_superclass_is_reported_as_a_cycle_witness :
  OntologyValidationResult.valid
    (OntologyValidator.validateOntology OntologyValidator.validationRules
       [Sample.cls "Dog" ["Animal"]; Sample.cls "Cat" ["Animal"]] [] [])
  = false.
Proof.
  refine (proj1 (proj2 (shared_undefined_superclass_is_reported_as_a_cycle
                          (Sample.cls "Dog" ["Animal"])
                          (Sample.cls "Cat" ["Animal"]) "Animal"
                          _ _ _ _ _ [] [])));
    try reflexivity; cbn; discriminate.
Defined.

(** ** What [buildHierarchy] establishes *)

Section BuildSteps.

Import ConceptHierarchy Forest.

(** A property of the state that placing an edge and adding a type node
    keep is kept by every step after [initializeNodes]. *)
Variable P : State -> Prop.

Hypothesis P_edge :
  forall st pk ck conf, P st -> P (addParentChildRelationship st pk ck conf).

Hypothesis P_type :
  forall st type,
    type <> "" -> P st ->
    JsMap.get (generateId type) (hierarchy st) = None ->
    P {| hierarchy :=
           JsMap.set (generateId type)
             (typeParentNode (generateId type) type) (hierarchy st);
         rootNodes := JsSet.add (generateId type) (rootNodes st) |}.

Lemma buildIsARelationships_keeps st relationships :
  P st -> P (buildIsARelationships st relationships).
Proof.
  unfold buildIsARelationships. apply (fold_left_preserves P).
  intros a r Ha. cbv zeta. destruct (_ && _); auto.
Qed.

Lemma createTypeHierarchy_keeps st type concepts :
  type <> "" -> P st -> P (createTypeHierarchy st type concepts).
Proof.
  intros Htype HP. unfold createTypeHierarchy. cbv zeta.
  apply (fold_left_preserves P).
  - intros a [level levelConcepts] Ha.
    apply (fold_left_preserves P); [|exact Ha].
    intros b c Hb.
    destruct (hasFreeNode b _); [|exact Hb].
    destruct (level =? 0)%nat; [now apply P_edge|].
    destruct (findBestParent c _); [|exact Hb].
    destruct (JsMap.has _ _); [now apply P_edge|exact Hb].
  - rewrite has_get.
    destruct (JsMap.get (generateId type) (hierarchy st)) eqn:Hnew;
      [exact HP|].
    cbn [negb]. now apply P_type.
Qed.

Lemma inferLinguisticHierarchies_keeps st concepts :
  P st -> P (inferLinguisticHierarchies st concepts).
Proof.
  unfold inferLinguisticHierarchies. apply (fold_left_preserves P).
  intros a c Ha. cbv zeta.
  destruct (1 <? _)%nat; [|exact Ha].
  apply (fold_left_preserves P); [|exact Ha].
  intros b p Hb. destruct (_ && _); auto.
Qed.

Lemma inferMissingHierarchy_keeps st concepts :
  P st -> P (inferMissingHierarchy st concepts).
Proof.
  intros HP. unfold inferMissingHierarchy. cbv zeta.
  apply inferLinguisticHierarchies_keeps.
  apply (fold_left_preserves P); [|exact HP].
  intros a [ty group] Ha. apply createTypeHierarchy_keeps; auto.
  now destruct ty.
Qed.

End BuildSteps.

Section BuiltState.

Import ConceptHierarchy Forest.

(** The state before [calculateLevels]: the node map is well-formed, it has
    no key twice, and [rootNodes] holds the nodes without parent. *)
Let sound (st : State) : Prop :=
  wellFormed (hierarchy st)
  /\ NoDup (JsMap.keys (hierarchy st))
  /\ rootsAreParentless st.

Lemma sound_initial concepts :
  namesAreNonEmpty concepts -> sound (initializeNodes concepts).
Proof.
  intros Hnames. split; [now apply initializeNodes_wellFormed|].
  unfold initializeNodes. set (final := fold_left _ _ _).
  set (J := fun st : State =>
         (forall k n, JsMap.get k (hierarchy st) = Some n ->
            HierarchyNode.parent n = None)
         /\ (forall k, In k (rootNodes st)
                       <-> JsMap.get k (hierarchy st) <> None)
         /\ NoDup (JsMap.keys (hierarchy st))).
  assert (HJ : J final).
  { subst final. apply (fold_left_preserves J).
    - intros st c (Hpar & Hroots & Hnd). unfold J. cbv zeta.
      cbn [hierarchy rootNodes]. split; [|split].
      + intros k n. rewrite get_set.
        destruct (String.eqb k _); [intros [= <-]; reflexivity|apply Hpar].
      + intros k. rewrite In_add, get_set, Hroots.
        destruct (String.eqb_spec k (HierarchyNode.id (nodeOf c)));
          [|tauto].
        split; [discriminate|auto].
      + now apply set_NoDup.
    - unfold J. cbn [hierarchy rootNodes]. split; [discriminate|].
      split; [|constructor]. intros k. cbn. tauto. }
  destruct HJ as (Hpar & Hroots & Hnd). split; [exact Hnd|].
  intros k. rewrite Hroots. split.
  - intros Hk. destruct (JsMap.get k (hierarchy final)) as [n|] eqn:E;
      [|congruence].
    exists n. split; [reflexivity|]. eapply Hpar; eauto.
  - intros (n & Hn & _). congruence.
Qed.

Lemma sound_edge st pk ck conf :
  sound st -> sound (addParentChildRelationship st pk ck conf).
Proof.
  intros (Hwf & Hnd & Hroots).
  split; [now apply addParentChildRelationship_wellFormed|].
  unfold addParentChildRelationship.
  destruct (JsMap.get pk (hierarchy st)) as [parent|] eqn:Hp; [|now split].
  destruct (JsMap.get ck (hierarchy st)) as [child|] eqn:Hc; [|now split].
  destruct (hasParent child) eqn:Hfree; [now split|].
  destruct (wouldCreateCycle st _ _) eqn:Hcycle; [now split|].
  cbn [hierarchy rootNodes]. split; [now apply set_NoDup, set_NoDup|].
  destruct (placed_ids _ _ _ _ _ Hwf Hp Hc) as [Hpid Hcid].
  rewrite Hpid, Hcid in Hcycle.
  assert (Hne : pk <> ck).
  { intros ->. apply (wouldCreateCycle_false st ck ck Hwf Hcycle).
    apply rt_refl. }
  intros k. cbn [hierarchy rootNodes].
  rewrite (placed_get _ _ _ _ _ conf Hwf Hp Hc), In_delete, Hcid, (Hroots k).
  destruct (String.eqb_spec k pk) as [->|Hkp].
  - rewrite Hp. split.
    + intros [_ (n & [= <-] & Hn)]. eexists. split; [reflexivity|exact Hn].
    + intros (n & [= <-] & Hn). split; [assumption|].
      eexists. split; [reflexivity|exact Hn].
  - destruct (String.eqb_spec k ck) as [->|Hkc].
    + split; [intros [H _]; now elim H|].
      intros (n & [= <-] & Hn). discriminate Hn.
    + tauto.
Qed.

Lemma sound_type st type :
  type <> "" -> sound st ->
  JsMap.get (generateId type) (hierarchy st) = None ->
  sound {| hierarchy :=
             JsMap.set (generateId type)
               (typeParentNode (generateId type) type) (hierarchy st);
           rootNodes := JsSet.add (generateId type) (rootNodes st) |}.
Proof.
  intros Htype (Hwf & Hnd & Hroots) Hnew. cbn [hierarchy rootNodes].
  split; [|split].
  - apply fresh_wellFormed; auto. now apply generateId_nonempty.
  - now apply set_NoDup.
  - intros k. cbn [hierarchy rootNodes]. rewrite In_add, get_set, (Hroots k).
    destruct (String.eqb_spec k (generateId type)) as [->|Hne].
    + split; [intros _|auto]. eexists. split; reflexivity.
    + tauto.
Qed.

(** The state on which [buildHierarchy] runs [calculateLevels]. *)
Lemma sound_built concepts relationships :
  namesAreNonEmpty concepts ->
  sound (inferMissingHierarchy
           (buildIsARelationships (initializeNodes concepts) relationships)
           concepts).
Proof.
  intros Hnames.
  apply (inferMissingHierarchy_keeps sound sound_edge sound_type).
  apply (buildIsARelationships_keeps sound sound_edge).
  now apply sound_initial.
Qed.

End BuiltState.

Section Depth.

Import ConceptHierarchy Forest.

Variable h : JsMap.t HierarchyNode.t.
Hypothesis Hwf : wellFormed h.

Lemma depthIs_unique k d : depthIs h k d -> forall d', depthIs h k d' -> d = d'.
Proof.
  induction 1 as [k n Hn Hp|k p d (n & Hn & Hp) _ IH]; intros d' Hd'.
  - destruct Hd' as [|k p d' (n' & Hn' & Hp') _]; [reflexivity|congruence].
  - destruct Hd' as [k n' Hn' Hp'|k p' d' (n' & Hn' & Hp') Hd']; [congruence|].
    f_equal. apply IH. congruence.
Qed.

Lemma depthIs_key k d : depthIs h k d -> JsMap.get k h <> None.
Proof. intros [k' n Hn _|k' p d' (n & Hn & _) _]; congruence. Qed.

(** Every node has a depth: the walk up meets no node twice. *)
Lemma depthIs_total :
  forall fuel k below,
    NoDup below -> incl below (JsMap.keys h) ->
    (forall v, In v below -> clos_trans string (up h) v k) ->
    S (JsMap.size h) <= fuel + length below ->
    JsMap.get k h <> None ->
    exists d, depthIs h k d.
Proof.
  induction fuel as [|fuel IH]; intros k below Hnd Hincl Hbelow Hfuel Hkey.
  - pose proof (keys_bound below h Hnd Hincl). simpl in Hfuel. lia.
  - destruct (JsMap.get k h) as [n|] eqn:Hn; [clear Hkey|congruence].
    destruct (HierarchyNode.parent n) as [p|] eqn:Hp.
    + assert (Hup : up h k p) by (exists n; auto).
      assert (Hnew : ~ In k below).
      { intros Hin. apply (wf_acyclic h Hwf k). auto. }
      destruct (IH p (below ++ [k])%list) as (d & Hd).
      * now apply NoDup_snoc.
      * intros v Hv. apply in_app_or in Hv as [Hv|[<-|[]]]; auto.
        eapply get_in_keys; eauto.
      * intros v Hv. apply in_app_or in Hv as [Hv|[<-|[]]].
        -- eapply t_trans; [apply Hbelow; exact Hv|now apply t_step].
        -- now apply t_step.
      * rewrite length_app. simpl. lia.
      * apply (wf_parent h Hwf) in Hup as (pn & Hpn & _). congruence.
      * exists (S d). eapply depth_child; eauto.
    + exists 0. eapply depth_root; eauto.
Qed.

Lemma depthIs_exists k : JsMap.get k h <> None -> exists d, depthIs h k d.
Proof.
  apply (depthIs_total (S (JsMap.size h)) k []).
  - constructor.
  - intros v [].
  - intros v [].
  - simpl. lia.
Qed.

(** Every node is below a node without parent. *)
Lemma below_a_root k d :
  depthIs h k d ->
  exists r n,
    JsMap.get r h = Some n /\ HierarchyNode.parent n = None
    /\ clos_refl_trans string (down h) r k.
Proof.
  induction 1 as [k n Hn Hp|k p d Hup _ (r & n & Hr & Hpar & Hreach)].
  - exists k, n. split; [assumption|]. split; [assumption|apply rt_refl].
  - exists r, n. split; [assumption|]. split; [assumption|].
    eapply rt_trans; [exact Hreach|]. apply rt_step.
    now apply (wf_parent h Hwf).
Qed.

(** The ancestors of a node of depth [d] are [d] different keys. *)
Lemma depthIs_bound k d : depthIs h k d -> d <= JsMap.size h.
Proof.
  intros Hd.
  assert (Hpath : exists path,
             length path = d /\ NoDup path /\ incl path (JsMap.keys h)
             /\ forall u, In u path -> clos_trans string (up h) k u).
  { induction Hd as [k n Hn Hp|k p d Hup _ (path & Hlen & Hnd & Hincl & Habove)].
    - exists []. repeat split; [constructor|intros ? []|intros ? []].
    - exists (p :: path). split; [simpl; congruence|]. split; [|split].
      + constructor; [|assumption]. intros Hin.
        apply (wf_acyclic h Hwf p). auto.
      + intros u [<-|Hu]; [|auto].
        apply (wf_parent h Hwf) in Hup as (pn & Hpn & _).
        eapply get_in_keys; eauto.
      + intros u [<-|Hu]; [now apply t_step|].
        eapply t_trans; [apply t_step; exact Hup|auto]. }
  destruct Hpath as (path & <- & Hnd & Hincl & _).
  now apply keys_bound.
Qed.

End Depth.

Section LevelsAreDepths.

Import ConceptHierarchy Forest.

Variable h : JsMap.t HierarchyNode.t.
Hypothesis Hwf : wellFormed h.

(** The node [k] of [nodes] has its depth in [h] as its level. *)
Let correctAt (nodes : JsMap.t HierarchyNode.t) (k : string) : Prop :=
  exists n, JsMap.get k nodes = Some n /\ depthIs h k (HierarchyNode.level n).

Lemma keys_set_present (nodes : JsMap.t HierarchyNode.t) k n n' :
  JsMap.get k nodes = Some n -> JsMap.keys (JsMap.set k n' nodes) = JsMap.keys nodes.
Proof. intros Hn. now rewrite keys_set, has_get, Hn. Qed.

(** [calculateNodeLevel], called on a node with its depth, gives every node
    below it its depth and leaves the levels of the other nodes alone. *)
Lemma calculateNodeLevel_depths :
  forall fuel nodeId level nodes path (done : string -> Prop),
    sameShape h nodes ->
    NoDup path -> incl path (JsMap.keys h) ->
    (forall v, In v path -> clos_trans string (up h) nodeId v) ->
    S (JsMap.size h) <= fuel + length path ->
    depthIs h nodeId level ->
    (forall k, done k -> correctAt nodes k) ->
    exists nodes',
      calculateNodeLevel fuel nodes nodeId level = Some nodes'
      /\ sameShape h nodes'
      /\ JsMap.keys nodes' = JsMap.keys nodes
      /\ forall k,
           done k \/ clos_refl_trans string (down h) nodeId k ->
           correctAt nodes' k.
Proof.
  induction fuel as [|fuel IH];
    intros nodeId level nodes path done Hsame Hnd Hincl Habove Hfuel Hdepth
      Hdone.
  - pose proof (keys_bound path h Hnd Hincl). simpl in Hfuel. lia.
  - simpl.
    assert (Hkey : JsMap.get nodeId h <> None) by (eapply depthIs_key; eauto).
    destruct (JsMap.get nodeId nodes) as [node|] eqn:Hnode.
    2:{ specialize (Hsame nodeId). rewrite Hnode in Hsame.
        destruct (JsMap.get nodeId h); [discriminate|congruence]. }
    assert (Hchildren : forall c, In c (HierarchyNode.children node) <->
              down h nodeId c).
    { intros c. split.
      - intros Hin. apply (sameShape_down h nodes); auto. now exists node.
      - intros (n0 & Hn0 & Hin). specialize (Hsame nodeId).
        rewrite Hnode, Hn0 in Hsame. injection Hsame as _ _ E. congruence. }
    assert (HkeyIn : In nodeId (JsMap.keys h)) by now apply keys_get.
    assert (Hnew : ~ In nodeId path).
    { intros Hin. apply (wf_acyclic h Hwf nodeId). auto. }
    pose proof (sameShape_withLevel h nodes nodeId node level Hsame Hnode)
      as Hsame1.
    pose proof (keys_set_present nodes nodeId node (withLevel level node) Hnode)
      as Hkeys1.
    assert (Hdone1 : forall k,
               done k \/ k = nodeId ->
               correctAt (JsMap.set nodeId (withLevel level node) nodes) k).
    { intros k Hk. unfold correctAt. rewrite get_set.
      destruct (String.eqb_spec k nodeId) as [->|Hne].
      - eexists. split; [reflexivity|exact Hdepth].
      - destruct Hk as [Hk|Hk]; [now apply Hdone|contradiction]. }
    assert (Hloop : forall children nodes1 (seen : string -> Prop),
               (forall c, In c children -> down h nodeId c) ->
               sameShape h nodes1 ->
               (forall k, seen k -> correctAt nodes1 k) ->
               exists nodes',
                 fold_left
                   (fun acc childId =>
                      match acc with
                      | Some nodes' =>
                          calculateNodeLevel fuel nodes' childId (S level)
                      | None => None
                      end)
                   children (Some nodes1) = Some nodes'
                 /\ sameShape h nodes'
                 /\ JsMap.keys nodes' = JsMap.keys nodes1
                 /\ forall k,
                      seen k
                      \/ (exists c, In c children
                                    /\ clos_refl_trans string (down h) c k) ->
                      correctAt nodes' k).
    { induction children as [|c cs IHcs]; intros nodes1 seen Hcs Hs1 Hseen.
      - exists nodes1. repeat split; auto.
        intros k [Hk|(c & [] & _)]. auto.
      - simpl.
        assert (Hc : down h nodeId c) by (apply Hcs; now left).
        assert (Hupc : up h c nodeId) by now apply (wf_children h Hwf).
        destruct (IH c (S level) nodes1 (nodeId :: path) seen)
          as (nodes2 & E & Hs2 & Hk2 & Hcorrect2); auto.
        + now constructor.
        + intros v [<-|Hin]; auto.
        + intros v [<-|Hin]; [now apply t_step|].
          eapply t_trans; [apply t_step; exact Hupc|auto].
        + simpl. lia.
        + eapply depth_child; eauto.
        + rewrite E.
          destruct (IHcs nodes2
                      (fun k => seen k
                                \/ clos_refl_trans string (down h) c k))
            as (nodes3 & E3 & Hs3 & Hk3 & Hcorrect3); auto.
          * intros c' Hin. apply Hcs. now right.
          * exists nodes3. split; [assumption|]. split; [assumption|].
            split; [congruence|].
            intros k [Hk|(c' & [<-|Hin] & Hreach)]; apply Hcorrect3; eauto. }
    destruct (Hloop (HierarchyNode.children node)
                (JsMap.set nodeId (withLevel level node) nodes)
                (fun k => done k \/ k = nodeId))
      as (nodes' & E & Hs' & Hk' & Hcorrect'); auto.
    + intros c Hin. now apply Hchildren.
    + exists nodes'. split; [assumption|]. split; [assumption|].
      split; [congruence|].
      intros k [Hk|Hreach]; [apply Hcorrect'; auto|].
      apply clos_rt_rt1n in Hreach.
      destruct Hreach as [|c k Hc Hrest]; [apply Hcorrect'; auto|].
      apply Hcorrect'. right. exists c. split; [now apply Hchildren|].
      now apply clos_rt1n_rt.
Qed.

End LevelsAreDepths.

Section FinalState.

Import ConceptHierarchy Forest.

Lemma sameShape_sym h nodes : sameShape h nodes -> sameShape nodes h.
Proof. intros H k. symmetry. apply H. Qed.

Lemma sameShape_wellFormed h nodes :
  sameShape h nodes -> wellFormed h -> wellFormed nodes.
Proof.
  intros Hsame Hwf.
  assert (Hget : forall k n, JsMap.get k nodes = Some n ->
            exists n0, JsMap.get k h = Some n0 /\ shape n = shape n0).
  { intros k n Hn. specialize (Hsame k). rewrite Hn in Hsame.
    destruct (JsMap.get k h) as [n0|]; [|discriminate].
    exists n0. split; [reflexivity|]. cbn [option_map] in Hsame. congruence. }
  pose proof (sameShape_sym h nodes Hsame) as Hback.
  constructor.
  - intros k n Hn. destruct (Hget k n Hn) as (n0 & Hn0 & E).
    injection E as -> _ _. now apply (wf_ids h Hwf).
  - intros k n Hn. destruct (Hget k n Hn) as (n0 & Hn0 & _).
    now apply (wf_keys h Hwf k n0).
  - intros c p H. apply (sameShape_up h nodes) in H; [|assumption].
    apply (wf_parent h Hwf) in H. now apply (sameShape_down nodes h).
  - intros p c H. apply (sameShape_down h nodes) in H; [|assumption].
    apply (wf_children h Hwf) in H. now apply (sameShape_up nodes h).
  - intros c H. apply (wf_acyclic h Hwf c). revert H.
    apply clos_trans_incl. intros x y. now apply sameShape_up.
Qed.

Lemma sameShape_depthIs h nodes k d :
  sameShape h nodes -> depthIs h k d -> depthIs nodes k d.
Proof.
  intros Hsame. pose proof (sameShape_sym h nodes Hsame) as Hback.
  induction 1 as [k n Hn Hp|k p d Hup _ IH].
  - specialize (Hsame k). rewrite Hn in Hsame.
    destruct (JsMap.get k nodes) as [n'|] eqn:Hn'; [|discriminate].
    injection Hsame as _ E _. eapply depth_root; eauto. congruence.
  - eapply depth_child; eauto. now apply (sameShape_up nodes h).
Qed.

(** [calculateLevels] returns on a well-formed map whose roots are the nodes
    without parent, and leaves every node with its depth as its level. *)
Lemma calculateLevels_depths st :
  wellFormed (hierarchy st) -> rootsAreParentless st ->
  exists st',
    calculateLevels st = Some st'
    /\ sameShape (hierarchy st) (hierarchy st')
    /\ JsMap.keys (hierarchy st') = JsMap.keys (hierarchy st)
    /\ rootNodes st' = rootNodes st
    /\ levelled (hierarchy st').
Proof.
  intros Hwf Hroots. unfold calculateLevels.
  set (h := hierarchy st) in *.
  assert (Hfold : forall roots nodes (done : string -> Prop),
            (forall r, In r roots -> depthIs h r 0) ->
            sameShape h nodes ->
            (forall k, done k ->
               exists n, JsMap.get k nodes = Some n
                         /\ depthIs h k (HierarchyNode.level n)) ->
            exists nodes',
              fold_left
                (fun acc rootId =>
                   match acc with
                   | Some nodes =>
                       calculateNodeLevel (S (JsMap.size h)) nodes rootId 0
                   | None => None
                   end)
                roots (Some nodes) = Some nodes'
              /\ sameShape h nodes'
              /\ JsMap.keys nodes' = JsMap.keys nodes
              /\ forall k,
                   done k
                   \/ (exists r, In r roots
                                 /\ clos_refl_trans string (down h) r k) ->
                   exists n, JsMap.get k nodes' = Some n
                             /\ depthIs h k (HierarchyNode.level n)).
  { induction roots as [|r roots IHroots]; intros nodes done Hr Hsame Hdone.
    - exists nodes. repeat split; auto. intros k [Hk|(r & [] & _)]. auto.
    - cbn [fold_left].
      destruct (calculateNodeLevel_depths h Hwf (S (JsMap.size h)) r 0 nodes
                  [] done)
        as (nodes1 & E & Hsame1 & Hkeys1 & Hcorrect1); auto.
      + constructor.
      + intros x [].
      + intros v [].
      + simpl. lia.
      + apply Hr. now left.
      + rewrite E.
        destruct (IHroots nodes1
                    (fun k => done k
                              \/ clos_refl_trans string (down h) r k))
          as (nodes2 & E2 & Hsame2 & Hkeys2 & Hcorrect2); auto.
        * intros r' Hin. apply Hr. now right.
        * exists nodes2. split; [assumption|]. split; [assumption|].
          split; [congruence|].
          intros k [Hk|(r' & [<-|Hin] & Hreach)]; apply Hcorrect2; eauto. }
  destruct (Hfold (rootNodes st) h (fun _ => False))
    as (nodes' & E & Hsame & Hkeys & Hcorrect).
  - intros r Hr. apply Hroots in Hr as (n & Hn & Hp). eapply depth_root; eauto.
  - apply sameShape_refl.
  - intros k [].
  - rewrite E. eexists. split; [reflexivity|]. cbn [hierarchy rootNodes].
    split; [assumption|]. split; [assumption|]. split; [reflexivity|].
    intros k n Hn.
    assert (Hkey : JsMap.get k h <> None).
    { specialize (Hsame k). rewrite Hn in Hsame.
      destruct (JsMap.get k h); [discriminate|discriminate Hsame]. }
    destruct (depthIs_exists h Hwf k Hkey) as (d & Hd).
    destruct (below_a_root h Hwf k d Hd) as (r & rn & Hr & Hpar & Hreach).
    destruct (Hcorrect k) as (n' & Hn' & Hdepth).
    { right. exists r. split; [|assumption]. apply Hroots. eauto. }
    rewrite Hn in Hn'. injection Hn' as <-.
    now apply (sameShape_depthIs h nodes').
Qed.

(** The state that [buildHierarchy] returns for concepts with non-empty
    names. *)
Lemma built_final concepts relationships :
  namesAreNonEmpty concepts ->
  exists st,
    buildHierarchy concepts relationships = Some st
    /\ wellFormed (hierarchy st)
    /\ NoDup (JsMap.keys (hierarchy st))
    /\ rootsAreParentless st
    /\ levelled (hierarchy st).
Proof.
  intros Hnames. unfold buildHierarchy. cbv zeta.
  destruct (sound_built concepts relationships Hnames) as (Hwf & Hnd & Hroots).
  destruct (calculateLevels_depths _ Hwf Hroots)
    as (st & E & Hsame & Hkeys & Hr & Hlev).
  exists st. split; [exact E|].
  split; [eapply sameShape_wellFormed; eauto|].
  split; [now rewrite Hkeys|]. split; [|exact Hlev].
  intros k. rewrite Hr, (Hroots k). split; intros (n & Hn & Hp).
  - pose proof (Hsame k) as Hk. rewrite Hn in Hk.
    destruct (JsMap.get k (hierarchy st)) as [n'|]; [|discriminate].
    injection Hk as _ E' _. exists n'. split; [reflexivity|congruence].
  - pose proof (Hsame k) as Hk. rewrite Hn in Hk.
    destruct (JsMap.get k _) as [n'|] eqn:E' in Hk; [|discriminate].
    injection Hk as _ E'' _. exists n'. split; [assumption|congruence].
Qed.

End FinalState.

Section HierarchySearch.

Import ConceptHierarchy.

Variable st : State.

Let next := Search.childrenIn (hierarchy st).

(** The keys of the node map and the entries of the [children] arrays. *)
Let universe : list string :=
  flat_map (fun kv => fst kv :: HierarchyNode.children (snd kv)) (hierarchy st).

Lemma detectCycleDFS_dfs :
  forall fuel v visited stack path,
    detectCycleDFS fuel st v visited stack path
    = Search.dfs next fuel v visited stack path.
Proof.
  induction fuel as [|fuel IH]; intros v visited stack path; [reflexivity|].
  rewrite dfs_S. cbn [detectCycleDFS]. unfold next, Search.childrenIn.
  destruct (JsMap.get v (hierarchy st)) as [node|]; [|reflexivity].
  cbn [option_map].
  generalize (JsSet.add v visited) (JsSet.add v stack).
  induction (HierarchyNode.children node) as [|w rest IHl]; intros V1 S1.
  - reflexivity.
  - rewrite dfsLoop_cons. cbn zeta. rewrite <- !IH.
    destruct (negb (JsSet.has w V1)).
    + destruct (0 <? length (fst (detectCycleDFS fuel st w V1 S1 _)))%nat;
        [reflexivity|apply IHl].
    + destruct (JsSet.has w S1); [reflexivity|apply IHl].
Qed.

Lemma searchFuel_universe : searchFuel st = S (length universe).
Proof.
  unfold searchFuel, universe. f_equal.
  induction (hierarchy st) as [|[k c] m IH]; [reflexivity|].
  simpl. rewrite length_app, IH. reflexivity.
Qed.

Lemma children_in_universe u l w :
  next u = Some l -> In w l -> In w universe.
Proof.
  unfold next, Search.childrenIn. intros Hl Hw.
  destruct (JsMap.get u (hierarchy st)) as [c|] eqn:Hc; [|discriminate].
  injection Hl as <-. apply get_In in Hc.
  apply in_flat_map. exists (u, c). split; [assumption|]. now right.
Qed.

Lemma node_keys_in_universe : incl (JsMap.keys (hierarchy st)) universe.
Proof.
  intros k Hk. apply in_map_iff in Hk as ([k' c] & <- & Hin).
  apply in_flat_map. exists (k', c). split; [assumption|]. now left.
Qed.

Lemma detectCycles_sweep :
  detectCycles st
  = map hierarchyCycleError
      (fst (Search.sweep next (searchFuel st) (JsMap.keys (hierarchy st)))).
Proof.
  unfold detectCycles, Search.sweep.
  generalize (searchFuel st) as fuel. intros fuel.
  assert (Hfold : forall roots cycles visited stack,
            fst
              (fold_left
                 (fun acc nodeId =>
                    let '(errs, (visited, recursionStack)) := acc in
                    if negb (JsSet.has nodeId visited)
                    then
                      let r :=
                        detectCycleDFS fuel st nodeId visited recursionStack []
                      in
                      if (0 <? length (fst r))%nat
                      then ((errs ++ [hierarchyCycleError (fst r)])%list, snd r)
                      else (errs, snd r)
                    else acc)
                 roots (map hierarchyCycleError cycles, (visited, stack)))
            = map hierarchyCycleError
                (fst
                   (fold_left
                      (fun acc root =>
                         let '(cycles, (visited, stack)) := acc in
                         if negb (JsSet.has root visited)
                         then
                           let r := Search.dfs next fuel root visited stack []
                           in
                           if (0 <? length (fst r))%nat
                           then ((cycles ++ [fst r])%list, snd r)
                           else (cycles, snd r)
                         else acc)
                      roots (cycles, (visited, stack))))).
  { induction roots as [|root roots IH]; intros cycles visited stack;
      [reflexivity|].
    cbn [fold_left]. rewrite detectCycleDFS_dfs.
    destruct (negb (JsSet.has root visited)); [|apply IH].
    cbv zeta.
    destruct (Search.dfs next fuel root visited stack []) as [c [V1 S1]].
    cbn [fst snd].
    destruct (0 <? length c)%nat; [|apply IH].
    rewrite <- IH. now rewrite map_app. }
  apply (Hfold (JsMap.keys (hierarchy st)) [] JsSet.empty JsSet.empty).
Qed.

(** On a well-formed node map without a repeated key, [detectCycles]
    reports nothing. *)
Lemma detectCycles_none :
  Forest.wellFormed (hierarchy st) -> NoDup (JsMap.keys (hierarchy st)) ->
  detectCycles st = [].
Proof.
  intros Hwf Hnd. rewrite detectCycles_sweep.
  destruct (fst (Search.sweep next (searchFuel st) (JsMap.keys (hierarchy st))))
    as [|c cs] eqn:E; [reflexivity|exfalso].
  assert (Hcyclic : Search.cyclic next).
  { apply (sweep_sound next universe children_in_universe (searchFuel st)
             (JsMap.keys (hierarchy st))).
    - rewrite searchFuel_universe. lia.
    - apply node_keys_in_universe.
    - intros u Hu. unfold next, Search.childrenIn.
      apply in_flat_map in Hu as ([k n] & Hin & [<-|Hchild]);
        cbn [fst snd] in *.
      + rewrite (In_get k n _ Hnd Hin). discriminate.
      + assert (Hdown : Forest.down (hierarchy st) k u).
        { exists n. split; [now apply In_get|assumption]. }
        apply (Forest.wf_children _ Hwf) in Hdown as (un & Hun & _).
        rewrite Hun. discriminate.
    - rewrite E. discriminate. }
  destruct Hcyclic as (u & Hcycle).
  apply (Forest.wf_acyclic _ Hwf u).
  assert (Hrev : forall x y,
             clos_trans string (Search.edge next) x y ->
             clos_trans string (Forest.up (hierarchy st)) y x).
  { intros x y H. induction H as [x y (l & Hl & Hin)|x y z _ IH1 _ IH2].
    - apply t_step. apply (Forest.wf_children _ Hwf).
      unfold next, Search.childrenIn in Hl.
      destruct (JsMap.get x (hierarchy st)) as [n|] eqn:Hn; [|discriminate].
      injection Hl as <-. now exists n.
    - eapply t_trans; eauto. }
  now apply Hrev.
Qed.

End HierarchySearch.

Section EntriesFacts.

Context {V : Type}.

Lemma set_new (k : string) (v : V) (m : JsMap.t V) :
  ~ In k (JsMap.keys m) -> JsMap.set k v m = (m ++ [(k, v)])%list.
Proof.
  induction m as [|[k' v'] m IH]; simpl; [reflexivity|]. intros Hnew.
  destruct (String.eqb_spec k k') as [->|_]; [elim Hnew; now left|].
  rewrite IH; auto.
Qed.

Lemma fold_set_distinct (entries : list (string * V)) :
  forall acc : JsMap.t V,
    NoDup (map fst (acc ++ entries)) ->
    fold_left (fun m kv => JsMap.set (fst kv) (snd kv) m) entries acc
    = (acc ++ entries)%list.
Proof.
  induction entries as [|[k v] entries IH]; intros acc Hnd.
  - simpl. now rewrite app_nil_r.
  - cbn [fold_left fst snd].
    assert (Hnew : ~ In k (JsMap.keys acc)).
    { rewrite map_app in Hnd. cbn [map fst] in Hnd.
      apply NoDup_remove_2 in Hnd. intros Hin. apply Hnd.
      apply in_or_app. now left. }
    rewrite (set_new k v acc Hnew), IH.
    + now rewrite <- app_assoc.
    + now rewrite <- app_assoc.
Qed.

(** [new Map(entries)] is the list of entries when no key is repeated. *)
Lemma ofEntries_distinct (entries : list (string * V)) :
  NoDup (map fst entries) -> JsMap.ofEntries entries = entries.
Proof.
  intros Hnd. unfold JsMap.ofEntries, JsMap.empty.
  now rewrite fold_set_distinct.
Qed.

End EntriesFacts.

Lemma get_map_values {V W : Type} (f : V -> W) (k : string) (m : JsMap.t V) :
  JsMap.get k (map (fun kv => (fst kv, f (snd kv))) m)
  = option_map f (JsMap.get k m).
Proof.
  induction m as [|[k' v] m IH]; [reflexivity|]. cbn [map fst snd JsMap.get].
  now destruct (String.eqb k k').
Qed.

Section ClassesOfAHierarchy.

Import ConceptHierarchy Forest.

Variable st : State.
Hypothesis Hwf : wellFormed (hierarchy st).
Hypothesis Hnd : NoDup (JsMap.keys (hierarchy st)).

Variable now : string.

(** The class that [toOntologyClasses] makes of a node. *)
Let classOf (node : HierarchyNode.t) : OntologyClass.t :=
  {| OntologyClass.id := HierarchyNode.id node;
     OntologyClass.name := HierarchyNode.name node;
     OntologyClass.description :=
       Some (HierarchyNode.name node
             ++ " concept derived from hierarchy analysis");
     OntologyClass.superClasses :=
       match parentOf node with
       | Some p => [p]
       | None => []
       end;
     OntologyClass.subClasses := HierarchyNode.children node;
     OntologyClass.properties := [];
     OntologyClass.constraints := [];
     OntologyClass.instances := [];
     OntologyClass.metadata :=
       {| ClassMetadata.created := now; ClassMetadata.modified := now;
          ClassMetadata.confidence := HierarchyNode.confidence node;
          ClassMetadata.source := inferred |} |}.

Lemma classes_of_hierarchy propertyList relationshipList :
  OntologyValidator.classes
    (OntologyValidator.makeContext (toOntologyClasses now st) propertyList
       relationshipList)
  = map (fun kv => (fst kv, classOf (snd kv))) (hierarchy st).
Proof.
  cbn [OntologyValidator.makeContext OntologyValidator.classes].
  unfold toOntologyClasses, JsMap.values. fold classOf.
  rewrite !map_map. cbn [OntologyClass.id].
  assert (Hentries :
            map (fun x => (OntologyClass.id (classOf (snd x)), classOf (snd x)))
              (hierarchy st)
            = map (fun kv => (fst kv, classOf (snd kv))) (hierarchy st)).
  { apply map_ext_in. intros [k n] Hin. cbn [fst snd classOf OntologyClass.id].
    f_equal. apply (wf_ids _ Hwf). now apply In_get. }
  rewrite Hentries. apply ofEntries_distinct.
  rewrite map_map. cbn [fst]. exact Hnd.
Qed.

Lemma classes_resolved propertyList relationshipList :
  Search.resolved
    (OntologyValidator.classes
       (OntologyValidator.makeContext (toOntologyClasses now st) propertyList
          relationshipList)).
Proof.
  rewrite classes_of_hierarchy. intros k c sup. rewrite has_get, !get_map_values.
  destruct (JsMap.get k (hierarchy st)) as [n|] eqn:Hn; [|discriminate].
  cbn [option_map]. intros [= <-]. cbn [classOf OntologyClass.superClasses].
  rewrite (parentOf_parent _ Hwf k n Hn).
  destruct (HierarchyNode.parent n) as [p|] eqn:Hp; [|intros []].
  intros [<-|[]].
  assert (Hup : up (hierarchy st) k p) by (exists n; auto).
  apply (wf_parent _ Hwf) in Hup as (pn & Hpn & _). now rewrite Hpn.
Qed.

Lemma classes_acyclic propertyList relationshipList :
  ~ Search.cyclic
      (Search.superClassesIn
         (OntologyValidator.classes
            (OntologyValidator.makeContext (toOntologyClasses now st)
               propertyList relationshipList))).
Proof.
  rewrite classes_of_hierarchy. intros (u & Hcycle).
  apply (wf_acyclic _ Hwf u). revert Hcycle. apply clos_trans_incl.
  intros x y (l & Hl & Hin). unfold Search.superClassesIn in Hl.
  rewrite get_map_values in Hl.
  destruct (JsMap.get x (hierarchy st)) as [n|] eqn:Hn; [|discriminate].
  cbn [option_map classOf OntologyClass.superClasses] in Hl.
  rewrite (parentOf_parent _ Hwf x n Hn) in Hl. injection Hl as <-.
  exists n. split; [assumption|].
  destruct (HierarchyNode.parent n) as [p|];
    [destruct Hin as [<-|[]]; reflexivity|destruct Hin].
Qed.

Lemma classes_valid propertyList relationshipList :
  OntologyValidationResult.valid
    (OntologyValidator.validateOntology OntologyValidator.validationRules
       (toOntologyClasses now st) propertyList relationshipList) = true.
Proof.
  rewrite report_valid.
  destruct (OntologyValidator.errors _) as [|e l] eqn:E; [reflexivity|].
  elim (classes_acyclic propertyList relationshipList).
  apply rule1_sound.
  - apply ofEntries_NoDup.
  - apply classes_resolved.
  - rewrite E. discriminate.
Qed.

End ClassesOfAHierarchy.

Lemma dogsAndMammals_are_named : Forest.namesAreNonEmpty Sample.dogsAndMammals.
Proof. intros c [<-|[<-|[]]]; discriminate. Qed.

(** For concepts with non-empty names, the roots that [buildHierarchy]
    returns ([getRootNodes]) are exactly the nodes without parent. *)
Theorem roots_are_the_nodes_without_parent
  (concepts : list ExtractedConcept.t)
  (relationships : list ExtractedRelationship.t) :
  Forest.namesAreNonEmpty concepts ->
  exists st,
    ConceptHierarchy.buildHierarchy concepts relationships = Some st
    /\ forall n,
         In n (ConceptHierarchy.getRootNodes st)
         <-> ConceptHierarchy.getNode st (HierarchyNode.id n) = Some n
             /\ HierarchyNode.parent n = None.
Proof.
  intros Hnames.
  destruct (built_final concepts relationships Hnames)
    as (st & E & Hwf & _ & Hroots & _).
  exists st. split; [exact E|]. intros n.
  unfold ConceptHierarchy.getRootNodes, ConceptHierarchy.getNode.
  rewrite in_flat_map. split.
  - intros (k & Hk & Hin).
    destruct (JsMap.get k (ConceptHierarchy.hierarchy st)) as [n'|] eqn:Hn;
      [|destruct Hin].
    destruct Hin as [<-|[]].
    rewrite (Forest.wf_ids _ Hwf k n' Hn). split; [assumption|].
    apply Hroots in Hk as (n0 & Hn0 & Hp). congruence.
  - intros [Hn Hp]. exists (HierarchyNode.id n). split.
    + apply Hroots. eauto.
    + rewrite Hn. now left.
Qed.

Lemma roots_are_the_nodes_without_parent_witness :
  exists st,
    ConceptHierarchy.buildHierarchy Sample.dogsAndMammals
      [Sample.isARelationship "dogs" "mammals"] = Some st
    /\ forall n,
         In n (ConceptHierarchy.getRootNodes st)
         <-> ConceptHierarchy.getNode st (HierarchyNode.id n) = Some n
             /\ HierarchyNode.parent n = None.
Proof.
  exact (roots_are_the_nodes_without_parent _ _ dogsAndMammals_are_named).
Defined.

(** For concepts with non-empty names, [buildHierarchy] leaves every node
    without parent at level 0 and every other node one level below its
    parent, which is a node of the hierarchy. *)
Theorem levels_follow_the_parents
  (concepts : list ExtractedConcept.t)
  (relationships : list ExtractedRelationship.t) :
  Forest.namesAreNonEmpty concepts ->
  exists st,
    ConceptHierarchy.buildHierarchy concepts relationships = Some st
    /\ forall k n,
         ConceptHierarchy.getNode st k = Some n ->
         match HierarchyNode.parent n with
         | None => HierarchyNode.level n = 0
         | Some p =>
             exists pn,
               ConceptHierarchy.getNode st p = Some pn
               /\ HierarchyNode.level n = S (HierarchyNode.level pn)
         end.
Proof.
  intros Hnames.
  destruct (built_final concepts relationships Hnames)
    as (st & E & Hwf & _ & _ & Hlev).
  exists st. split; [exact E|]. unfold ConceptHierarchy.getNode.
  intros k n Hn. pose proof (Hlev k n Hn) as Hdepth.
  inversion Hdepth as [k' n' Hn' Hp' Hk Hd|k' p d (n' & Hn' & Hp') Hd Hk Hl];
    subst.
  - rewrite Hn in Hn'. injection Hn' as <-. now rewrite Hp'.
  - rewrite Hn in Hn'. injection Hn' as <-. rewrite Hp'.
    assert (Hup : Forest.up (ConceptHierarchy.hierarchy st) k p)
      by (exists n; auto).
    apply (Forest.wf_parent _ Hwf) in Hup as (pn & Hpn & _).
    exists pn. split; [assumption|]. f_equal.
    exact (depthIs_unique _ p d Hd _ (Hlev p pn Hpn)).
Qed.

Lemma levels_follow_the_parents_witness :
  exists st,
    ConceptHierarchy.buildHierarchy Sample.dogsAndMammals
      [Sample.isARelationship "dogs" "mammals"] = Some st
    /\ forall k n,
         ConceptHierarchy.getNode st k = Some n ->
         match HierarchyNode.parent n with
         | None => HierarchyNode.level n = 0
         | Some p =>
             exists pn,
               ConceptHierarchy.getNode st p = Some pn
               /\ HierarchyNode.level n = S (HierarchyNode.level pn)
         end.
Proof.
  exact (levels_follow_the_parents _ _ dogsAndMammals_are_named).
Defined.

(** For concepts with non-empty names, [validateHierarchy] run after
    [buildHierarchy] reports no error: the hierarchy is valid. *)
Theorem built_hierarchy_is_valid
  (concepts : list ExtractedConcept.t)
  (relationships : list ExtractedRelationship.t) :
  Forest.namesAreNonEmpty concepts ->
  exists st,
    ConceptHierarchy.buildHierarchy concepts relationships = Some st
    /\ ConceptHierarchy.valid (ConceptHierarchy.validateHierarchy st) = true
    /\ ConceptHierarchy.errors (ConceptHierarchy.validateHierarchy st) = [].
Proof.
  intros Hnames.
  destruct (built_final concepts relationships Hnames)
    as (st & E & Hwf & Hnd & _ & _).
  exists st. split; [exact E|].
  unfold ConceptHierarchy.validateHierarchy.
  cbn [ConceptHierarchy.valid ConceptHierarchy.errors].
  now rewrite (detectCycles_none st Hwf Hnd).
Qed.

Lemma built_hierarchy_is_valid_witness :
  exists st,
    ConceptHierarchy.buildHierarchy Sample.dogsAndMammals
      [Sample.isARelationship "dogs" "mammals"] = Some st
    /\ ConceptHierarchy.valid (ConceptHierarchy.validateHierarchy st) = true
    /\ ConceptHierarchy.errors (ConceptHierarchy.validateHierarchy st) = [].
Proof.
  exact (built_hierarchy_is_valid _ _ dogsAndMammals_are_named).
Defined.

(** For concepts with non-empty names, the classes that [toOntologyClasses]
    derives from the built hierarchy are reported valid by the validator with
    its initial rules, whatever properties and relationships come with
    them. *)
Theorem classes_of_a_built_hierarchy_are_valid
  (concepts : list ExtractedConcept.t)
  (relationships : list ExtractedRelationship.t) :
  Forest.namesAreNonEmpty concepts ->
  exists st,
    ConceptHierarchy.buildHierarchy concepts relationships = Some st
    /\ forall now propertyList relationshipList,
         OntologyValidationResult.valid
           (OntologyValidator.validateOntology
              OntologyValidator.validationRules
              (ConceptHierarchy.toOntologyClasses now st) propertyList
              relationshipList) = true.
Proof.
  intros Hnames.
  destruct (built_final concepts relationships Hnames)
    as (st & E & Hwf & Hnd & _ & _).
  exists st. split; [exact E|]. intros now propertyList relationshipList.
  now apply classes_valid.
Qed.

Lemma classes_of_a_built_hierarchy_are_valid_witness :
  exists st,
    ConceptHierarchy.buildHierarchy Sample.dogsAndMammals
      [Sample.isARelationship "dogs" "mammals"] = Some st
    /\ forall now propertyList relationshipList,
         OntologyValidationResult.valid
           (OntologyValidator.validateOntology
              OntologyValidator.validationRules
              (ConceptHierarchy.toOntologyClasses now st) propertyList
              relationshipList) = true.
Proof.
  exact (classes_of_a_built_hierarchy_are_valid _ _ dogsAndMammals_are_named).
Defined.

Section Ancestors.

Import ConceptHierarchy Forest.

Variable st : State.
Hypothesis Hwf : wellFormed (hierarchy st).

Lemma ancestorsFrom_depth k d :
  depthIs (hierarchy st) k d ->
  forall fuel, d < fuel ->
    exists l,
      ancestorsFrom fuel st (getParent st k) = Some l
      /\ length l = d
      /\ forall a, In a l ->
           clos_trans string (up (hierarchy st)) k (HierarchyNode.id a).
Proof.
  induction 1 as [k n Hn Hp|k p d Hup _ IH]; intros fuel Hfuel.
  - destruct fuel as [|fuel]; [lia|]. unfold getParent.
    rewrite Hn, (parentOf_parent _ Hwf k n Hn), Hp. cbn.
    exists []. repeat split. intros a [].
  - destruct fuel as [|fuel]; [lia|].
    pose proof Hup as (n & Hn & Hp).
    pose proof (wf_parent _ Hwf _ _ Hup) as (pn & Hpn & _).
    unfold getParent at 1.
    rewrite Hn, (parentOf_parent _ Hwf k n Hn), Hp, Hpn.
    cbn [ancestorsFrom]. rewrite (wf_ids _ Hwf p pn Hpn).
    destruct (IH fuel) as (l & El & Hlen & Habove); [lia|].
    rewrite El. exists (pn :: l). split; [reflexivity|].
    split; [simpl; congruence|].
    intros a [<-|Ha].
    + rewrite (wf_ids _ Hwf p pn Hpn). now apply t_step.
    + eapply t_trans; [apply t_step; exact Hup|auto].
Qed.

End Ancestors.

(** For concepts with non-empty names, [getAncestors] returns for every node
    of the built hierarchy: as many nodes as the node's level, all of them
    above the node. *)
Theorem ancestors_are_as_many_as_the_level
  (concepts : list ExtractedConcept.t)
  (relationships : list ExtractedRelationship.t) :
  Forest.namesAreNonEmpty concepts ->
  exists st,
    ConceptHierarchy.buildHierarchy concepts relationships = Some st
    /\ forall k n,
         ConceptHierarchy.getNode st k = Some n ->
         exists ancestors,
           ConceptHierarchy.getAncestors st k = Some ancestors
           /\ length ancestors = HierarchyNode.level n
           /\ forall a, In a ancestors ->
                clos_trans string (Forest.parentEdge st) k (HierarchyNode.id a).
Proof.
  intros Hnames.
  destruct (built_final concepts relationships Hnames)
    as (st & E & Hwf & _ & _ & Hlev).
  exists st. split; [exact E|]. unfold ConceptHierarchy.getNode.
  intros k n Hn. unfold ConceptHierarchy.getAncestors.
  apply (ancestorsFrom_depth st Hwf k _ (Hlev k n Hn)).
  pose proof (depthIs_bound _ Hwf k _ (Hlev k n Hn)). lia.
Qed.

Lemma ancestors_are_as_many_as_the_level_witness :
  exists st,
    ConceptHierarchy.buildHierarchy Sample.dogsAndMammals
      [Sample.isARelationship "dogs" "mammals"] = Some st
    /\ forall k n,
         ConceptHierarchy.getNode st k = Some n ->
         exists ancestors,
           ConceptHierarchy.getAncestors st k = Some ancestors
           /\ length ancestors = HierarchyNode.level n
           /\ forall a, In a ancestors ->
                clos_trans string (Forest.parentEdge st) k (HierarchyNode.id a).
Proof.
  exact (ancestors_are_as_many_as_the_level _ _ dogsAndMammals_are_named).
Defined.

(** ** The maps of the store *)

Section KeyedMaps.

Context {V : Type}.
Variable idOf : V -> string.

(** No key twice, and every value under its own identifier. *)
Let keyed (m : JsMap.t V) : Prop :=
  NoDup (JsMap.keys m) /\ forall k v, In (k, v) m -> idOf v = k.

Lemma In_set (k k' : string) (v v' : V) (m : JsMap.t V) :
  In (k, v) (JsMap.set k' v' m) -> (k = k' /\ v = v') \/ In (k, v) m.
Proof.
  induction m as [|[k2 v2] m IH]; simpl.
  - intros [[= <- <-]|[]]. now left.
  - destruct (String.eqb_spec k' k2) as [->|_]; simpl.
    + intros [[= <- <-]|H]; auto.
    + intros [H|H]; auto. destruct (IH H); auto.
Qed.

Lemma In_delete_map (k k' : string) (v : V) (m : JsMap.t V) :
  In (k, v) (JsMap.delete k' m) -> In (k, v) m /\ k <> k'.
Proof.
  induction m as [|[k2 v2] m IH]; simpl; [intros []|].
  destruct (String.eqb_spec k' k2) as [->|Hne]; simpl.
  - intros H. destruct (IH H). auto.
  - intros [[= <- <-]|H]; [split; auto|]. destruct (IH H). auto.
Qed.

Lemma keys_delete (k : string) (m : JsMap.t V) :
  JsMap.keys (JsMap.delete k m)
  = filter (fun x => negb (String.eqb k x)) (JsMap.keys m).
Proof.
  induction m as [|[k2 v2] m IH]; simpl; [reflexivity|].
  destruct (String.eqb k k2); simpl; now rewrite IH.
Qed.

Lemma keyed_empty : keyed JsMap.empty.
Proof. split; [constructor|intros k v []]. Qed.

Lemma keyed_set (k : string) (v : V) (m : JsMap.t V) :
  idOf v = k -> keyed m -> keyed (JsMap.set k v m).
Proof.
  intros Hid [Hnd Hids]. split; [now apply set_NoDup|].
  intros k' v' Hin. apply In_set in Hin as [[-> ->]|Hin]; auto.
Qed.

Lemma keyed_delete (k : string) (m : JsMap.t V) :
  keyed m -> keyed (JsMap.delete k m).
Proof.
  intros [Hnd Hids]. split.
  - rewrite keys_delete. now apply NoDup_filter.
  - intros k' v' Hin. apply In_delete_map in Hin as [Hin _]. auto.
Qed.

Lemma keyed_get (k : string) (v : V) (m : JsMap.t V) :
  keyed m -> JsMap.get k m = Some v -> idOf v = k.
Proof. intros [_ Hids] Hget. apply Hids. now apply get_In. Qed.

End KeyedMaps.

Section StoreInvariant.

Import OntologyManager.

(** Every map of the store holds its values under their own identifiers,
    with no key twice. *)
Let tidy (s : Store) : Prop :=
  (NoDup (JsMap.keys (classes s))
   /\ forall k v, In (k, v) (classes s) -> OntologyClass.id v = k)
  /\ (NoDup (JsMap.keys (properties s))
      /\ forall k v, In (k, v) (properties s) -> OntologyProperty.id v = k)
  /\ (NoDup (JsMap.keys (relationships s))
      /\ forall k v,
           In (k, v) (relationships s) -> OntologyRelationship.id v = k)
  /\ (NoDup (JsMap.keys (domains s))
      /\ forall k v, In (k, v) (domains s) -> Domain.id v = k).

Lemma tidy_fold (f : Store -> string -> Store) (l : list string) (s : Store) :
  (forall s x, tidy s -> tidy (f s x)) -> tidy s -> tidy (fold_left f l s).
Proof.
  intros Hf. revert s. induction l as [|x l IH]; intros s Hs; simpl; auto.
Qed.

Lemma tidy_linkSubClass classId s superClassId :
  tidy s -> tidy (linkSubClass classId s superClassId).
Proof.
  intros Hs. unfold linkSubClass.
  destruct (getClass superClassId s) as [superClass|] eqn:Hsup; [|exact Hs].
  destruct (negb _); [|exact Hs].
  destruct Hs as (Hc & Hrest). split; [|exact Hrest].
  apply (keyed_set OntologyClass.id); [|exact Hc].
  cbn. now apply (keyed_get OntologyClass.id _ _ (classes s)).
Qed.

Lemma tidy_unlinkSubClass classId s superClassId :
  tidy s -> tidy (unlinkSubClass classId s superClassId).
Proof.
  intros Hs. unfold unlinkSubClass.
  destruct (getClass superClassId s) as [superClass|] eqn:Hsup; [|exact Hs].
  destruct Hs as (Hc & Hrest). split; [|exact Hrest].
  apply (keyed_set OntologyClass.id); [|exact Hc].
  cbn. now apply (keyed_get OntologyClass.id _ _ (classes s)).
Qed.

Lemma tidy_unlinkSuperClass classId s subClassId :
  tidy s -> tidy (unlinkSuperClass classId s subClassId).
Proof.
  intros Hs. unfold unlinkSuperClass.
  destruct (getClass subClassId s) as [subClass|] eqn:Hsub; [|exact Hs].
  destruct Hs as (Hc & Hrest). split; [|exact Hrest].
  apply (keyed_set OntologyClass.id); [|exact Hc].
  cbn. now apply (keyed_get OntologyClass.id _ _ (classes s)).
Qed.

Lemma tidy_addClass c s : tidy s -> tidy (addClass c s).
Proof.
  intros (Hc & Hrest). unfold addClass, updateClassHierarchy.
  apply tidy_fold; [intros; now apply tidy_linkSubClass|].
  split; [|exact Hrest]. now apply (keyed_set OntologyClass.id).
Qed.

Lemma tidy_deleteClass id s : tidy s -> tidy (snd (deleteClass id s)).
Proof.
  intros Hs. unfold deleteClass.
  destruct (getClass id s) as [cls|]; [|exact Hs]. cbn [snd].
  assert (H1 : tidy (removeFromHierarchy id cls s)).
  { unfold removeFromHierarchy. cbv zeta.
    apply tidy_fold; [intros; now apply tidy_unlinkSuperClass|].
    apply tidy_fold; [intros; now apply tidy_unlinkSubClass|]. exact Hs. }
  assert (H2 : tidy (removeClassRelationships id (removeFromHierarchy id cls s))).
  { unfold removeClassRelationships. cbv zeta.
    destruct H1 as (Hc & Hp & Hr & Hd).
    split; [exact Hc|]. split; [exact Hp|]. split; [|exact Hd].
    cbn [relationships withRelationships].
    generalize (map fst
                  (filter (fun kv => touches id (snd kv))
                     (relationships (removeFromHierarchy id cls s)))).
    intros toRemove. revert Hr.
    generalize (relationships (removeFromHierarchy id cls s)).
    induction toRemove as [|x l IH]; intros m Hm; [exact Hm|].
    cbn [fold_left]. apply IH.
    now apply (keyed_delete OntologyRelationship.id). }
  destruct H2 as (Hc & Hrest). split; [|exact Hrest].
  now apply (keyed_delete OntologyClass.id).
Qed.

Lemma tidy_addRelationship r s : tidy s -> tidy (addRelationship r s).
Proof.
  intros (Hc & Hp & Hr & Hd). unfold addRelationship. cbv zeta.
  assert (H1 : tidy (withRelationships
                       (JsMap.set (OntologyRelationship.id r) r
                          (relationships s)) s)).
  { split; [exact Hc|]. split; [exact Hp|]. split; [|exact Hd].
    now apply (keyed_set OntologyRelationship.id). }
  destruct (OntologyRelationship.bidirectional r); [|exact H1].
  unfold createBidirectionalRelationship. cbv zeta.
  destruct (negb _); [|exact H1].
  destruct H1 as (Hc1 & Hp1 & Hr1 & Hd1).
  split; [exact Hc1|]. split; [exact Hp1|]. split; [|exact Hd1].
  now apply (keyed_set OntologyRelationship.id).
Qed.

Lemma tidy_step s op : tidy s -> tidy (step s op).
Proof.
  intros Hs. destruct op as [c|id|p|r|d]; cbn [step].
  - now apply tidy_addClass.
  - now apply tidy_deleteClass.
  - destruct Hs as (Hc & Hp & Hr & Hd).
    split; [exact Hc|]. split; [|split; [exact Hr|exact Hd]].
    now apply (keyed_set OntologyProperty.id).
  - now apply tidy_addRelationship.
  - destruct Hs as (Hc & Hp & Hr & Hd).
    split; [exact Hc|]. split; [exact Hp|]. split; [exact Hr|].
    now apply (keyed_set Domain.id).
Qed.

Lemma tidy_run ops : tidy (run ops).
Proof.
  unfold run. apply (fold_left_preserves tidy).
  - intros s op. apply tidy_step.
  - repeat split; try constructor; intros k v [].
Qed.

End StoreInvariant.

(** In every store reached from the empty store by the public operations,
    a lookup by identifier returns an element with that identifier: classes,
    properties, relationships and domains are stored under their own [id]. *)
Theorem lookups_return_the_requested_id (ops : list OntologyManager.Op) :
  let s := OntologyManager.run ops in
  (forall id c, OntologyManager.getClass id s = Some c -> OntologyClass.id c = id)
  /\ (forall id p,
        OntologyManager.getProperty id s = Some p -> OntologyProperty.id p = id)
  /\ (forall id r,
        OntologyManager.getRelationship id s = Some r ->
        OntologyRelationship.id r = id)
  /\ (forall id d,
        OntologyManager.getDomain id s = Some d -> Domain.id d = id).
Proof.
  intros s. destruct (tidy_run ops) as ((_ & Hc) & (_ & Hp) & (_ & Hr) & (_ & Hd)).
  repeat split; intros id v Hget; [apply Hc|apply Hp|apply Hr|apply Hd];
    now apply get_In.
Qed.

(** ** [deleteClass] *)

Section DeleteClass.

Import OntologyManager ClassGraph.

Lemma present_unlinkSubClass classId s superClassId k :
  getClass k (unlinkSubClass classId s superClassId) <> None
  <-> getClass k s <> None.
Proof.
  unfold unlinkSubClass.
  destruct (getClass superClassId s) as [superClass|] eqn:Hsup; [|tauto].
  rewrite getClass_withClasses, get_set.
  destruct (String.eqb_spec k superClassId) as [->|_]; [|tauto].
  split; intros _; [congruence|discriminate].
Qed.

Lemma present_unlinkSuperClass classId s subClassId k :
  getClass k (unlinkSuperClass classId s subClassId) <> None
  <-> getClass k s <> None.
Proof.
  unfold unlinkSuperClass.
  destruct (getClass subClassId s) as [subClass|] eqn:Hsub; [|tauto].
  rewrite getClass_withClasses, get_set.
  destruct (String.eqb_spec k subClassId) as [->|_]; [|tauto].
  split; intros _; [congruence|discriminate].
Qed.

Lemma present_fold (f : Store -> string -> Store) k :
  (forall s x, getClass k (f s x) <> None <-> getClass k s <> None) ->
  forall l s, getClass k (fold_left f l s) <> None <-> getClass k s <> None.
Proof.
  intros Hf. induction l as [|x l IH]; intros s; simpl; [tauto|].
  now rewrite IH, Hf.
Qed.

Lemma present_removeFromHierarchy key cls s k :
  getClass k (removeFromHierarchy key cls s) <> None <-> getClass k s <> None.
Proof.
  unfold removeFromHierarchy. cbv zeta.
  rewrite present_fold; [|intros; apply present_unlinkSuperClass].
  apply present_fold. intros. apply present_unlinkSubClass.
Qed.

(** The other maps are left alone by the two loops. *)
Lemma others_fold (f : Store -> string -> Store) :
  (forall s x, properties (f s x) = properties s
               /\ relationships (f s x) = relationships s
               /\ domains (f s x) = domains s) ->
  forall l s, properties (fold_left f l s) = properties s
              /\ relationships (fold_left f l s) = relationships s
              /\ domains (fold_left f l s) = domains s.
Proof.
  intros Hf. induction l as [|x l IH]; intros s; simpl; [auto|].
  destruct (IH (f s x)) as (-> & -> & ->). apply Hf.
Qed.

Lemma others_removeFromHierarchy key cls s :
  properties (removeFromHierarchy key cls s) = properties s
  /\ relationships (removeFromHierarchy key cls s) = relationships s
  /\ domains (removeFromHierarchy key cls s) = domains s.
Proof.
  unfold removeFromHierarchy. cbv zeta.
  assert (H1 : forall s x,
             properties (unlinkSubClass (OntologyClass.id cls) s x) = properties s
             /\ relationships (unlinkSubClass (OntologyClass.id cls) s x)
                = relationships s
             /\ domains (unlinkSubClass (OntologyClass.id cls) s x) = domains s).
  { intros s0 x. unfold unlinkSubClass. now destruct (getClass x s0). }
  assert (H2 : forall s x,
             properties (unlinkSuperClass (OntologyClass.id cls) s x)
             = properties s
             /\ relationships (unlinkSuperClass (OntologyClass.id cls) s x)
                = relationships s
             /\ domains (unlinkSuperClass (OntologyClass.id cls) s x)
                = domains s).
  { intros s0 x. unfold unlinkSuperClass. now destruct (getClass x s0). }
  destruct (others_fold _ H2
              (match
                 getClass key
                   (fold_left (unlinkSubClass (OntologyClass.id cls))
                      (OntologyClass.superClasses cls) s)
               with
               | Some cls' => OntologyClass.subClasses cls'
               | None => OntologyClass.subClasses cls
               end)
              (fold_left (unlinkSubClass (OntologyClass.id cls))
                 (OntologyClass.superClasses cls) s)) as (-> & -> & ->).
  apply others_fold, H1.
Qed.

(** After the first loop no super-class that is in the store lists the
    class. *)
Lemma unlinked_subClasses classId l :
  forall s p P,
    In p l ->
    getClass p (fold_left (unlinkSubClass classId) l s) = Some P ->
    ~ In classId (OntologyClass.subClasses P).
Proof.
  induction l as [|x l IH]; intros s p P Hin HP; simpl in *; [contradiction|].
  destruct Hin as [->|Hin]; [|eauto].
  destruct (fold_shrinks (unlinkSubClass classId)
              (unlinkSubClass_shrinks classId) l
              (unlinkSubClass classId s p) p P HP) as (P1 & HP1 & _ & Hsub).
  intros Hcontra. apply Hsub in Hcontra. revert HP1 Hcontra.
  unfold unlinkSubClass.
  destruct (getClass p s) as [P0|] eqn:HP0; [|congruence].
  rewrite getClass_withClasses, get_set_same. intros [= <-]. cbn.
  rewrite filter_In. unfold isNot. rewrite String.eqb_refl. now intros [_ ?].
Qed.

Lemma unlinked_superClasses classId l :
  forall s q Q,
    In q l ->
    getClass q (fold_left (unlinkSuperClass classId) l s) = Some Q ->
    ~ In classId (OntologyClass.superClasses Q).
Proof.
  induction l as [|x l IH]; intros s q Q Hin HQ; simpl in *; [contradiction|].
  destruct Hin as [->|Hin]; [|eauto].
  destruct (fold_shrinks (unlinkSuperClass classId)
              (unlinkSuperClass_shrinks classId) l
              (unlinkSuperClass classId s q) q Q HQ) as (Q1 & HQ1 & Hsup & _).
  intros Hcontra. apply Hsup in Hcontra. revert HQ1 Hcontra.
  unfold unlinkSuperClass.
  destruct (getClass q s) as [Q0|] eqn:HQ0; [|congruence].
  rewrite getClass_withClasses, get_set_same. intros [= <-]. cbn.
  rewrite filter_In. unfold isNot. rewrite String.eqb_refl. now intros [_ ?].
Qed.

(** The first loop leaves the [subClasses] of the class itself as they were,
    but for its own identifier. *)
Lemma first_loop_keeps_subClasses classId l :
  forall s k K,
    getClass k s = Some K ->
    exists K',
      getClass k (fold_left (unlinkSubClass classId) l s) = Some K'
      /\ forall q, In q (OntologyClass.subClasses K) -> q <> classId ->
                   In q (OntologyClass.subClasses K').
Proof.
  induction l as [|x l IH]; intros s k K HK; simpl; [eauto|].
  assert (H1 : exists K1,
             getClass k (unlinkSubClass classId s x) = Some K1
             /\ forall q, In q (OntologyClass.subClasses K) -> q <> classId ->
                          In q (OntologyClass.subClasses K1)).
  { unfold unlinkSubClass.
    destruct (getClass x s) as [X|] eqn:HX; [|eauto].
    rewrite getClass_withClasses, get_set.
    destruct (String.eqb_spec k x) as [->|_]; [|eauto].
    eexists. split; [reflexivity|]. cbn. intros q Hq Hne.
    rewrite HK in HX. injection HX as <-.
    apply filter_In. split; [assumption|]. unfold isNot.
    now destruct (String.eqb_spec q classId). }
  destruct H1 as (K1 & HK1 & Hkeep1).
  destruct (IH _ _ _ HK1) as (K2 & HK2 & Hkeep2).
  exists K2. split; [assumption|]. auto.
Qed.

Lemma get_fold_delete {V : Type} (l : list string) :
  forall (m : JsMap.t V) k,
    JsMap.get k (fold_left (fun m id => JsMap.delete id m) l m)
    = if Arr.includes l k then None else JsMap.get k m.
Proof.
  induction l as [|x l IH]; intros m k; [reflexivity|].
  cbn [fold_left]. rewrite IH, get_delete. unfold Arr.includes. cbn [existsb].
  destruct (String.eqb_spec k x) as [->|_]; cbn [orb].
  - now destruct (existsb (String.eqb x) l).
  - reflexivity.
Qed.

Lemma In_fold_delete {V : Type} (l : list string) :
  forall (m : JsMap.t V) k v,
    In (k, v) (fold_left (fun m id => JsMap.delete id m) l m) ->
    In (k, v) m /\ ~ In k l.
Proof.
  induction l as [|x l IH]; intros m k v Hin; [now split|].
  cbn [fold_left] in Hin. apply IH in Hin as [Hin Hl].
  apply In_delete_map in Hin as [Hin Hne]. split; [assumption|].
  intros [->|H]; auto.
Qed.

(** [deleteClass(id)]: what it returns and what it leaves in the store.
    - it returns [true] exactly when a class is stored under [id], and
      otherwise changes nothing;
    - afterwards no class is stored under [id], every other class that was
      in the store still is, and properties and domains are untouched;
    - when it returns [true], no relationship of the store has [id] as its
      source or target; no relationship is added or modified, and (the keys
      of a [Map] being distinct) a relationship that does not touch [id]
      stays;
    - no super-class of the deleted class lists it any more among its
      sub-classes and, when the deleted class carries the identifier it was
      stored under, none of its sub-classes names it as a super-class. *)
Theorem deleteClass_removes_the_class_and_its_links (s : Store) (id : string) :
  let found := fst (deleteClass id s) in
  let s' := snd (deleteClass id s) in
  (found = true <-> getClass id s <> None)
  /\ (found = false -> s' = s)
  /\ getClass id s' = None
  /\ (forall k, k <> id -> (getClass k s' <> None <-> getClass k s <> None))
  /\ properties s' = properties s
  /\ domains s' = domains s
  /\ (found = true -> getRelationshipsForClass id s' = [])
  /\ (forall k r, getRelationship k s' = Some r -> getRelationship k s = Some r)
  /\ (NoDup (JsMap.keys (relationships s)) ->
      forall k r,
        getRelationship k s = Some r -> touches id r = false ->
        getRelationship k s' = Some r)
  /\ forall cls,
       getClass id s = Some cls ->
       (forall p P,
           In p (OntologyClass.superClasses cls) -> getClass p s' = Some P ->
           ~ In (OntologyClass.id cls) (OntologyClass.subClasses P))
       /\ (OntologyClass.id cls = id ->
           forall q Q,
             In q (OntologyClass.subClasses cls) -> getClass q s' = Some Q ->
             ~ In (OntologyClass.id cls) (OntologyClass.superClasses Q)).
Proof.
  intros found s'. subst found s'. unfold deleteClass.
  destruct (getClass id s) as [cls|] eqn:Hcls; cbn [fst snd].
  2:{ repeat split; try tauto; try congruence; try discriminate. }
  set (s1 := removeFromHierarchy id cls s).
  destruct (others_removeFromHierarchy id cls s) as (Hp1 & Hr1 & Hd1).
  fold s1 in Hp1, Hr1, Hd1.
  set (toRemove :=
         map fst (filter (fun kv => touches id (snd kv)) (relationships s1))).
  assert (Hrels : relationships
                    (withClasses
                       (JsMap.delete id
                          (classes (removeClassRelationships id s1)))
                       (removeClassRelationships id s1))
                  = fold_left (fun m id => JsMap.delete id m) toRemove
                      (relationships s)).
  { cbn. fold toRemove. now rewrite Hr1. }
  assert (Hclasses : forall k,
             getClass k
               (withClasses
                  (JsMap.delete id (classes (removeClassRelationships id s1)))
                  (removeClassRelationships id s1))
             = if String.eqb k id then None else getClass k s1).
  { intros k. rewrite getClass_withClasses, get_delete. reflexivity. }
  split; [split; [discriminate|reflexivity]|].
  split; [discriminate|].
  split; [now rewrite Hclasses, String.eqb_refl|].
  split.
  { intros k Hk. rewrite Hclasses.
    destruct (String.eqb_spec k id); [contradiction|].
    apply present_removeFromHierarchy. }
  split; [exact Hp1|]. split; [exact Hd1|].
  split.
  { intros _. unfold getRelationshipsForClass. rewrite Hrels.
    rewrite <- Hr1.
    destruct (filter (touches id) _) as [|r l] eqn:E; [reflexivity|exfalso].
    assert (Hin : In r (filter (touches id)
                          (JsMap.values
                             (fold_left (fun m id => JsMap.delete id m)
                                toRemove (relationships s1)))))
      by (rewrite E; now left).
    apply filter_In in Hin as [Hin Htouch].
    apply in_map_iff in Hin as ([k r'] & Hr' & Hin). cbn in Hr'. subst r'.
    apply In_fold_delete in Hin as [Hin Hnot]. apply Hnot.
    unfold toRemove. apply in_map_iff. exists (k, r). split; [reflexivity|].
    apply filter_In. split; assumption. }
  split.
  { intros k r. unfold getRelationship. rewrite Hrels, get_fold_delete.
    now destruct (Arr.includes toRemove k). }
  split.
  { intros Hnd k r. unfold getRelationship. rewrite Hrels, get_fold_delete.
    intros Hget Htouch.
    destruct (Arr.includes toRemove k) eqn:Hinc; [exfalso|assumption].
    apply includes_In in Hinc. unfold toRemove in Hinc.
    apply in_map_iff in Hinc as ([k' r'] & Hk' & Hin). cbn in Hk'. subst k'.
    apply filter_In in Hin as [Hin Htouch']. cbn in Htouch'.
    rewrite Hr1 in Hin. apply (In_get k r' _ Hnd) in Hin.
    rewrite Hget in Hin. injection Hin as <-. congruence. }
  intros cls0 [= <-]. split.
  - intros p P Hp. rewrite Hclasses.
    destruct (String.eqb p id); [discriminate|]. intros HP.
    destruct (fold_shrinks (unlinkSuperClass (OntologyClass.id cls))
                (unlinkSuperClass_shrinks (OntologyClass.id cls))
                _ _ p P HP) as (P1 & HP1 & _ & Hsub).
    intros Hcontra. apply Hsub in Hcontra.
    exact (unlinked_subClasses _ _ _ _ _ Hp HP1 Hcontra).
  - intros Hid q Q Hq. rewrite Hclasses.
    destruct (String.eqb_spec q id) as [->|Hne]; [discriminate|]. intros HQ.
    unfold s1, removeFromHierarchy in HQ. cbv zeta in HQ.
    destruct (first_loop_keeps_subClasses (OntologyClass.id cls)
                (OntologyClass.superClasses cls) s id cls Hcls)
      as (cls1 & Hcls1 & Hkeep).
    rewrite Hcls1 in HQ.
    apply (unlinked_superClasses _ _ _ q Q) in HQ; [assumption|].
    apply Hkeep; [assumption|congruence].
Qed.

End DeleteClass.

(** ** The store's own search for cycles *)

Section StoreSearch.

Import OntologyManager.

Variable s : Store.

Let next := Search.superClassesIn (classes s).

Lemma detectCycleInHierarchy_dfs :
  forall fuel v visited stack path,
    detectCycleInHierarchy fuel s v visited stack path
    = Search.dfs next fuel v visited stack path.
Proof.
  induction fuel as [|fuel IH]; intros v visited stack path; [reflexivity|].
  rewrite dfs_S. cbn [detectCycleInHierarchy].
  unfold next, Search.superClassesIn, getClass.
  destruct (JsMap.get v (classes s)) as [cls|]; [|reflexivity].
  cbn [option_map].
  generalize (JsSet.add v visited) (JsSet.add v stack).
  induction (OntologyClass.superClasses cls) as [|w rest IHl]; intros V1 S1.
  - reflexivity.
  - rewrite dfsLoop_cons. cbn zeta. rewrite <- !IH.
    destruct (negb (JsSet.has w V1)).
    + destruct (0 <? length (fst (detectCycleInHierarchy fuel s w V1 S1 _)))%nat;
        [reflexivity|apply IHl].
    + destruct (JsSet.has w S1); [reflexivity|apply IHl].
Qed.

Lemma detectCircularDependencies_sweep :
  detectCircularDependencies s
  = map circularDependencyError
      (fst (Search.sweep next (cycleFuel s)
              (map OntologyClass.id (JsMap.values (classes s))))).
Proof.
  unfold detectCircularDependencies, Search.sweep.
  generalize (cycleFuel s) as fuel. intros fuel.
  assert (Hfold : forall l cycles visited stack,
            fst
              (fold_left
                 (fun acc cls =>
                    let '(errors, (visited, recursionStack)) := acc in
                    if negb (JsSet.has (OntologyClass.id cls) visited)
                    then
                      let r :=
                        detectCycleInHierarchy fuel s (OntologyClass.id cls)
                          visited recursionStack [] in
                      if (0 <? length (fst r))%nat
                      then ((errors ++ [circularDependencyError (fst r)])%list,
                            snd r)
                      else (errors, snd r)
                    else acc)
                 l (map circularDependencyError cycles, (visited, stack)))
            = map circularDependencyError
                (fst
                   (fold_left
                      (fun acc root =>
                         let '(cycles, (visited, stack)) := acc in
                         if negb (JsSet.has root visited)
                         then
                           let r := Search.dfs next fuel root visited stack []
                           in
                           if (0 <? length (fst r))%nat
                           then ((cycles ++ [fst r])%list, snd r)
                           else (cycles, snd r)
                         else acc)
                      (map OntologyClass.id l) (cycles, (visited, stack))))).
  { induction l as [|cls l IH]; intros cycles visited stack; [reflexivity|].
    cbn [fold_left map]. rewrite detectCycleInHierarchy_dfs.
    destruct (negb (JsSet.has (OntologyClass.id cls) visited)); [|apply IH].
    cbv zeta.
    destruct (Search.dfs next fuel (OntologyClass.id cls) visited stack [])
      as [c [V1 S1]].
    cbn [fst snd].
    destruct (0 <? length c)%nat; [|apply IH].
    rewrite <- IH. now rewrite map_app. }
  apply (Hfold (JsMap.values (classes s)) [] JsSet.empty JsSet.empty).
Qed.

Hypothesis Hnd : NoDup (JsMap.keys (classes s)).
Hypothesis Hids : forall k c, In (k, c) (classes s) -> OntologyClass.id c = k.

Lemma ids_are_keys :
  map OntologyClass.id (JsMap.values (classes s)) = JsMap.keys (classes s).
Proof.
  unfold JsMap.values, JsMap.keys. rewrite map_map.
  apply map_ext_in. intros [k c] Hin. cbn. now apply Hids.
Qed.

Lemma store_search_complete :
  Search.cyclic next -> detectCircularDependencies s <> [].
Proof.
  intros Hcyclic. rewrite detectCircularDependencies_sweep, ids_are_keys.
  intros E. apply map_eq_nil in E. revert E.
  apply (sweep_complete next _ (successors_in_universe (classes s))); auto.
  - change (cycleFuel s) with (OntologyValidator.cycleFuel (classes s)).
    rewrite cycleFuel_universe. lia.
  - apply keys_in_universe.
  - apply present_is_key.
Qed.

Lemma store_search_sound :
  Search.resolved (classes s) ->
  detectCircularDependencies s <> [] -> Search.cyclic next.
Proof.
  intros Hres Herr. rewrite detectCircularDependencies_sweep, ids_are_keys in Herr.
  apply (sweep_sound next _ (successors_in_universe (classes s))
           (cycleFuel s) (JsMap.keys (classes s))).
  - change (cycleFuel s) with (OntologyValidator.cycleFuel (classes s)).
    rewrite cycleFuel_universe. lia.
  - apply keys_in_universe.
  - now apply resolved_closed.
  - intros E. apply Herr. now rewrite E.
Qed.

End StoreSearch.

(** In every store reached from the empty store by the public operations,
    the store's [detectCircularDependencies] reports an error whenever some
    class reaches itself through [superClasses]; and when every super-class
    reference names a class of the store, it reports an error only then. *)
Theorem store_reports_every_cycle (ops : list OntologyManager.Op) :
  let s := OntologyManager.run ops in
  let graph := Search.superClassesIn (OntologyManager.classes s) in
  (Search.cyclic graph -> OntologyManager.detectCircularDependencies s <> [])
  /\ (Search.resolved (OntologyManager.classes s) ->
      OntologyManager.detectCircularDependencies s <> [] ->
      Search.cyclic graph).
Proof.
  intros s graph. destruct (tidy_run ops) as ((Hnd & Hids) & _). split.
  - now apply store_search_complete.
  - now apply store_search_sound.
Qed.

(** ** Statistics *)

(** The counts of [getOntologyStatistics] are consistent: the classes with
    instances and the root classes are among the classes, the datatype and
    the object properties are different properties, and the bidirectional
    relationships are among the relationships. *)
Theorem statistics_are_consistent (s : OntologyManager.Store) :
  let stats := OntologyManager.getOntologyStatistics s in
  let cs := OntologyManager.classStatistics stats in
  let ps := OntologyManager.propertyStatistics stats in
  let rs := OntologyManager.relationshipStatistics stats in
  OntologyManager.withInstances cs <= OntologyManager.classTotal cs
  /\ OntologyManager.rootClasses cs <= OntologyManager.classTotal cs
  /\ OntologyManager.datatypeProperties ps + OntologyManager.objectProperties ps
     <= OntologyManager.propertyTotal ps
  /\ OntologyManager.bidirectionalRelationships rs
     <= OntologyManager.relationshipTotal rs.
Proof.
  cbn. unfold OntologyManager.findRootClasses.
  rewrite <- !values_length. repeat split; try apply filter_length_le.
  generalize (JsMap.values (OntologyManager.properties s)) as l.
  induction l as [|p l IH]; [reflexivity|]. cbn [filter length].
  destruct (OntologyProperty.type p); cbn; lia.
Qed.

(** ** The class hierarchy as a tree *)

Section HierarchyTrees.

Import OntologyManager ClassGraph.

Variable s : Store.

(** One turn of the loop over [subClasses]. *)
Let grow (fuel : nat) (acc : option (list HierarchyTree)) (subId : string)
  : option (list HierarchyTree) :=
  match acc with
  | Some children =>
      match getClass subId s with
      | Some subClass =>
          match buildHierarchyTree fuel s subClass with
          | Some tree => Some (children ++ [tree])%list
          | None => None
          end
      | None => Some children
      end
  | None => None
  end.

Lemma buildHierarchyTree_S fuel cls :
  buildHierarchyTree (S fuel) s cls
  = match fold_left (grow fuel) (OntologyClass.subClasses cls) (Some []) with
    | Some children =>
        Some (TreeNode (OntologyClass.id cls) (OntologyClass.name cls)
                (OntologyClass.description cls)
                (length (OntologyClass.instances cls)) children)
    | None => None
    end.
Proof. reflexivity. Qed.

Lemma grow_none fuel l : fold_left (grow fuel) l None = None.
Proof. induction l as [|x l IH]; [reflexivity|exact IH]. Qed.

Lemma grow_stuck fuel x l :
  In x l -> (forall children, grow fuel (Some children) x = None) ->
  forall acc, fold_left (grow fuel) l acc = None.
Proof.
  intros Hin Hx. induction l as [|y l IH]; intros acc; [destruct Hin|].
  cbn [fold_left]. destruct Hin as [->|Hin]; [|now apply IH].
  destruct acc as [children|]; [rewrite Hx|]; apply grow_none.
Qed.

Lemma grow_returns fuel l :
  (forall x children, In x l ->
     exists children', grow fuel (Some children) x = Some children') ->
  forall children,
    exists children', fold_left (grow fuel) l (Some children) = Some children'.
Proof.
  induction l as [|y l IH]; intros Hl children; [now exists children|].
  cbn [fold_left]. destruct (Hl y children (or_introl eq_refl)) as (c1 & ->).
  apply IH. intros x ch Hx. apply Hl. now right.
Qed.

(** A class that lists its own key among its sub-classes: the recursion
    never ends. *)
Lemma own_subclass_never_returns k cls :
  getClass k s = Some cls -> In k (OntologyClass.subClasses cls) ->
  forall fuel, buildHierarchyTree fuel s cls = None.
Proof.
  intros Hcls Hin. induction fuel as [|fuel IH]; [reflexivity|].
  rewrite buildHierarchyTree_S.
  rewrite (grow_stuck fuel k _ Hin); [reflexivity|].
  intros children. unfold grow. now rewrite Hcls, IH.
Qed.

Hypothesis Hacyclic : acyclic s.

(** Without a cycle no key is met twice on the way down, and the recursion
    ends. *)
Lemma buildHierarchyTree_returns :
  forall fuel k cls path,
    getClass k s = Some cls ->
    NoDup path -> incl path (JsMap.keys (classes s)) ->
    (forall v, In v path -> clos_trans string (link s) k v) ->
    JsMap.size (classes s) < fuel + length path ->
    exists tree, buildHierarchyTree fuel s cls = Some tree.
Proof.
  induction fuel as [|fuel IH]; intros k cls path Hcls Hnd Hincl Habove Hfuel.
  - pose proof (keys_bound path (classes s) Hnd Hincl). simpl in Hfuel. lia.
  - rewrite buildHierarchyTree_S.
    destruct (grow_returns fuel (OntologyClass.subClasses cls)) with (children := @nil HierarchyTree)
      as (children & ->); [|eauto].
    intros x children Hx. unfold grow.
    destruct (getClass x s) as [sub|] eqn:Hsub; [|eauto].
    assert (Hlink : link s x k) by (right; eauto).
    assert (Hnew : ~ In k path).
    { intros Hin. apply (Hacyclic k). auto. }
    destruct (IH x sub (k :: path)) as (tree & ->); eauto.
    + now constructor.
    + intros v [<-|Hv]; auto. eapply get_in_keys; eauto.
    + intros v [<-|Hv]; [now apply t_step|].
      eapply t_trans; [apply t_step; exact Hlink|auto].
    + simpl. lia.
Qed.

Lemma tree_of_a_stored_class k cls :
  getClass k s = Some cls ->
  exists tree, buildHierarchyTree (treeFuel s) s cls = Some tree.
Proof.
  intros Hcls. apply (buildHierarchyTree_returns (treeFuel s) k cls []); auto.
  - constructor.
  - intros v [].
  - intros v [].
  - unfold treeFuel. simpl. lia.
Qed.

End HierarchyTrees.

(** Adding a class that names itself as a super-class makes it its own
    sub-class, and [getClassHierarchy] of its identifier never returns: the
    recursion of [buildHierarchyTree] has no end. *)
Theorem own_superclass_breaks_getClassHierarchy
  (s : OntologyManager.Store) (c : OntologyClass.t) :
  In (OntologyClass.id c) (OntologyClass.superClasses c) ->
  OntologyClass.id c <> "" ->
  OntologyManager.getClassHierarchy (Some (OntologyClass.id c))
    (OntologyManager.addClass c s) = None.
Proof.
  intros Hself Hid. unfold OntologyManager.getClassHierarchy.
  cbn [OntologyManager.givenRoot].
  destruct (String.eqb_spec (OntologyClass.id c) ""); [contradiction|].
  assert (Hstored : exists C,
             OntologyManager.getClass (OntologyClass.id c)
               (OntologyManager.addClass c s) = Some C).
  { unfold OntologyManager.addClass, OntologyManager.updateClassHierarchy.
    destruct (updateClassHierarchy_keeps (OntologyClass.id c)
                (OntologyClass.superClasses c)
                (OntologyManager.withClasses
                   (JsMap.set (OntologyClass.id c) c (OntologyManager.classes s))
                   s)
                (OntologyClass.id c) c) as (C & HC & _); [|eauto].
    now rewrite getClass_withClasses, get_set_same. }
  destruct Hstored as (C & HC). rewrite HC.
  rewrite (own_subclass_never_returns _ (OntologyClass.id c) C HC);
    [reflexivity|].
  unfold OntologyManager.addClass, OntologyManager.updateClassHierarchy in HC.
  eapply updateClassHierarchy_links; eauto.
Qed.

(** Witness: the class [A] with super-class [A], added to the empty store. *)
Lemma own_superclass_breaks_getClassHierarchy_witness :
  OntologyManager.getClassHierarchy (Some "A")
    (OntologyManager.addClass (Sample.cls "A" ["A"]) OntologyManager.empty)
  = None.
Proof.
  apply (own_superclass_breaks_getClassHierarchy OntologyManager.empty
           (Sample.cls "A" ["A"])).
  - now left.
  - discriminate.
Defined.

(** In every store reached from the empty store by the public operations
    whose class graph has no cycle, [getClassHierarchy] returns, for a given
    root as for the root classes. *)
Theorem getClassHierarchy_returns_without_cycle
  (ops : list OntologyManager.Op) (rootClassId : option string) :
  ClassGraph.acyclic (OntologyManager.run ops) ->
  OntologyManager.getClassHierarchy rootClassId (OntologyManager.run ops)
  <> None.
Proof.
  intros Hacyclic. unfold OntologyManager.getClassHierarchy.
  set (s := OntologyManager.run ops) in *.
  destruct (OntologyManager.givenRoot rootClassId) as [id|].
  - destruct (OntologyManager.getClass id s) as [root|] eqn:Hroot;
      [|discriminate].
    destruct (tree_of_a_stored_class s Hacyclic id root Hroot) as (tree & ->).
    discriminate.
  - destruct (tidy_run ops) as ((Hnd & Hids) & _). fold s in Hnd, Hids.
    assert (Hroots : forall cls,
               In cls (OntologyManager.findRootClasses s) ->
               exists tree,
                 OntologyManager.buildHierarchyTree
                   (OntologyManager.treeFuel s) s cls = Some tree).
    { intros cls Hin. unfold OntologyManager.findRootClasses in Hin.
      apply filter_In in Hin as [Hin _].
      apply in_map_iff in Hin as ([k c] & Hc & Hin). cbn in Hc. subst c.
      apply (tree_of_a_stored_class s Hacyclic k cls).
      now apply In_get. }
    revert Hroots. generalize (OntologyManager.findRootClasses s) as roots.
    intros roots Hroots.
    match goal with
    | |- match fold_left ?f _ _ with _ => _ end <> None =>
        assert (Hall : forall trees,
                   exists trees', fold_left f roots (Some trees) = Some trees')
    end.
    { induction roots as [|cls roots IH]; intros trees; [now exists trees|].
      cbn [fold_left].
      destruct (Hroots cls (or_introl eq_refl)) as (tree & ->).
      apply IH. intros c Hc. apply Hroots. now right. }
    destruct (Hall []) as (trees & ->). discriminate.
Qed.

Lemma parentFirst_is_acyclic :
  ClassGraph.acyclic (OntologyManager.run Sample.parentFirst).
Proof.
  apply (ranked_acyclic _ (fun a => if String.eqb a "B" then 0 else 1)).
  intros a b Hlink. apply parentFirst_links in Hlink as [-> ->].
  simpl. lia.
Qed.

(** Witness: the store with the class [A] and its sub-class [B]. *)
Lemma getClassHierarchy_returns_without_cycle_witness :
  OntologyManager.getClassHierarchy None
    (OntologyManager.run Sample.parentFirst) <> None.
Proof.
  exact (getClassHierarchy_returns_without_cycle Sample.parentFirst None
           parentFirst_is_acyclic).
Defined.

(** ** Concept extraction *)

Section SortFacts.

Context {A : Type} (before : A -> A -> bool).

Hypothesis before_asym : forall a b, before a b = true -> before b a = false.
Hypothesis notBefore_trans :
  forall a b c, before b a = false -> before c b = false -> before c a = false.

(** [b] does not have to come before [a]. *)
Let ordered (a b : A) : Prop := before b a = false.

Lemma insertSorted_sorted (x : A) (l : list A) :
  StronglySorted ordered l -> StronglySorted ordered (insertSorted before x l).
Proof.
  induction 1 as [|y l Hl IH Hy]; cbn [insertSorted].
  - constructor; constructor.
  - destruct (before y x) eqn:Hyx.
    + constructor; [exact IH|].
      apply (Permutation_Forall (insertSorted_perm before x l)).
      constructor; [now apply before_asym|exact Hy].
    + constructor; [now constructor|].
      constructor; [exact Hyx|].
      eapply Forall_impl; [|exact Hy]. intros z Hz.
      now apply (notBefore_trans x y z).
Qed.

Lemma stableSort_sorted (l : list A) :
  StronglySorted ordered (stableSort before l).
Proof.
  induction l as [|x l IH]; [constructor|]. now apply insertSorted_sorted.
Qed.

End SortFacts.

Lemma StronglySorted_weaken {A : Type} (R R' : A -> A -> Prop) (l : list A) :
  (forall a b, R a b -> R' a b) -> StronglySorted R l -> StronglySorted R' l.
Proof.
  intros Himpl. induction 1 as [|a l Hl IH Ha]; constructor; [exact IH|].
  eapply Forall_impl; [|exact Ha]. auto.
Qed.

(** Sorting by decreasing count, as [sort((a, b) => b.n - a.n)] does. *)
Lemma sorted_by_count {A : Type} (rank : A -> nat) (l : list A) :
  StronglySorted (fun a b => rank b <= rank a)
    (stableSort (fun a b => (rank b <? rank a)%nat) l).
Proof.
  eapply StronglySorted_weaken; [|apply stableSort_sorted].
  - cbv beta. intros a b Hab. apply Nat.ltb_ge in Hab. exact Hab.
  - intros a b Hab. apply Nat.ltb_lt in Hab. apply Nat.ltb_ge. lia.
  - intros a b c Hab Hbc. apply Nat.ltb_ge in Hab, Hbc. apply Nat.ltb_ge. lia.
Qed.

Lemma ltb_lt (a b : Q) : Num.ltb a b = true -> (a < b)%Q.
Proof.
  unfold Num.ltb. destruct (Qcompare a b) eqn:E; try discriminate.
  intros _. now apply Qlt_alt.
Qed.

Lemma ltb_ge (a b : Q) : Num.ltb a b = false -> (b <= a)%Q.
Proof.
  unfold Num.ltb. destruct (Qcompare a b) eqn:E; try discriminate; intros _.
  - apply Qeq_alt in E. rewrite E. apply Qle_refl.
  - apply Qgt_alt in E. now apply Qlt_le_weak.
Qed.

(** Sorting by decreasing number. *)
Lemma sorted_by_number {A : Type} (rank : A -> Q) (l : list A) :
  StronglySorted (fun a b => (rank b <= rank a)%Q)
    (stableSort (fun a b => Num.gtb (rank a) (rank b)) l).
Proof.
  eapply StronglySorted_weaken; [|apply stableSort_sorted].
  - cbv beta. intros a b Hab. now apply ltb_ge.
  - unfold Num.gtb. intros a b Hab. apply ltb_lt in Hab.
    destruct (Num.ltb (rank a) (rank b)) eqn:Hba; [|reflexivity].
    apply ltb_lt in Hba. lra.
  - unfold Num.gtb. intros a b c Hab Hbc. apply ltb_ge in Hab, Hbc.
    destruct (Num.ltb (rank a) (rank c)) eqn:Hac; [|reflexivity].
    apply ltb_lt in Hac. lra.
Qed.

Lemma filter_keeps_distinct {A B : Type} (key : A -> B) (keep : A -> bool) :
  forall l, NoDup (map key l) -> NoDup (map key (filter keep l)).
Proof.
  induction l as [|x l IH]; cbn [map filter]; intros Hnd; [exact Hnd|].
  apply NoDup_cons_iff in Hnd as [Hx Hl].
  destruct (keep x); [|now apply IH].
  cbn [map]. apply NoDup_cons; [|now apply IH].
  intros Hin. apply Hx.
  apply in_map_iff in Hin as (y & Hy & Hin). apply in_map_iff.
  exists y. split; [exact Hy|]. now apply filter_In in Hin.
Qed.

Lemma fold_left_keeps {A B : Type} (P : A -> Prop) (f : A -> B -> A)
  (l : list B) :
  (forall a b, In b l -> P a -> P (f a b)) ->
  forall a, P a -> P (fold_left f l a).
Proof.
  induction l as [|b l IH]; intros Hstep a Ha; [exact Ha|].
  cbn [fold_left]. apply IH.
  - intros a' b' Hb'. apply Hstep. now right.
  - apply Hstep; [now left|exact Ha].
Qed.

Lemma length_mapChars (f : ascii -> ascii) (s : string) :
  String.length (Js.mapChars f s) = String.length s.
Proof. induction s as [|c s IH]; cbn; [reflexivity|now rewrite IH]. Qed.

Lemma includes_false (l : list string) (x : string) :
  Arr.includes l x = false -> ~ In x l.
Proof.
  unfold Arr.includes. intros Hno Hin.
  assert (Hyes : existsb (String.eqb x) l = true).
  { apply existsb_exists. exists x. split; [exact Hin|apply String.eqb_refl]. }
  congruence.
Qed.

Lemma calculateConceptConfidence_bounds (concept : string) :
  (5 # 10 <= DomainAnalyzer.calculateConceptConfidence concept <= 95 # 100)%Q.
Proof.
  unfold DomainAnalyzer.calculateConceptConfidence.
  destruct (DomainAnalyzer.startsUpper concept);
    destruct (DomainAnalyzer.hasChar 32 concept || DomainAnalyzer.hasChar 45 concept);
    destruct (DomainAnalyzer.hasChar 95 concept
              || Regex.test (Regex.Cls Js.isUpper) (DomainAnalyzer.tailOf concept));
    cbv zeta; split; vm_compute; discriminate.
Qed.

Section ConceptMap.

Import DomainAnalyzer.

(** The titles of the tiddlers at hand. *)
Variable titles : list string.

(** What the map of [extractConcepts] holds under the key [k]. *)
Let sane (k : string) (c : ExtractedConcept.t) : Prop :=
  ExtractedConcept.name c = k
  /\ k <> ""
  /\ ExtractedConcept.type c = inferConceptType k
  /\ ExtractedConcept.confidence c = calculateConceptConfidence k
  /\ 1 <= ExtractedConcept.frequency c
  /\ ExtractedConcept.contexts c <> []
  /\ NoDup (ExtractedConcept.contexts c)
  /\ length (ExtractedConcept.contexts c) <= ExtractedConcept.frequency c
  /\ incl (ExtractedConcept.contexts c) titles.

Let good (m : JsMap.t ExtractedConcept.t) : Prop :=
  NoDup (JsMap.keys m) /\ forall k c, In (k, c) m -> sane k c.

Lemma addOrUpdateConcept_good m name context :
  name <> "" -> In context titles ->
  good m -> good (addOrUpdateConcept m name context).
Proof.
  intros Hname Hcontext [Hnd Hall]. unfold addOrUpdateConcept.
  destruct (JsMap.get name m) as [existing|] eqn:Hget.
  - split; [now apply set_NoDup|].
    intros k c Hin. apply In_set in Hin as [[-> ->]|Hin]; [|now apply Hall].
    destruct (Hall name existing (get_In _ _ _ Hget))
      as (Hn & _ & Hty & Hconf & Hfreq & Hne & Hctx & Hlen & Hincl).
    unfold sane. cbn.
    refine (conj Hn (conj Hname (conj Hty (conj Hconf (conj _ _))))); [lia|].
    destruct (Arr.includes (ExtractedConcept.contexts existing) context)
      eqn:Hinc; cbn [negb].
    + refine (conj Hne (conj Hctx (conj _ Hincl))). lia.
    + refine (conj _ (conj _ (conj _ _))).
      * intros Hnil. now apply app_eq_nil in Hnil as [_ Hnil].
      * apply NoDup_snoc; [exact Hctx|now apply includes_false].
      * rewrite length_app. cbn. lia.
      * intros x Hx. apply in_app_iff in Hx as [Hx|[<-|[]]]; auto.
  - split; [now apply set_NoDup|].
    intros k c Hin. apply In_set in Hin as [[-> ->]|Hin]; [|now apply Hall].
    unfold sane. cbn.
    refine (conj eq_refl (conj Hname (conj eq_refl (conj eq_refl
             (conj (le_n 1) (conj _ (conj _ (conj (le_n 1) _)))))))).
    + discriminate.
    + constructor; [intros []|constructor].
    + intros x [<-|[]]. exact Hcontext.
Qed.

Lemma isValidConcept_nonempty concept :
  isValidConcept concept = true -> concept <> "".
Proof. intros Hvalid ->. discriminate. Qed.

Lemma added_good names context m :
  Forall (fun name => name <> "") names -> In context titles ->
  good m -> good (fold_left (fun m name => addOrUpdateConcept m name context) names m).
Proof.
  intros Hnames Hcontext. apply fold_left_keeps.
  intros a name Hin Ha. apply addOrUpdateConcept_good; auto.
  now apply (proj1 (Forall_forall _ _) Hnames).
Qed.

Lemma valid_nonempty names :
  Forall (fun name => name <> "") (filter isValidConcept names).
Proof.
  apply Forall_forall. intros name Hin. apply filter_In in Hin as [_ Hvalid].
  now apply isValidConcept_nonempty.
Qed.

Lemma conceptsOfTiddler_good m tiddler :
  In (Tiddler.title tiddler) titles ->
  good m -> good (conceptsOfTiddler m tiddler).
Proof.
  intros Htitle Hm. unfold conceptsOfTiddler. cbv zeta.
  assert (H2 : good
                 (fold_left
                    (fun m name => addOrUpdateConcept m name (Tiddler.title tiddler))
                    (filter isValidConcept
                       (extractPhrases
                          (Js.toLowerCase (Tiddler.title tiddler ++ " " ++ Tiddler.text tiddler))))
                    (fold_left
                       (fun m name => addOrUpdateConcept m name (Tiddler.title tiddler))
                       (filter isValidConcept
                          (tokenize
                             (Js.toLowerCase (Tiddler.title tiddler ++ " " ++ Tiddler.text tiddler))))
                       m))).
  { apply added_good; [apply valid_nonempty|exact Htitle|].
    apply added_good; [apply valid_nonempty|exact Htitle|exact Hm]. }
  destruct (Tiddler.tags tiddler) as [tags|]; [|exact H2].
  apply added_good; [|exact Htitle|exact H2].
  apply Forall_forall. intros name Hin.
  apply in_map_iff in Hin as (tag & <- & Hin). apply filter_In in Hin as [_ Hlen].
  intros Hempty. apply (f_equal String.length) in Hempty.
  unfold Js.toLowerCase in Hempty. rewrite length_mapChars in Hempty.
  cbn in Hempty. rewrite Hempty in Hlen. discriminate.
Qed.

End ConceptMap.

(** The map of [extractConcepts] when the loop over the tiddlers is over. *)
Lemma conceptMap_good (tiddlers : list Tiddler.t) :
  let conceptMap :=
    fold_left DomainAnalyzer.conceptsOfTiddler tiddlers JsMap.empty in
  NoDup (JsMap.keys conceptMap)
  /\ forall k c,
       In (k, c) conceptMap ->
       ExtractedConcept.name c = k
       /\ k <> ""
       /\ ExtractedConcept.type c = DomainAnalyzer.inferConceptType k
       /\ ExtractedConcept.confidence c
          = DomainAnalyzer.calculateConceptConfidence k
       /\ 1 <= ExtractedConcept.frequency c
       /\ ExtractedConcept.contexts c <> []
       /\ NoDup (ExtractedConcept.contexts c)
       /\ length (ExtractedConcept.contexts c) <= ExtractedConcept.frequency c
       /\ incl (ExtractedConcept.contexts c) (map Tiddler.title tiddlers).
Proof.
  cbv zeta. apply fold_left_keeps.
  - intros m tiddler Hin Hm.
    apply (conceptsOfTiddler_good (map Tiddler.title tiddlers));
      [now apply in_map|exact Hm].
  - split; [constructor|intros k c []].
Qed.

Lemma extractConcepts_perm (tiddlers : list Tiddler.t) :
  Permutation
    (filter (fun concept => (1 <? ExtractedConcept.frequency concept)%nat)
       (JsMap.values
          (fold_left DomainAnalyzer.conceptsOfTiddler tiddlers JsMap.empty)))
    (DomainAnalyzer.extractConcepts tiddlers).
Proof. apply stableSort_perm. Qed.

Lemma extractConcepts_confidence (tiddlers : list Tiddler.t) (c : ExtractedConcept.t) :
  In c (DomainAnalyzer.extractConcepts tiddlers) ->
  (5 # 10 <= ExtractedConcept.confidence c <= 95 # 100)%Q.
Proof.
  intros Hin.
  apply (Permutation_in _ (Permutation_sym (extractConcepts_perm tiddlers))) in Hin.
  apply filter_In in Hin as [Hin _].
  apply in_map_iff in Hin as ([k c'] & Hc & Hin). cbn in Hc. subst c'.
  destruct (conceptMap_good tiddlers) as [_ Hall].
  destruct (Hall k c Hin) as (_ & _ & _ & -> & _).
  apply calculateConceptConfidence_bounds.
Qed.

(** The concepts returned by [extractConcepts] have pairwise different names
    and come by decreasing frequency.  Each one occurred at least twice, has
    a non-empty name, the type and the confidence that its name determines,
    a confidence between 0.5 and 0.95, and as contexts at least one and at
    most [frequency] titles of the given tiddlers, none twice. *)
Theorem extracted_concepts_are_well_formed (tiddlers : list Tiddler.t) :
  let concepts := DomainAnalyzer.extractConcepts tiddlers in
  NoDup (map ExtractedConcept.name concepts)
  /\ StronglySorted
       (fun a b => ExtractedConcept.frequency b <= ExtractedConcept.frequency a)
       concepts
  /\ forall c,
       In c concepts ->
       2 <= ExtractedConcept.frequency c
       /\ ExtractedConcept.name c <> ""
       /\ ExtractedConcept.type c
          = DomainAnalyzer.inferConceptType (ExtractedConcept.name c)
       /\ ExtractedConcept.confidence c
          = DomainAnalyzer.calculateConceptConfidence (ExtractedConcept.name c)
       /\ (5 # 10 <= ExtractedConcept.confidence c <= 95 # 100)%Q
       /\ ExtractedConcept.contexts c <> []
       /\ NoDup (ExtractedConcept.contexts c)
       /\ length (ExtractedConcept.contexts c) <= ExtractedConcept.frequency c
       /\ forall context,
            In context (ExtractedConcept.contexts c) ->
            exists tiddler,
              In tiddler tiddlers /\ Tiddler.title tiddler = context.
Proof.
  intros concepts.
  destruct (conceptMap_good tiddlers) as [Hnd Hall].
  pose proof (extractConcepts_perm tiddlers) as Hperm. fold concepts in Hperm.
  set (conceptMap :=
         fold_left DomainAnalyzer.conceptsOfTiddler tiddlers JsMap.empty) in *.
  assert (Hnames : map ExtractedConcept.name (JsMap.values conceptMap)
                   = JsMap.keys conceptMap).
  { unfold JsMap.values, JsMap.keys. rewrite map_map.
    apply map_ext_in. intros [k c] Hin. now apply Hall. }
  split; [|split].
  - eapply Permutation_NoDup; [apply Permutation_map; exact Hperm|].
    apply filter_keeps_distinct. now rewrite Hnames.
  - apply (sorted_by_count ExtractedConcept.frequency).
  - intros c Hin. apply (Permutation_in _ (Permutation_sym Hperm)) in Hin.
    apply filter_In in Hin as [Hin Hfreq].
    apply Nat.ltb_lt in Hfreq.
    apply in_map_iff in Hin as ([k c'] & Hc & Hin). cbn in Hc. subst c'.
    destruct (Hall k c Hin)
      as (Hn & Hk & Hty & Hconf & _ & Hne & Hctx & Hlen & Hincl).
    subst k. refine (conj Hfreq (conj Hk (conj Hty (conj Hconf (conj _
                      (conj Hne (conj Hctx (conj Hlen _)))))))).
    + rewrite Hconf. apply calculateConceptConfidence_bounds.
    + intros context Hcontext. apply Hincl in Hcontext.
      apply in_map_iff in Hcontext as (tiddler & Ht & Hin'). eauto.
Qed.

(** ** Relationship extraction *)

Lemma Forall_updateFirst_when {A : Type} (P : A -> Prop) (p : A -> bool)
  (f : A -> A) (l : list A) :
  (forall x, p x = true -> P x -> P (f x)) ->
  Forall P l -> Forall P (DomainAnalyzer.updateFirst p f l).
Proof.
  intros Hf. induction 1 as [|x l Hx Hl IH]; cbn [DomainAnalyzer.updateFirst].
  - constructor.
  - destruct (p x) eqn:Hp; constructor; auto.
Qed.

Lemma pairsOf_In {A : Type} (l : list A) (a b : A) :
  In (a, b) (Arr.pairsOf l) -> In a l /\ In b l /\ (NoDup l -> a <> b).
Proof.
  induction l as [|x l IH]; cbn [Arr.pairsOf]; [intros []|].
  intros Hin. apply in_app_iff in Hin as [Hin|Hin].
  - apply in_map_iff in Hin as (y & [= <- <-] & Hy).
    split; [now left|]. split; [now right|].
    intros Hnd ->. inversion Hnd; subst. contradiction.
  - destruct (IH Hin) as (Ha & Hb & Hne).
    split; [now right|]. split; [now right|].
    intros Hnd. apply Hne. now inversion Hnd.
Qed.

Lemma ofList_spec (l : list string) :
  NoDup (JsSet.ofList l) /\ forall x, In x (JsSet.ofList l) <-> In x l.
Proof.
  unfold JsSet.ofList, JsSet.empty.
  assert (Hgen : forall s,
             NoDup s ->
             NoDup (fold_left (fun s x => JsSet.add x s) l s)
             /\ forall x, In x (fold_left (fun s x => JsSet.add x s) l s)
                          <-> In x l \/ In x s).
  { induction l as [|y l IH]; intros s Hs; cbn [fold_left].
    - split; [exact Hs|]. intros x. split; [now right|now intros [[]|]].
    - destruct (IH (JsSet.add y s) (NoDup_add y s Hs)) as [Hnd Hin].
      split; [exact Hnd|]. intros x. rewrite Hin, In_add. cbn [In].
      split; [intros [H|[H|H]]|intros [[H|H]|H]]; auto. }
  destruct (Hgen [] (NoDup_nil _)) as [Hnd Hin]. split; [exact Hnd|].
  intros x. rewrite Hin. split; [now intros [|[]]|now left].
Qed.

Lemma length_substring_0 (n : nat) (s : string) :
  String.length (String.substring 0 n s) <= n.
Proof.
  revert s. induction n as [|n IH]; intros [|c s]; cbn; try lia.
  specialize (IH s). lia.
Qed.

Lemma sentences_are_nonempty (text sentence : string) :
  In sentence (DomainAnalyzer.splitIntoSentences text) -> sentence <> "".
Proof.
  unfold DomainAnalyzer.splitIntoSentences. intros Hin.
  apply filter_In in Hin as [_ Hlen]. intros ->. discriminate.
Qed.

(** The confidence of a sighting in a sentence that is not empty. *)
Lemma calculateRelationshipConfidence_bounds (sentence concept1 concept2 : string) :
  sentence <> "" ->
  (3 # 10
   <= DomainAnalyzer.calculateRelationshipConfidence sentence concept1 concept2
   <= 8 # 10)%Q.
Proof.
  intros Hsentence. unfold DomainAnalyzer.calculateRelationshipConfidence.
  cbv zeta.
  set (distance := Z.abs (Js.indexOf sentence concept1 - Js.indexOf sentence concept2)).
  set (len := Num.ofNat (String.length sentence)).
  assert (Hratio : (0 <= inject_Z distance / len)%Q).
  { apply Qmult_le_0_compat.
    - unfold Qle. cbn. subst distance. lia.
    - apply Qinv_le_0_compat. apply ofNat_nonneg. }
  set (proximity := Num.max 0 (1 - inject_Z distance / len)%Q).
  assert (Hlow : (0 <= proximity)%Q) by apply Q.le_max_l.
  assert (Hhigh : (proximity <= 1)%Q).
  { apply Q.max_lub; lra. }
  unfold Num.min.
  destruct (Regex.test _ sentence); split.
  - apply Q.min_glb; lra.
  - eapply Qle_trans; [apply Q.le_min_l|lra].
  - apply Q.min_glb; lra.
  - eapply Qle_trans; [apply Q.le_min_l|lra].
Qed.

Section Sightings.

Import DomainAnalyzer.

Variable tiddlers : list Tiddler.t.
Variable names : JsSet.t.
Hypothesis names_distinct : NoDup names.

(** A snippet is the head of a sentence of the corpus that mentions both
    [a] and [b]. *)
Let backed (a b snippet : string) : Prop :=
  String.length snippet <= 100
  /\ exists tiddler sentence,
       In tiddler tiddlers
       /\ In sentence (sentencesOf tiddler)
       /\ snippet = String.substring 0 100 sentence
       /\ Js.includes sentence a = true
       /\ Js.includes sentence b = true.

Let sound (r : ExtractedRelationship.t) : Prop :=
  ExtractedRelationship.source r <> ExtractedRelationship.target r
  /\ In (ExtractedRelationship.source r) names
  /\ In (ExtractedRelationship.target r) names
  /\ (3 # 10 <= ExtractedRelationship.confidence r <= 8 # 10)%Q
  /\ ExtractedRelationship.evidence r <> []
  /\ forall snippet,
       In snippet (ExtractedRelationship.evidence r) ->
       backed (ExtractedRelationship.source r) (ExtractedRelationship.target r)
         snippet.

Lemma observe_sound tiddler sentence relationshipType relationships a b :
  In tiddler tiddlers -> In sentence (sentencesOf tiddler) ->
  In (a, b) (Arr.pairsOf (foundIn names sentence)) ->
  Forall sound relationships ->
  Forall sound (observe sentence relationshipType relationships (a, b)).
Proof.
  intros Htiddler Hsentence Hpair Hall.
  apply pairsOf_In in Hpair as (Ha & Hb & Hne).
  unfold foundIn in Ha, Hb, Hne.
  apply filter_In in Ha as [Ha Hina]. apply filter_In in Hb as [Hb Hinb].
  specialize (Hne (NoDup_filter _ names_distinct)).
  assert (Hbacked : backed a b (String.substring 0 100 sentence)).
  { split; [apply length_substring_0|]. exists tiddler, sentence. auto. }
  unfold observe. destruct (existsb (links a b) relationships).
  - apply Forall_updateFirst_when; [|exact Hall].
    intros r Hlinks (Hdiff & Hs & Ht & Hconf & _ & Hev).
    unfold sound, reinforce. cbn.
    refine (conj Hdiff (conj Hs (conj Ht (conj Hconf (conj _ _))))).
    + intros Hnil. now apply app_eq_nil in Hnil as [_ Hnil].
    + intros snippet Hin. apply in_app_iff in Hin as [Hin|[<-|[]]]; [auto|].
      unfold links in Hlinks. apply orb_true_iff in Hlinks as [H|H];
        apply andb_true_iff in H as [H1 H2];
        apply String.eqb_eq in H1, H2; rewrite H1, H2; [exact Hbacked|].
      destruct Hbacked as (Hlen & t & s & H). split; [exact Hlen|].
      exists t, s. tauto.
  - apply Forall_app. split; [exact Hall|]. constructor; [|constructor].
    unfold sound. cbn.
    refine (conj Hne (conj Ha (conj Hb (conj _ (conj _ _))))).
    + apply calculateRelationshipConfidence_bounds.
      unfold sentencesOf in Hsentence. eapply sentences_are_nonempty; eauto.
    + discriminate.
    + intros snippet [<-|[]]. exact Hbacked.
Qed.

Lemma collectRelationships_sound :
  Forall sound (fold_left (observeTiddler names) tiddlers []).
Proof.
  apply fold_left_keeps; [|constructor].
  intros relationships tiddler Htiddler Hall. unfold observeTiddler.
  apply fold_left_keeps; [|exact Hall].
  intros rels sentence Hsentence Hrels. unfold observeSentence. cbv zeta.
  destruct (2 <=? length (foundIn names sentence))%nat; [|exact Hrels].
  apply fold_left_keeps; [|exact Hrels].
  intros rels' [a b] Hpair Hrels'. eapply observe_sound; eauto.
Qed.

End Sightings.

Lemma extractRelationships_confidence (tiddlers : list Tiddler.t)
  (concepts : list ExtractedConcept.t) (r : ExtractedRelationship.t) :
  In r (DomainAnalyzer.extractRelationships tiddlers concepts) ->
  (3 # 10 <= ExtractedRelationship.confidence r <= 8 # 10)%Q.
Proof.
  intros Hin. unfold DomainAnalyzer.extractRelationships in Hin.
  apply (Permutation_in _ (Permutation_sym (stableSort_perm _ _))) in Hin.
  apply filter_In in Hin as [Hin _].
  unfold DomainAnalyzer.collectRelationships, DomainAnalyzer.conceptNamesOf in Hin.
  destruct (ofList_spec (map ExtractedConcept.name concepts)) as [Hnd _].
  pose proof (collectRelationships_sound tiddlers _ Hnd) as Hall.
  apply (proj1 (Forall_forall _ _) Hall) in Hin. tauto.
Qed.

(** Every relationship returned by [extractRelationships] joins two different
    names of the given concepts, has a confidence between 0.3 and 0.8, and
    carries at least one piece of evidence; each piece of evidence is at most
    100 characters long and is the head of a sentence of the given tiddlers
    that mentions both names. *)
Theorem extracted_relationships_are_well_formed
  (tiddlers : list Tiddler.t) (concepts : list ExtractedConcept.t)
  (r : ExtractedRelationship.t) :
  In r (DomainAnalyzer.extractRelationships tiddlers concepts) ->
  ExtractedRelationship.source r <> ExtractedRelationship.target r
  /\ In (ExtractedRelationship.source r) (map ExtractedConcept.name concepts)
  /\ In (ExtractedRelationship.target r) (map ExtractedConcept.name concepts)
  /\ (3 # 10 <= ExtractedRelationship.confidence r <= 8 # 10)%Q
  /\ ExtractedRelationship.evidence r <> []
  /\ forall snippet,
       In snippet (ExtractedRelationship.evidence r) ->
       String.length snippet <= 100
       /\ exists tiddler sentence,
            In tiddler tiddlers
            /\ In sentence (DomainAnalyzer.sentencesOf tiddler)
            /\ snippet = String.substring 0 100 sentence
            /\ Js.includes sentence (ExtractedRelationship.source r) = true
            /\ Js.includes sentence (ExtractedRelationship.target r) = true.
Proof.
  intros Hin. unfold DomainAnalyzer.extractRelationships in Hin.
  apply (Permutation_in _ (Permutation_sym (stableSort_perm _ _))) in Hin.
  apply filter_In in Hin as [Hin _].
  unfold DomainAnalyzer.collectRelationships, DomainAnalyzer.conceptNamesOf in Hin.
  destruct (ofList_spec (map ExtractedConcept.name concepts)) as [Hnd Hnames].
  pose proof (collectRelationships_sound tiddlers _ Hnd) as Hall.
  apply (proj1 (Forall_forall _ _) Hall) in Hin.
  destruct Hin as (Hdiff & Hs & Ht & Hconf & Hne & Hev).
  apply Hnames in Hs, Ht. auto 10.
Qed.

(** Witness: the two sentences about dogs and mammals. *)
Lemma extracted_relationships_are_well_formed_witness :
  exists r,
    In r (DomainAnalyzer.extractRelationships Sample.twoTypes Sample.dogsAndMammals)
    /\ ExtractedRelationship.source r <> ExtractedRelationship.target r
    /\ (3 # 10 <= ExtractedRelationship.confidence r <= 8 # 10)%Q.
Proof.
  eexists. split; [vm_compute; left; reflexivity|].
  refine
    (let H :=
       extracted_relationships_are_well_formed Sample.twoTypes
         Sample.dogsAndMammals _ _ in
     conj (proj1 H) (proj1 (proj2 (proj2 (proj2 H))))).
  vm_compute. left. reflexivity.
Defined.

(** ** Domains *)

Section ClusterMaps.

Context {V : Type}.

Lemma set_set (k : string) (v v' : V) (m : JsMap.t V) :
  JsMap.set k v (JsMap.set k v' m) = JsMap.set k v m.
Proof.
  induction m as [|[k2 v2] m IH]; cbn [JsMap.set].
  - now rewrite String.eqb_refl.
  - destruct (String.eqb k k2) eqn:E; cbn [JsMap.set].
    + now rewrite String.eqb_refl.
    + now rewrite E, IH.
Qed.

(** The elements already filed under [k]. *)
Let filed (k : string) (m : JsMap.t (list V)) : list V :=
  match JsMap.get k m with
  | Some members => members
  | None => []
  end.

Lemma flat_map_set (k : string) (x : list V) (m : JsMap.t (list V)) :
  Permutation (flat_map snd (JsMap.set k (filed k m ++ x)%list m))
    (flat_map snd m ++ x)%list.
Proof.
  unfold filed. induction m as [|[k2 v2] m IH]; cbn [JsMap.set JsMap.get].
  - cbn. now rewrite app_nil_r.
  - destruct (String.eqb k k2); cbn [flat_map snd].
    + rewrite <- !app_assoc. apply Permutation_app_head, Permutation_app_comm.
    + rewrite <- app_assoc. now apply Permutation_app_head.
Qed.

End ClusterMaps.

Section Clusters.

Import DomainAnalyzer.

Let filedUnder (k : string) (clusters : JsMap.t (list ExtractedConcept.t))
  : list ExtractedConcept.t :=
  match JsMap.get k clusters with
  | Some members => members
  | None => []
  end.

(** One turn of the loop of [clusterConceptsByDomain]. *)
Let file (clusters : JsMap.t (list ExtractedConcept.t))
  (concept : ExtractedConcept.t) : JsMap.t (list ExtractedConcept.t) :=
  let assignedDomain := assignDomain concept in
  let clusters' :=
    if negb (JsMap.has assignedDomain clusters)
    then JsMap.set assignedDomain [] clusters else clusters in
  match JsMap.get assignedDomain clusters' with
  | Some members =>
      JsMap.set assignedDomain (members ++ [concept])%list clusters'
  | None => clusters'
  end.

Lemma file_eq clusters concept :
  file clusters concept
  = JsMap.set (assignDomain concept)
      (filedUnder (assignDomain concept) clusters ++ [concept])%list clusters.
Proof.
  unfold file, filedUnder. cbv zeta. rewrite has_get.
  destruct (JsMap.get (assignDomain concept) clusters) as [members|] eqn:Hget;
    cbn [negb].
  - now rewrite Hget.
  - rewrite get_set, String.eqb_refl. apply set_set.
Qed.

Let inv (processed : list ExtractedConcept.t)
  (clusters : JsMap.t (list ExtractedConcept.t)) : Prop :=
  NoDup (JsMap.keys clusters)
  /\ (forall k members,
        In (k, members) clusters ->
        members <> [] /\ forall c, In c members -> assignDomain c = k)
  /\ Permutation (flat_map snd clusters) processed.

Lemma file_inv processed clusters concept :
  inv processed clusters -> inv (processed ++ [concept])%list (file clusters concept).
Proof.
  intros (Hnd & Hall & Hperm). rewrite file_eq. split; [|split].
  - now apply set_NoDup.
  - intros k members Hin. apply In_set in Hin as [[-> ->]|Hin]; [|now apply Hall].
    split.
    + intros Hnil. now apply app_eq_nil in Hnil as [_ Hnil].
    + intros c Hc. apply in_app_iff in Hc as [Hc|[<-|[]]]; [|reflexivity].
      unfold filedUnder in Hc.
      destruct (JsMap.get (assignDomain concept) clusters) as [old|] eqn:Hget;
        [|destruct Hc].
      now apply (Hall _ old (get_In _ _ _ Hget)).
  - etransitivity; [apply flat_map_set|]. now apply Permutation_app_tail.
Qed.

Lemma clusters_inv concepts :
  forall processed clusters,
    inv processed clusters ->
    inv (processed ++ concepts)%list (fold_left file concepts clusters).
Proof.
  induction concepts as [|c concepts IH]; intros processed clusters Hinv.
  - now rewrite app_nil_r.
  - cbn [fold_left].
    replace (processed ++ c :: concepts)%list
      with ((processed ++ [c]) ++ concepts)%list
      by now rewrite <- app_assoc.
    apply IH. now apply file_inv.
Qed.

Lemma clusterConceptsByDomain_spec concepts :
  NoDup (JsMap.keys (clusterConceptsByDomain concepts))
  /\ (forall k members,
        In (k, members) (clusterConceptsByDomain concepts) ->
        members <> [] /\ forall c, In c members -> assignDomain c = k)
  /\ Permutation (flat_map snd (clusterConceptsByDomain concepts)) concepts.
Proof.
  apply (clusters_inv concepts [] JsMap.empty).
  split; [constructor|]. split; [intros k members []|constructor].
Qed.

Lemma assignDomain_known concept :
  In (assignDomain concept)
    ["General"; "Technology"; "Business"; "Science"; "Education"; "Personal"].
Proof.
  unfold assignDomain.
  apply (fold_left_keeps
           (fun best =>
              In (fst best)
                ["General"; "Technology"; "Business"; "Science"; "Education";
                 "Personal"])).
  - intros [assignedDomain maxScore] [domain keywords] Hin Hbest.
    destruct (Num.gtb _ maxScore); [|exact Hbest].
    cbn [fst]. right.
    apply (in_map fst) in Hin. exact Hin.
  - now left.
Qed.

Lemma determineDomainScope_known tiddlers concepts :
  In (determineDomainScope tiddlers concepts)
    ["comprehensive"; "moderate"; "focused"; "limited"].
Proof.
  unfold determineDomainScope. cbv zeta.
  repeat match goal with |- context [if ?b then _ else _] => destruct b end;
    cbn; auto.
Qed.

Lemma calculateDomainCoherence_bounds domainConcepts allConcepts :
  (0 <= calculateDomainCoherence domainConcepts allConcepts <= 1)%Q.
Proof.
  unfold calculateDomainCoherence.
  destruct (length domainConcepts =? 0)%nat; [split; lra|]. cbv zeta.
  unfold Num.min, Num.max. split; [|apply Q.le_min_r].
  apply Q.min_glb; [|lra].
  apply Qmult_le_0_compat.
  - apply Qmult_le_0_compat; [apply ofNat_nonneg|].
    apply Qinv_le_0_compat.
    eapply Qle_trans; [|apply Q.le_max_r]. lra.
  - apply Q.min_glb; [lra|].
    apply Qmult_le_0_compat; [apply ofNat_nonneg|].
    apply Qinv_le_0_compat. lra.
Qed.

End Clusters.

(** [identifyDomains] files every concept under exactly one domain: the
    concept names of the domains, taken together, are the names of the given
    concepts.  The domains have pairwise different names, come by decreasing
    coherence, and each one has at least one concept, one of the six domain
    names, a coherence between 0 and 1 and one of the four scopes. *)
Theorem domains_partition_the_concepts
  (tiddlers : list Tiddler.t) (concepts : list ExtractedConcept.t) :
  let domains := DomainAnalyzer.identifyDomains tiddlers concepts in
  Permutation (flat_map ExtractedDomain.concepts domains)
    (map ExtractedConcept.name concepts)
  /\ NoDup (map ExtractedDomain.name domains)
  /\ StronglySorted
       (fun a b => (ExtractedDomain.coherence b <= ExtractedDomain.coherence a)%Q)
       domains
  /\ forall d,
       In d domains ->
       ExtractedDomain.concepts d <> []
       /\ In (ExtractedDomain.name d)
            ["General"; "Technology"; "Business"; "Science"; "Education";
             "Personal"]
       /\ (0 <= ExtractedDomain.coherence d <= 1)%Q
       /\ In (ExtractedDomain.scope d)
            ["comprehensive"; "moderate"; "focused"; "limited"].
Proof.
  intros domains. unfold DomainAnalyzer.identifyDomains in domains.
  cbv zeta in domains.
  destruct (clusterConceptsByDomain_spec concepts) as (Hnd & Hall & Hperm).
  set (clusters := DomainAnalyzer.clusterConceptsByDomain concepts) in *.
  set (unsorted := map _ clusters) in domains.
  assert (Hsort : Permutation unsorted domains) by apply stableSort_perm.
  assert (Hconcepts : flat_map ExtractedDomain.concepts unsorted
                      = map ExtractedConcept.name (flat_map snd clusters)).
  { unfold unsorted. clear. induction clusters as [|[k members] m IH];
      [reflexivity|].
    cbn [map flat_map ExtractedDomain.concepts snd]. now rewrite map_app, IH. }
  assert (Hkeys : map ExtractedDomain.name unsorted = JsMap.keys clusters).
  { unfold unsorted, JsMap.keys. rewrite map_map. apply map_ext.
    now intros [k members]. }
  split; [|split; [|split]].
  - etransitivity;
      [apply Permutation_flat_map, Permutation_sym; exact Hsort|].
    rewrite Hconcepts. now apply Permutation_map.
  - eapply Permutation_NoDup; [apply Permutation_map; exact Hsort|].
    now rewrite Hkeys.
  - apply (sorted_by_number ExtractedDomain.coherence).
  - intros d Hd. apply (Permutation_in _ (Permutation_sym Hsort)) in Hd.
    unfold unsorted in Hd. apply in_map_iff in Hd as ([k members] & <- & Hin).
    cbn. destruct (Hall k members Hin) as [Hne Hassigned].
    split; [|split; [|split]].
    + destruct members; [contradiction|discriminate].
    + destruct members as [|c members]; [contradiction|].
      rewrite <- (Hassigned c (or_introl eq_refl)).
      apply assignDomain_known.
    + apply calculateDomainCoherence_bounds.
    + apply determineDomainScope_known.
Qed.

(** ** The overall confidence *)

Section Means.

Context {A : Type} (value : A -> Q) (hi : Q).

Lemma sum_bounds (l : list A) :
  (forall x, In x l -> (0 <= value x <= hi)%Q) ->
  forall acc,
    (acc <= fold_left (fun sum x => sum + value x) l acc
     <= acc + hi * Num.ofNat (length l))%Q.
Proof.
  induction l as [|x l IH]; intros Hl acc; cbn [fold_left length].
  - change (Num.ofNat 0) with 0%Q. split; lra.
  - destruct (Hl x (or_introl eq_refl)) as [Hlow Hhigh].
    destruct (IH (fun y Hy => Hl y (or_intror Hy)) (acc + value x)%Q)
      as [IHlow IHhigh].
    rewrite ofNat_S. split; lra.
Qed.

(** [l.reduce((sum, x) => sum + value(x), 0) / Math.max(l.length, 1)] *)
Lemma mean_bounds (l : list A) :
  (0 <= hi)%Q ->
  (forall x, In x l -> (0 <= value x <= hi)%Q) ->
  (0 <= fold_left (fun sum x => sum + value x) l 0
        / Num.max (Num.ofNat (length l)) 1
   <= hi)%Q.
Proof.
  intros Hhi Hl. destruct (sum_bounds l Hl 0%Q) as [Hlow Hhigh].
  unfold Num.max.
  assert (Hone : (1 <= Qmax (Num.ofNat (length l)) 1)%Q) by apply Q.le_max_r.
  assert (Hlen : (Num.ofNat (length l) <= Qmax (Num.ofNat (length l)) 1)%Q)
    by apply Q.le_max_l.
  split.
  - apply Qle_shift_div_l; lra.
  - apply Qle_shift_div_r; [lra|].
    eapply Qle_trans; [exact Hhigh|]. rewrite Qplus_0_l.
    apply Qmult_le_compat_nonneg; split;
      [exact Hhi|apply Qle_refl|apply ofNat_nonneg|exact Hlen].
Qed.

End Means.

(** The confidence that [analyzeDomain] returns lies between 0 and 1, for
    every list of tiddlers. *)
Theorem analysis_confidence_is_within_unit_interval
  (tiddlers : list Tiddler.t) (domainScope : option string) :
  (0 <= ConceptExtractionResult.confidence
          (DomainAnalyzer.analyzeDomain tiddlers domainScope)
   <= 1)%Q.
Proof.
  unfold DomainAnalyzer.analyzeDomain. cbn [ConceptExtractionResult.confidence].
  unfold DomainAnalyzer.calculateOverallConfidence. cbv zeta.
  set (concepts := DomainAnalyzer.extractConcepts tiddlers).
  set (relationships := DomainAnalyzer.extractRelationships tiddlers concepts).
  set (domains := DomainAnalyzer.identifyDomains tiddlers concepts).
  pose proof (mean_bounds ExtractedConcept.confidence 1 concepts) as Hc.
  pose proof (mean_bounds ExtractedRelationship.confidence 1 relationships) as Hr.
  pose proof (mean_bounds ExtractedDomain.coherence 1 domains) as Hd.
  destruct Hc as [Hc0 Hc1]; [lra| |].
  { intros c Hin. apply extractConcepts_confidence in Hin. lra. }
  destruct Hr as [Hr0 Hr1]; [lra| |].
  { intros r Hin. apply extractRelationships_confidence in Hin. lra. }
  destruct Hd as [Hd0 Hd1]; [lra| |].
  { intros d Hin.
    apply (Permutation_in _ (Permutation_sym (stableSort_perm _ _))) in Hin.
    apply in_map_iff in Hin as ([k members] & <- & _). cbn.
    apply calculateDomainCoherence_bounds. }
  split.
  - apply Qle_shift_div_l; lra.
  - apply Qle_shift_div_r; lra.
Qed.

(** ** The strongest relationships *)

Lemma StronglySorted_app {A : Type} (R : A -> A -> Prop) (l1 l2 : list A) :
  StronglySorted R (l1 ++ l2)%list ->
  forall a b, In a l1 -> In b l2 -> R a b.
Proof.
  induction l1 as [|x l1 IH]; cbn [app]; intros Hsorted a b Ha Hb;
    [destruct Ha|].
  apply StronglySorted_inv in Hsorted as [Hrest Hx].
  destruct Ha as [<-|Ha]; [|now apply IH].
  apply (proj1 (Forall_forall _ _) Hx). apply in_app_iff. now right.
Qed.

Lemma In_firstn_In {A : Type} (n : nat) (l : list A) (x : A) :
  In x (firstn n l) -> In x l.
Proof.
  revert l. induction n as [|n IH]; intros l; [intros []|].
  destruct l as [|y l]; cbn [firstn]; [intros []|].
  intros [<-|Hin]; [now left|right; now apply IH].
Qed.

Lemma StronglySorted_firstn {A : Type} (R : A -> A -> Prop) (n : nat)
  (l : list A) :
  StronglySorted R l -> StronglySorted R (firstn n l).
Proof.
  intros Hsorted. revert n.
  induction Hsorted as [|x l Hl IH Hx]; intros n.
  - destruct n; constructor.
  - destruct n as [|n]; cbn [firstn]; [constructor|].
    constructor; [apply IH|].
    apply Forall_forall. intros y Hy.
    apply (proj1 (Forall_forall _ _) Hx). eapply In_firstn_In; eauto.
Qed.

(** [getStrongestRelationships] returns the [count] strongest of the given
    relationships (ten when no count is given), or all of them when there are
    fewer, by decreasing strength: together with the ones left out they are
    the given relationships, and none that is left out is stronger than one
    that is returned. *)
Theorem strongest_relationships_are_the_strongest
  (relationships : list ExtractedRelationship.t) (count : option nat) :
  let limit := match count with Some n => n | None => 10 end in
  let strongest :=
    DomainAnalyzer.getStrongestRelationships relationships count in
  length strongest = Nat.min limit (length relationships)
  /\ StronglySorted
       (fun a b =>
          (ExtractedRelationship.strength b <= ExtractedRelationship.strength a)%Q)
       strongest
  /\ exists others,
       Permutation (strongest ++ others)%list relationships
       /\ forall a b,
            In a strongest -> In b others ->
            (ExtractedRelationship.strength b
             <= ExtractedRelationship.strength a)%Q.
Proof.
  intros limit strongest.
  unfold DomainAnalyzer.getStrongestRelationships, Arr.take in strongest.
  fold limit in strongest.
  set (sorted := stableSort DomainAnalyzer.stronger relationships) in strongest.
  assert (Hperm : Permutation relationships sorted) by apply stableSort_perm.
  assert (Hsorted : StronglySorted
                      (fun a b =>
                         (ExtractedRelationship.strength b
                          <= ExtractedRelationship.strength a)%Q)
                      sorted)
    by apply (sorted_by_number ExtractedRelationship.strength).
  split; [|split].
  - unfold strongest. rewrite length_firstn.
    now rewrite (Permutation_length Hperm).
  - now apply StronglySorted_firstn.
  - exists (skipn limit sorted). unfold strongest. split.
    + rewrite firstn_skipn. now apply Permutation_sym.
    + apply StronglySorted_app. now rewrite firstn_skipn.
Qed.

(** ** Tokens *)

Lemma chars_app (a b : string) :
  list_ascii_of_string (a ++ b)
  = (list_ascii_of_string a ++ list_ascii_of_string b)%list.
Proof. induction a as [|c a IH]; cbn; [reflexivity|now rewrite IH]. Qed.

Lemma chars_mapChars (f : ascii -> ascii) (s : string) :
  list_ascii_of_string (Js.mapChars f s) = map f (list_ascii_of_string s).
Proof. induction s as [|c s IH]; cbn; [reflexivity|now rewrite IH]. Qed.

(** The pieces of a split are made of the characters that do not separate. *)
Lemma splitRuns_chars (sep : ascii -> bool) (P : ascii -> Prop) (s : string) :
  (forall c, In c (list_ascii_of_string s) -> sep c = false -> P c) ->
  forall cur inRun piece,
    (forall c, In c (list_ascii_of_string cur) -> P c) ->
    In piece (Js.splitRuns sep s cur inRun) ->
    forall c, In c (list_ascii_of_string piece) -> P c.
Proof.
  induction s as [|a s IH]; intros Hs cur inRun piece Hcur Hpiece;
    cbn [Js.splitRuns] in Hpiece.
  - destruct Hpiece as [<-|[]]. exact Hcur.
  - assert (Hs' : forall c, In c (list_ascii_of_string s) -> sep c = false -> P c).
    { intros c Hc. apply Hs. now right. }
    destruct (sep a) eqn:Ha.
    + destruct inRun.
      * now apply (IH Hs' cur true).
      * destruct Hpiece as [<-|Hpiece]; [exact Hcur|].
        apply (IH Hs' EmptyString true); [intros c []|exact Hpiece].
    + apply (IH Hs' (cur ++ String a EmptyString) false); [|exact Hpiece].
      intros c Hc. rewrite chars_app in Hc.
      apply in_app_iff in Hc as [Hc|[<-|[]]]; [now apply Hcur|].
      apply Hs; [now left|exact Ha].
Qed.

(** Every token that [tokenize] returns is a word: more than two characters,
    all of them letters, digits or underscores, and not a stop word. *)
Theorem tokens_are_words (text token : string) :
  In token (DomainAnalyzer.tokenize text) ->
  2 < String.length token
  /\ ~ In token DomainAnalyzer.stopWords
  /\ forall c, In c (list_ascii_of_string token) -> Js.isWord c = true.
Proof.
  unfold DomainAnalyzer.tokenize. intros Hin.
  apply filter_In in Hin as [Hpiece Hkept].
  apply andb_true_iff in Hkept as [Hlen Hstop].
  apply Nat.ltb_lt in Hlen. split; [exact Hlen|]. split.
  - intros Hin. apply negb_true_iff in Hstop.
    unfold JsSet.has in Hstop.
    assert (Hyes : existsb (String.eqb token) DomainAnalyzer.stopWords = true).
    { apply existsb_exists. exists token. split; [exact Hin|apply String.eqb_refl]. }
    congruence.
  - unfold Js.splitOn in Hpiece.
    refine (splitRuns_chars Js.isSpace (fun c => Js.isWord c = true) _ _
              EmptyString false token _ Hpiece); [|intros c []].
    intros c Hc Hspace. unfold Js.replaceClass in Hc.
    rewrite chars_mapChars in Hc. apply in_map_iff in Hc as (c0 & <- & _).
    unfold DomainAnalyzer.notWordNorSpace in *.
    destruct (Js.isWord c0) eqn:Hword; cbn [orb negb] in *; [exact Hword|].
    destruct (Js.isSpace c0) eqn:Hc0; cbn [negb] in *; [congruence|].
    vm_compute in Hspace. discriminate.
Qed.

(** Witness: the tokens of a short sentence. *)
Lemma tokens_are_words_witness :
  2 < String.length "dogs"
  /\ ~ In "dogs" DomainAnalyzer.stopWords
  /\ forall c, In c (list_ascii_of_string "dogs") -> Js.isWord c = true.
Proof.
  apply (tokens_are_words "the dogs, and the cats!" "dogs").
  vm_compute. left. reflexivity.
Defined.

(** ** The registered rules *)

Section Rules.

Import OntologyValidator.

Lemma removeValidationRule_absent ruleName rules :
  (forall r, In r rules -> name r <> ruleName) ->
  removeValidationRule ruleName rules = (false, rules).
Proof.
  induction rules as [|r rules IH]; intros Hnone; [reflexivity|].
  cbn [removeValidationRule].
  destruct (String.eqb_spec (name r) ruleName) as [Heq|_].
  - exfalso. now apply (Hnone r (or_introl eq_refl)).
  - rewrite IH; [reflexivity|]. intros r' Hr'. apply Hnone. now right.
Qed.

Lemma removeValidationRule_first ruleName before r after :
  (forall r', In r' before -> name r' <> ruleName) ->
  name r = ruleName ->
  removeValidationRule ruleName (before ++ r :: after)%list
  = (true, (before ++ after)%list).
Proof.
  intros Hnone Hname. induction before as [|b before IH]; cbn [app removeValidationRule].
  - now rewrite Hname, String.eqb_refl.
  - destruct (String.eqb_spec (name b) ruleName) as [Heq|_].
    + exfalso. now apply (Hnone b (or_introl eq_refl)).
    + rewrite IH; [reflexivity|]. intros r' Hr'. apply Hnone. now right.
Qed.

Lemma first_named ruleName rules :
  (forall r, In r rules -> name r <> ruleName)
  \/ exists before r after,
       rules = (before ++ r :: after)%list
       /\ name r = ruleName
       /\ forall r', In r' before -> name r' <> ruleName.
Proof.
  induction rules as [|r rules IH]; [left; intros r []|].
  destruct (String.eqb_spec (name r) ruleName) as [Heq|Hne].
  - right. exists [], r, rules. split; [reflexivity|]. split; [exact Heq|].
    intros r' [].
  - destruct IH as [Hnone|(before & r0 & after & -> & Hname & Hnone)].
    + left. intros r' [<-|Hr']; auto.
    + right. exists (r :: before), r0, after. split; [reflexivity|].
      split; [exact Hname|]. intros r' [<-|Hr']; auto.
Qed.

End Rules.

(** [removeValidationRule] removes the first rule of the given name and
    returns [true], or returns [false] and leaves the rules as they are when
    no rule has that name.  So it undoes [addCustomValidationRule] when the
    name of the added rule was not in use; when it was, the older rule of
    that name is removed and the added rule stays. *)
Theorem removeValidationRule_removes_the_first_match
  (ruleName : string) (rules : list OntologyValidator.ValidationRule) :
  ((forall r, In r rules -> OntologyValidator.name r <> ruleName)
   /\ OntologyValidator.removeValidationRule ruleName rules = (false, rules)
   \/ exists before r after,
        rules = (before ++ r :: after)%list
        /\ OntologyValidator.name r = ruleName
        /\ (forall r', In r' before -> OntologyValidator.name r' <> ruleName)
        /\ OntologyValidator.removeValidationRule ruleName rules
           = (true, (before ++ after)%list))
  /\ forall added,
       OntologyValidator.name added = ruleName ->
       let registered := OntologyValidator.addCustomValidationRule added rules in
       ((forall r, In r rules -> OntologyValidator.name r <> ruleName) ->
        OntologyValidator.removeValidationRule ruleName registered
        = (true, rules))
       /\ ((exists r, In r rules /\ OntologyValidator.name r = ruleName) ->
           fst (OntologyValidator.removeValidationRule ruleName registered)
           = true
           /\ In added
                (snd (OntologyValidator.removeValidationRule ruleName registered))).
Proof.
  split.
  - destruct (first_named ruleName rules)
      as [Hnone|(before & r & after & -> & Hname & Hnone)].
    + left. split; [exact Hnone|]. now apply removeValidationRule_absent.
    + right. exists before, r, after. repeat split; auto.
      now apply removeValidationRule_first.
  - intros added Hname registered.
    unfold OntologyValidator.addCustomValidationRule in registered. split.
    + intros Hnone. unfold registered.
      rewrite (removeValidationRule_first ruleName rules added []); auto.
      now rewrite app_nil_r.
    + intros (r & Hin & Hr).
      destruct (first_named ruleName rules)
        as [Hnone|(before & r0 & after & -> & Hname0 & Hnone)].
      * exfalso. now apply (Hnone r).
      * unfold registered. rewrite <- app_assoc. cbn [app].
        rewrite (removeValidationRule_first ruleName before r0 (after ++ [added]));
          auto.
        split; [reflexivity|]. cbn [snd].
        apply in_app_iff. right. apply in_app_iff. right. now left.
Qed.

(** ** The depth of a class *)

Section ClassDepth.

Import OntologyValidator.

Variable classMap : JsMap.t OntologyClass.t.

Lemma size_le_cycleFuel : JsMap.size classMap <= cycleFuel classMap.
Proof.
  unfold cycleFuel, JsMap.size, JsMap.values.
  induction classMap as [|[k c] m IH]; cbn [map fold_right length]; lia.
Qed.

Lemma visited_grows classId visited :
  NoDup visited -> incl visited (JsMap.keys classMap) ->
  JsSet.has classId visited = false ->
  JsMap.get classId classMap <> None ->
  NoDup (JsSet.add classId visited)
  /\ incl (JsSet.add classId visited) (JsMap.keys classMap)
  /\ length (JsSet.add classId visited) = S (length visited).
Proof.
  intros Hnd Hincl Hnew Hkey. split; [now apply NoDup_add|]. split.
  - intros x Hx. apply In_add in Hx as [->|Hx]; [|now apply Hincl].
    now apply keys_get.
  - unfold JsSet.add. rewrite Hnew, length_app. cbn. lia.
Qed.

Lemma max_fold_le (f : string -> nat) (bound : nat) (l : list string) :
  (forall x, In x l -> f x <= bound) ->
  forall start, start <= bound ->
    fold_left (fun m x => Nat.max m (f x)) l start <= bound.
Proof.
  induction l as [|x l IH]; intros Hl start Hstart; [exact Hstart|].
  cbn [fold_left]. apply IH; [intros y Hy; apply Hl; now right|].
  specialize (Hl x (or_introl eq_refl)). lia.
Qed.

(** The identifiers on the way down are different keys of the map, so the
    depth and the way down together are no longer than the map. *)
Lemma depth_bound fuel :
  forall classId visited,
    NoDup visited -> incl visited (JsMap.keys classMap) ->
    calculateClassDepthRecursive fuel classId classMap visited + length visited
    <= JsMap.size classMap.
Proof.
  induction fuel as [|fuel IH]; intros classId visited Hnd Hincl;
    cbn [calculateClassDepthRecursive];
    pose proof (keys_bound visited classMap Hnd Hincl) as Hlen; [lia|].
  destruct (JsSet.has classId visited) eqn:Hnew; [lia|]. cbv zeta.
  destruct (JsMap.get classId classMap) as [cls|] eqn:Hcls; [|lia].
  destruct (visited_grows classId visited Hnd Hincl Hnew) as (Hnd' & Hincl' & Hlen');
    [congruence|].
  destruct (OntologyClass.superClasses cls) as [|sup supers]; [lia|].
  pose proof (keys_bound _ classMap Hnd' Hincl') as Hroom.
  assert (Hmax :
            fold_left
              (fun maxParentDepth superClassId =>
                 Nat.max maxParentDepth
                   (calculateClassDepthRecursive fuel superClassId classMap
                      (JsSet.add classId visited)))
              (sup :: supers) 0
            <= JsMap.size classMap - length (JsSet.add classId visited)).
  { apply max_fold_le; [|lia]. intros x _.
    specialize (IH x _ Hnd' Hincl'). lia. }
  lia.
Qed.

(** With enough fuel for the keys that are left, more fuel changes nothing. *)
Lemma depth_stable fuel :
  forall fuel' classId visited,
    NoDup visited -> incl visited (JsMap.keys classMap) ->
    JsMap.size classMap < fuel + length visited ->
    JsMap.size classMap < fuel' + length visited ->
    calculateClassDepthRecursive fuel classId classMap visited
    = calculateClassDepthRecursive fuel' classId classMap visited.
Proof.
  induction fuel as [|fuel IH]; intros fuel' classId visited Hnd Hincl Hf Hf';
    pose proof (keys_bound visited classMap Hnd Hincl) as Hlen;
    [cbn in Hf; lia|].
  destruct fuel' as [|fuel']; [cbn in Hf'; lia|].
  cbn [calculateClassDepthRecursive].
  destruct (JsSet.has classId visited) eqn:Hnew; [reflexivity|]. cbv zeta.
  destruct (JsMap.get classId classMap) as [cls|] eqn:Hcls; [|reflexivity].
  destruct (visited_grows classId visited Hnd Hincl Hnew) as (Hnd' & Hincl' & Hlen');
    [congruence|].
  destruct (OntologyClass.superClasses cls) as [|sup supers]; [reflexivity|].
  f_equal. apply fold_left_ext. intros acc x. f_equal.
  apply IH; auto; lia.
Qed.

End ClassDepth.

(** [calculateClassDepth] returns for every class map, with or without
    cycles: fuel beyond the number of classes does not change its result.
    The depth is at most the number of classes, it is 0 for an identifier
    that is not in the map and for a class without super-classes, and it is
    positive for a class of the map with a super-class. *)
Theorem class_depth_is_at_most_the_number_of_classes
  (classMap : JsMap.t OntologyClass.t) (classId : string) :
  (forall fuel,
      JsMap.size classMap < fuel ->
      OntologyValidator.calculateClassDepthRecursive fuel classId classMap
        JsSet.empty
      = OntologyValidator.calculateClassDepth classId classMap)
  /\ OntologyValidator.calculateClassDepth classId classMap
     <= JsMap.size classMap
  /\ match JsMap.get classId classMap with
     | Some cls =>
         OntologyValidator.calculateClassDepth classId classMap = 0
         <-> OntologyClass.superClasses cls = []
     | None => OntologyValidator.calculateClassDepth classId classMap = 0
     end.
Proof.
  pose proof (size_le_cycleFuel classMap) as Hfuel.
  assert (Hnone : NoDup JsSet.empty) by constructor.
  assert (Hincl : incl JsSet.empty (JsMap.keys classMap)) by (intros x []).
  split; [|split].
  - intros fuel Henough. unfold OntologyValidator.calculateClassDepth.
    apply depth_stable; auto; cbn [length JsSet.empty]; lia.
  - unfold OntologyValidator.calculateClassDepth.
    pose proof (depth_bound classMap (S (OntologyValidator.cycleFuel classMap))
                  classId JsSet.empty Hnone Hincl) as Hbound.
    cbn [length JsSet.empty] in Hbound. lia.
  - unfold OntologyValidator.calculateClassDepth.
    cbn [OntologyValidator.calculateClassDepthRecursive].
    cbn [JsSet.has JsSet.empty existsb]. cbv zeta.
    destruct (JsMap.get classId classMap) as [cls|]; [|reflexivity].
    destruct (OntologyClass.superClasses cls); split; congruence.
Qed.

(** ** Rule 2: super-class references *)

Lemma flat_map_nil {A B : Type} (f : A -> list B) (l : list A) :
  flat_map f l = [] <-> forall x, In x l -> f x = [].
Proof.
  induction l as [|y l IH]; cbn [flat_map].
  - split; [intros _ x []|reflexivity].
  - split.
    + intros Hnil. apply app_eq_nil in Hnil as [Hy Hl].
      intros x [<-|Hx]; [exact Hy|now apply IH].
    + intros Hall. rewrite (Hall y (or_introl eq_refl)). cbn [app].
      apply IH. intros x Hx. apply Hall. now right.
Qed.

(** [validateSuperclassReferences] reports nothing exactly when every
    super-class reference names a class of the ontology.  What it reports
    are errors of type [missing_superclass] and of major severity, one for
    each reference that names no class; it gives no warning and no
    suggestion. *)
Theorem superclass_references_are_checked
  (classList : list OntologyClass.t) (propertyList : list OntologyProperty.t)
  (relationshipList : list OntologyRelationship.t) :
  let context :=
    OntologyValidator.makeContext classList propertyList relationshipList in
  let report := OntologyValidator.validateSuperclassReferences context in
  (OntologyValidator.errors report = []
   <-> Search.resolved (OntologyValidator.classes context))
  /\ (forall e,
        In e (OntologyValidator.errors report) ->
        ValidationError.type e = ValidationError.missing_superclass
        /\ ValidationError.severity e = major
        /\ exists k cls missing,
             JsMap.get k (OntologyValidator.classes context) = Some cls
             /\ In missing (OntologyClass.superClasses cls)
             /\ JsMap.has missing (OntologyValidator.classes context) = false
             /\ ValidationError.affectedElements e
                = [OntologyClass.id cls; missing])
  /\ OntologyValidator.warnings report = []
  /\ OntologyValidator.suggestions report = [].
Proof.
  intros context report.
  assert (Hnd : NoDup (JsMap.keys (OntologyValidator.classes context)))
    by apply ofEntries_NoDup.
  set (classMap := OntologyValidator.classes context) in *.
  unfold report, OntologyValidator.validateSuperclassReferences.
  cbn [OntologyValidator.errors OntologyValidator.warnings
       OntologyValidator.suggestions].
  fold classMap. split; [|split; [|split; reflexivity]].
  - rewrite flat_map_nil. split.
    + intros Hnone k c sup Hc Hsup.
      assert (Hin : In c (JsMap.values classMap)).
      { apply get_In in Hc. apply in_map_iff. now exists (k, c). }
      specialize (Hnone c Hin). rewrite flat_map_nil in Hnone.
      specialize (Hnone sup Hsup).
      destruct (JsMap.has sup classMap); [reflexivity|discriminate].
    + intros Hresolved c Hin. apply flat_map_nil. intros sup Hsup.
      apply in_map_iff in Hin as ([k c'] & Hc & Hin). cbn in Hc. subst c'.
      apply (In_get _ _ _ Hnd) in Hin.
      now rewrite (Hresolved k c sup Hin Hsup).
  - intros e He. apply in_flat_map in He as (c & Hin & He).
    apply in_flat_map in He as (sup & Hsup & He).
    destruct (JsMap.has sup classMap) eqn:Hhas; [destruct He|].
    destruct He as [<-|[]]. split; [reflexivity|]. split; [reflexivity|].
    apply in_map_iff in Hin as ([k c'] & Hc & Hin). cbn in Hc. subst c'.
    apply (In_get _ _ _ Hnd) in Hin.
    exists k, c, sup. auto.
Qed.

(** ** Siblings and descendants *)

Lemma clos_trans_last {A : Type} (R : A -> A -> Prop) (x z : A) :
  clos_trans A R x z <-> R x z \/ exists y, clos_trans A R x y /\ R y z.
Proof.
  split.
  - intros Hxz. apply clos_trans_tn1 in Hxz.
    destruct Hxz as [z Hstep|y z Hstep Hrest]; [now left|].
    right. exists y. split; [now apply clos_tn1_trans|exact Hstep].
  - intros [Hstep|(y & Hxy & Hstep)]; [now apply t_step|].
    eapply t_trans; [exact Hxy|now apply t_step].
Qed.

Section Kin.

Import ConceptHierarchy Forest.

Variable st : State.
Hypothesis Hwf : wellFormed (hierarchy st).

Let h := hierarchy st.

Lemma getSiblings_spec k s :
  In s (getSiblings st k)
  <-> s <> k /\ exists p, up h k p /\ up h s p.
Proof.
  unfold getSiblings. fold h. split.
  - destruct (JsMap.get k h) as [node|] eqn:Hnode; [|intros []].
    unfold parentOf.
    destruct (HierarchyNode.parent node) as [p|] eqn:Hp; [|intros []].
    destruct (String.eqb p ""); [intros []|].
    destruct (JsMap.get p h) as [parent|] eqn:Hparent; [|intros []].
    intros Hin. apply filter_In in Hin as [Hin Hne].
    apply negb_true_iff, String.eqb_neq in Hne. split; [exact Hne|].
    exists p. split; [exists node; auto|].
    apply (wf_children h Hwf). exists parent. auto.
  - intros (Hne & p & (node & Hnode & Hp) & Hs).
    assert (Hdown : down h p k) by (apply (wf_parent h Hwf); exists node; auto).
    destruct Hdown as (parent & Hparent & _).
    rewrite Hnode. unfold parentOf. rewrite Hp.
    destruct (String.eqb_spec p "") as [->|_].
    + exfalso. now apply (wf_keys h Hwf "" parent).
    + rewrite Hparent. apply filter_In.
      apply (wf_parent h Hwf) in Hs as (parent' & Hparent' & Hin).
      replace parent' with parent in Hin by congruence.
      split; [exact Hin|]. now apply negb_true_iff, String.eqb_neq.
Qed.

(** One turn of the loop of [collectDescendants]. *)
Let gather (fuel : nat) (acc : option (list HierarchyNode.t)) (childId : string)
  : option (list HierarchyNode.t) :=
  match acc with
  | Some descendants =>
      match JsMap.get childId h with
      | Some child =>
          collectDescendants fuel st child (descendants ++ [child])%list
      | None => Some descendants
      end
  | None => None
  end.

Lemma collectDescendants_S fuel node descendants :
  collectDescendants (S fuel) st node descendants
  = fold_left (gather fuel) (HierarchyNode.children node) (Some descendants).
Proof. reflexivity. Qed.

(** [x] is stored, under its identifier, below [k]. *)
Let below (k : string) (x : HierarchyNode.t) : Prop :=
  JsMap.get (HierarchyNode.id x) h = Some x
  /\ clos_trans string (up h) (HierarchyNode.id x) k.

Lemma collectDescendants_spec fuel :
  forall node k d descendants,
    JsMap.get k h = Some node -> depthIs h k d ->
    JsMap.size h < fuel + d ->
    exists found,
      collectDescendants fuel st node descendants
      = Some (descendants ++ found)%list
      /\ forall x, In x found <-> below k x.
Proof.
  induction fuel as [|fuel IH]; intros node k d descendants Hnode Hd Hfuel.
  - pose proof (depthIs_bound h Hwf k d Hd). cbn in Hfuel. lia.
  - rewrite collectDescendants_S.
    assert (Hloop : forall children acc,
               (forall c, In c children -> down h k c) ->
               exists found,
                 fold_left (gather fuel) children (Some acc)
                 = Some (acc ++ found)%list
                 /\ forall x,
                      In x found
                      <-> exists c, In c children /\ (JsMap.get c h = Some x \/ below c x)).
    { induction children as [|c children IHc]; intros acc Hchildren.
      - exists []. split; [cbn; now rewrite app_nil_r|].
        intros x. split; [intros []|intros (c & [] & _)].
      - cbn [fold_left].
        assert (Hup : up h c k)
          by (apply (wf_children h Hwf), Hchildren; now left).
        destruct Hup as (child & Hchild & Hparent). unfold gather at 2.
        rewrite Hchild.
        destruct (IH child c (S d) (acc ++ [child])%list Hchild) as (found1 & -> & Hfound1).
        { apply (depth_child h c k d); [exists child; auto|exact Hd]. }
        { lia. }
        destruct (IHc ((acc ++ [child]) ++ found1)%list) as (found2 & -> & Hfound2).
        { intros c' Hc'. apply Hchildren. now right. }
        exists (child :: found1 ++ found2)%list. split.
        { f_equal. rewrite <- !app_assoc. reflexivity. }
        intros x. cbn [In]. rewrite in_app_iff, Hfound1, Hfound2. split.
        + intros [<-|[Hx|(c' & Hc' & Hx)]].
          * exists c. split; [now left|now left].
          * exists c. split; [now left|now right].
          * exists c'. split; [now right|exact Hx].
        + intros (c' & [<-|Hc'] & Hx).
          * destruct Hx as [Hx|Hx]; [left; congruence|right; now left].
          * right. right. exists c'. auto. }
    destruct (Hloop (HierarchyNode.children node) descendants)
      as (found & -> & Hfound).
    { intros c Hc. exists node. auto. }
    exists found. split; [reflexivity|]. intros x. rewrite Hfound. split.
    + intros (c & Hc & Hx).
      assert (Hup : up h c k)
        by (apply (wf_children h Hwf); exists node; auto).
      destruct Hx as [Hx|(Hx & Hreach)].
      * pose proof (wf_ids h Hwf c x Hx) as Hid. split; [congruence|].
        rewrite Hid. now apply t_step.
      * split; [exact Hx|]. eapply t_trans; [exact Hreach|now apply t_step].
    + intros (Hx & Hreach). apply clos_trans_last in Hreach.
      destruct Hreach as [Hup|(c & Hreach & Hup)].
      * exists (HierarchyNode.id x). split; [|now left].
        apply (wf_parent h Hwf) in Hup as (node' & Hnode' & Hin). congruence.
      * exists c. split; [|right; split; assumption].
        apply (wf_parent h Hwf) in Hup as (node' & Hnode' & Hin). congruence.
Qed.

Lemma getDescendants_spec k node :
  JsMap.get k h = Some node ->
  exists descendants,
    getDescendants st k = Some descendants
    /\ forall x, In x descendants <-> below k x.
Proof.
  intros Hnode. unfold getDescendants. fold h. rewrite Hnode.
  destruct (depthIs_exists h Hwf k) as (d & Hd); [congruence|].
  destruct (collectDescendants_spec (S (JsMap.size h)) node k d [] Hnode Hd)
    as (found & -> & Hfound); [lia|].
  exists found. split; [reflexivity|exact Hfound].
Qed.

End Kin.

(** For concepts with non-empty names, the siblings that [getSiblings]
    returns for a node of the built hierarchy are exactly the other nodes
    with the same parent; a node without parent has no siblings. *)
Theorem siblings_share_the_parent
  (concepts : list ExtractedConcept.t)
  (relationships : list ExtractedRelationship.t) :
  Forest.namesAreNonEmpty concepts ->
  exists st,
    ConceptHierarchy.buildHierarchy concepts relationships = Some st
    /\ forall k s,
         In s (ConceptHierarchy.getSiblings st k)
         <-> s <> k
             /\ exists p, Forest.parentEdge st k p /\ Forest.parentEdge st s p.
Proof.
  intros Hnames.
  destruct (built_final concepts relationships Hnames) as (st & E & Hwf & _).
  exists st. split; [exact E|]. intros k s. now apply getSiblings_spec.
Qed.

Lemma siblings_share_the_parent_witness :
  exists st,
    ConceptHierarchy.buildHierarchy Sample.dogsAndMammals
      [Sample.isARelationship "dogs" "mammals"] = Some st
    /\ forall k s,
         In s (ConceptHierarchy.getSiblings st k)
         <-> s <> k
             /\ exists p, Forest.parentEdge st k p /\ Forest.parentEdge st s p.
Proof.
  exact (siblings_share_the_parent _ _ dogsAndMammals_are_named).
Defined.

(** For concepts with non-empty names, [getDescendants] returns for every
    node of the built hierarchy, and what it returns are exactly the nodes
    below that node: the nodes from which the chain of parents leads to
    it. *)
Theorem descendants_are_the_nodes_below
  (concepts : list ExtractedConcept.t)
  (relationships : list ExtractedRelationship.t) :
  Forest.namesAreNonEmpty concepts ->
  exists st,
    ConceptHierarchy.buildHierarchy concepts relationships = Some st
    /\ forall k n,
         ConceptHierarchy.getNode st k = Some n ->
         exists descendants,
           ConceptHierarchy.getDescendants st k = Some descendants
           /\ forall x,
                In x descendants
                <-> ConceptHierarchy.getNode st (HierarchyNode.id x) = Some x
                    /\ clos_trans string (Forest.parentEdge st)
                         (HierarchyNode.id x) k.
Proof.
  intros Hnames.
  destruct (built_final concepts relationships Hnames) as (st & E & Hwf & _).
  exists st. split; [exact E|]. intros k n Hn.
  now apply (getDescendants_spec st Hwf k n).
Qed.

Lemma descendants_are_the_nodes_below_witness :
  exists st,
    ConceptHierarchy.buildHierarchy Sample.dogsAndMammals
      [Sample.isARelationship "dogs" "mammals"] = Some st
    /\ forall k n,
         ConceptHierarchy.getNode st k = Some n ->
         exists descendants,
           ConceptHierarchy.getDescendants st k = Some descendants
           /\ forall x,
                In x descendants
                <-> ConceptHierarchy.getNode st (HierarchyNode.id x) = Some x
                    /\ clos_trans string (Forest.parentEdge st)
                         (HierarchyNode.id x) k.
Proof.
  exact (descendants_are_the_nodes_below _ _ dogsAndMammals_are_named).
Defined.

(** ** Adding a class and deleting it again *)

Lemma same_maps {V : Type} (m1 m2 : JsMap.t V) :
  NoDup (JsMap.keys m1) -> JsMap.keys m1 = JsMap.keys m2 ->
  (forall k, JsMap.get k m1 = JsMap.get k m2) -> m1 = m2.
Proof.
  revert m2. induction m1 as [|[k v] m1 IH]; intros [|[k2 v2] m2] Hnd Hkeys Hget;
    try discriminate; [reflexivity|].
  unfold JsMap.keys in Hkeys, Hnd. cbn [map fst] in Hkeys, Hnd.
  injection Hkeys as <- Hkeys. inversion Hnd as [|? ? Hk Hnd']; subst.
  pose proof (Hget k) as Hhead. cbn [JsMap.get] in Hhead.
  rewrite String.eqb_refl in Hhead. injection Hhead as <-.
  f_equal. apply IH; [exact Hnd'|exact Hkeys|].
  intros k'. destruct (String.eqb_spec k' k) as [->|Hne].
  - assert (H1 : JsMap.get k m1 = None).
    { destruct (JsMap.get k m1) eqn:E; [|reflexivity].
      exfalso. apply Hk. eapply get_in_keys; eauto. }
    assert (H2 : JsMap.get k m2 = None).
    { destruct (JsMap.get k m2) eqn:E; [|reflexivity].
      exfalso. apply Hk. rewrite Hkeys.
      eapply get_in_keys; eauto. }
    congruence.
  - specialize (Hget k'). cbn [JsMap.get] in Hget.
    apply String.eqb_neq in Hne. now rewrite Hne in Hget.
Qed.

Lemma withSubClasses_same (v : OntologyClass.t) :
  OntologyClass.withSubClasses (OntologyClass.subClasses v) v = v.
Proof. now destruct v. Qed.

Lemma withSuperClasses_same (v : OntologyClass.t) :
  OntologyClass.withSuperClasses (OntologyClass.superClasses v) v = v.
Proof. now destruct v. Qed.

Lemma filter_isNot_fresh (id : string) (l : list string) :
  ~ In id l -> filter (OntologyManager.isNot id) l = l.
Proof.
  intros Hfresh. apply filter_all, Forall_forall. intros x Hx.
  unfold OntologyManager.isNot. apply negb_true_iff, String.eqb_neq.
  now intros ->.
Qed.

Lemma filter_isNot_clean (id : string) (l : list string) :
  ~ In id (filter (OntologyManager.isNot id) l).
Proof.
  intros Hin. apply filter_In in Hin as [_ Hne].
  unfold OntologyManager.isNot in Hne. now rewrite String.eqb_refl in Hne.
Qed.

Lemma filter_isNot_snoc (id : string) (l : list string) :
  filter (OntologyManager.isNot id) (l ++ [id])%list
  = filter (OntologyManager.isNot id) l.
Proof.
  rewrite filter_app. cbn [filter]. unfold OntologyManager.isNot at 2.
  rewrite String.eqb_refl. cbn [negb]. apply app_nil_r.
Qed.

Section Edits.

Import OntologyManager.

(** What the three loops of [updateClassHierarchy] and [removeFromHierarchy]
    do to the store: the class under one key is replaced. *)
Let edit (e : OntologyClass.t -> OntologyClass.t) (s : Store) (x : string)
  : Store :=
  match getClass x s with
  | Some v => withClasses (JsMap.set x (e v) (classes s)) s
  | None => s
  end.

Lemma edit_spec e s x :
  properties (edit e s x) = properties s
  /\ relationships (edit e s x) = relationships s
  /\ domains (edit e s x) = domains s
  /\ JsMap.keys (classes (edit e s x)) = JsMap.keys (classes s)
  /\ forall k,
       getClass k (edit e s x)
       = if String.eqb k x then option_map e (getClass k s) else getClass k s.
Proof.
  unfold edit. destruct (getClass x s) as [v|] eqn:Hx.
  - cbn [properties relationships domains classes withClasses].
    repeat split.
    + rewrite keys_set, has_get. unfold getClass in Hx. now rewrite Hx.
    + intros k. rewrite getClass_withClasses, get_set.
      destruct (String.eqb_spec k x) as [->|_]; [now rewrite Hx|reflexivity].
  - repeat split. intros k.
    destruct (String.eqb_spec k x) as [->|_]; [now rewrite Hx|reflexivity].
Qed.

Lemma linkSubClass_edit classId s x :
  linkSubClass classId s x = s
  \/ linkSubClass classId s x
     = edit (fun v =>
               OntologyClass.withSubClasses
                 (OntologyClass.subClasses v ++ [classId])%list v) s x.
Proof.
  unfold linkSubClass, edit. destruct (getClass x s) as [v|]; [|now left].
  destruct (negb _); [now right|now left].
Qed.

Lemma unlinkSubClass_edit classId s x :
  unlinkSubClass classId s x
  = edit (fun v =>
            OntologyClass.withSubClasses
              (filter (isNot classId) (OntologyClass.subClasses v)) v) s x.
Proof. reflexivity. Qed.

Lemma unlinkSuperClass_edit classId s x :
  unlinkSuperClass classId s x
  = edit (fun v =>
            OntologyClass.withSuperClasses
              (filter (isNot classId) (OntologyClass.superClasses v)) v) s x.
Proof. reflexivity. Qed.

Variable s : Store.
Variable c : OntologyClass.t.

Let id := OntologyClass.id c.
Let sup := OntologyClass.superClasses c.

Hypothesis Hnd : NoDup (JsMap.keys (classes s)).
Hypothesis Hfresh : getClass id s = None.
Hypothesis Hunknown :
  forall v, In v (getAllClasses s) ->
            ~ In id (OntologyClass.subClasses v)
            /\ ~ In id (OntologyClass.superClasses v).
Hypothesis Huntouched :
  forall r, In r (JsMap.values (relationships s)) -> touches id r = false.

Let clean (v : OntologyClass.t) : OntologyClass.t :=
  OntologyClass.withSubClasses
    (filter (isNot id) (OntologyClass.subClasses v)) v.

Lemma stored_unknown k v :
  getClass k s = Some v ->
  ~ In id (OntologyClass.subClasses v) /\ ~ In id (OntologyClass.superClasses v).
Proof.
  intros Hv. apply Hunknown. unfold getAllClasses, JsMap.values.
  apply in_map_iff. exists (k, v). split; [reflexivity|now apply get_In].
Qed.

(** The store while the class is in: as [s], with the class under [id], and
    with [id] in the [subClasses] of some classes. *)
Let during (cur : Store) : Prop :=
  properties cur = properties s
  /\ relationships cur = relationships s
  /\ domains cur = domains s
  /\ JsMap.keys (classes cur) = (JsMap.keys (classes s) ++ [id])%list
  /\ forall k, k <> id -> option_map clean (getClass k cur) = getClass k s.

Lemma during_edit e cur x :
  (forall v, ~ In id (OntologyClass.superClasses v) -> clean (e v) = clean v) ->
  during cur -> during (edit e cur x).
Proof.
  intros He (Hp & Hr & Hd & Hk & Hc).
  destruct (edit_spec e cur x) as (Hp' & Hr' & Hd' & Hk' & Hc').
  unfold during. rewrite Hp', Hr', Hd', Hk'.
  refine (conj Hp (conj Hr (conj Hd (conj Hk _)))).
  intros k Hne. rewrite Hc'. specialize (Hc k Hne).
  destruct (String.eqb k x); [|exact Hc].
  destruct (getClass k cur) as [v|]; [|exact Hc].
  cbn [option_map] in *. rewrite He; [exact Hc|].
  symmetry in Hc. apply stored_unknown in Hc as [_ Hsupers]. exact Hsupers.
Qed.

Lemma during_linkSubClass cur x :
  during cur -> during (linkSubClass id cur x).
Proof.
  intros Hcur. destruct (linkSubClass_edit id cur x) as [->| ->]; [exact Hcur|].
  apply during_edit; [|exact Hcur]. intros v _. unfold clean.
  cbn [OntologyClass.subClasses OntologyClass.withSubClasses].
  now rewrite filter_isNot_snoc.
Qed.

Lemma during_unlinkSubClass cur x :
  during cur -> during (unlinkSubClass id cur x).
Proof.
  intros Hcur. rewrite unlinkSubClass_edit.
  apply during_edit; [|exact Hcur]. intros v _. unfold clean.
  cbn [OntologyClass.subClasses OntologyClass.withSubClasses].
  now rewrite (filter_isNot_fresh id _ (filter_isNot_clean id _)).
Qed.

Lemma during_unlinkSuperClass cur x :
  during cur -> during (unlinkSuperClass id cur x).
Proof.
  intros Hcur. rewrite unlinkSuperClass_edit.
  apply during_edit; [|exact Hcur]. intros v Hv.
  now rewrite (filter_isNot_fresh id _ Hv), withSuperClasses_same.
Qed.

(** Only the super-classes of the class have [id] among their sub-classes. *)
Let marked (cur : Store) : Prop :=
  forall k v,
    k <> id -> getClass k cur = Some v ->
    In id (OntologyClass.subClasses v) -> In k sup.

Lemma marked_linkSubClass cur x :
  In x sup -> marked cur -> marked (linkSubClass id cur x).
Proof.
  intros Hx Hcur. destruct (linkSubClass_edit id cur x) as [->| ->]; [exact Hcur|].
  intros k v Hne Hv Hin.
  destruct (edit_spec
              (fun v => OntologyClass.withSubClasses
                          (OntologyClass.subClasses v ++ [id])%list v) cur x)
    as (_ & _ & _ & _ & Hget).
  rewrite Hget in Hv. destruct (String.eqb_spec k x) as [->|_]; [exact Hx|].
  now apply (Hcur k v).
Qed.

Lemma marked_unlinkSubClass cur x :
  marked cur -> marked (unlinkSubClass id cur x).
Proof.
  intros Hcur k v Hne Hv Hin. rewrite unlinkSubClass_edit in Hv.
  destruct (edit_spec
              (fun v => OntologyClass.withSubClasses
                          (filter (isNot id) (OntologyClass.subClasses v)) v)
              cur x)
    as (_ & _ & _ & _ & Hget).
  rewrite Hget in Hv. destruct (String.eqb k x); [|now apply (Hcur k v)].
  destruct (getClass k cur) as [v0|]; [|discriminate].
  injection Hv as <-. cbn in Hin. now apply filter_isNot_clean in Hin.
Qed.

(** No class but the one under [id] has [id] among its sub-classes. *)
Let unmarked (cur : Store) : Prop :=
  forall k v,
    k <> id -> getClass k cur = Some v ->
    ~ In id (OntologyClass.subClasses v).

Lemma unmarked_unlinkSuperClass cur x :
  unmarked cur -> unmarked (unlinkSuperClass id cur x).
Proof.
  intros Hcur k v Hne Hv. rewrite unlinkSuperClass_edit in Hv.
  destruct (edit_spec
              (fun v => OntologyClass.withSuperClasses
                          (filter (isNot id) (OntologyClass.superClasses v)) v)
              cur x)
    as (_ & _ & _ & _ & Hget).
  rewrite Hget in Hv. destruct (String.eqb k x); [|now apply (Hcur k v)].
  destruct (getClass k cur) as [v0|] eqn:Hv0; [|discriminate].
  injection Hv as <-. cbn. now apply (Hcur k v0).
Qed.

(** The class under [id] keeps its identifier and its super-classes. *)
Let kept (cur : Store) : Prop :=
  exists cls,
    getClass id cur = Some cls
    /\ OntologyClass.id cls = id
    /\ OntologyClass.superClasses cls = sup.

Lemma kept_linkSubClass cur x : kept cur -> kept (linkSubClass id cur x).
Proof.
  intros Hcur. destruct (linkSubClass_edit id cur x) as [->| ->]; [exact Hcur|].
  destruct Hcur as (cls & Hcls & Hid & Hsup).
  destruct (edit_spec
              (fun v => OntologyClass.withSubClasses
                          (OntologyClass.subClasses v ++ [id])%list v) cur x)
    as (_ & _ & _ & _ & Hget).
  unfold kept. rewrite Hget, Hcls.
  destruct (String.eqb id x); eexists; split; try reflexivity; auto.
Qed.

Let added : Store :=
  withClasses (JsMap.set id c (classes s)) s.

Lemma during_added : during added.
Proof.
  unfold during, added.
  cbn [properties relationships domains classes withClasses].
  repeat split.
  - rewrite keys_set, has_get. unfold getClass in Hfresh. now rewrite Hfresh.
  - intros k Hne. rewrite getClass_withClasses, get_set_other by exact Hne.
    fold (getClass k s). destruct (getClass k s) as [v|] eqn:Hv; [|reflexivity].
    cbn [option_map]. f_equal. unfold clean.
    destruct (stored_unknown k v Hv) as [Hsubs _].
    now rewrite (filter_isNot_fresh id _ Hsubs), withSubClasses_same.
Qed.

Lemma marked_added : marked added.
Proof.
  intros k v Hne Hv Hin. unfold added in Hv.
  rewrite getClass_withClasses, get_set_other in Hv by exact Hne.
  now destruct (stored_unknown k v Hv) as [Hsubs _].
Qed.

Lemma kept_added : kept added.
Proof.
  exists c. unfold added. rewrite getClass_withClasses, get_set_same. auto.
Qed.

Lemma addClass_state :
  during (addClass c s) /\ marked (addClass c s) /\ kept (addClass c s).
Proof.
  unfold addClass, updateClassHierarchy. fold id sup added.
  apply (fold_left_keeps (fun cur => during cur /\ marked cur /\ kept cur)).
  - intros cur x Hx (Hd & Hm & Hk).
    split; [now apply during_linkSubClass|].
    split; [now apply marked_linkSubClass|now apply kept_linkSubClass].
  - split; [apply during_added|]. split; [apply marked_added|apply kept_added].
Qed.

Lemma removeClassRelationships_untouched cur :
  relationships cur = relationships s ->
  removeClassRelationships id cur = cur.
Proof.
  intros Hr. unfold removeClassRelationships. cbv zeta. rewrite Hr.
  assert (Hnone : filter (fun kv => touches id (snd kv)) (relationships s) = []).
  { assert (Hall : forall l,
               (forall r, In r (map snd l) -> touches id r = false) ->
               filter (fun kv : string * OntologyRelationship.t =>
                         touches id (snd kv)) l = []).
    { induction l as [|[k r] l IH]; intros Hl; [reflexivity|].
      cbn [filter snd]. rewrite (Hl r (or_introl eq_refl)).
      apply IH. intros r' Hr'. apply Hl. now right. }
    apply Hall. exact Huntouched. }
  rewrite Hnone. cbn [map fold_left]. rewrite <- Hr. now destruct cur.
Qed.

Lemma deleteClass_after_addClass : deleteClass id (addClass c s) = (true, s).
Proof.
  destruct addClass_state as (Hduring & Hmarked & (cls & Hcls & Hid & Hsup)).
  unfold deleteClass. rewrite Hcls. cbv zeta.
  set (s1 := addClass c s) in *.
  unfold removeFromHierarchy. cbv zeta. rewrite Hid, Hsup.
  set (s2 := fold_left (unlinkSubClass id) sup s1).
  assert (H2 : during s2 /\ marked s2).
  { apply (fold_left_preserves (fun cur => during cur /\ marked cur)).
    - intros cur x [Hd Hm].
      split; [now apply during_unlinkSubClass|now apply marked_unlinkSubClass].
    - now split. }
  destruct H2 as [Hduring2 Hmarked2].
  assert (Hunmarked2 : unmarked s2).
  { intros k v Hne Hv Hin.
    apply (unlinked_subClasses id sup s1 k v); auto.
    now apply (Hmarked2 k v). }
  set (subs := match getClass id s2 with
               | Some cls' => OntologyClass.subClasses cls'
               | None => OntologyClass.subClasses cls
               end).
  set (s3 := fold_left (unlinkSuperClass id) subs s2).
  assert (H3 : during s3 /\ unmarked s3).
  { apply (fold_left_preserves (fun cur => during cur /\ unmarked cur)).
    - intros cur x [Hd Hu].
      split; [now apply during_unlinkSuperClass
             |now apply unmarked_unlinkSuperClass].
    - now split. }
  destruct H3 as [(Hp & Hr & Hd & Hk & Hc) Hunmarked3].
  rewrite (removeClassRelationships_untouched s3 Hr).
  f_equal.
  assert (Hclasses : classes s = JsMap.delete id (classes s3)).
  { apply same_maps; [exact Hnd| |].
    - rewrite keys_delete, Hk, filter_app. cbn [filter].
      rewrite String.eqb_refl. cbn [negb]. rewrite app_nil_r.
      symmetry. apply filter_all, Forall_forall. intros x Hx.
      apply negb_true_iff, String.eqb_neq. intros <-.
      apply keys_get in Hx. now apply Hx.
    - intros k. rewrite get_delete.
      destruct (String.eqb_spec k id) as [->|Hne]; [exact Hfresh|].
      specialize (Hc k Hne). fold (getClass k s). fold (getClass k s3).
      rewrite <- Hc.
      destruct (getClass k s3) as [v|] eqn:Hv; [|reflexivity].
      cbn [option_map]. f_equal. unfold clean.
      now rewrite (filter_isNot_fresh id _ (Hunmarked3 k v Hne Hv)),
        withSubClasses_same. }
  rewrite <- Hclasses. unfold withClasses. rewrite Hp, Hr, Hd. now destruct s.
Qed.

End Edits.

(** [deleteClass] undoes [addClass]: when the store has no class under the
    identifier of the new class, no class of the store lists that identifier
    among its sub-classes or super-classes and no relationship of the store
    has it as source or target, then deleting the class right after adding
    it returns [true] and gives back the store as it was. *)
Theorem deleteClass_undoes_addClass
  (s : OntologyManager.Store) (c : OntologyClass.t) :
  NoDup (JsMap.keys (OntologyManager.classes s)) ->
  OntologyManager.getClass (OntologyClass.id c) s = None ->
  (forall v,
      In v (OntologyManager.getAllClasses s) ->
      ~ In (OntologyClass.id c) (OntologyClass.subClasses v)
      /\ ~ In (OntologyClass.id c) (OntologyClass.superClasses v)) ->
  (forall r,
      In r (JsMap.values (OntologyManager.relationships s)) ->
      OntologyManager.touches (OntologyClass.id c) r = false) ->
  OntologyManager.deleteClass (OntologyClass.id c) (OntologyManager.addClass c s)
  = (true, s).
Proof.
  intros Hnd Hfresh Hunknown Huntouched.
  now apply deleteClass_after_addClass.
Qed.

(** Witness: the class [C] with super-class [A], added to the store that
    holds [A] and its sub-class [B]. *)
Lemma deleteClass_undoes_addClass_witness :
  OntologyManager.deleteClass "C"
    (OntologyManager.addClass (Sample.cls "C" ["A"])
       (OntologyManager.run Sample.parentFirst))
  = (true, OntologyManager.run Sample.parentFirst).
Proof.
  apply (deleteClass_undoes_addClass (OntologyManager.run Sample.parentFirst)
           (Sample.cls "C" ["A"])).
  - vm_compute. repeat constructor; cbn; intuition discriminate.
  - reflexivity.
  - intros v Hv. vm_compute in Hv. destruct Hv as [<-|[<-|[]]];
      cbn; intuition discriminate.
  - intros r Hr. vm_compute in Hr. destruct Hr.
Defined.

(** ** The classes of a hierarchy mirror each other *)

Section DerivedClasses.

Import ConceptHierarchy Forest.

Variable st : State.
Variable now : string.
Hypothesis Hwf : wellFormed (hierarchy st).
Hypothesis Hnd : NoDup (JsMap.keys (hierarchy st)).

Let h := hierarchy st.

Lemma derived_from c :
  In c (toOntologyClasses now st) ->
  exists node,
    JsMap.get (OntologyClass.id c) h = Some node
    /\ OntologyClass.id c = HierarchyNode.id node
    /\ OntologyClass.subClasses c = HierarchyNode.children node
    /\ OntologyClass.superClasses c
       = match parentOf node with Some p => [p] | None => [] end.
Proof.
  unfold toOntologyClasses, JsMap.values. rewrite map_map. intros Hin.
  apply in_map_iff in Hin as ([k node] & <- & Hin). cbn [snd].
  apply (In_get _ _ _ Hnd) in Hin.
  pose proof (wf_ids h Hwf k node Hin) as Hid.
  cbn [OntologyClass.id OntologyClass.subClasses OntologyClass.superClasses].
  exists node. rewrite Hid. auto.
Qed.

Lemma derived_of k node :
  JsMap.get k h = Some node ->
  exists c, In c (toOntologyClasses now st) /\ OntologyClass.id c = k.
Proof.
  intros Hnode. pose proof (wf_ids h Hwf k node Hnode) as Hid.
  apply get_In in Hnode.
  eexists. split.
  - unfold toOntologyClasses, JsMap.values. rewrite map_map.
    apply in_map_iff. exists (k, node). split; [reflexivity|exact Hnode].
  - exact Hid.
Qed.

Lemma parentOf_up k node p :
  JsMap.get k h = Some node ->
  In p (match parentOf node with Some q => [q] | None => [] end)
  <-> up h k p.
Proof.
  intros Hnode. unfold parentOf. split.
  - destruct (HierarchyNode.parent node) as [q|] eqn:Hq; [|intros []].
    destruct (String.eqb q ""); [intros []|].
    intros [<-|[]]. exists node. auto.
  - intros (node' & Hnode' & Hp).
    replace node' with node in Hp by congruence. rewrite Hp.
    destruct (String.eqb_spec p "") as [->|_]; [|now left].
    assert (Hdown : down h "" k) by (apply (wf_parent h Hwf); exists node; auto).
    destruct Hdown as (parent & Hparent & _).
    exfalso. now apply (wf_keys h Hwf "" parent).
Qed.

Lemma derived_classes_mirror :
  let classes := toOntologyClasses now st in
  NoDup (map OntologyClass.id classes)
  /\ (forall a, In a classes -> length (OntologyClass.superClasses a) <= 1)
  /\ (forall a b,
        In a classes -> In b classes ->
        (In (OntologyClass.id b) (OntologyClass.subClasses a)
         <-> In (OntologyClass.id a) (OntologyClass.superClasses b)))
  /\ forall a x,
       In a classes ->
       In x (OntologyClass.subClasses a) \/ In x (OntologyClass.superClasses a) ->
       exists b, In b classes /\ OntologyClass.id b = x.
Proof.
  intros classes. split; [|split; [|split]].
  - unfold classes, toOntologyClasses, JsMap.values. rewrite !map_map.
    cbn [OntologyClass.id].
    replace (map (fun x => HierarchyNode.id (snd x)) (hierarchy st))
      with (JsMap.keys (hierarchy st)); [exact Hnd|].
    unfold JsMap.keys. apply map_ext_in. intros [k node] Hin. cbn [fst snd].
    symmetry. apply (wf_ids h Hwf). now apply In_get.
  - intros a Ha. apply derived_from in Ha as (node & _ & _ & _ & ->).
    destruct (parentOf node); cbn; lia.
  - intros a b Ha Hb.
    apply derived_from in Ha as (na & Hna & Hida & Hsubs & _).
    apply derived_from in Hb as (nb & Hnb & Hidb & _ & Hsupers).
    rewrite Hsubs, Hsupers, (parentOf_up _ nb _ Hnb). split.
    + intros Hin. apply (wf_children h Hwf). exists na. auto.
    + intros Hup. apply (wf_parent h Hwf) in Hup as (na' & Hna' & Hin).
      congruence.
  - intros a x Ha Hx.
    apply derived_from in Ha as (na & Hna & Hida & Hsubs & Hsupers).
    rewrite Hsubs, Hsupers, (parentOf_up _ na _ Hna) in Hx.
    destruct Hx as [Hx|Hx].
    + assert (Hup : up h x (OntologyClass.id a))
        by (apply (wf_children h Hwf); exists na; auto).
      destruct Hup as (nx & Hnx & _). now apply (derived_of x nx).
    + apply (wf_parent h Hwf) in Hx as (nx & Hnx & _).
      now apply (derived_of x nx).
Qed.

End DerivedClasses.

(** For concepts with non-empty names, the classes that [toOntologyClasses]
    derives from the built hierarchy have pairwise different identifiers and
    at most one super-class each, and they mirror each other: a class lists
    another among its sub-classes exactly when that one lists it as its
    super-class.  Every sub-class and super-class they name is one of
    them. *)
Theorem classes_of_a_built_hierarchy_mirror_each_other
  (concepts : list ExtractedConcept.t)
  (relationships : list ExtractedRelationship.t) :
  Forest.namesAreNonEmpty concepts ->
  exists st,
    ConceptHierarchy.buildHierarchy concepts relationships = Some st
    /\ forall now,
         let classes := ConceptHierarchy.toOntologyClasses now st in
         NoDup (map OntologyClass.id classes)
         /\ (forall a,
               In a classes -> length (OntologyClass.superClasses a) <= 1)
         /\ (forall a b,
               In a classes -> In b classes ->
               (In (OntologyClass.id b) (OntologyClass.subClasses a)
                <-> In (OntologyClass.id a) (OntologyClass.superClasses b)))
         /\ forall a x,
              In a classes ->
              In x (OntologyClass.subClasses a)
              \/ In x (OntologyClass.superClasses a) ->
              exists b, In b classes /\ OntologyClass.id b = x.
Proof.
  intros Hnames.
  destruct (built_final concepts relationships Hnames)
    as (st & E & Hwf & Hnd & _).
  exists st. split; [exact E|]. intros now.
  now apply derived_classes_mirror.
Qed.

Lemma classes_of_a_built_hierarchy_mirror_each_other_witness :
  exists st,
    ConceptHierarchy.buildHierarchy Sample.dogsAndMammals
      [Sample.isARelationship "dogs" "mammals"] = Some st
    /\ forall now,
         let classes := ConceptHierarchy.toOntologyClasses now st in
         NoDup (map OntologyClass.id classes)
         /\ (forall a,
               In a classes -> length (OntologyClass.superClasses a) <= 1)
         /\ (forall a b,
               In a classes -> In b classes ->
               (In (OntologyClass.id b) (OntologyClass.subClasses a)
                <-> In (OntologyClass.id a) (OntologyClass.superClasses b)))
         /\ forall a x,
              In a classes ->
              In x (OntologyClass.subClasses a)
              \/ In x (OntologyClass.superClasses a) ->
              exists b, In b classes /\ OntologyClass.id b = x.
Proof.
  exact (classes_of_a_built_hierarchy_mirror_each_other _ _
           dogsAndMammals_are_named).
Defined.

(** ** The class graph when classes are added parents first *)

Section NewLeaf.

Import OntologyManager ClassGraph.

Variable s : Store.
Variable c : OntologyClass.t.

Let id := OntologyClass.id c.

Hypothesis Hnew : newTo s c = true.

Lemma newTo_absent : getClass id s = None.
Proof.
  unfold newTo in Hnew. cbv zeta in Hnew.
  apply andb_true_iff in Hnew as [H _]. apply andb_true_iff in H as [H _].
  apply andb_true_iff in H as [H _]. apply negb_true_iff in H.
  rewrite has_get in H. unfold getClass. fold id in H.
  now destruct (JsMap.get id (classes s)).
Qed.

Lemma newTo_unknown v :
  In v (getAllClasses s) ->
  ~ In id (OntologyClass.subClasses v) /\ ~ In id (OntologyClass.superClasses v).
Proof.
  intros Hv. unfold newTo in Hnew. cbv zeta in Hnew.
  apply andb_true_iff in Hnew as [H _]. apply andb_true_iff in H as [H _].
  apply andb_true_iff in H as [_ H].
  apply (proj1 (forallb_forall _ _) H) in Hv.
  apply andb_true_iff in Hv as [Hsup Hsub].
  apply negb_true_iff in Hsup, Hsub. fold id in Hsup, Hsub. split.
  - intros Hin. apply includes_In in Hin. congruence.
  - intros Hin. apply includes_In in Hin. congruence.
Qed.

Lemma newTo_leaf : OntologyClass.subClasses c = [].
Proof.
  unfold newTo in Hnew. cbv zeta in Hnew.
  apply andb_true_iff in Hnew as [H _]. apply andb_true_iff in H as [_ H].
  apply Nat.eqb_eq in H. now destruct (OntologyClass.subClasses c).
Qed.

Lemma newTo_not_own_super : ~ In id (OntologyClass.superClasses c).
Proof.
  unfold newTo in Hnew. cbv zeta in Hnew.
  apply andb_true_iff in Hnew as [_ H]. apply negb_true_iff in H.
  fold id in H. intros Hin. apply includes_In in Hin. congruence.
Qed.

(** The new class is stored as it was given: no loop turn writes under its
    identifier. *)
Lemma new_class_is_stored : getClass id (addClass c s) = Some c.
Proof.
  unfold addClass, updateClassHierarchy. fold id.
  apply (fold_left_keeps (fun cur => getClass id cur = Some c)).
  - intros cur x Hx Hcur.
    destruct (linkSubClass_edit id cur x) as [->| ->]; [exact Hcur|].
    destruct (edit_spec
                (fun v => OntologyClass.withSubClasses
                            (OntologyClass.subClasses v ++ [id])%list v) cur x)
      as (_ & _ & _ & _ & Hget).
    rewrite Hget. destruct (String.eqb_spec id x) as [Heq|_]; [|exact Hcur].
    exfalso. apply newTo_not_own_super. now rewrite Heq.
  - now rewrite getClass_withClasses, get_set_same.
Qed.

(** No link of the new store leads to the new class, and a link that does
    not start at it was a link of the store. *)
Lemma new_class_links a b :
  link (addClass c s) a b -> b <> id /\ (a = id \/ link s a b).
Proof.
  destruct (addClass_state s c newTo_absent newTo_unknown)
    as ((_ & _ & _ & _ & Hclean) & _ & _).
  fold id in Hclean.
  intros [(A' & HA' & Hin)|(B' & HB' & Hin)].
  - destruct (String.eqb_spec a id) as [->|Hne].
    + rewrite new_class_is_stored in HA'. injection HA' as <-.
      split; [|now left]. intros ->. now apply newTo_not_own_super.
    + specialize (Hclean a Hne). rewrite HA' in Hclean. cbn [option_map] in Hclean.
      symmetry in Hclean.
      assert (Hstored : In (OntologyClass.withSubClasses
                              (filter (isNot id) (OntologyClass.subClasses A')) A')
                          (getAllClasses s)).
      { unfold getAllClasses, JsMap.values. apply in_map_iff.
        eexists (a, _). split; [reflexivity|]. now apply get_In. }
      apply newTo_unknown in Hstored as [_ Hsup].
      cbn [OntologyClass.superClasses OntologyClass.withSubClasses] in Hsup.
      split; [intros ->; contradiction|].
      right. left. eexists. split; [exact Hclean|exact Hin].
  - destruct (String.eqb_spec b id) as [->|Hne].
    + rewrite new_class_is_stored in HB'. injection HB' as <-.
      rewrite newTo_leaf in Hin. destruct Hin.
    + split; [exact Hne|].
      destruct (String.eqb_spec a id) as [->|Ha]; [now left|].
      specialize (Hclean b Hne). rewrite HB' in Hclean. cbn [option_map] in Hclean.
      symmetry in Hclean.
      right. right. eexists. split; [exact Hclean|].
      cbn [OntologyClass.subClasses OntologyClass.withSubClasses].
      apply filter_In. split; [exact Hin|].
      unfold isNot. now apply negb_true_iff, String.eqb_neq.
Qed.

Lemma new_class_keeps_acyclic : acyclic s -> acyclic (addClass c s).
Proof.
  intros Hacyclic.
  assert (Hpath : forall a b,
             clos_trans string (link (addClass c s)) a b ->
             b <> id /\ (a = id \/ clos_trans string (link s) a b)).
  { induction 1 as [a b Hlink|a m b _ (Hm & IH1) _ (Hb & IH2)].
    - apply new_class_links in Hlink as (Hb & [->|Hlink]).
      + split; [exact Hb|now left].
      + split; [exact Hb|right; now apply t_step].
    - split; [exact Hb|].
      destruct IH2 as [->|IH2]; [contradiction|].
      destruct IH1 as [->|IH1]; [now left|].
      right. now apply t_trans with m. }
  intros a Hcycle. apply Hpath in Hcycle as (Ha & [->|Hcycle]);
    [contradiction|].
  now apply (Hacyclic a).
Qed.

End NewLeaf.

Section OtherOperations.

Import OntologyManager ClassGraph.

(** [deleteClass], [addProperty], [addRelationship] and [addDomain] add no
    link. *)
Lemma other_operations_add_no_link s op a b :
  match op with
  | AddClass _ => True
  | _ => link (step s op) a b -> link s a b
  end.
Proof.
  destruct op as [c|id|p|r|d]; [exact I| | | |]; cbn [step].
  - apply shrinks_link, deleteClass_shrinks.
  - exact (fun H => H).
  - assert (Hsame : classes (addRelationship r s) = classes s).
    { unfold addRelationship, createBidirectionalRelationship.
      destruct (OntologyRelationship.bidirectional r); [|reflexivity].
      now destruct (negb _). }
    unfold link, getClass. now rewrite Hsame.
  - exact (fun H => H).
Qed.

Lemma parentsFirst_acyclic ops :
  forall s, acyclic s -> parentsFirst s ops = true ->
            acyclic (fold_left step ops s).
Proof.
  induction ops as [|op ops IH]; intros s Hacyclic Hops; [exact Hacyclic|].
  cbn [parentsFirst] in Hops. apply andb_true_iff in Hops as [Hop Hops].
  cbn [fold_left]. apply IH; [|exact Hops].
  destruct op as [c|id|p|r|d].
  - cbn [step]. now apply new_class_keeps_acyclic.
  - intros x Hcycle. apply (Hacyclic x). revert Hcycle.
    apply clos_trans_incl. intros a b.
    apply (other_operations_add_no_link s (DeleteClass id)).
  - intros x Hcycle. apply (Hacyclic x). revert Hcycle.
    apply clos_trans_incl. intros a b.
    apply (other_operations_add_no_link s (AddProperty p)).
  - intros x Hcycle. apply (Hacyclic x). revert Hcycle.
    apply clos_trans_incl. intros a b.
    apply (other_operations_add_no_link s (AddRelationship r)).
  - intros x Hcycle. apply (Hacyclic x). revert Hcycle.
    apply clos_trans_incl. intros a b.
    apply (other_operations_add_no_link s (AddDomain d)).
Qed.

End OtherOperations.

(** C2, as amended.  The store has no cycle guard.  On every store,
    [addClass] is carried out: the class is stored under its identifier with
    the super-classes it was given, whether or not that closes a cycle.
    [deleteClass], [addProperty], [addRelationship] and [addDomain] add no
    link to the class graph of any store.  The graph stays without a cycle
    when classes are added parents first: for every sequence of operations
    in which each [addClass] adds a class that is new to the store, run from
    a store without a cycle and in particular from the empty store, the
    class graph has no cycle. *)
Theorem store_has_no_cycle_guard :
  (forall (s : OntologyManager.Store) (c : OntologyClass.t),
      exists stored,
        OntologyManager.getClass (OntologyClass.id c)
          (OntologyManager.addClass c s) = Some stored
        /\ OntologyClass.superClasses stored = OntologyClass.superClasses c)
  /\ (forall (s : OntologyManager.Store) (op : OntologyManager.Op) (a b : string),
         match op with
         | OntologyManager.AddClass _ => True
         | _ =>
             ClassGraph.link (OntologyManager.step s op) a b ->
             ClassGraph.link s a b
         end)
  /\ (forall (s : OntologyManager.Store) (ops : list OntologyManager.Op),
         ClassGraph.acyclic s ->
         ClassGraph.parentsFirst s ops = true ->
         ClassGraph.acyclic (fold_left OntologyManager.step ops s))
  /\ forall ops : list OntologyManager.Op,
       ClassGraph.parentsFirst OntologyManager.empty ops = true ->
       ClassGraph.acyclic (OntologyManager.run ops).
Proof.
  split; [|split; [|split]].
  - intros s c. pose proof (addClass_supers c s) as H.
    destruct (OntologyManager.getClass (OntologyClass.id c)
                (OntologyManager.addClass c s)) as [stored|];
      [|discriminate].
    exists stored. split; [reflexivity|]. cbn [option_map] in H. congruence.
  - intros s op a b. apply other_operations_add_no_link.
  - intros s ops. apply parentsFirst_acyclic.
  - intros ops Hops. apply parentsFirst_acyclic; [|exact Hops].
    intros a Hcycle. apply clos_trans_t1n in Hcycle.
    destruct Hcycle as [y [(A & HA & _)|(B & HB & _)]
                       |y z [(A & HA & _)|(B & HB & _)] _];
      discriminate.
Qed.

(** C2 as amended, witnessed: the parent [A], its child [B], the child [C]
    of [B], then [deleteClass] of [A] and a relationship from [C] to [B]. *)
Lemma store_has_no_cycle_guard_witness :
  ClassGraph.acyclic
    (OntologyManager.run
       (Sample.parentFirst
        ++ [OntologyManager.AddClass (Sample.cls "C" ["B"]);
            OntologyManager.DeleteClass "A";
            OntologyManager.AddRelationship (Sample.rel "r" "t" "C" "B" true)])).
Proof.
  apply (proj2 (proj2 (proj2 store_has_no_cycle_guard))).
  vm_compute. reflexivity.
Defined.

(** ** The hierarchy is a forest, and the cycle check rejects *)

Section Guard.

Import ConceptHierarchy Forest.

Lemma wellFormed_isForest st : wellFormed (hierarchy st) -> isForest st.
Proof.
  intros Hwf. split.
  - intros child p1 p2 H1 H2.
    apply (wf_children _ Hwf) in H1 as (n1 & Hn1 & Hp1).
    apply (wf_children _ Hwf) in H2 as (n2 & Hn2 & Hp2).
    congruence.
  - intros child. apply (wf_acyclic _ Hwf).
Qed.

(** The walk of [wouldCreateCycle] goes all the way up: an edge whose child
    is the parent itself or one of its ancestors is not placed. *)
Lemma edge_to_an_ancestor_is_rejected st parentKey childKey parent child
  confidence :
  wellFormed (hierarchy st) ->
  JsMap.get parentKey (hierarchy st) = Some parent ->
  JsMap.get childKey (hierarchy st) = Some child ->
  clos_refl_trans string (parentEdge st)
    (HierarchyNode.id parent) (HierarchyNode.id child) ->
  addParentChildRelationship st parentKey childKey confidence = st.
Proof.
  intros Hwf Hparent Hchild Hchain.
  unfold addParentChildRelationship. rewrite Hparent, Hchild.
  destruct (hasParent child); [reflexivity|].
  unfold wouldCreateCycle.
  rewrite (walk_reaches (hierarchy st) Hwf); [reflexivity| | | | |exact Hchain].
  - constructor.
  - intros v [].
  - intros v [].
  - cbn [length]. lia.
Qed.

End Guard.

Lemma extracted_names_are_not_empty (tiddlers : list Tiddler.t)
  (concepts : list ExtractedConcept.t) :
  incl concepts (DomainAnalyzer.extractConcepts tiddlers) ->
  Forest.namesAreNonEmpty concepts.
Proof.
  intros Hincl c Hc. apply Hincl in Hc.
  apply (Permutation_in _ (Permutation_sym (extractConcepts_perm tiddlers))) in Hc.
  apply filter_In in Hc as [Hc _].
  apply in_map_iff in Hc as ([k c'] & Hk & Hin). cbn in Hk. subst c'.
  destruct (conceptMap_good tiddlers) as [_ Hall].
  destruct (Hall k c Hin) as (-> & Hname & _). exact Hname.
Qed.

(** C6.  The concepts that [buildHierarchy] is given are concepts that
    [extractConcepts] returned, and none of those has an empty name.  For
    all concepts with non-empty names and all relationships,
    [buildHierarchy] returns and the structure it produces is a forest:
    no node is in the [children] of two nodes, and the parent relation has
    no directed cycle.  In such a hierarchy, a candidate edge whose child is
    the candidate parent or appears on its ancestor chain is rejected:
    [addParentChildRelationship] leaves every node as it was. *)
Theorem buildHierarchy_yields_a_forest :
  (forall (tiddlers : list Tiddler.t) (concepts : list ExtractedConcept.t),
      incl concepts (DomainAnalyzer.extractConcepts tiddlers) ->
      Forest.namesAreNonEmpty concepts)
  /\ (forall (concepts : list ExtractedConcept.t)
             (relationships : list ExtractedRelationship.t),
         Forest.namesAreNonEmpty concepts ->
         exists st,
           ConceptHierarchy.buildHierarchy concepts relationships = Some st
           /\ Forest.isForest st
           /\ Forest.wellFormed (ConceptHierarchy.hierarchy st))
  /\ forall (st : ConceptHierarchy.State) (parentKey childKey : string)
            (parent child : HierarchyNode.t) (confidence : Q),
       Forest.wellFormed (ConceptHierarchy.hierarchy st) ->
       JsMap.get parentKey (ConceptHierarchy.hierarchy st) = Some parent ->
       JsMap.get childKey (ConceptHierarchy.hierarchy st) = Some child ->
       clos_refl_trans string (Forest.parentEdge st)
         (HierarchyNode.id parent) (HierarchyNode.id child) ->
       ConceptHierarchy.addParentChildRelationship st parentKey childKey
         confidence = st.
Proof.
  split; [|split].
  - apply extracted_names_are_not_empty.
  - intros concepts relationships Hnames.
    destruct (built_final concepts relationships Hnames)
      as (st & E & Hwf & _).
    exists st. split; [exact E|]. split; [|exact Hwf].
    now apply wellFormed_isForest.
  - intros st parentKey childKey parent child confidence.
    apply edge_to_an_ancestor_is_rejected.
Qed.

(** C6, witnessed on the two documents about dogs, cats and mammals: the
    concepts and relationships extracted from them give a forest, and in it
    the edge that would make mammals a child of dogs, its own child, is
    rejected. *)
Lemma buildHierarchy_yields_a_forest_witness :
  exists st,
    ConceptHierarchy.buildHierarchy
      (DomainAnalyzer.extractConcepts Sample.animals)
      (DomainAnalyzer.extractRelationships Sample.animals
         (DomainAnalyzer.extractConcepts Sample.animals)) = Some st
    /\ Forest.isForest st
    /\ ConceptHierarchy.addParentChildRelationship st "dogs" "mammals" 1 = st.
Proof.
  destruct buildHierarchy_yields_a_forest as (Hnames & Hforest & Hrejected).
  destruct (Hforest (DomainAnalyzer.extractConcepts Sample.animals)
              (DomainAnalyzer.extractRelationships Sample.animals
                 (DomainAnalyzer.extractConcepts Sample.animals))
              (Hnames Sample.animals _ (incl_refl _)))
    as (st & E & Hisforest & Hwf).
  exists st. split; [exact E|]. split; [exact Hisforest|].
  vm_compute in E. injection E as <-.
  eapply Hrejected; [exact Hwf|reflexivity|reflexivity|].
  apply rt_step. eexists. split; reflexivity.
Defined.
